(* ===== verification/_CoqProject ===== *)
-Q . S2P
Prelude.v
Text.v
Node.v
Config.v
Serialization.v
YamlInstance.v
Settings.v
TomlInstance.v
MainFrame.v
App.v
State.v
Atomics.v
Rng.v
Routing.v
P2C.v
Ring.v
Asio.v
Health.v
Session.v
TcpProxy.v
ProxyInstances.v
LoadBalancer.v
ProcessInstances.v
EndToEnd.v
AppInstances.v
Double.v
BenchArgs.v
BenchLoad.v
BenchStats.v
BenchEcho.v
BenchBaseline.v
BenchDriver.v
BenchInstances.v
