(* ===== verification/Prelude.v ===== *)
(** * Bit Bridge: a verified model of the load balancer, its tool and its benchmark

    Bit Bridge is a TCP load balancer (core/), a window that edits its configuration
    (ui/), the configuration model and its YAML form that both use (lib/), and a
    benchmark that starts the balancer and loads it (bench/).  This library models all
    four and proves what each part promises and how the parts fit together.

    ** The parts and their files

    Each file of this directory holds one component as a Module: its state as a record,
    its operations as functions named after the C++ ones, its invariant and its theorems.

    - [Prelude]: exceptions, stateful calls with their Hoare triples, vectors, machine
      integers, counted loops.  [Text]: characters, printed numbers, lines.
    - lib/model: [Node] (ServiceNode, with the octet loop of IsValidIpv4), [Config]
      (HealthCheckConfig, ConnectionConfig, LoadBalancerConfig).
    - lib/serialization: [Serialization] (YamlConfigSerializer over the class [YamlLib],
      and the contract [SerializerContract] its users rely on), [YamlInstance] (a
      concrete library and disk).
    - core/state: [State] (ServiceState, ServicePool), [Atomics] (the connection counter
      as interleaved atomic instructions).
    - core/routing: [Rng] (the xoshiro256 generator), [Routing] (IRoutingStrategy and its contract),
      [P2C], [Ring] (ConsistentHashStrategy with its hash).
    - core/health, core/proxy: [Asio] (handlers as pending operations), [Health]
      (HealthChecker), [Session], [TcpProxy]; examples in [ProxyInstances].
    - core/main.cpp: [LoadBalancer] joins them on one pool; examples in
      [ProcessInstances].
    - ui: [Settings] (AppSettings over the class [TomlLib]), [TomlInstance] (a concrete
      parser), [MainFrame] (the window, its handlers and its event table), [App]
      (OnInit); examples in [AppInstances].
    - [EndToEnd]: from editing in the window to the running process.
    - bench/main.cpp: [Double] (binary64 and signed integers), [BenchArgs] (ParseArgs),
      [BenchEcho] (EchoService), [BenchLoad] (RunLoad and its handlers), [BenchStats]
      (ComputeStats), [BenchBaseline] (SaveBaseline, CompareBaseline), [BenchDriver]
      (RunPhase and main); examples in [BenchInstances].

    ** How code is modelled

    A call that may throw returns an [outcome]; one that changes an object is a function
    of [M], which keeps the changes made before an exception.  Machine integers are
    integers that wrap at their width.  Asynchronous code is a list of pending handlers
    and a schedule, a list of events that complete any of them in any order with any
    error code and any number of bytes; theorems hold for every schedule.  The shared
    pool is one value that the process hands from part to part ([LoadBalancer]).
    Libraries (yaml-cpp, toml++, wxWidgets, Boost.Asio, the file system, the random
    distribution, sorting) are classes or parameters; laws about them are stated apart
    and met by a concrete instance.  A schedule may contain more than a library would do
    (it may abort an operation that nobody cancelled): what holds for all schedules holds
    for those that occur.

    ** What is proved

    - Data: IsValidIpv4 accepts exactly dotted quads; every number that is loaded fits
      its type, on error paths too; what is saved in full, in strings that need no
      escape, is loaded back (YAML configuration, TOML settings, the benchmark's
      baseline and command line).
    - Routing: the ring finds the healthy virtual node nearest clockwise, moves keys only
      when their service fails or a new one is added, and is built or rejected for the
      right reason; P2C ends exactly when the generator gives a second value, and then
      returns the lighter of two healthy services.
    - Concurrency: the connection counter is linearizable; sessions relay bytes intact
      with one operation per direction, end after boundedly many completions, and are
      counted exactly once whatever the interleaving of all parts.
    - Health: a service is healthy exactly when its latest failures are fewer than the
      threshold; a round probes every service, up to an address that does not parse;
      stopping drains.
    - Process: it starts as configured or exits with 1; after a signal, unless a client
      connects in that very moment, every schedule is finite but for what the peers still
      send, and ends with 0.
    - Window: the list mirrors the configuration once that was loaded, adding and removing
      do exactly what was asked, entered services can be served and are distinct; what
      the window saves is there after a restart, and the process runs it.
    - Benchmark: every request has one result, the generator, asked for something,
      neither stalls nor runs on,
      the statistics have the right rank, baselines are compared by what was saved, and
      every balancer that was started is waited for, unless the program is ended early.
    - Flaws that modelling found are theorems too: the accept loop that spins after a
      stop race, idle timers that outlive their session, a name that is empty once
      converted, the half-loaded configuration at start, settings whose text is ambiguous, a load of zero requests that never ends, a
      baseline compared with itself.

    ** Fuel and bounds

    The redraw loop of P2C takes fuel, since it need not end; [P2C_returns_iff] says when
    some fuel is enough, and more fuel never changes a result.  The loops over rows
    ([collect_selected]), over octets and over connections to launch ([launch_loop]) take
    as many rounds as there are elements, which their lemmas show to be enough.  Loops
    over schedules are structural.

    ** Not modelled

    Sizes, positions, fonts and colours of the window (RepositionEmptyLabel and the layout
    in the constructor), text printed to the terminal, the child's side of fork, memory
    exhaustion, the tests, and the build files. *)

From Stdlib Require Export Ascii.
From stdpp Require Export base tactics list numbers strings gmap sets.
From stdpp Require Export sorting pretty relations.
From Stdlib Require Export ZArith Lia.

#[global] Open Scope stdpp_scope.

(** ** Calls that return and calls that throw

    A C++ call ends in one of two ways.  [kind] tells the exception classes apart
    as far as the program's [catch] clauses do. *)

Inductive exn_kind :=
  | KOutOfRange        (* std::out_of_range, from vector::at and std::stoi *)
  | KInvalidArgument   (* std::invalid_argument, from std::stoi *)
  | KLengthError       (* std::length_error, from vector::reserve *)
  | KHashCollision     (* HashCollisionError, core/routing *)
  | KSystemError       (* boost::system::system_error *)
  | KYaml              (* YAML::Exception and its subclasses *)
  | KToml              (* toml::parse_error *)
  | KIosFailure        (* std::ios_base::failure *)
  | KFilesystem        (* std::filesystem::filesystem_error *)
  | KExit              (* std::exit(1): no exception, but nothing after the call runs *).

Record exn := Exn { kind : exn_kind; what : string }.

Inductive outcome (A : Type) :=
  | Returned (a : A)
  | Threw (e : exn).
Arguments Returned {A} a.
Arguments Threw {A} e.

(** [std::expected<A, E>]. *)
Inductive expected (A E : Type) :=
  | Value (a : A)
  | Unexpected (e : E).
Arguments Value {A E} a.
Arguments Unexpected {A E} e.

Definition has_value {A E} (x : expected A E) : bool :=
  match x with Value _ => true | Unexpected _ => false end.

#[export] Instance exn_kind_eq_dec : EqDecision exn_kind.
Proof. solve_decision. Defined.
#[export] Instance exn_eq_dec : EqDecision exn.
Proof. solve_decision. Defined.
#[export] Instance outcome_eq_dec {A} `{EqDecision A} : EqDecision (outcome A).
Proof. solve_decision. Defined.
#[export] Instance expected_eq_dec {A E} `{EqDecision A, EqDecision E} :
  EqDecision (expected A E).
Proof. solve_decision. Defined.

Definition returned {A} (r : outcome A) : Prop := exists a, r = Returned a.

#[export] Instance outcome_ret : MRet outcome := @Returned.
#[export] Instance outcome_bind : MBind outcome := fun A B f m =>
  match m with Returned a => f a | Threw e => Threw e end.

(** ** Stateful calls

    [M S A] runs on a store [S] that the call mutates.  As in C++, the writes done
    before an exception is thrown stay in the store. *)
Definition M (S A : Type) : Type := S -> outcome A * S.

#[export] Instance M_ret S : MRet (M S) := fun A a s => (Returned a, s).
#[export] Instance M_bind S : MBind (M S) := fun A B f m s =>
  match m s with
  | (Returned a, s') => f a s'
  | (Threw e, s') => (Threw e, s')
  end.

Definition modify {S} (f : S -> S) : M S unit := fun s => (Returned tt, f s).
Definition get_state {S} : M S S := fun s => (Returned s, s).
Definition throw {S A} (e : exn) : M S A := fun s => (Threw e, s).
Definition lift {S A} (r : outcome A) : M S A := fun s => (r, s).
Definition skip {S} : M S unit := mret tt.

(** [try m catch (kind k) h]: run [m]; an exception of kind [k] goes to [h]. *)
Definition try_catch {S A} (m : M S A) (k : exn_kind) (h : exn -> M S A) : M S A :=
  fun s => match m s with
           | (Returned a, s') => (Returned a, s')
           | (Threw e, s') =>
               if decide (kind e = k) then h e s' else (Threw e, s')
           end.

(** *** Hoare triples for stateful calls

    [hoare P m Q X]: from a store that satisfies [P], [m] either returns [a] with a
    store in [Q a] or throws [e] with a store in [X e]. *)
Definition hoare {S A} (P : S -> Prop) (m : M S A) (Q : A -> S -> Prop)
    (X : exn -> S -> Prop) : Prop :=
  forall s, P s ->
    match m s with (Returned a, s') => Q a s' | (Threw e, s') => X e s' end.

Section hoare.
Context {S A B : Type}.
Implicit Types (P : S -> Prop) (X : exn -> S -> Prop).

Lemma hoare_bind P (m : M S A) R (f : A -> M S B) Q X :
  hoare P m R X -> (forall a, hoare (R a) (f a) Q X) -> hoare P (m ≫= f) Q X.
Proof.
  intros Hm Hf s HP. specialize (Hm s HP). unfold mbind, M_bind.
  destruct (m s) as [[a|e] s']; [by apply Hf|done].
Qed.

Lemma hoare_ret P (a : A) X : hoare P (mret a) (fun b s => b = a /\ P s) X.
Proof. by intros s HP. Qed.

Lemma hoare_modify P f (Q : unit -> S -> Prop) X :
  (forall s, P s -> Q tt (f s)) -> hoare P (modify f) Q X.
Proof. intros H s HP. by apply H. Qed.

Lemma hoare_lift P (r : outcome A) (Q : A -> S -> Prop) X :
  (forall a s, r = Returned a -> P s -> Q a s) ->
  (forall e s, r = Threw e -> P s -> X e s) -> hoare P (lift r) Q X.
Proof. intros HQ HX s HP. unfold lift. destruct r; eauto. Qed.

Lemma hoare_weaken P (m : M S A) (Q Q' : A -> S -> Prop) X X' :
  hoare P m Q X -> (forall a s, Q a s -> Q' a s) -> (forall e s, X e s -> X' e s) ->
  hoare P m Q' X'.
Proof.
  intros H HQ HX s HP. specialize (H s HP). destruct (m s) as [[a|e] s']; eauto.
Qed.

Lemma hoare_try P (m : M S A) k h (Q : A -> S -> Prop) X Y :
  hoare P m Q Y ->
  (forall e, kind e = k -> hoare (Y e) (h e) Q X) ->
  (forall e s, kind e <> k -> Y e s -> X e s) ->
  hoare P (try_catch m k h) Q X.
Proof.
  intros Hm Hh HX s HP. specialize (Hm s HP). unfold try_catch.
  destruct (m s) as [[a|e] s']; [done|]. case_decide; [by apply Hh|by apply HX].
Qed.
End hoare.

Lemma bind_returned {S A B} (m : M S A) (f : A -> M S B) s a s' :
  m s = (Returned a, s') -> (m ≫= f) s = f a s'.
Proof. unfold mbind, M_bind. by intros ->. Qed.

Lemma bind_threw {S A B} (m : M S A) (f : A -> M S B) s e s' :
  m s = (Threw e, s') -> (m ≫= f) s = (Threw e, s').
Proof. unfold mbind, M_bind. by intros ->. Qed.

(** A call that returned did so with the state it left; to evaluate only the first half. *)
Lemma settled {S A} (x : outcome A * S) a : x.1 = Returned a -> x = (Returned a, x.2).
Proof. destruct x as [r s']. cbn [fst snd]. by intros ->. Qed.

(** The same, for a call that may not return. *)
Lemma settled_call {S A} (x : option (A * S)) d a :
  fst <$> x = Some a -> x = Some (a, (from_option id d x).2).
Proof. destruct x as [[r s']|]; cbn; [|done]. by intros [= ->]. Qed.

(** *** Properties that a call keeps, however it ends

    [keeps P m]: from a store that satisfies [P], [m] ends in one that does, be it by
    returning or by throwing.  The lemmas form the hint database [keeps]. *)
Definition keeps {S A} (P : S -> Prop) (m : M S A) : Prop :=
  hoare P m (fun _ => P) (fun _ => P).

Section keeps.
Context {S A B : Type} (P : S -> Prop).

Lemma keeps_bind (m : M S A) (f : A -> M S B) :
  keeps P m -> (forall a, keeps P (f a)) -> keeps P (m ≫= f).
Proof. intros Hm Hf. by eapply hoare_bind. Qed.

Lemma keeps_ret (a : A) : keeps P (mret a).
Proof. by intros s. Qed.
Lemma keeps_skip : keeps P skip.
Proof. by intros s. Qed.
Lemma keeps_get : keeps P get_state.
Proof. by intros s. Qed.
Lemma keeps_throw (e : exn) : keeps (A := A) P (throw e).
Proof. by intros s. Qed.

Lemma keeps_lift (r : outcome A) : keeps P (lift r).
Proof. intros s Hs. unfold lift. by destruct r. Qed.

Lemma keeps_modify (f : S -> S) : (forall s, P s -> P (f s)) -> keeps P (modify f).
Proof. intros Hf s Hs. by apply Hf. Qed.

Lemma keeps_try (m : M S A) k h :
  keeps P m -> (forall e, keeps P (h e)) -> keeps P (try_catch m k h).
Proof.
  intros Hm Hh s Hs. specialize (Hm s Hs). unfold try_catch.
  destruct (m s) as [[a|e] s']; [done|]. case_decide; [by apply Hh|done].
Qed.

Lemma keeps_if (b : bool) (m m' : M S A) :
  keeps P m -> keeps P m' -> keeps P (if b then m else m').
Proof. by destruct b. Qed.

Lemma keeps_run (m : M S A) s r s' : keeps P m -> P s -> m s = (r, s') -> P s'.
Proof. intros Hm Hs E. specialize (Hm s Hs). rewrite E in Hm. by destruct r. Qed.
End keeps.

Create HintDb keeps.
#[export] Hint Resolve keeps_bind keeps_ret keeps_skip keeps_get keeps_throw keeps_lift
  keeps_try keeps_if : keeps.
#[export] Hint Extern 1 (keeps _ (modify _)) => apply keeps_modify : keeps.

(** Splits a call into its steps and discharges those that cannot matter. *)
Ltac keeps_steps := intros; repeat first
  [ apply keeps_bind; [|intros ?] | progress auto with keeps | case_match ].

(** ** Vectors

    [v.at(i)] is checked: out of range, it throws [std::out_of_range]. *)
Definition at_ {A} (v : list A) (i : nat) : outcome A :=
  match v !! i with
  | Some x => Returned x
  | None => Threw (Exn KOutOfRange "vector::_M_range_check")
  end.

Lemma at_returned {A} (v : list A) i x : at_ v i = Returned x <-> v !! i = Some x.
Proof. unfold at_. case_match; naive_solver. Qed.

Lemma at_lt {A} (v : list A) i : i < length v -> exists x, at_ v i = Returned x.
Proof. intros Hi. unfold at_. destruct (lookup_lt_is_Some_2 _ _ Hi) as [x ->]. eauto. Qed.

(** ** Maps written out in the source: the first entry of a key counts *)
Fixpoint assoc {A} (k : string) (kvs : list (string * A)) : option A :=
  match kvs with
  | [] => None
  | (k', a) :: kvs' => if String.eqb k k' then Some a else assoc k kvs'
  end.

(** ** Unsigned machine integers

    A [uintN_t] is an integer of [0, 2^N); arithmetic wraps around. *)
Definition wrapu (w z : Z) : Z := (z mod 2 ^ w)%Z.
Definition in_u (w z : Z) : Prop := (0 <= z < 2 ^ w)%Z.
Abbreviation u16 := (wrapu 16).
Abbreviation u32 := (wrapu 32).
Abbreviation u64 := (wrapu 64).

#[export] Instance in_u_dec w z : Decision (in_u w z).
Proof. unfold in_u. apply _. Defined.

Lemma wrapu_in w z : (0 <= w)%Z -> in_u w (wrapu w z).
Proof. intros Hw. apply Z.mod_pos_bound, Z.pow_pos_nonneg; lia. Qed.

Lemma wrapu_small w z : in_u w z -> wrapu w z = z.
Proof. apply Z.mod_small. Qed.

Lemma wrapu_idem w z : (0 <= w)%Z -> wrapu w (wrapu w z) = wrapu w z.
Proof. intros Hw. by apply wrapu_small, wrapu_in. Qed.

(** ** Counted loops that return from their body

    [for_return i n body] is [for (k = i; k < i + n; ++k) { body }] where the body
    may leave the enclosing function with a result. *)
Fixpoint for_return {R} (i n : nat) (body : nat -> option R) : option R :=
  match n with
  | 0 => None
  | S n' => match body i with
            | Some r => Some r
            | None => for_return (S i) n' body
            end
  end.

Section for_return.
Context {R : Type}.
Implicit Types body : nat -> option R.

Lemma for_return_None i n body :
  for_return i n body = None <-> forall k, i <= k < i + n -> body k = None.
Proof.
  revert i; induction n as [|n IH]; intros i; simpl.
  - split; [intros _ k; lia | done].
  - destruct (body i) eqn:Hb; split.
    + done.
    + intros H. rewrite H in Hb; [done | lia].
    + intros H k Hk. destruct (decide (k = i)) as [->|]; [done|].
      apply (proj1 (IH (S i)) H). lia.
    + intros H. apply IH. intros k Hk. apply H. lia.
Qed.

(** The first index whose body returns decides the result. *)
Lemma for_return_Some i n body r :
  for_return i n body = Some r <->
  exists k, i <= k < i + n /\ body k = Some r /\
            forall j, i <= j < k -> body j = None.
Proof.
  revert i; induction n as [|n IH]; intros i; simpl.
  - split; [done | intros (k & ? & _); lia].
  - destruct (body i) eqn:Hb; split.
    + intros [= ->]. exists i. repeat split; [lia..|done|intros; lia].
    + intros (k & Hk & Hr & Hj). destruct (decide (k = i)) as [->|]; [congruence|].
      rewrite Hj in Hb; [done | lia].
    + intros (k & Hk & Hr & Hj)%IH. exists k. repeat split; [lia..|done|].
      intros j Hji. destruct (decide (j = i)) as [->|]; [done|]. apply Hj. lia.
    + intros (k & Hk & Hr & Hj). apply IH.
      assert (k <> i) by congruence.
      exists k. repeat split; [lia..|done|]. intros j ?. apply Hj. lia.
Qed.

Lemma for_return_ext i n body body' :
  (forall k, i <= k < i + n -> body k = body' k) ->
  for_return i n body = for_return i n body'.
Proof.
  revert i; induction n as [|n IH]; intros i H; simpl; [done|].
  rewrite (H i) by lia. case_match; [done|]. apply IH. intros; apply H; lia.
Qed.
End for_return.
