(* ===== verification/Text.v ===== *)
(** * Text: the character-level helpers the file formats share

    Decimal numbers read back ([std::stoi], the integers of TOML), lines, and the two
    characters that Rocq's string literals cannot show. *)

From S2P Require Import Prelude.

(** "\n" and the double quote. *)
Definition nl : string := String "010"%char "".
Definition dq : string := String "034"%char "".
Definition quoted (s : string) : string := dq +:+ s +:+ dq.

(** Appending on strings; stdpp keeps [+:+] folded. *)
Lemma app_cons c s t : String c s +:+ t = String c (s +:+ t).
Proof. done. Qed.

Lemma app_assoc' (s t u : string) : (s +:+ t) +:+ u = s +:+ t +:+ u.
Proof. induction s as [|c s IH]; [done|]. by rewrite !app_cons, IH. Qed.

Lemma app_empty_r s : s +:+ "" = s.
Proof. induction s as [|c s IH]; [done|]. by rewrite app_cons, IH. Qed.

(** ** Characters *)
Fixpoint every (p : ascii -> bool) (s : string) : bool :=
  match s with "" => true | String c s' => p c && every p s' end.

Lemma every_app p a b : every p (a +:+ b) = every p a && every p b.
Proof. induction a as [|x a IH]; [done|]. rewrite app_cons. simpl. by rewrite IH, andb_assoc. Qed.

Lemma every_impl (p q : ascii -> bool) s :
  (forall c, p c -> q c) -> every p s -> every q s.
Proof.
  intros H. induction s as [|x a IH]; [done|]. simpl.
  intros [Hx Ha]%andb_prop_elim. apply andb_prop_intro. eauto.
Qed.

(** [split_on c s]: the text before the first [c], and the text after it. *)
Fixpoint split_on (d : ascii) (s : string) : string * option string :=
  match s with
  | "" => ("", None)
  | String c s' =>
      if Ascii.eqb c d then ("", Some s')
      else let '(a, b) := split_on d s' in (String c a, b)
  end.

Definition avoids (d : ascii) : string -> bool := every (fun c => negb (Ascii.eqb c d)).

Lemma split_on_found d a b : avoids d a -> split_on d (a +:+ String d b) = (a, Some b).
Proof.
  unfold avoids. induction a as [|x a IH].
  - simpl. by rewrite Ascii.eqb_refl.
  - rewrite app_cons. simpl. intros [Hx Ha]%andb_prop_elim. apply negb_prop_elim in Hx.
    destruct (Ascii.eqb x d); [done|]. by rewrite IH.
Qed.

Lemma split_on_missing d a : avoids d a -> split_on d a = (a, None).
Proof.
  unfold avoids. induction a as [|x a IH]; simpl; [done|].
  intros [Hx Ha]%andb_prop_elim. apply negb_prop_elim in Hx.
  destruct (Ascii.eqb x d); [done|]. by rewrite IH.
Qed.

(** ** Decimal numbers *)
Definition digit (c : ascii) : option Z :=
  let n := Z.of_N (N_of_ascii c) in
  if (48 <=? n)%Z && (n <=? 57)%Z then Some (n - 48)%Z else None.

(** The value of the digits [s] starts with, after the digits read into [acc], and the
    text after them. *)
Fixpoint digits (acc : Z) (s : string) : Z * string :=
  match s with
  | "" => (acc, "")
  | String c s' =>
      match digit c with
      | Some d => digits (10 * acc + d)%Z s'
      | None => (acc, s)
      end
  end.

(** [stops s]: no digit continues a number that ends before [s]. *)
Definition stops (s : string) : bool :=
  match s with "" => true | String c _ => bool_decide (digit c = None) end.

Lemma digits_stop acc s : stops s -> digits acc s = (acc, s).
Proof. destruct s as [|c s]; [done|]. simpl. intros H%bool_decide_unpack. by rewrite H. Qed.

Lemma digit_pretty n : (n < 10)%N -> digit (pretty_N_char n) = Some (Z.of_N n).
Proof.
  destruct n as [|p]; [done|]. intros Hp.
  do 4 (destruct p as [p|p|]; try done; try (exfalso; lia)).
Qed.

Lemma pretty_go_app x s : pretty_N_go x s = pretty_N_go x "" +:+ s.
Proof.
  revert s. induction (N.lt_wf_0 x) as [x _ IH]; intros s.
  destruct (decide (x = 0)%N) as [->|]; [done|].
  rewrite !(pretty_N_go_step x) by lia.
  assert (Hx : (x / 10 < x)%N) by (apply N.div_lt; lia).
  rewrite (IH _ Hx), (IH _ Hx (String _ "")). by rewrite app_assoc'.
Qed.

(** One more digit. *)
Lemma digits_step x s : digits (Z.of_N (x / 10)) (String (pretty_N_char (x mod 10)) s) =
  digits (Z.of_N x) s.
Proof.
  cbn [digits]. rewrite digit_pretty by (apply N.mod_lt; lia). f_equal.
  pose proof (N.div_mod' x 10). lia.
Qed.

Lemma digits_go x s : (0 < x)%N -> digits 0 (pretty_N_go x s) = digits (Z.of_N x) s.
Proof.
  revert s. induction (N.lt_wf_0 x) as [x _ IH]; intros s Hx.
  rewrite pretty_N_go_step, <- digits_step by done.
  destruct (decide (x / 10 = 0)%N) as [E|E].
  - by rewrite E, pretty_N_go_0.
  - apply IH; [by apply N.div_lt|by apply N.neq_0_lt_0].
Qed.

Lemma pretty_pos z : (0 < z)%Z -> pretty z = pretty_N_go (Z.to_N z) "".
Proof. by destruct z. Qed.

(** A printed number is read back, whatever follows it that is not a digit. *)
Lemma digits_pretty z rest : (0 <= z)%Z -> stops rest ->
  digits 0 (pretty z +:+ rest) = (z, rest).
Proof.
  intros Hz Hr. destruct (decide (z = 0)%Z) as [->|].
  - change (digits 0 rest = (0%Z, rest)). by apply digits_stop.
  - rewrite pretty_pos, <- pretty_go_app, digits_go by lia.
    rewrite Z2N.id by lia. by apply digits_stop.
Qed.

(** A printed number starts with a digit. *)
Lemma pretty_head z : (0 <= z)%Z -> exists c s d, pretty z = String c s /\ digit c = Some d.
Proof.
  intros Hz. pose proof (digits_pretty z "" Hz I) as E. rewrite app_empty_r in E.
  destruct (pretty z) as [|c s] eqn:Hp; cbn in E.
  - injection E as <-. done.
  - destruct (digit c) as [d|] eqn:Hd; [by exists c, s, d|]. congruence.
Qed.

Lemma every_go (p : ascii -> bool) x s : (forall n, (n < 10)%N -> p (pretty_N_char n)) ->
  every p s -> every p (pretty_N_go x s).
Proof.
  intros Hp. revert s. induction (N.lt_wf_0 x) as [x _ IH]; intros s Hs.
  destruct (decide (x = 0)%N) as [->|]; [done|]. rewrite pretty_N_go_step by lia.
  apply IH; [apply N.div_lt; lia|]. cbn [every]. apply andb_prop_intro. split; [|done].
  apply Hp, N.mod_lt. lia.
Qed.

(** A character that no digit is does not occur in a printed number. *)
Lemma pretty_avoids d z : (0 <= z)%Z -> digit d = None -> avoids d (pretty z).
Proof.
  intros Hz Hd. destruct (decide (z = 0)%Z) as [->|].
  - unfold avoids. change (pretty 0%Z) with "0". cbn [every].
    by destruct (Ascii.eqb_spec "0" d) as [<-|].
  - rewrite pretty_pos by lia. apply every_go; [|done]. intros k Hk%digit_pretty.
    destruct (Ascii.eqb_spec (pretty_N_char k) d) as [<-|]; [congruence|done].
Qed.

(** ** Lines, and other pieces between delimiters *)
Fixpoint pieces (d : ascii) (s : string) : list string :=
  match s with
  | "" => [""]
  | String c s' =>
      if Ascii.eqb c d then "" :: pieces d s'
      else match pieces d s' with
           | [] => [String c ""]
           | p :: ps => String c p :: ps
           end
  end.

Lemma pieces_cut d a b : avoids d a -> pieces d (a +:+ String d b) = a :: pieces d b.
Proof.
  unfold avoids. induction a as [|x a IH].
  - simpl. by rewrite Ascii.eqb_refl.
  - rewrite app_cons. simpl. intros [Hx Ha]%andb_prop_elim. apply negb_prop_elim in Hx.
    destruct (Ascii.eqb x d); [done|]. by rewrite IH.
Qed.

Lemma pieces_last d a : avoids d a -> pieces d a = [a].
Proof.
  unfold avoids. induction a as [|x a IH]; simpl; [done|].
  intros [Hx Ha]%andb_prop_elim. apply negb_prop_elim in Hx.
  destruct (Ascii.eqb x d); [done|]. by rewrite IH.
Qed.
