(* ===== verification/Node.v ===== *)
(** * lib/model/ServiceNode: one backend service

    [ServiceNode] with its constructors, getters, setters (functions from the old
    object to the new one) and [IsValid], whose IPv4 check is modelled token by
    token as the source reads it from a [std::istringstream].  The [uint16_t]
    fields are integers of [0, 2^16).  The main theorem says that the check accepts
    exactly the canonical dotted quads. *)

From S2P Require Import Prelude Text.

(** ** ServiceNode *)
Module ServiceNode.

Record ServiceNode := mkServiceNode {
  m_name : string;
  m_ip : string;
  m_port : Z;    (* uint16_t *)
  m_weight : Z   (* uint16_t *)
}.

#[export] Instance eq_dec : EqDecision ServiceNode.
Proof. solve_decision. Defined.

(** The default constructor. *)
Definition default : ServiceNode :=
  {| m_name := ""; m_ip := ""; m_port := 0; m_weight := 1 |}.

Definition make (name ip : string) (port weight : Z) : ServiceNode :=
  {| m_name := name; m_ip := ip; m_port := port; m_weight := weight |}.

Definition GetName (n : ServiceNode) : string := m_name n.
Definition GetIp (n : ServiceNode) : string := m_ip n.
Definition GetPort (n : ServiceNode) : Z := m_port n.
Definition GetWeight (n : ServiceNode) : Z := m_weight n.

Definition SetName (name : string) (n : ServiceNode) : ServiceNode :=
  make name (m_ip n) (m_port n) (m_weight n).
Definition SetIp (ip : string) (n : ServiceNode) : ServiceNode :=
  make (m_name n) ip (m_port n) (m_weight n).
Definition SetPort (port : Z) (n : ServiceNode) : ServiceNode :=
  make (m_name n) (m_ip n) port (m_weight n).
Definition SetWeight (weight : Z) (n : ServiceNode) : ServiceNode :=
  make (m_name n) (m_ip n) (m_port n) weight.

Definition wf (n : ServiceNode) : Prop := in_u 16 (m_port n) /\ in_u 16 (m_weight n).

#[export] Instance wf_dec n : Decision (wf n).
Proof. unfold wf. apply _. Defined.

(** *** Reading tokens from a [std::istringstream]

    The stream is what is left to read; [None] is a stream whose [eofbit] is set.
    [std::getline(stream, token, '.')] takes characters up to the delimiter, which it
    consumes, or up to the end, which sets [eofbit]; it fails when it extracts
    nothing at all. *)
Definition istringstream : Type := option string.

Fixpoint take_token (s : string) : string * istringstream :=
  match s with
  | "" => ("", None)
  | String c s' =>
      if decide (c = "."%char) then ("", Some s')
      else let '(token, rest) := take_token s' in (String c token, rest)
  end.

Definition getline (stream : istringstream) : option (string * istringstream) :=
  match stream with
  | None | Some "" => None
  | Some s => Some (take_token s)
  end.

Definition code (c : ascii) : Z := Z.of_N (Ascii.N_of_ascii c).

(** [std::stoi] on a token that holds only digits. *)
Fixpoint stoi_acc (acc : Z) (token : string) : Z :=
  match token with
  | "" => acc
  | String c token' => stoi_acc (acc * 10 + (code c - 48)) token'
  end.
Definition stoi (token : string) : Z := stoi_acc 0 token.

Definition is_digit (c : ascii) : bool :=
  negb ((code c <? 48)%Z || (57 <? code c)%Z).

Fixpoint all_digits (token : string) : bool :=
  match token with
  | "" => true
  | String c token' => is_digit c && all_digits token'
  end.

(** The checks of one loop iteration, in the source's order; [false] is the
    iteration's early [return false]. *)
Definition octet_ok (token : string) : bool :=
  if String.eqb token "" || (3 <? String.length token) then false
  else if (1 <? String.length token) &&
          match token with String c _ => Ascii.eqb c "0" | "" => false end then false
  else if negb (all_digits token) then false
  else if (255 <? stoi token)%Z then false
  else true.

(** The [while] loop.  [None]: out of fuel; [Some None]: an early [return false];
    [Some (Some n)]: the stream is exhausted after [n] octets. *)
Fixpoint octet_loop (fuel : nat) (stream : istringstream) (octetCount : nat)
    : option (option nat) :=
  match fuel with
  | 0 => None
  | S fuel' =>
      match getline stream with
      | None => Some (Some octetCount)
      | Some (token, stream') =>
          if octet_ok token then octet_loop fuel' stream' (S octetCount)
          else Some None
      end
  end.

(** [ip.back() != '.'], read only once four octets were seen, so never on "". *)
Fixpoint back (ip : string) : option ascii :=
  match ip with
  | "" => None
  | String c "" => Some c
  | String _ ip' => back ip'
  end.

(** Every iteration but the last removes a character from the stream. *)
Definition ipv4_fuel (ip : string) : nat := S (S (String.length ip)).

Definition IsValidIpv4 (ip : string) : bool :=
  match octet_loop (ipv4_fuel ip) (Some ip) 0 with
  | Some (Some octetCount) =>
      (octetCount =? 4) && negb (bool_decide (back ip = Some "."%char))
  | _ => false
  end.

Definition IsValid (n : ServiceNode) : bool :=
  negb (String.eqb (m_name n) "") && negb (String.eqb (m_ip n) "") &&
  negb (m_port n =? 0)%Z && IsValidIpv4 (m_ip n).

Example accepted_ips :
  forallb IsValidIpv4 ["0.0.0.0"; "255.255.255.255"; "10.0.0.1"; "192.168.1.100"] = true.
Proof. reflexivity. Qed.

Example rejected_ips :
  existsb IsValidIpv4
    ["256.0.0.1"; "1.2.3"; "1.2.3.4.5"; "abc.def.ghi.jkl"; "192.168.1."; ".168.1.1";
     "192.168.01.1"; "192.168.1.999"; ""; "just-text"; "1.2.3.4."; "."; "...."] = false.
Proof. reflexivity. Qed.

(** *** The IPv4 check accepts exactly the canonical dotted quads *)

Definition dotted_quad (a b c d : N) : string :=
  pretty a +:+ "." +:+ pretty b +:+ "." +:+ pretty c +:+ "." +:+ pretty d.

Fixpoint no_dot (s : string) : bool :=
  match s with
  | "" => true
  | String c s' => negb (bool_decide (c = "."%char)) && no_dot s'
  end.

Lemma take_token_dot t r : no_dot t -> take_token (t +:+ "." +:+ r) = (t, Some r).
Proof.
  induction t as [|c t IH]; [done|]; intros [Hc Ht]%andb_prop_elim.
  rewrite app_cons; simpl. rewrite decide_False.
  - by rewrite IH.
  - intros ->. done.
Qed.

Lemma take_token_last t : no_dot t -> take_token t = (t, None).
Proof.
  induction t as [|c t IH]; [done|]; intros [Hc Ht]%andb_prop_elim; simpl.
  rewrite decide_False by (intros ->; done). by rewrite IH.
Qed.

Lemma take_token_inv s t rest : take_token s = (t, rest) ->
  match rest with Some r => s = t +:+ "." +:+ r | None => s = t end.
Proof.
  revert t rest; induction s as [|c s IH]; intros t rest; simpl; [by intros [= <- <-]|].
  case_decide as Hc; [by intros [= <- <-]; subst|].
  destruct (take_token s) as [t' rest'] eqn:E; intros [= <- <-].
  specialize (IH _ _ eq_refl). destruct rest'; by rewrite IH.
Qed.

Lemma back_app s c t : back (s +:+ String c t) = back (String c t).
Proof.
  induction s as [|c' s IH]; [done|]. rewrite app_cons, <- IH.
  by destruct (s +:+ String c t) eqn:E; [destruct s|].
Qed.

(** Octets: every decimal below 256 passes the per-token checks, and a token that
    passes them is the decimal of its value.  Both are finite checks. *)
Definition digit_chars : list ascii :=
  ["0"; "1"; "2"; "3"; "4"; "5"; "6"; "7"; "8"; "9"]%char.

Fixpoint digit_tokens (n : nat) : list string :=
  match n with
  | 0 => [""]
  | S n' => "" :: (c ← digit_chars; String c <$> digit_tokens n')
  end.

Lemma is_digit_char c : is_digit c -> c ∈ digit_chars.
Proof.
  assert (H : forall b0 b1 b2 b3 b4 b5 b6 b7, let c := Ascii b0 b1 b2 b3 b4 b5 b6 b7 in
    implb (is_digit c) (bool_decide (c ∈ digit_chars)) = true).
  { intros [] [] [] [] [] [] [] []; reflexivity. }
  destruct c as [b0 b1 b2 b3 b4 b5 b6 b7]. specialize (H b0 b1 b2 b3 b4 b5 b6 b7).
  simpl in H. destruct (is_digit _); [|done]. intros _. by eapply bool_decide_eq_true.
Qed.

Lemma all_digits_token t n : all_digits t -> String.length t <= n -> t ∈ digit_tokens n.
Proof.
  revert n; induction t as [|c t IH]; intros n.
  { intros _ _. destruct n; simpl; set_solver. }
  intros [Hc Ht]%andb_prop_elim Hn; simpl in Hn. destruct n as [|n]; [lia|].
  cbn [digit_tokens]. rewrite elem_of_cons. right. apply list_elem_of_bind. exists c.
  split; [|by apply is_digit_char].
  apply list_elem_of_fmap. exists t. split; [done|]. apply IH; [done|lia].
Qed.

Lemma octet_table :
  forallb (fun t => implb (octet_ok t)
    (bool_decide (t = pretty (Z.to_N (stoi t))) && (Z.to_N (stoi t) <? 256)%N))
    (digit_tokens 3) = true.
Proof. vm_compute. reflexivity. Qed.

Lemma octet_table' :
  forallb (fun n => octet_ok (pretty (N.of_nat n)) && no_dot (pretty (N.of_nat n)) &&
                    negb (String.eqb (pretty (N.of_nat n)) ""))
    (seq 0 256) = true.
Proof. vm_compute. reflexivity. Qed.

Lemma octet_ok_pretty n : (n < 256)%N ->
  octet_ok (pretty n) /\ no_dot (pretty n) /\ pretty n <> "".
Proof.
  intros Hn. pose proof octet_table' as H. rewrite forallb_forall in H.
  specialize (H (N.to_nat n)). rewrite N2Nat.id in H.
  assert (Hin : In (N.to_nat n) (seq 0 256)) by (apply in_seq; lia).
  specialize (H Hin). apply andb_prop in H as [[-> ->]%andb_prop H2].
  repeat split. intros E. by rewrite E in H2.
Qed.

Lemma octet_ok_inv t : octet_ok t -> exists n, (n < 256)%N /\ t = pretty n.
Proof.
  intros H. exists (Z.to_N (stoi t)). pose proof octet_table as T.
  rewrite forallb_forall in T. specialize (T t).
  assert (Hin : In t (digit_tokens 3)).
  { apply list_elem_of_In, all_digits_token; unfold octet_ok in H.
    - destruct (all_digits t); [done|]. by repeat case_match.
    - destruct (Nat.ltb_spec 3 (String.length t)); [|lia].
      by rewrite orb_true_r in H. }
  specialize (T Hin). destruct (octet_ok t); [|done].
  apply andb_prop in T as [E%bool_decide_eq_true_1 L]. split; [by apply N.ltb_lt|done].
Qed.

(** The tokens the loop reads from a stream, in order. *)
Inductive reads : istringstream -> list string -> Prop :=
  | reads_end st : getline st = None -> reads st []
  | reads_token st t st' ts :
      getline st = Some (t, st') -> reads st' ts -> reads st (t :: ts).

Definition stream_length (st : istringstream) : nat :=
  match st with None => 0 | Some s => S (String.length s) end.

Lemma take_token_shorter s t rest : s <> "" -> take_token s = (t, rest) ->
  stream_length rest < S (String.length s).
Proof.
  revert t rest; induction s as [|c s IH]; intros t rest Hs; [done|]; simpl.
  case_decide; [by intros [= <- <-]; simpl; lia|].
  destruct (take_token s) as [t' rest'] eqn:E; intros [= <- <-].
  destruct s as [|c' s]; [simpl in E; simplify_eq; simpl; lia|].
  assert (String c' s <> "") as Hne by done. specialize (IH _ _ Hne eq_refl). lia.
Qed.

Lemma getline_shorter st t st' :
  getline st = Some (t, st') -> stream_length st' < stream_length st.
Proof.
  destruct st as [[|c s]|]; [done| |done].
  intros [= E]. by eapply (take_token_shorter (String c s)).
Qed.

(** The loop terminates: its fuel is never used up. *)
Lemma octet_loop_total fuel st n :
  stream_length st < fuel -> octet_loop fuel st n <> None.
Proof.
  revert st n; induction fuel as [|fuel IH]; intros st n Hf; [lia|]; simpl.
  destruct (getline st) as [[t st']|] eqn:E; [|done].
  case_match; [|done]. apply IH. apply getline_shorter in E. lia.
Qed.

Lemma octet_loop_sound fuel st n m : octet_loop fuel st n = Some (Some m) ->
  exists ts, reads st ts /\ Forall octet_ok ts /\ m = n + length ts.
Proof.
  revert st n; induction fuel as [|fuel IH]; intros st n; simpl; [done|].
  destruct (getline st) as [[t st']|] eqn:E.
  - destruct (octet_ok t) eqn:Ht; [|done]. intros (ts & Hr & Hts & ->)%IH.
    exists (t :: ts). split_and!; [by econstructor| |simpl; lia].
    constructor; [by rewrite Ht|done].
  - intros [= <-]. exists []. split_and!; [by constructor|done|simpl; lia].
Qed.

Lemma octet_loop_complete fuel st n ts : stream_length st < fuel ->
  reads st ts -> Forall octet_ok ts ->
  octet_loop fuel st n = Some (Some (n + length ts)).
Proof.
  intros Hf Hr. revert fuel n Hf. induction Hr as [st E|st t st' ts E Hr IH];
    intros [|fuel] n Hf Hok; simpl in *; try lia; rewrite E.
  - do 2 f_equal; lia.
  - inversion_clear Hok as [|?? Ht Hts]. rewrite (Is_true_true_1 _ Ht).
    pose proof (getline_shorter _ _ _ E). rewrite IH by (done || lia).
    do 2 f_equal; lia.
Qed.

Fixpoint join (ts : list string) : string :=
  match ts with
  | [] => ""
  | [t] => t
  | t :: ts' => t +:+ "." +:+ join ts'
  end.

Lemma join_cons t ts : ts <> [] -> join (t :: ts) = t +:+ "." +:+ join ts.
Proof. by destruct ts. Qed.

Lemma reads_join s ts : reads (Some s) ts -> ts <> [] ->
  s = join ts \/ s = join ts +:+ ".".
Proof.
  intros Hr. remember (Some s) as st eqn:Hst. revert s Hst.
  induction Hr as [|st t st' ts E Hr IH]; intros s -> Hne; [done|clear Hne].
  destruct s as [|c s]; [done|]; simpl in E. injection E as E.
  apply (take_token_inv (String c s)) in E. destruct st' as [r|].
  - inversion Hr as [? E'|]; subst.
    + destruct r; [|done]. right. by rewrite E.
    + rewrite join_cons by done. rewrite E.
      destruct (IH r eq_refl) as [->| ->]; [done|by left|right]. by rewrite !app_assoc'.
  - left. inversion Hr; [|done]. by subst.
Qed.

Lemma getline_ne s : s <> "" -> getline (Some s) = Some (take_token s).
Proof. by destruct s. Qed.

Lemma join_ne ts : ts <> [] -> Forall (fun t => t <> "") ts -> join ts <> "".
Proof.
  destruct ts as [|t ts]; [done|]. intros _ [Ht _]%Forall_cons.
  destruct ts; [done|]. rewrite join_cons by done. by destruct t.
Qed.

Lemma join_reads ts : ts <> [] -> Forall (fun t => no_dot t /\ t <> "") ts ->
  reads (Some (join ts)) ts.
Proof.
  induction ts as [|t ts IH]; [done|]. intros _ H.
  assert (Hne : Forall (fun t => t <> "") (t :: ts)) 
    by (eapply Forall_impl; [exact H|by intros ? []]).
  assert (getline (Some (join (t :: ts))) = Some (take_token (join (t :: ts)))) as E
    by (by apply getline_ne, join_ne).
  apply Forall_cons in H as [[Hd Ht] Hts]. destruct ts as [|t' ts].
  - apply (reads_token _ _ None); [|by apply reads_end].
    rewrite E. simpl. by rewrite take_token_last.
  - apply (reads_token _ _ (Some (join (t' :: ts)))); [|by apply IH]. rewrite E.
    by rewrite join_cons, take_token_dot.
Qed.

Lemma back_join ts : ts <> [] -> Forall (fun t => no_dot t /\ t <> "") ts ->
  back (join ts) <> Some "."%char.
Proof.
  induction ts as [|t ts IH]; [done|]. intros _ [[Hd Ht] Hts]%Forall_cons.
  destruct ts as [|t' ts].
  - simpl. clear -Hd. induction t as [|c t IH]; [done|].
    apply andb_prop_elim in Hd as [Hc Hd]. destruct t; [|by apply IH].
    simpl. intros [= ->]. done.
  - rewrite join_cons by done. intros E. apply IH; [done|done|].
    destruct (join (t' :: ts)) as [|c u] eqn:J.
    + exfalso. revert J. apply join_ne; [done|].
      eapply Forall_impl; [exact Hts|by intros ? []].
    + rewrite <- E. by rewrite <- app_assoc', back_app.
Qed.

Lemma octets_pretty ts : Forall octet_ok ts ->
  exists ns, Forall (fun n => n < 256)%N ns /\ ts = pretty <$> ns.
Proof.
  induction 1 as [|t ts (n & Hn & ->)%octet_ok_inv _ (ns & Hns & ->)].
  - by exists [].
  - exists (n :: ns). split; [by constructor|done].
Qed.

Lemma pretty_octets ns : Forall (fun n => n < 256)%N ns ->
  Forall octet_ok (pretty <$> ns : list string) /\
  Forall (fun t => no_dot t /\ t <> "") (pretty <$> ns).
Proof.
  induction 1 as [|n ns Hn _ [IH1 IH2]]; [done|].
  destruct (octet_ok_pretty n Hn) as (? & ? & ?). split; by constructor.
Qed.

Lemma ipv4_quads ip : IsValidIpv4 ip <->
  exists ns, length ns = 4 /\ Forall (fun n => n < 256)%N ns /\ ip = join (pretty <$> ns).
Proof.
  unfold IsValidIpv4. split.
  - destruct (octet_loop _ _ _) as [[m|]|] eqn:E; [|done..].
    apply octet_loop_sound in E as (ts & Hr & (ns & Hns & ->)%octets_pretty & ->).
    rewrite length_fmap. intros [Hl%Is_true_true_1%Nat.eqb_eq Hb]%andb_prop_elim.
    exists ns. split_and!; [lia|done|].
    assert ((pretty <$> ns : list string) <> []) as Hne by (by destruct ns).
    destruct (reads_join ip _ Hr Hne) as [?| ->]; [done|]. by rewrite back_app in Hb.
  - intros (ns & Hl & [Hok Hd]%pretty_octets & ->).
    assert ((pretty <$> ns : list string) <> []) as Hne by (by destruct ns).
    rewrite (octet_loop_complete _ _ _ (pretty <$> ns)); [|unfold ipv4_fuel; simpl; lia| |done].
    + rewrite length_fmap, Hl; simpl. rewrite bool_decide_eq_false_2; [done|].
      by apply back_join.
    + by apply join_reads.
Qed.

(** C15: the IPv4 check, with its token loop, octet checks and trailing-dot guard,
    accepts a string exactly when it is the canonical dotted quad of four numbers
    below 256. *)
Theorem IsValidIpv4_dotted_quad ip :
  IsValidIpv4 ip = true <->
  exists a b c d : N, (a < 256 /\ b < 256 /\ c < 256 /\ d < 256)%N /\
                      ip = dotted_quad a b c d.
Proof.
  rewrite <- Is_true_true, ipv4_quads. split.
  - intros ([|a [|b [|c [|d [|]]]]] & Hl & H & ->); try done.
    rewrite !Forall_cons in H. exists a, b, c, d. split; [naive_solver|done].
  - intros (a & b & c & d & ? & ->). exists [a; b; c; d]. rewrite !Forall_cons.
    naive_solver.
Qed.

End ServiceNode.
