(* ===== verification/Config.v ===== *)
(** * lib/model: the configuration objects

    [HealthCheckConfig], [ConnectionConfig] and [LoadBalancerConfig], one module
    each.  Setters are functions from the old object to the new one.  [wf] says that
    every field fits its C++ type; the constructors establish it and the operations
    preserve it. *)

From S2P Require Import Prelude Node.

(** ** HealthCheckConfig *)
Module HealthCheckConfig.

Record HealthCheckConfig := make {
  m_enabled : bool;
  m_intervalMs : Z;            (* uint32_t *)
  m_timeoutMs : Z;             (* uint32_t *)
  m_unhealthyThreshold : Z     (* uint32_t *)
}.

#[export] Instance eq_dec : EqDecision HealthCheckConfig.
Proof. solve_decision. Defined.

Definition default : HealthCheckConfig := make true 5000 2000 3.

Definition GetEnabled (c : HealthCheckConfig) : bool := m_enabled c.
Definition GetIntervalMs (c : HealthCheckConfig) : Z := m_intervalMs c.
Definition GetTimeoutMs (c : HealthCheckConfig) : Z := m_timeoutMs c.
Definition GetUnhealthyThreshold (c : HealthCheckConfig) : Z := m_unhealthyThreshold c.

Definition SetEnabled (b : bool) (c : HealthCheckConfig) : HealthCheckConfig :=
  make b (m_intervalMs c) (m_timeoutMs c) (m_unhealthyThreshold c).
Definition SetIntervalMs (ms : Z) (c : HealthCheckConfig) : HealthCheckConfig :=
  make (m_enabled c) ms (m_timeoutMs c) (m_unhealthyThreshold c).
Definition SetTimeoutMs (ms : Z) (c : HealthCheckConfig) : HealthCheckConfig :=
  make (m_enabled c) (m_intervalMs c) ms (m_unhealthyThreshold c).
Definition SetUnhealthyThreshold (n : Z) (c : HealthCheckConfig) : HealthCheckConfig :=
  make (m_enabled c) (m_intervalMs c) (m_timeoutMs c) n.

Definition wf (c : HealthCheckConfig) : Prop :=
  in_u 32 (m_intervalMs c) /\ in_u 32 (m_timeoutMs c) /\ in_u 32 (m_unhealthyThreshold c).

#[export] Instance wf_dec c : Decision (wf c).
Proof. unfold wf. apply _. Defined.

End HealthCheckConfig.

(** ** ConnectionConfig *)
Module ConnectionConfig.

Record ConnectionConfig := make {
  m_maxPerService : Z;         (* uint32_t *)
  m_idleTimeoutMs : Z;         (* uint32_t *)
  m_connectTimeoutMs : Z       (* uint32_t *)
}.

#[export] Instance eq_dec : EqDecision ConnectionConfig.
Proof. solve_decision. Defined.

Definition default : ConnectionConfig := make 1024 30000 5000.

Definition GetMaxPerService (c : ConnectionConfig) : Z := m_maxPerService c.
Definition GetIdleTimeoutMs (c : ConnectionConfig) : Z := m_idleTimeoutMs c.
Definition GetConnectTimeoutMs (c : ConnectionConfig) : Z := m_connectTimeoutMs c.

Definition SetMaxPerService (n : Z) (c : ConnectionConfig) : ConnectionConfig :=
  make n (m_idleTimeoutMs c) (m_connectTimeoutMs c).
Definition SetIdleTimeoutMs (ms : Z) (c : ConnectionConfig) : ConnectionConfig :=
  make (m_maxPerService c) ms (m_connectTimeoutMs c).
Definition SetConnectTimeoutMs (ms : Z) (c : ConnectionConfig) : ConnectionConfig :=
  make (m_maxPerService c) (m_idleTimeoutMs c) ms.

Definition wf (c : ConnectionConfig) : Prop :=
  in_u 32 (m_maxPerService c) /\ in_u 32 (m_idleTimeoutMs c) /\ in_u 32 (m_connectTimeoutMs c).

#[export] Instance wf_dec c : Decision (wf c).
Proof. unfold wf. apply _. Defined.

End ConnectionConfig.

(** ** LoadBalancerConfig *)
Module LoadBalancerConfig.
Import ServiceNode HealthCheckConfig ConnectionConfig.

Record LoadBalancerConfig := make {
  m_name : string;
  m_listenAddress : string;
  m_listenPort : Z;            (* uint16_t *)
  m_routingAlgorithm : string;
  m_services : list ServiceNode;
  m_healthCheck : HealthCheckConfig;
  m_connection : ConnectionConfig
}.

#[export] Instance eq_dec : EqDecision LoadBalancerConfig.
Proof. solve_decision. Defined.

Definition default : LoadBalancerConfig :=
  make "my-bit-bridge-lb" "0.0.0.0" 8080 "p2c" []
       HealthCheckConfig.default ConnectionConfig.default.

Definition GetName (c : LoadBalancerConfig) : string := m_name c.
Definition GetListenAddress (c : LoadBalancerConfig) : string := m_listenAddress c.
Definition GetListenPort (c : LoadBalancerConfig) : Z := m_listenPort c.
Definition GetRoutingAlgorithm (c : LoadBalancerConfig) : string := m_routingAlgorithm c.
Definition GetServices (c : LoadBalancerConfig) : list ServiceNode := m_services c.
Definition GetServiceCount (c : LoadBalancerConfig) : nat := length (m_services c).
Definition GetHealthCheck (c : LoadBalancerConfig) : HealthCheckConfig := m_healthCheck c.
Definition GetConnection (c : LoadBalancerConfig) : ConnectionConfig := m_connection c.

Definition with_services (l : list ServiceNode) (c : LoadBalancerConfig)
    : LoadBalancerConfig :=
  make (m_name c) (m_listenAddress c) (m_listenPort c) (m_routingAlgorithm c) l
       (m_healthCheck c) (m_connection c).

Definition SetName (s : string) (c : LoadBalancerConfig) : LoadBalancerConfig :=
  make s (m_listenAddress c) (m_listenPort c) (m_routingAlgorithm c) (m_services c)
       (m_healthCheck c) (m_connection c).
Definition SetListenAddress (s : string) (c : LoadBalancerConfig) : LoadBalancerConfig :=
  make (m_name c) s (m_listenPort c) (m_routingAlgorithm c) (m_services c)
       (m_healthCheck c) (m_connection c).
Definition SetListenPort (p : Z) (c : LoadBalancerConfig) : LoadBalancerConfig :=
  make (m_name c) (m_listenAddress c) p (m_routingAlgorithm c) (m_services c)
       (m_healthCheck c) (m_connection c).
Definition SetRoutingAlgorithm (s : string) (c : LoadBalancerConfig)
    : LoadBalancerConfig :=
  make (m_name c) (m_listenAddress c) (m_listenPort c) s (m_services c)
       (m_healthCheck c) (m_connection c).
Definition SetHealthCheck (h : HealthCheckConfig) (c : LoadBalancerConfig)
    : LoadBalancerConfig :=
  make (m_name c) (m_listenAddress c) (m_listenPort c) (m_routingAlgorithm c)
       (m_services c) h (m_connection c).
Definition SetConnection (k : ConnectionConfig) (c : LoadBalancerConfig)
    : LoadBalancerConfig :=
  make (m_name c) (m_listenAddress c) (m_listenPort c) (m_routingAlgorithm c)
       (m_services c) (m_healthCheck c) k.

(** [push_back], [clear] and [erase]. *)
Definition AddService (n : ServiceNode) (c : LoadBalancerConfig) : LoadBalancerConfig :=
  with_services (m_services c ++ [n]) c.
Definition ClearServices (c : LoadBalancerConfig) : LoadBalancerConfig :=
  with_services [] c.
Definition RemoveService (index : nat) (c : LoadBalancerConfig) : LoadBalancerConfig :=
  if index <? length (m_services c)
  then with_services (take index (m_services c) ++ drop (S index) (m_services c)) c
  else c.

Definition wf (c : LoadBalancerConfig) : Prop :=
  in_u 16 (m_listenPort c) /\ Forall ServiceNode.wf (m_services c) /\
  HealthCheckConfig.wf (m_healthCheck c) /\ ConnectionConfig.wf (m_connection c).

#[export] Instance wf_dec c : Decision (wf c).
Proof. unfold wf. apply _. Defined.

Lemma default_wf : wf default.
Proof. by apply (bool_decide_unpack (wf default)). Qed.

Lemma AddService_wf n c : ServiceNode.wf n -> wf c -> wf (AddService n c).
Proof.
  intros Hn (? & ? & ? & ?). split_and!; [done|simpl|done|done].
  apply Forall_app; split; [done|by constructor].
Qed.

Lemma RemoveService_wf i c : wf c -> wf (RemoveService i c).
Proof.
  intros (? & H & ? & ?). unfold RemoveService. case_match; [|done].
  split_and!; [done|simpl|done|done].
  apply Forall_app; split; [by apply Forall_take|by apply Forall_drop].
Qed.

(** [RemoveService] below the size is the removal of that one element. *)
Lemma RemoveService_delete i c :
  m_services (RemoveService i c) = delete i (m_services c).
Proof.
  unfold RemoveService. destruct (Nat.ltb_spec i (length (m_services c))); simpl.
  - by rewrite delete_take_drop.
  - by rewrite delete_take_drop, take_ge, drop_ge, app_nil_r by lia.
Qed.

End LoadBalancerConfig.
