(* ===== verification/Serialization.v ===== *)
(** * lib/serialization: saving and loading the configuration

    yaml-cpp and the file system are not code of the repository.  [YamlLib] lists the
    operations [YamlConfigSerializer] calls on them, and [YamlLibOk] their documented
    behaviour: what an emitted document means when it is loaded again, and that
    yaml-cpp's exceptions derive from [YAML::Exception].  [Save] and [Load] are
    written against the first class, the theorems against the second.

    [Load] mutates the configuration object it is given, so it runs in the monad [M]
    of the prelude: writes made before an exception stay. *)

From S2P Require Import Prelude Node Config.
Import ServiceNode HealthCheckConfig ConnectionConfig LoadBalancerConfig.

(** What is streamed into a [YAML::Emitter]. *)
Inductive token :=
  | BeginMap | EndMap | BeginSeq | EndSeq | Key | YValue
  | Str (s : string) | UInt (z : Z) | Bool (b : bool).

(** The operations used of yaml-cpp, [std::filesystem] and [std::ofstream]. *)
Class YamlLib := {
  Doc : Type;                                      (* YAML::Node, defined *)
  Text : Type;                                     (* what c_str() holds *)
  FS : Type;                                       (* the file system *)
  emit : list token -> outcome Text;               (* out << ... *)
  LoadFile : FS -> string -> outcome Doc;
  index : Doc -> string -> outcome (option Doc);   (* node[key]; None: undefined *)
  as_string : Doc -> outcome string;
  as_u16 : Doc -> outcome Z;
  as_u32 : Doc -> outcome Z;
  as_bool : Doc -> outcome bool;
  elements_of : Doc -> outcome (list Doc);         (* range-based for *)
  has_parent_path : string -> bool;
  parent_path : string -> string;
  create_directories : string -> M FS unit;
  open_for_writing : string -> M FS bool;          (* the ofstream; is_open() *)
  write_file : string -> Text -> M FS unit         (* fout << text *)
}.

(** *** What the program relies on

    A [tree] is the value a document stands for, [tokens_of] the calls that stream it
    into an emitter. *)
Inductive tree :=
  | TStr (s : string) | TUInt (z : Z) | TBool (b : bool)
  | TMap (kvs : list (string * tree)) | TSeq (ts : list tree).

Definition field (key : string) (value : list token) : list token :=
  [Key; Str key; YValue] ++ value.

Fixpoint tokens_of (t : tree) : list token :=
  match t with
  | TStr s => [Str s]
  | TUInt z => [UInt z]
  | TBool b => [Bool b]
  | TMap kvs => [BeginMap] ++ (kvs ≫= fun kv => field kv.1 (tokens_of kv.2)) ++ [EndMap]
  | TSeq ts => [BeginSeq] ++ (ts ≫= tokens_of) ++ [EndSeq]
  end.

(** Printable ASCII text, which the emitter can always write. *)
Fixpoint printable (s : string) : bool :=
  match s with
  | "" => true
  | String c s' => (32 <=? N_of_ascii c)%N && (N_of_ascii c <=? 126)%N && printable s'
  end.

(** Keys are distinct and every string is printable. *)
Fixpoint tree_ok (t : tree) : Prop :=
  match t with
  | TStr s => printable s
  | TUInt _ | TBool _ => True
  | TMap kvs =>
      NoDup kvs.*1 /\
      (fix go kvs := match kvs with
        | [] => True
        | (k, v) :: kvs' => printable k /\ tree_ok v /\ go kvs' end) kvs
  | TSeq ts =>
      (fix go ts := match ts with
        | [] => True
        | t :: ts' => tree_ok t /\ go ts' end) ts
  end.

(** The documented behaviour.  [means d t]: the node [d] is a node of the value [t];
    [holds fs path text]: the file at [path] consists of [text];
    [flushed fs path]: the last stream on [path] wrote all it was given. *)
Class YamlLibOk (Y : YamlLib) := {
  means : Doc -> tree -> Prop;
  holds : FS -> string -> Text -> Prop;
  flushed : FS -> string -> Prop;
  write_holds path text fs fs' :
    write_file path text fs = (Returned tt, fs') -> flushed fs' path ->
    holds fs' path text;
  load_emitted t text fs path :
    tree_ok t -> emit (tokens_of t) = Returned text -> holds fs path text ->
    exists d, LoadFile fs path = Returned d /\ means d t;
  index_ok d kvs k : means d (TMap kvs) ->
    match assoc k kvs with
    | None => index d k = Returned None
    | Some t => exists d', index d k = Returned (Some d') /\ means d' t
    end;
  elements_ok d ts : means d (TSeq ts) ->
    exists ds, elements_of d = Returned ds /\ Forall2 means ds ts;
  as_string_ok d s : means d (TStr s) -> as_string d = Returned s;
  as_bool_ok d b : means d (TBool b) -> as_bool d = Returned b;
  as_u16_ok d z : means d (TUInt z) -> in_u 16 z -> as_u16 d = Returned z;
  as_u32_ok d z : means d (TUInt z) -> in_u 32 z -> as_u32 d = Returned z;
  (* a converted number fits the type asked for *)
  as_u16_range d z : as_u16 d = Returned z -> in_u 16 z;
  as_u32_range d z : as_u32 d = Returned z -> in_u 32 z;
  (* yaml-cpp throws subclasses of YAML::Exception and nothing else *)
  emit_throws ts e : emit ts = Threw e -> kind e = KYaml;
  load_throws fs path e : LoadFile fs path = Threw e -> kind e = KYaml;
  index_throws d k e : index d k = Threw e -> kind e = KYaml;
  elements_throws d e : elements_of d = Threw e -> kind e = KYaml;
  as_string_throws d e : as_string d = Threw e -> kind e = KYaml;
  as_bool_throws d e : as_bool d = Threw e -> kind e = KYaml;
  as_u16_throws d e : as_u16 d = Threw e -> kind e = KYaml;
  as_u32_throws d e : as_u32 d = Threw e -> kind e = KYaml
}.

(** ** IConfigSerializer *)
Module IConfigSerializer.

(** The virtual interface: both calls report failure in a [std::expected]. *)
Class IConfigSerializer (FileSystem : Type) := {
  Save : LoadBalancerConfig -> string -> M FileSystem (expected unit string);
  Load : FileSystem -> string -> M LoadBalancerConfig (expected unit string)
}.

(** What the users of a serializer rely on: a configuration it can store is what its
    file loads as, once the file is durable. *)
Class SerializerContract (FileSystem : Type) `{IConfigSerializer FileSystem} := {
  storable : LoadBalancerConfig -> Prop;
  durable : FileSystem -> string -> Prop;
  load_of_saved c path fs fs' :
    storable c -> Save c path fs = (Returned (Value tt), fs') -> durable fs' path ->
    forall c0, Load fs' path c0 = (Returned (Value tt), c)
}.

End IConfigSerializer.

(** ** YamlConfigSerializer *)
Module YamlConfigSerializer.

Section Serializer.
Context `{Y : YamlLib}.

Definition save_service (s : ServiceNode) : list token :=
  [BeginMap] ++
  field "name" [Str (ServiceNode.GetName s)] ++
  field "ip" [Str (ServiceNode.GetIp s)] ++
  field "port" [UInt (ServiceNode.GetPort s)] ++
  field "weight" [UInt (ServiceNode.GetWeight s)] ++
  [EndMap].

Definition save_health (hc : HealthCheckConfig) : list token :=
  [BeginMap] ++
  field "enabled" [Bool (GetEnabled hc)] ++
  field "intervalMs" [UInt (GetIntervalMs hc)] ++
  field "timeoutMs" [UInt (GetTimeoutMs hc)] ++
  field "unhealthyThreshold" [UInt (GetUnhealthyThreshold hc)] ++
  [EndMap].

Definition save_connection (conn : ConnectionConfig) : list token :=
  [BeginMap] ++
  field "maxPerService" [UInt (GetMaxPerService conn)] ++
  field "idleTimeoutMs" [UInt (GetIdleTimeoutMs conn)] ++
  field "connectTimeoutMs" [UInt (GetConnectTimeoutMs conn)] ++
  [EndMap].

(** Everything [Save] streams into its emitter. *)
Definition save_tokens (config : LoadBalancerConfig) : list token :=
  [BeginMap] ++
  field "name" [Str (GetName config)] ++
  field "listenAddress" [Str (GetListenAddress config)] ++
  field "listenPort" [UInt (GetListenPort config)] ++
  field "routingAlgorithm" [Str (GetRoutingAlgorithm config)] ++
  field "healthCheck" (save_health (GetHealthCheck config)) ++
  field "connection" (save_connection (GetConnection config)) ++
  field "services" ([BeginSeq] ++ (GetServices config ≫= save_service) ++ [EndSeq]) ++
  [EndMap].

(** [catch (const YAML::Exception &e)], in both functions. *)
Definition catch_yaml {S} (m : M S (expected unit string)) : M S (expected unit string) :=
  try_catch m KYaml (fun e => mret (Unexpected ("YAML error: " +:+ what e))).

Definition Save (config : LoadBalancerConfig) (filePath : string)
    : M FS (expected unit string) :=
  catch_yaml (
    text ← lift (emit (save_tokens config));
    _ ← (if has_parent_path filePath
         then create_directories (parent_path filePath) else skip);
    is_open ← open_for_writing filePath;
    if negb is_open
    then mret (Unexpected ("Failed to open file for writing: " +:+ filePath))
    else _ ← write_file filePath text; mret (Value tt)).

(** [if (node[key]) { store(node[key].as<A>()); }] *)
Definition read_field {S A} (node : Doc) (key : string) (conv : Doc -> outcome A)
    (store : A -> S -> S) : M S unit :=
  sub ← lift (index node key);
  match sub with
  | None => skip
  | Some sub => a ← lift (conv sub); modify (store a)
  end.

(** [node[key] ? node[key].as<A>() : dflt] *)
Definition field_or {A} (node : Doc) (key : string) (conv : Doc -> outcome A) (dflt : A)
    : outcome A :=
  sub ← index node key;
  match sub with None => Returned dflt | Some sub => conv sub end.

(** Statements on a local object that starts as [x]: the enclosing call sees the
    object only if they all return. *)
Definition on_local {S X} (x : X) (m : M X unit) : M S X :=
  fun s => match m x with
           | (Returned _, x') => (Returned x', s)
           | (Threw e, _) => (Threw e, s)
           end.

Definition load_health (hcNode : Doc) : M HealthCheckConfig unit :=
  _ ← read_field hcNode "enabled" as_bool SetEnabled;
  _ ← read_field hcNode "intervalMs" as_u32 SetIntervalMs;
  _ ← read_field hcNode "timeoutMs" as_u32 SetTimeoutMs;
  read_field hcNode "unhealthyThreshold" as_u32 SetUnhealthyThreshold.

Definition load_connection (connNode : Doc) : M ConnectionConfig unit :=
  _ ← read_field connNode "maxPerService" as_u32 SetMaxPerService;
  _ ← read_field connNode "idleTimeoutMs" as_u32 SetIdleTimeoutMs;
  read_field connNode "connectTimeoutMs" as_u32 SetConnectTimeoutMs.

Definition load_service (serviceNode : Doc) : outcome ServiceNode :=
  name ← field_or serviceNode "name" as_string "";
  ip ← field_or serviceNode "ip" as_string "";
  port ← field_or serviceNode "port" as_u16 0%Z;
  weight ← field_or serviceNode "weight" as_u16 1%Z;
  Returned (ServiceNode.make name ip port weight).

(** [for (const auto &serviceNode : root["services"]) { ... config.AddService(...); }] *)
Fixpoint load_services (nodes : list Doc) : M LoadBalancerConfig unit :=
  match nodes with
  | [] => skip
  | serviceNode :: nodes' =>
      service ← lift (load_service serviceNode);
      _ ← modify (AddService service);
      load_services nodes'
  end.

Definition load_section (root : Doc) (key : string)
    (body : Doc -> M LoadBalancerConfig unit) : M LoadBalancerConfig unit :=
  sub ← lift (index root key);
  match sub with None => skip | Some sub => body sub end.

Definition load_root (root : Doc) : M LoadBalancerConfig unit :=
  _ ← modify ClearServices;
  _ ← read_field root "name" as_string SetName;
  _ ← read_field root "listenAddress" as_string SetListenAddress;
  _ ← read_field root "listenPort" as_u16 SetListenPort;
  _ ← read_field root "routingAlgorithm" as_string SetRoutingAlgorithm;
  _ ← load_section root "healthCheck" (fun hcNode =>
        hc ← on_local HealthCheckConfig.default (load_health hcNode);
        modify (SetHealthCheck hc));
  _ ← load_section root "connection" (fun connNode =>
        conn ← on_local ConnectionConfig.default (load_connection connNode);
        modify (SetConnection conn));
  load_section root "services" (fun services =>
    nodes ← lift (elements_of services); load_services nodes).

Definition Load (fs : FS) (filePath : string) : M LoadBalancerConfig (expected unit string) :=
  catch_yaml (
    root ← lift (LoadFile fs filePath);
    _ ← load_root root;
    mret (Value tt)).

#[export] Instance yaml_serializer : IConfigSerializer.IConfigSerializer FS := {
  Save := Save;
  Load := Load
}.

End Serializer.
(** *** The document [Save] writes *)

Definition service_tree (s : ServiceNode) : tree :=
  TMap [("name", TStr (ServiceNode.GetName s)); ("ip", TStr (ServiceNode.GetIp s));
        ("port", TUInt (ServiceNode.GetPort s));
        ("weight", TUInt (ServiceNode.GetWeight s))].

Definition health_tree (hc : HealthCheckConfig) : tree :=
  TMap [("enabled", TBool (GetEnabled hc)); ("intervalMs", TUInt (GetIntervalMs hc));
        ("timeoutMs", TUInt (GetTimeoutMs hc));
        ("unhealthyThreshold", TUInt (GetUnhealthyThreshold hc))].

Definition connection_tree (conn : ConnectionConfig) : tree :=
  TMap [("maxPerService", TUInt (GetMaxPerService conn));
        ("idleTimeoutMs", TUInt (GetIdleTimeoutMs conn));
        ("connectTimeoutMs", TUInt (GetConnectTimeoutMs conn))].

Definition config_tree (c : LoadBalancerConfig) : tree :=
  TMap [("name", TStr (GetName c)); ("listenAddress", TStr (GetListenAddress c));
        ("listenPort", TUInt (GetListenPort c));
        ("routingAlgorithm", TStr (GetRoutingAlgorithm c));
        ("healthCheck", health_tree (GetHealthCheck c));
        ("connection", connection_tree (GetConnection c));
        ("services", TSeq (service_tree <$> GetServices c))].

(** The calls of [Save] are well bracketed: they stream the configuration's value. *)
Lemma save_tokens_tree c : save_tokens c = tokens_of (config_tree c).
Proof.
  assert (H : forall l, (service_tree <$> l) ≫= tokens_of = l ≫= save_service).
  { induction l as [|s l IH]; [done|]. by rewrite fmap_cons, !bind_cons, IH. }
  unfold save_tokens. rewrite <- H. simpl. by rewrite app_nil_r.
Qed.

Section Theorems.
Context `{YOk : YamlLibOk}.

(** What [Load] can throw on the way is a [YAML::Exception], and [P] still holds. *)
Definition yaml_or {S} (P : S -> Prop) (e : exn) (s : S) : Prop := kind e = KYaml /\ P s.

Lemma hoare_lift_yaml {S A} (P : S -> Prop) (r : outcome A) (R : A -> Prop) :
  (forall a, r = Returned a -> R a) -> (forall e, r = Threw e -> kind e = KYaml) ->
  hoare P (lift r) (fun a s => R a /\ P s) (yaml_or P).
Proof. intros ??. by apply hoare_lift; unfold yaml_or; eauto. Qed.

Lemma hoare_read_field {S A} (R : A -> Prop) (P : S -> Prop) node key conv store :
  (forall d a, conv d = Returned a -> R a) ->
  (forall d e, conv d = Threw e -> kind e = KYaml) ->
  (forall a s, R a -> P s -> P (store a s)) ->
  hoare P (read_field node key conv store) (fun _ => P) (yaml_or P).
Proof.
  intros HR HX HP. unfold read_field.
  eapply hoare_bind; [apply (hoare_lift_yaml _ _ (fun _ => True)); eauto using index_throws|].
  intros [d|]; [|by intros s []]. intros s [_ Hs]. revert s Hs.
  eapply hoare_bind; [apply (hoare_lift_yaml _ _ R); eauto|].
  intros a. apply hoare_modify. naive_solver.
Qed.

Lemma hoare_on_local {S X} (P : S -> Prop) (x : X) m (R : X -> Prop) :
  R x -> hoare R m (fun _ => R) (yaml_or R) ->
  hoare P (on_local x m) (fun a s => R a /\ P s) (yaml_or P).
Proof.
  intros Hx Hm s HP. specialize (Hm x Hx). unfold on_local.
  destruct (m x) as [[[]|e] x']; [done|]. by destruct Hm.
Qed.

Lemma hoare_load_section (P : LoadBalancerConfig -> Prop) root key body :
  (forall d, hoare P (body d) (fun _ => P) (yaml_or P)) ->
  hoare P (load_section root key body) (fun _ => P) (yaml_or P).
Proof.
  intros H. unfold load_section.
  eapply hoare_bind; [apply (hoare_lift_yaml _ _ (fun _ => True)); eauto using index_throws|].
  intros [d|] s [_ Hs]; [by apply H|done].
Qed.

Lemma hoare_seq {S} (P : S -> Prop) (m : M S unit) (f : unit -> M S unit) X :
  hoare P m (fun _ => P) X -> (forall a, hoare P (f a) (fun _ => P) X) ->
  hoare P (m ≫= f) (fun _ => P) X.
Proof. apply hoare_bind. Qed.

(** One statement of a load function. *)
Ltac read_step :=
  match goal with
  | |- hoare _ (read_field _ _ as_string _) _ _ =>
      apply (hoare_read_field (fun _ => True)); [done|apply as_string_throws|]
  | |- hoare _ (read_field _ _ as_bool _) _ _ =>
      apply (hoare_read_field (fun _ => True)); [done|apply as_bool_throws|]
  | |- hoare _ (read_field _ _ as_u16 _) _ _ =>
      apply (hoare_read_field (in_u 16)); [apply as_u16_range|apply as_u16_throws|]
  | |- hoare _ (read_field _ _ as_u32 _) _ _ =>
      apply (hoare_read_field (in_u 32)); [apply as_u32_range|apply as_u32_throws|]
  end; intros ??? Hwf; by destruct_and! Hwf.
Ltac load_steps := repeat (apply hoare_seq; [|intros _]); try read_step.

Lemma load_health_wf d :
  hoare HealthCheckConfig.wf (load_health d) (fun _ => HealthCheckConfig.wf)
        (yaml_or HealthCheckConfig.wf).
Proof. unfold load_health. load_steps. Qed.

Lemma load_connection_wf d :
  hoare ConnectionConfig.wf (load_connection d) (fun _ => ConnectionConfig.wf)
        (yaml_or ConnectionConfig.wf).
Proof. unfold load_connection. load_steps. Qed.

Lemma field_or_inv {A} (R : A -> Prop) node key conv (dflt a : A) :
  R dflt -> (forall d a, conv d = Returned a -> R a) ->
  field_or node key conv dflt = Returned a -> R a.
Proof.
  intros Hd Hc. unfold field_or. destruct (index node key) as [[d|]|]; simpl;
    [eauto|by intros [= <-]|done].
Qed.

Lemma field_or_throws {A} node key conv (dflt : A) e :
  (forall d e, conv d = Threw e -> kind e = KYaml) ->
  field_or node key conv dflt = Threw e -> kind e = KYaml.
Proof.
  intros Hc. unfold field_or.
  destruct (index node key) as [[d|]|e'] eqn:E; simpl; [eauto|done|].
  intros [= <-]. by eapply index_throws.
Qed.

Lemma load_service_wf d s : load_service d = Returned s -> ServiceNode.wf s.
Proof.
  unfold load_service. destruct (field_or d "name" _ _); [simpl|done].
  destruct (field_or d "ip" _ _); [simpl|done].
  destruct (field_or d "port" _ _) as [port|] eqn:Ep; [simpl|done].
  destruct (field_or d "weight" _ _) as [weight|] eqn:Ew; [simpl|done].
  intros [= <-]. split; simpl.
  - eapply (field_or_inv (in_u 16)), Ep; [done|apply as_u16_range].
  - eapply (field_or_inv (in_u 16)), Ew; [done|apply as_u16_range].
Qed.

Lemma load_service_throws d e : load_service d = Threw e -> kind e = KYaml.
Proof.
  unfold load_service. destruct (field_or d "name" _ _) eqn:En; simpl;
    [|intros [= <-]; eapply field_or_throws, En; apply as_string_throws].
  destruct (field_or d "ip" _ _) eqn:Ei; simpl;
    [|intros [= <-]; eapply field_or_throws, Ei; apply as_string_throws].
  destruct (field_or d "port" _ _) eqn:Ep; simpl;
    [|intros [= <-]; eapply field_or_throws, Ep; apply as_u16_throws].
  destruct (field_or d "weight" _ _) eqn:Ew; simpl;
    [done|intros [= <-]; eapply field_or_throws, Ew; apply as_u16_throws].
Qed.

Lemma load_services_wf nodes :
  hoare LoadBalancerConfig.wf (load_services nodes) (fun _ => LoadBalancerConfig.wf)
        (yaml_or LoadBalancerConfig.wf).
Proof.
  induction nodes as [|d nodes IH]; [by intros s Hs|]. cbn [load_services].
  eapply hoare_bind; [apply (hoare_lift_yaml _ _ ServiceNode.wf);
    [apply load_service_wf|apply load_service_throws]|].
  intros s. eapply (hoare_bind _ _ (fun _ => LoadBalancerConfig.wf)); [|done].
  apply hoare_modify. intros c [??]. by apply AddService_wf.
Qed.

Lemma load_root_wf root :
  hoare LoadBalancerConfig.wf (load_root root) (fun _ => LoadBalancerConfig.wf)
        (yaml_or LoadBalancerConfig.wf).
Proof.
  unfold load_root. repeat (apply hoare_seq; [|intros _]); try read_step.
  - apply hoare_modify. by intros s (? & ? & ? & ?).
  - apply hoare_load_section. intros d.
    eapply hoare_bind; [by apply hoare_on_local, load_health_wf|].
    intros hc. apply hoare_modify. by intros s [? (? & ? & ? & ?)].
  - apply hoare_load_section. intros d.
    eapply hoare_bind; [by apply hoare_on_local, load_connection_wf|].
    intros conn. apply hoare_modify. by intros s [? (? & ? & ? & ?)].
  - apply hoare_load_section. intros d.
    eapply hoare_bind; [apply (hoare_lift_yaml _ _ (fun _ => True)); eauto using elements_throws|].
    intros nodes s [_ Hs]. by apply load_services_wf.
Qed.

(** [catch_yaml] turns the YAML exceptions of its body into error values. *)
Lemma hoare_catch_yaml {S} (P : S -> Prop) m :
  hoare P m (fun _ => P) (yaml_or P) ->
  hoare P (catch_yaml m) (fun _ => P) (fun _ _ => False).
Proof.
  intros Hm. eapply hoare_try; [exact Hm| |by intros e s Hk []].
  intros e He s [_ Hs]. done.
Qed.

Lemma read_field_ok {S A} node kvs key t conv (store : A -> S -> S) a s :
  means node (TMap kvs) -> assoc key kvs = Some t ->
  (forall d, means d t -> conv d = Returned a) ->
  read_field node key conv store s = (Returned tt, store a s).
Proof.
  intros Hm Hk Hc. apply (index_ok _ _ key) in Hm. rewrite Hk in Hm.
  destruct Hm as (d & Hi & Hd). unfold read_field, lift.
  erewrite bind_returned by (by rewrite Hi). cbn. by rewrite Hc.
Qed.

Lemma load_section_ok root kvs key t :
  means root (TMap kvs) -> assoc key kvs = Some t ->
  exists d, means d t /\ forall body s, load_section root key body s = body d s.
Proof.
  intros Hm Hk. apply (index_ok _ _ key) in Hm. rewrite Hk in Hm.
  destruct Hm as (d & Hi & Hd). exists d. split; [done|]. intros body s.
  unfold load_section, lift. by erewrite bind_returned by (by rewrite Hi).
Qed.

Lemma field_or_ok {A} node kvs key t conv (dflt a : A) :
  means node (TMap kvs) -> assoc key kvs = Some t ->
  (forall d, means d t -> conv d = Returned a) -> field_or node key conv dflt = Returned a.
Proof.
  intros Hm Hk Hc. apply (index_ok _ _ key) in Hm. rewrite Hk in Hm.
  destruct Hm as (d & Hi & Hd). unfold field_or. rewrite Hi; simpl. by apply Hc.
Qed.

Lemma load_service_ok d s :
  means d (service_tree s) -> ServiceNode.wf s -> load_service d = Returned s.
Proof.
  unfold service_tree. intros Hm [??]. unfold load_service.
  do 4 erewrite field_or_ok by eauto using as_string_ok, as_u16_ok.
  by destruct s.
Qed.

Lemma load_services_ok ds l c :
  Forall2 means ds (service_tree <$> l) -> Forall ServiceNode.wf l ->
  load_services ds c = (Returned tt, with_services (m_services c ++ l) c).
Proof.
  revert ds c; induction l as [|s l IH]; intros ds c Hm Hw.
  - apply Forall2_nil_inv_r in Hm as ->. rewrite app_nil_r. by destruct c.
  - apply Forall2_cons_inv_r in Hm as (d & ds' & Hd & Hds & ->).
    apply Forall_cons in Hw as [Hw Hws]. cbn [load_services].
    erewrite bind_returned by (unfold lift; by rewrite (load_service_ok _ s)).
    erewrite bind_returned by done. rewrite IH by done.
    unfold AddService; simpl. by rewrite <- app_assoc.
Qed.

Lemma load_health_ok d hc :
  means d (health_tree hc) -> HealthCheckConfig.wf hc ->
  load_health d HealthCheckConfig.default = (Returned tt, hc).
Proof.
  unfold health_tree. intros Hm (? & ? & ?). unfold load_health.
  erewrite bind_returned by (eapply read_field_ok; eauto using as_bool_ok).
  do 2 erewrite bind_returned by (eapply read_field_ok; eauto using as_u32_ok).
  erewrite read_field_ok by eauto using as_u32_ok. by destruct hc.
Qed.

Lemma load_connection_ok d conn :
  means d (connection_tree conn) -> ConnectionConfig.wf conn ->
  load_connection d ConnectionConfig.default = (Returned tt, conn).
Proof.
  unfold connection_tree. intros Hm (? & ? & ?). unfold load_connection.
  do 2 erewrite bind_returned by (eapply read_field_ok; eauto using as_u32_ok).
  erewrite read_field_ok by eauto using as_u32_ok. by destruct conn.
Qed.

(** Loading a document that means [c] yields [c], whatever the object held before. *)
Lemma load_root_ok root c c0 :
  means root (config_tree c) -> LoadBalancerConfig.wf c ->
  load_root root c0 = (Returned tt, c).
Proof.
  unfold config_tree. intros Hm (? & Hs & Hh & Hc). unfold load_root.
  erewrite bind_returned by done.
  do 2 erewrite bind_returned by (eapply read_field_ok; eauto using as_string_ok).
  erewrite bind_returned by (eapply read_field_ok; eauto using as_u16_ok).
  erewrite bind_returned by (eapply read_field_ok; eauto using as_string_ok).
  destruct (load_section_ok root _ "healthCheck" _ Hm eq_refl) as (d & Hd & E).
  erewrite bind_returned by (rewrite E; unfold on_local, mbind, M_bind;
    by rewrite (load_health_ok _ _ Hd Hh)).
  clear d Hd E. destruct (load_section_ok root _ "connection" _ Hm eq_refl) as (d & Hd & E).
  erewrite bind_returned by (rewrite E; unfold on_local, mbind, M_bind;
    by rewrite (load_connection_ok _ _ Hd Hc)).
  clear d Hd E. destruct (load_section_ok root _ "services" _ Hm eq_refl) as (d & Hd & E).
  rewrite E. destruct (elements_ok _ _ Hd) as (ds & E' & Hds).
  erewrite bind_returned by (unfold lift; by rewrite E').
  rewrite (load_services_ok _ _ _ Hds) by done. by destruct c.
Qed.

(** The configuration strings the emitter can write. *)
Definition printable_config (c : LoadBalancerConfig) : bool :=
  printable (m_name c) && printable (m_listenAddress c) &&
  printable (m_routingAlgorithm c) &&
  forallb (fun s => printable (ServiceNode.m_name s) && printable (m_ip s)) (m_services c).

Ltac solve_tree_ok :=
  repeat match goal with
         | |- _ /\ _ => split
         | |- NoDup ?l => by apply (bool_decide_unpack (NoDup l))
         | |- tree_ok _ => progress cbn
         | |- _ => done
         end.

Lemma services_tree_ok l :
  forallb (fun s => printable (ServiceNode.m_name s) && printable (m_ip s)) l ->
  tree_ok (TSeq (service_tree <$> l)).
Proof.
  induction l as [|s l IH]; [done|]. cbn [forallb].
  intros [[??]%andb_prop_elim Hl]%andb_prop_elim. split; [solve_tree_ok|by apply IH].
Qed.

Lemma config_tree_ok c : printable_config c -> tree_ok (config_tree c).
Proof.
  unfold printable_config.
  intros [[[??]%andb_prop_elim ?]%andb_prop_elim ?%services_tree_ok]%andb_prop_elim.
  unfold config_tree, health_tree, connection_tree. solve_tree_ok.
Qed.

Lemma Save_success c path fs fs' : Save c path fs = (Returned (Value tt), fs') ->
  exists text fs1, emit (save_tokens c) = Returned text /\
                   write_file path text fs1 = (Returned tt, fs').
Proof.
  unfold Save, catch_yaml, try_catch, lift, mbind, M_bind.
  destruct (emit _) as [text|] eqn:He; [|by case_decide].
  destruct ((if has_parent_path path then create_directories (parent_path path)
             else skip) fs) as [[[]|] fs2]; [|by case_decide].
  destruct (open_for_writing path fs2) as [[[]|] fs3]; simpl; [|done|by case_decide].
  destruct (write_file path text fs3) as [[[]|] fs4] eqn:Hw; [|by case_decide].
  intros [= <-]. by exists text, fs3.
Qed.

(** What [Save] wrote, [Load] reads back. *)
Lemma load_saved c path fs fs' :
  LoadBalancerConfig.wf c -> printable_config c ->
  Save c path fs = (Returned (Value tt), fs') -> flushed fs' path ->
  forall c0, Load fs' path c0 = (Returned (Value tt), c).
Proof.
  intros Hwf Hp%config_tree_ok (text & fs1 & He & Hw)%Save_success Hf c0.
  rewrite save_tokens_tree in He. apply (write_holds _ _ _ _ Hw) in Hf.
  destruct (load_emitted _ _ _ _ Hp He Hf) as (root & Hl & Hm).
  unfold Load, catch_yaml, try_catch, lift. rewrite Hl.
  erewrite bind_returned by done. by erewrite bind_returned by (by apply load_root_ok).
Qed.

(** [Load] returns, and what it leaves fits its types. *)
Lemma load_total fs path c : LoadBalancerConfig.wf c ->
  exists r c', Load fs path c = (Returned r, c') /\ LoadBalancerConfig.wf c'.
Proof.
  intros Hc. assert (H : hoare LoadBalancerConfig.wf (Load fs path)
    (fun _ => LoadBalancerConfig.wf) (fun _ _ => False)).
  { apply hoare_catch_yaml. eapply hoare_bind;
      [apply (hoare_lift_yaml _ _ (fun _ => True)); eauto using load_throws|].
    intros root s [_ Hs]. revert s Hs.
    eapply hoare_bind; [apply load_root_wf|]. by intros [] s Hs. }
  specialize (H c Hc). destruct (Load fs path c) as [[r|e] c']; [by exists r, c'|done].
Qed.

#[export] Instance yaml_contract : IConfigSerializer.SerializerContract FS.
Proof.
  refine {| IConfigSerializer.storable := fun c => LoadBalancerConfig.wf c /\ printable_config c;
            IConfigSerializer.durable := flushed |}.
  intros c path fs fs' [Hwf Hp]. by apply load_saved.
Defined.

(** C14: a configuration whose numbers fit their types and whose strings are printable, if
    [Save] succeeds and the file is written in full, is what [Load] gives back, into
    whatever object it is loaded: every field, the services in order, and both sections.
    [Save] does not look at the state of its output stream, so its success does not
    mean that the file was written in full. *)
Theorem save_load_roundtrip c path fs fs' :
  LoadBalancerConfig.wf c -> printable_config c ->
  Save c path fs = (Returned (Value tt), fs') -> flushed fs' path ->
  forall c0, Load fs' path c0 = (Returned (Value tt), c).
Proof. apply load_saved. Qed.

(** C38: [Load] always returns a [std::expected]; no exception of yaml-cpp escapes it,
    and every number in the object fits its C++ type afterwards, on error paths too. *)
Theorem Load_total fs path c : LoadBalancerConfig.wf c ->
  exists r c', Load fs path c = (Returned r, c') /\ LoadBalancerConfig.wf c'.
Proof. apply load_total. Qed.

(** A file that cannot be opened or parsed leaves the object untouched, and the
    error value carries yaml-cpp's message. *)
Theorem Load_unreadable fs path c e :
  LoadFile fs path = Threw e ->
  Load fs path c = (Returned (Unexpected ("YAML error: " +:+ what e)), c).
Proof.
  intros He. pose proof (load_throws _ _ _ He). unfold Load, catch_yaml, try_catch, lift.
  erewrite bind_threw by (by rewrite He). by rewrite decide_True.
Qed.

(** Once the file parses, the services of the old object are gone on every path:
    a conversion error half way leaves the object without them. *)
Theorem Load_forgets_services fs path root c :
  LoadFile fs path = Returned root ->
  Load fs path c = Load fs path (ClearServices c).
Proof.
  intros Hl. unfold Load, catch_yaml, try_catch, lift.
  by do 2 erewrite (bind_returned (fun s => (LoadFile fs path, s))) by (by rewrite Hl).
Qed.

(** [Save] catches YAML exceptions only: when [create_directories] throws a
    [filesystem_error] the exception leaves [Save], although its result type is a
    [std::expected]. *)
Theorem Save_filesystem_error_escapes c path fs text e fs' :
  emit (save_tokens c) = Returned text -> has_parent_path path = true ->
  create_directories (parent_path path) fs = (Threw e, fs') -> kind e = KFilesystem ->
  Save c path fs = (Threw e, fs').
Proof.
  intros He Hp Hd Hk. unfold Save, catch_yaml, try_catch, lift. rewrite Hp.
  erewrite bind_returned by (by rewrite He). erewrite bind_threw by done.
  by rewrite decide_False by (rewrite Hk; done).
Qed.

End Theorems.

End YamlConfigSerializer.
