(* ===== verification/YamlInstance.v ===== *)
(** * A concrete YAML library and disk

    [YamlLibOk] is satisfiable: documents are trees, a file holds the token list of
    its document, and [parse] is a stack machine that rebuilds the tree.  The
    theorems of [Serialization] are applied to it on concrete configurations. *)

From S2P Require Import Prelude Node Config Serialization.

(** ** The parser *)
Module TreeYaml.

Inductive slot := Idle | WantKey | HaveKey (k : string) | WantValue (k : string).
Inductive frame := FMap (kvs : list (string * tree)) (s : slot) | FSeq (ts : list tree).

(** A finished value goes into the innermost open collection. *)
Definition place (v : tree) (st : list frame) : option (list frame * option tree) :=
  match st with
  | [] => Some ([], Some v)
  | FMap kvs WantKey :: r =>
      match v with TStr k => Some (FMap kvs (HaveKey k) :: r, None) | _ => None end
  | FMap kvs (WantValue k) :: r => Some (FMap (kvs ++ [(k, v)]) Idle :: r, None)
  | FMap _ _ :: _ => None
  | FSeq ts :: r => Some (FSeq (ts ++ [v]) :: r, None)
  end.

Definition step (t : token) (st : list frame) : option (list frame * option tree) :=
  match t, st with
  | Str s, _ => place (TStr s) st
  | UInt z, _ => place (TUInt z) st
  | Bool b, _ => place (TBool b) st
  | BeginMap, _ => Some (FMap [] Idle :: st, None)
  | BeginSeq, _ => Some (FSeq [] :: st, None)
  | EndMap, FMap kvs Idle :: r => place (TMap kvs) r
  | EndSeq, FSeq ts :: r => place (TSeq ts) r
  | Key, FMap kvs Idle :: r => Some (FMap kvs WantKey :: r, None)
  | YValue, FMap kvs (HaveKey k) :: r => Some (FMap kvs (WantValue k) :: r, None)
  | _, _ => None
  end.

Fixpoint run (ts : list token) (s : list frame * option tree) : option tree :=
  match s, ts with
  | (_, Some v), [] => Some v
  | (_, Some _), _ :: _ => None
  | (_, None), [] => None
  | (st, None), t :: ts' => s' ← step t st; run ts' s'
  end.

Definition parse (ts : list token) : option tree := run ts ([], None).

Section tree_ind.
Context (P : tree -> Prop).
Hypothesis HStr : forall s, P (TStr s).
Hypothesis HUInt : forall z, P (TUInt z).
Hypothesis HBool : forall b, P (TBool b).
Hypothesis HMap : forall kvs, Forall (fun kv => P kv.2) kvs -> P (TMap kvs).
Hypothesis HSeq : forall ts, Forall P ts -> P (TSeq ts).

Fixpoint tree_nested_ind (t : tree) : P t :=
  match t with
  | TStr s => HStr s
  | TUInt z => HUInt z
  | TBool b => HBool b
  | TMap kvs => HMap kvs ((fix go kvs : Forall (fun kv => P kv.2) kvs :=
      match kvs with
      | [] => Forall_nil_2 _
      | kv :: kvs' => Forall_cons_2 _ kv kvs' (tree_nested_ind kv.2) (go kvs')
      end) kvs)
  | TSeq ts => HSeq ts ((fix go ts : Forall P ts :=
      match ts with
      | [] => Forall_nil_2 _
      | t :: ts' => Forall_cons_2 _ t ts' (tree_nested_ind t) (go ts')
      end) ts)
  end.
End tree_ind.

Definition accepts (t : tree) : Prop := forall rest st s',
  place t st = Some s' -> run (tokens_of t ++ rest) (st, None) = run rest s'.

Lemma run_scalar tok rest st s' :
  step tok st = Some s' -> run (tok :: rest) (st, None) = run rest s'.
Proof. simpl. by intros ->. Qed.

Lemma run_entries kvs rest done st :
  Forall (fun kv => accepts kv.2) kvs ->
  run ((kvs ≫= fun kv => field kv.1 (tokens_of kv.2)) ++ rest) (FMap done Idle :: st, None)
  = run rest (FMap (done ++ kvs) Idle :: st, None).
Proof.
  intros H. revert done. induction H as [|[k v] kvs Hv _ IH]; intros done.
  - by rewrite app_nil_r.
  - rewrite bind_cons, <- app_assoc. simpl.
    erewrite Hv by reflexivity. by rewrite IH, <- app_assoc.
Qed.

Lemma run_elements ts rest done st :
  Forall accepts ts ->
  run ((ts ≫= tokens_of) ++ rest) (FSeq done :: st, None)
  = run rest (FSeq (done ++ ts) :: st, None).
Proof.
  intros H. revert done. induction H as [|t ts Ht _ IH]; intros done.
  - by rewrite app_nil_r.
  - rewrite bind_cons, <- app_assoc. erewrite Ht by reflexivity.
    by rewrite IH, <- app_assoc.
Qed.

Lemma tokens_accepted t : accepts t.
Proof.
  induction t as [s|z|b|kvs IH|ts IH] using tree_nested_ind; intros rest st s' Hp;
    cbn [tokens_of]; try by apply run_scalar.
  - simpl app. erewrite run_scalar by done. rewrite <- app_assoc, run_entries by done.
    by apply run_scalar.
  - simpl app. erewrite run_scalar by done. rewrite <- app_assoc, run_elements by done.
    by apply run_scalar.
Qed.

Lemma parse_tokens t : parse (tokens_of t) = Some t.
Proof.
  unfold parse. rewrite <- (app_nil_r (tokens_of t)).
  by erewrite tokens_accepted by reflexivity.
Qed.

(** ** The library *)

(** [files] maps paths to contents; directories of [blocked] cannot be created. *)
Record disk := mkDisk { files : gmap string (list token); blocked : gset string }.

Definition yaml_error {A} (what : string) : outcome A := Threw (Exn KYaml what).

Definition lookup_key (d : tree) (k : string) : outcome (option tree) :=
  match d with
  | TMap kvs => Returned (assoc k kvs)
  | TSeq _ => Returned None
  | _ => yaml_error "operator[] call on a scalar"
  end.

Definition to_string (d : tree) : outcome string :=
  match d with
  | TStr s => Returned s
  | TUInt z => Returned (pretty z)
  | TBool b => Returned (if b then "true" else "false")
  | _ => yaml_error "bad conversion"
  end.

Definition to_uint (w : Z) (d : tree) : outcome Z :=
  match d with
  | TUInt z => if decide (in_u w z) then Returned z else yaml_error "bad conversion"
  | _ => yaml_error "bad conversion"
  end.

Definition to_bool (d : tree) : outcome bool :=
  match d with TBool b => Returned b | _ => yaml_error "bad conversion" end.

Definition children (d : tree) : outcome (list tree) :=
  match d with TSeq ts => Returned ts | _ => Returned [] end.

Definition load_file (fs : disk) (path : string) : outcome tree :=
  match files fs !! path with
  | None => yaml_error ("bad file: " +:+ path)
  | Some ts => match parse ts with Some t => Returned t | None => yaml_error "parser" end
  end.

(** Paths of the form "dir/file". *)
Fixpoint split_dir (path : string) : option (string * string) :=
  match path with
  | "" => None
  | String c path' =>
      if Ascii.eqb c "/" then Some ("", path')
      else prod_map (String c) id <$> split_dir path'
  end.
Definition dir_of (path : string) : string := from_option fst "" (split_dir path).

#[export] Instance tree_yaml : YamlLib := {|
  Doc := tree; Text := list token; FS := disk;
  emit := Returned;
  LoadFile := load_file;
  index := lookup_key;
  as_string := to_string;
  as_u16 := to_uint 16;
  as_u32 := to_uint 32;
  as_bool := to_bool;
  elements_of := children;
  has_parent_path p := bool_decide (is_Some (split_dir p));
  parent_path := dir_of;
  create_directories d fs :=
    if decide (d ∈ blocked fs) then (Threw (Exn KFilesystem d), fs)
    else (Returned tt, fs);
  open_for_writing p fs := (Returned true, mkDisk (<[p := []]> (files fs)) (blocked fs));
  write_file p t fs := (Returned tt, mkDisk (<[p := t]> (files fs)) (blocked fs))
|}.

Lemma to_uint_ok w z : in_u w z -> to_uint w (TUInt z) = Returned z.
Proof. intros. simpl. by rewrite decide_True. Qed.

Lemma to_uint_range w d z : to_uint w d = Returned z -> in_u w z.
Proof. destruct d; simpl; try done. case_decide; by intros [= <-]. Qed.

Lemma to_uint_throws w d e : to_uint w d = Threw e -> kind e = KYaml.
Proof. destruct d; simpl; try case_decide; by intros [= <-]. Qed.

#[export] Instance tree_yaml_ok : YamlLibOk tree_yaml.
Proof.
  apply (Build_YamlLibOk tree_yaml (fun d t => d = t)
    (fun fs p t => files fs !! p = Some t) (fun _ _ => True)).
  - intros p t fs fs' [= <-] _. apply lookup_insert_eq.
  - intros t text fs p _ [= <-] Hh. exists t. split; [|done].
    cbn in *. unfold load_file. by rewrite Hh, parse_tokens.
  - intros d kvs k ->; simpl. destruct (assoc k kvs); eauto.
  - intros d ts ->. exists ts. split; [done|]. by induction ts; constructor.
  - by intros d s ->.
  - by intros d b ->.
  - intros d z ->. apply to_uint_ok.
  - intros d z ->. apply to_uint_ok.
  - apply to_uint_range.
  - apply to_uint_range.
  - done.
  - intros fs p e; simpl. unfold load_file. repeat case_match; by intros [= <-].
  - intros d k e. destruct d; by intros [= <-].
  - intros d e. by destruct d.
  - intros d e. destruct d; by intros [= <-].
  - intros d e. destruct d; by intros [= <-].
  - apply to_uint_throws.
  - apply to_uint_throws.
Defined.

End TreeYaml.

(** ** The theorems of [Serialization] at concrete inputs *)
Module YamlWitnesses.
Import TreeYaml YamlConfigSerializer.
Abbreviation save := (Save (Y := tree_yaml)).
Abbreviation load := (Load (Y := tree_yaml)).

Definition config : LoadBalancerConfig.LoadBalancerConfig :=
  LoadBalancerConfig.make "lb" "127.0.0.1" 8080 "consistent-hash"
    [ServiceNode.make "a" "10.0.0.1" 9001 1; ServiceNode.make "b" "10.0.0.2" 9002 3]
    (HealthCheckConfig.make false 50 20 2) (ConnectionConfig.make 10 0 1000).

Definition empty_disk : FS (YamlLib := tree_yaml) := mkDisk ∅ {["etc"]}.
Definition saved : FS (YamlLib := tree_yaml) := (save config "lb.yaml" empty_disk).2.

Example save_load_roundtrip_witness :
  load saved "lb.yaml" LoadBalancerConfig.default = (Returned (Value tt), config).
Proof.
  apply (save_load_roundtrip config "lb.yaml" empty_disk saved).
  - by apply (bool_decide_unpack (LoadBalancerConfig.wf config)).
  - reflexivity.
  - reflexivity.
  - exact I.
Defined.

Example Load_total_witness :
  exists r c', load empty_disk "lb.yaml" config = (Returned r, c') /\
               LoadBalancerConfig.wf c'.
Proof.
  apply Load_total. by apply (bool_decide_unpack (LoadBalancerConfig.wf config)).
Defined.

Example Load_unreadable_witness :
  load empty_disk "lb.yaml" config =
  (Returned (Unexpected "YAML error: bad file: lb.yaml"), config).
Proof.
  apply (Load_unreadable empty_disk "lb.yaml" config (Exn KYaml "bad file: lb.yaml")).
  reflexivity.
Defined.

Example Load_forgets_services_witness :
  load saved "lb.yaml" config =
  load saved "lb.yaml" (LoadBalancerConfig.ClearServices config).
Proof.
  apply (Load_forgets_services saved "lb.yaml" (config_tree config)). reflexivity.
Defined.

Example Save_filesystem_error_escapes_witness :
  save config "etc/lb.yaml" empty_disk = (Threw (Exn KFilesystem "etc"), empty_disk).
Proof.
  apply (Save_filesystem_error_escapes config "etc/lb.yaml" empty_disk
           (save_tokens config)); reflexivity.
Defined.

End YamlWitnesses.
