(* ===== verification/Settings.v ===== *)
(** * ui/AppSettings: the defaults of the configuration tool

    The tool keeps its settings in a TOML file.  toml++ and the streams are not code of
    the repository: [TomlLib] lists what [AppSettings] calls, [TomlLibOk] the documented
    behaviour, in terms of documents that are lists of lines.

    [SaveToFile] is the text it streams, character for character; [LoadFromFile] runs
    on the object and the file system. *)

From S2P Require Import Prelude Text.

(** ** TOML *)

(** The calls of [AppSettings] on toml++, [std::filesystem] and [std::ofstream].
    [view] is [toml::node_view]; a view of nothing has no value of any type. *)
Class TomlLib (FileSystem : Type) := {
  table : Type;
  view : Type;
  exists_ : FileSystem -> string -> outcome bool;         (* filesystem::exists *)
  parse_file : FileSystem -> string -> outcome table;
  at_key : table -> string -> view;                       (* table[key] *)
  view_at : view -> string -> view;                       (* view[key] *)
  as_table : view -> option table;
  value_string : view -> option string;                   (* view.value<T>() *)
  value_int : view -> option Z;                           (* int64_t *)
  value_bool : view -> option bool;
  open_text : string -> M FileSystem bool;                (* the ofstream; is_open() *)
  write_text : string -> string -> M FileSystem unit      (* fout << ... *)
}.

(** [view.value_or(x)] *)
Definition value_or {A} (value : option A) (x : A) : A := from_option id x value.

(** *** What the program relies on *)
Inductive scalar := SStr (s : string) | SInt (z : Z) | SBool (b : bool).

Inductive line :=
  | Remark (s : string)                       (* # ... *)
  | Blank
  | Section_ (path : list string)             (* [a.b] *)
  | Assign (key : string) (v : scalar).       (* key = value *)

Fixpoint dotted (path : list string) : string :=
  match path with
  | [] => ""
  | [k] => k
  | k :: path' => k +:+ "." +:+ dotted path'
  end.

Definition scalar_text (v : scalar) : string :=
  match v with
  | SStr s => quoted s
  | SInt z => pretty z
  | SBool b => if b then "true" else "false"
  end.

Definition line_text (l : line) : string :=
  match l with
  | Remark s => "#" +:+ s
  | Blank => ""
  | Section_ path => "[" +:+ dotted path +:+ "]"
  | Assign k v => k +:+ " = " +:+ scalar_text v
  end.

Fixpoint doc_text (doc : list line) : string :=
  match doc with [] => "" | l :: doc' => line_text l +:+ nl +:+ doc_text doc' end.

(** What a document says: the values at their full paths, the sections without one. *)
Fixpoint entries (section : list string) (doc : list line)
    : list (list string * option scalar) :=
  match doc with
  | [] => []
  | Section_ path :: doc' => (path, None) :: entries path doc'
  | Assign k v :: doc' => (section ++ [k], Some v) :: entries section doc'
  | _ :: doc' => entries section doc'
  end.

(** Bare keys and basic strings that need no escape. *)
Definition between (a b : Z) (c : ascii) : bool :=
  let n := Z.of_N (N_of_ascii c) in (a <=? n)%Z && (n <=? b)%Z.
Definition bare_char (c : ascii) : bool :=
  between 97 122 c || between 65 90 c || between 48 57 c || Ascii.eqb c "_" || Ascii.eqb c "-".
Definition plain_char (c : ascii) : bool :=
  between 32 126 c && negb (Ascii.eqb c "034") && negb (Ascii.eqb c "\").
Definition bare (k : string) : bool := negb (String.eqb k "") && every bare_char k.
Definition plain : string -> bool := every plain_char.

Definition scalar_ok (v : scalar) : bool :=
  match v with
  | SStr s => plain s
  | SInt z => (0 <=? z)%Z && (z <? 2 ^ 63)%Z
  | SBool _ => true
  end.

Definition line_ok (l : line) : bool :=
  match l with
  | Remark s => every (between 32 126) s
  | Blank => true
  | Section_ path => negb (bool_decide (path = [])) && forallb bare path
  | Assign k v => bare k && scalar_ok v
  end.

(** No path is given twice, and no value is given at or above a table. *)
Definition extends (p q : list string) : bool := bool_decide (take (length p) q = p).
Fixpoint consistent (l : list (list string * option scalar)) : bool :=
  match l with
  | [] => true
  | (p, v) :: l' =>
      forallb (fun e => negb (bool_decide (p = e.1)) &&
        match v with Some _ => negb (extends p e.1) | None => true end &&
        match e.2 with Some _ => negb (extends e.1 p) | None => true end) l' &&
      consistent l'
  end.

Definition doc_ok (doc : list line) : bool := forallb line_ok doc && consistent (entries [] doc).

(** The view at a path of keys. *)
Definition walk {FileSystem} `{TomlLib FileSystem} (t : table) (k : string) (path : list string) : view :=
  fold_left view_at path (at_key t k).

Definition has_value_of {FileSystem} `{TomlLib FileSystem} (w : view) (v : scalar) : Prop :=
  match v with
  | SStr s => value_string w = Some s
  | SInt z => value_int w = Some z
  | SBool b => value_bool w = Some b
  end.

Lemma walk_key {FileSystem} `{TomlLib FileSystem} (t : table) k ks key :
  view_at (walk t k ks) key = walk t k (ks ++ [key]).
Proof. unfold walk. by rewrite fold_left_app. Qed.

(** The documented behaviour: [text_at fs path s] says that the file consists of [s],
    [flushed_text fs path] that the last stream on it wrote all it was given. *)
Class TomlLibOk {FileSystem} (T : TomlLib FileSystem) := {
  text_at : FileSystem -> string -> string -> Prop;
  flushed_text : FileSystem -> string -> Prop;
  write_text_at path s fs fs' :
    write_text path s fs = (Returned tt, fs') -> flushed_text fs' path -> text_at fs' path s;
  parse_throws fs path e : parse_file fs path = Threw e -> kind e = KToml;
  parse_doc doc fs path : doc_ok doc -> text_at fs path (doc_text doc) ->
    exists t, parse_file fs path = Returned t /\
      (forall k ks v, (k :: ks, Some v) ∈ entries [] doc -> has_value_of (walk t k ks) v) /\
      (forall k ks, (k :: ks, None) ∈ entries [] doc ->
        exists t', as_table (walk t k ks) = Some t' /\
                   forall key, at_key t' key = walk t k (ks ++ [key]))
}.

(** ** AppSettings *)
Module AppSettings.

Record AppSettings := mk {
  m_configFilePath : string;
  m_defaultName : string;
  m_defaultListenAddress : string;
  m_defaultListenPort : Z;                        (* uint16_t *)
  m_defaultRoutingAlgorithm : string;
  m_defaultHealthCheckEnabled : bool;
  m_defaultHealthCheckIntervalMs : Z;             (* uint32_t, as are those below *)
  m_defaultHealthCheckTimeoutMs : Z;
  m_defaultHealthCheckUnhealthyThreshold : Z;
  m_defaultMaxPerService : Z;
  m_defaultIdleTimeoutMs : Z;
  m_defaultConnectTimeoutMs : Z
}.

#[export] Instance AppSettings_eq_dec : EqDecision AppSettings.
Proof. solve_decision. Defined.

(** [AppSettings()] *)
Definition make : AppSettings :=
  mk "bitbridge-config.yaml" "my-bit-bridge-lb" "0.0.0.0" 8080 "p2c" true 5000 2000 3
     1024 30000 5000.

Definition GetConfigFilePath (s : AppSettings) : string := m_configFilePath s.
Definition GetDefaultName (s : AppSettings) : string := m_defaultName s.
Definition GetDefaultListenAddress (s : AppSettings) : string := m_defaultListenAddress s.
Definition GetDefaultListenPort (s : AppSettings) : Z := m_defaultListenPort s.
Definition GetDefaultRoutingAlgorithm (s : AppSettings) : string := m_defaultRoutingAlgorithm s.
Definition GetDefaultHealthCheckEnabled (s : AppSettings) : bool := m_defaultHealthCheckEnabled s.
Definition GetDefaultHealthCheckIntervalMs (s : AppSettings) : Z :=
  m_defaultHealthCheckIntervalMs s.
Definition GetDefaultHealthCheckTimeoutMs (s : AppSettings) : Z :=
  m_defaultHealthCheckTimeoutMs s.
Definition GetDefaultHealthCheckUnhealthyThreshold (s : AppSettings) : Z :=
  m_defaultHealthCheckUnhealthyThreshold s.
Definition GetDefaultMaxPerService (s : AppSettings) : Z := m_defaultMaxPerService s.
Definition GetDefaultIdleTimeoutMs (s : AppSettings) : Z := m_defaultIdleTimeoutMs s.
Definition GetDefaultConnectTimeoutMs (s : AppSettings) : Z := m_defaultConnectTimeoutMs s.

Definition wf (s : AppSettings) : Prop :=
  in_u 16 (m_defaultListenPort s) /\ in_u 32 (m_defaultHealthCheckIntervalMs s) /\
  in_u 32 (m_defaultHealthCheckTimeoutMs s) /\
  in_u 32 (m_defaultHealthCheckUnhealthyThreshold s) /\
  in_u 32 (m_defaultMaxPerService s) /\ in_u 32 (m_defaultIdleTimeoutMs s) /\
  in_u 32 (m_defaultConnectTimeoutMs s).

#[export] Instance wf_dec s : Decision (wf s).
Proof. unfold wf. apply _. Defined.

Section AppSettings.
Context {FileSystem : Type} `{T : TomlLib FileSystem}.

(** What [SaveToFile] streams, statement by statement. *)
Definition settings_text (s : AppSettings) : string :=
  "# Bit Bridge - User Interface Settings" +:+ nl +:+
  "# These values configure the UI defaults, not the load balancer itself." +:+ nl +:+ nl +:+
  "# Path to the load balancer configuration file (YAML)" +:+ nl +:+
  "config_file_path = " +:+ dq +:+ m_configFilePath s +:+ dq +:+ nl +:+ nl +:+
  "# Default values pre-filled when creating a new configuration" +:+ nl +:+
  "[defaults]" +:+ nl +:+
  "name = " +:+ dq +:+ m_defaultName s +:+ dq +:+ nl +:+
  "listen_address = " +:+ dq +:+ m_defaultListenAddress s +:+ dq +:+ nl +:+
  "listen_port = " +:+ pretty (m_defaultListenPort s) +:+ nl +:+
  "routing_algorithm = " +:+ dq +:+ m_defaultRoutingAlgorithm s +:+ dq +:+ nl +:+ nl +:+
  "[defaults.health_check]" +:+ nl +:+
  "enabled = " +:+ (if m_defaultHealthCheckEnabled s then "true" else "false") +:+ nl +:+
  "interval_ms = " +:+ pretty (m_defaultHealthCheckIntervalMs s) +:+ nl +:+
  "timeout_ms = " +:+ pretty (m_defaultHealthCheckTimeoutMs s) +:+ nl +:+
  "unhealthy_threshold = " +:+ pretty (m_defaultHealthCheckUnhealthyThreshold s) +:+ nl +:+ nl +:+
  "[defaults.connection]" +:+ nl +:+
  "max_per_service = " +:+ pretty (m_defaultMaxPerService s) +:+ nl +:+
  "idle_timeout_ms = " +:+ pretty (m_defaultIdleTimeoutMs s) +:+ nl +:+
  "connect_timeout_ms = " +:+ pretty (m_defaultConnectTimeoutMs s) +:+ nl.

Definition SaveToFile (s : AppSettings) (filePath : string) : M FileSystem bool :=
  try_catch (
    is_open ← open_text filePath;
    if negb is_open then mret false
    else _ ← write_text filePath (settings_text s); mret true)
  KIosFailure (fun _ => mret false).

(** The statements of [LoadFromFile] on the object; none of them throws. *)
Definition load_defaults (defaults : table) (s : AppSettings) : AppSettings :=
  mk (m_configFilePath s)
     (value_or (value_string (at_key defaults "name")) (m_defaultName s))
     (value_or (value_string (at_key defaults "listen_address")) (m_defaultListenAddress s))
     (u16 (value_or (value_int (at_key defaults "listen_port")) (m_defaultListenPort s)))
     (value_or (value_string (at_key defaults "routing_algorithm"))
               (m_defaultRoutingAlgorithm s))
     (m_defaultHealthCheckEnabled s) (m_defaultHealthCheckIntervalMs s)
     (m_defaultHealthCheckTimeoutMs s) (m_defaultHealthCheckUnhealthyThreshold s)
     (m_defaultMaxPerService s) (m_defaultIdleTimeoutMs s) (m_defaultConnectTimeoutMs s).

Definition load_health (hc : table) (s : AppSettings) : AppSettings :=
  mk (m_configFilePath s) (m_defaultName s) (m_defaultListenAddress s) (m_defaultListenPort s)
     (m_defaultRoutingAlgorithm s)
     (value_or (value_bool (at_key hc "enabled")) (m_defaultHealthCheckEnabled s))
     (u32 (value_or (value_int (at_key hc "interval_ms")) (m_defaultHealthCheckIntervalMs s)))
     (u32 (value_or (value_int (at_key hc "timeout_ms")) (m_defaultHealthCheckTimeoutMs s)))
     (u32 (value_or (value_int (at_key hc "unhealthy_threshold"))
                    (m_defaultHealthCheckUnhealthyThreshold s)))
     (m_defaultMaxPerService s) (m_defaultIdleTimeoutMs s) (m_defaultConnectTimeoutMs s).

Definition load_connection (conn : table) (s : AppSettings) : AppSettings :=
  mk (m_configFilePath s) (m_defaultName s) (m_defaultListenAddress s) (m_defaultListenPort s)
     (m_defaultRoutingAlgorithm s) (m_defaultHealthCheckEnabled s)
     (m_defaultHealthCheckIntervalMs s) (m_defaultHealthCheckTimeoutMs s)
     (m_defaultHealthCheckUnhealthyThreshold s)
     (u32 (value_or (value_int (at_key conn "max_per_service")) (m_defaultMaxPerService s)))
     (u32 (value_or (value_int (at_key conn "idle_timeout_ms")) (m_defaultIdleTimeoutMs s)))
     (u32 (value_or (value_int (at_key conn "connect_timeout_ms"))
                    (m_defaultConnectTimeoutMs s))).

Definition load_path (tbl : table) (s : AppSettings) : AppSettings :=
  mk (value_or (value_string (at_key tbl "config_file_path")) (m_configFilePath s))
     (m_defaultName s) (m_defaultListenAddress s) (m_defaultListenPort s)
     (m_defaultRoutingAlgorithm s) (m_defaultHealthCheckEnabled s)
     (m_defaultHealthCheckIntervalMs s) (m_defaultHealthCheckTimeoutMs s)
     (m_defaultHealthCheckUnhealthyThreshold s) (m_defaultMaxPerService s)
     (m_defaultIdleTimeoutMs s) (m_defaultConnectTimeoutMs s).

(** [if (auto t = w.as_table()) { body }] *)
Definition if_table (w : view) (body : table -> AppSettings -> AppSettings)
    (s : AppSettings) : AppSettings :=
  match as_table w with Some t => body t s | None => s end.

Definition load_table (tbl : table) (s : AppSettings) : AppSettings :=
  let s := load_path tbl s in
  let s := if_table (at_key tbl "defaults") load_defaults s in
  let s := if_table (view_at (at_key tbl "defaults") "health_check") load_health s in
  if_table (view_at (at_key tbl "defaults") "connection") load_connection s.

(** A call on the file system, next to the object. *)
Definition on_disk {A} (m : M FileSystem A) : M (AppSettings * FileSystem) A :=
  fun '(s, fs) => let '(r, fs') := m fs in (r, (s, fs')).

Definition LoadFromFile (filePath : string) : M (AppSettings * FileSystem) bool :=
  w ← get_state;
  found ← lift (exists_ w.2 filePath);
  if negb found then on_disk (SaveToFile w.1 filePath)
  else try_catch (
    tbl ← lift (parse_file w.2 filePath);
    _ ← modify (prod_map (load_table tbl) id);
    mret true)
  KToml (fun _ => mret false).

End AppSettings.

(** *** The document [SaveToFile] writes *)
Definition settings_doc (s : AppSettings) : list line :=
  [Remark " Bit Bridge - User Interface Settings";
   Remark " These values configure the UI defaults, not the load balancer itself."; Blank;
   Remark " Path to the load balancer configuration file (YAML)";
   Assign "config_file_path" (SStr (m_configFilePath s)); Blank;
   Remark " Default values pre-filled when creating a new configuration";
   Section_ ["defaults"];
   Assign "name" (SStr (m_defaultName s));
   Assign "listen_address" (SStr (m_defaultListenAddress s));
   Assign "listen_port" (SInt (m_defaultListenPort s));
   Assign "routing_algorithm" (SStr (m_defaultRoutingAlgorithm s)); Blank;
   Section_ ["defaults"; "health_check"];
   Assign "enabled" (SBool (m_defaultHealthCheckEnabled s));
   Assign "interval_ms" (SInt (m_defaultHealthCheckIntervalMs s));
   Assign "timeout_ms" (SInt (m_defaultHealthCheckTimeoutMs s));
   Assign "unhealthy_threshold" (SInt (m_defaultHealthCheckUnhealthyThreshold s)); Blank;
   Section_ ["defaults"; "connection"];
   Assign "max_per_service" (SInt (m_defaultMaxPerService s));
   Assign "idle_timeout_ms" (SInt (m_defaultIdleTimeoutMs s));
   Assign "connect_timeout_ms" (SInt (m_defaultConnectTimeoutMs s))].

Lemma settings_text_doc s : settings_text s = doc_text (settings_doc s).
Proof.
  unfold settings_text, settings_doc. cbn [doc_text line_text scalar_text dotted]. unfold quoted.
  by rewrite ?app_empty_r, ?app_assoc'.
Qed.

(** The strings that TOML's basic strings hold as they are. *)
Definition plain_settings (s : AppSettings) : bool :=
  plain (m_configFilePath s) && plain (m_defaultName s) && plain (m_defaultListenAddress s) &&
  plain (m_defaultRoutingAlgorithm s).

Lemma scalar_int_ok w z : (w <= 63)%Z -> in_u w z -> scalar_ok (SInt z).
Proof.
  intros Hw [H0 H1]. apply andb_prop_intro. split; apply Is_true_eq_left.
  - by apply Z.leb_le.
  - apply Z.ltb_lt. eapply Z.lt_le_trans; [exact H1|]. by apply Z.pow_le_mono_r.
Qed.

Lemma settings_doc_ok s : wf s -> plain_settings s -> doc_ok (settings_doc s).
Proof.
  intros (? & ? & ? & ? & ? & ? & ?) [[[? ?]%andb_prop_elim ?]%andb_prop_elim ?]%andb_prop_elim.
  apply andb_prop_intro. split; [|by apply Is_true_true].
  assert (Hall : forall l, Forall (fun x => Is_true (line_ok x)) l -> Is_true (forallb line_ok l)).
  { intros l. induction 1; [done|]. by apply andb_prop_intro. }
  apply Hall. unfold settings_doc.
  repeat (constructor; [first [done | apply andb_prop_intro; split; [done|];
    first [done | by eapply (scalar_int_ok 16) | by eapply (scalar_int_ok 32)]]|]).
  constructor.
Qed.

(** ** What loading and saving do *)
Section Theorems.
Context {FileSystem : Type} `{TOk : TomlLibOk FileSystem}.

(** Every number that is read passes through a cast to its type. *)
Lemma if_table_wf (w : view) body s : (forall t s, wf s -> wf (body t s)) ->
  wf s -> wf (if_table w body s).
Proof. intros Hb Hs. unfold if_table. destruct (as_table w); auto. Qed.

Lemma load_table_wf tbl s : wf s -> wf (load_table tbl s).
Proof.
  intros Hs. unfold load_table. repeat apply if_table_wf; try done;
    intros t s' (? & ? & ? & ? & ? & ? & ?); split_and!; try done; by apply wrapu_in.
Qed.

Lemma SaveToFile_object path s fs r w :
  on_disk (SaveToFile s path) (s, fs) = (r, w) -> w.1 = s.
Proof. unfold on_disk. destruct (SaveToFile s path fs). by intros [= <- <-]. Qed.

(** The three ways through [LoadFromFile]. *)
Lemma LoadFromFile_cases path s fs r w : LoadFromFile path (s, fs) = (r, w) ->
  (r <> Returned true /\ w.1 = s) \/
  (exists_ fs path = Returned false /\ r = Returned true /\ w.1 = s) \/
  (exists tbl, parse_file fs path = Returned tbl /\ r = Returned true /\
               w = (load_table tbl s, fs)).
Proof.
  unfold LoadFromFile, lift. erewrite (bind_returned get_state) by done. cbn [fst snd].
  destruct (exists_ fs path) as [[]|e] eqn:Ee.
  - erewrite bind_returned by done. unfold try_catch. cbn [negb].
    destruct (parse_file fs path) as [tbl|e] eqn:Ep.
    + erewrite bind_returned by done. intros [= <- <-]. right. right. by exists tbl.
    + erewrite bind_threw by done. apply parse_throws in Ep as Hk.
      rewrite decide_True by done. intros [= <- <-]. by left.
  - erewrite bind_returned by done. cbn [negb]. intros E.
    apply SaveToFile_object in E as Hs.
    destruct (decide (r = Returned true)) as [->|]; [|by left]. right. by left.
  - erewrite bind_threw by done. intros [= <- <-]. by left.
Qed.

Lemma LoadFromFile_wf path s fs r w : wf s -> LoadFromFile path (s, fs) = (r, w) -> wf w.1.
Proof.
  intros Hs [[_ ->]|[(_ & _ & ->)|(tbl & _ & _ & ->)]]%LoadFromFile_cases; [done..|].
  by apply load_table_wf.
Qed.

(** Whatever the file says and however the call ends, every number of the object
    fits its C++ type afterwards. *)
Theorem settings_fit_their_types path s fs r s' fs' :
  wf s -> LoadFromFile path (s, fs) = (r, (s', fs')) -> wf s'.
Proof. apply LoadFromFile_wf. Qed.

(** Loading is all or nothing: a call that does not return [true] leaves every setting
    as it was. *)
Theorem failed_load_keeps_settings path s fs r s' fs' :
  LoadFromFile path (s, fs) = (r, (s', fs')) -> r <> Returned true -> s' = s.
Proof.
  by intros [[_ <-]|[(_ & _ & <-)|(tbl & _ & -> & _)]]%LoadFromFile_cases.
Qed.

Lemma SaveToFile_success s path fs fs' : SaveToFile s path fs = (Returned true, fs') ->
  exists fs1, write_text path (settings_text s) fs1 = (Returned tt, fs').
Proof.
  unfold SaveToFile, try_catch, mbind, M_bind.
  destruct (open_text path fs) as [[[]|] fs1]; cbn [negb]; [|done|by case_decide].
  destruct (write_text path (settings_text s) fs1) as [[[]|] fs2] eqn:Hw; [|by case_decide].
  intros [= <-]. by exists fs1.
Qed.

Ltac member := solve [repeat first [apply list_elem_of_here | apply list_elem_of_further]].

(** Loading the document of [s] sets every field to that of [s]. *)
Lemma load_table_doc tbl s s0 : wf s ->
  (forall k ks v, (k :: ks, Some v) ∈ entries [] (settings_doc s) ->
    has_value_of (walk tbl k ks) v) ->
  (forall k ks, (k :: ks, None) ∈ entries [] (settings_doc s) ->
    exists t', as_table (walk tbl k ks) = Some t' /\
               forall key, at_key t' key = walk tbl k (ks ++ [key])) ->
  load_table tbl s0 = s.
Proof.
  intros (Hp & Hi & Ht & Hu & Hm & Hid & Hc) Hv Hs. cbn in Hv, Hs.
  destruct (Hs "defaults" []) as (d & Hd & Ed); [member|].
  destruct (Hs "defaults" ["health_check"]) as (h & Hh & Eh); [member|].
  destruct (Hs "defaults" ["connection"]) as (c & Hcn & Ec); [member|].
  assert (Hstr : forall k ks x, _ -> value_string (walk tbl k ks) = Some x)
    by exact (fun k ks x => Hv k ks (SStr x)).
  assert (Hint : forall k ks x, _ -> value_int (walk tbl k ks) = Some x)
    by exact (fun k ks x => Hv k ks (SInt x)).
  assert (Hbool : forall k ks x, _ -> value_bool (walk tbl k ks) = Some x)
    by exact (fun k ks x => Hv k ks (SBool x)).
  unfold load_table, if_table. change (at_key tbl "defaults") with (walk tbl "defaults" []).
  rewrite Hd, !walk_key. cbn [app]. rewrite Hh, Hcn.
  unfold load_path, load_defaults, load_health, load_connection.
  cbn [m_configFilePath m_defaultName m_defaultListenAddress m_defaultListenPort
    m_defaultRoutingAlgorithm m_defaultHealthCheckEnabled m_defaultHealthCheckIntervalMs
    m_defaultHealthCheckTimeoutMs m_defaultHealthCheckUnhealthyThreshold m_defaultMaxPerService
    m_defaultIdleTimeoutMs m_defaultConnectTimeoutMs].
  rewrite 4!Ed, 4!Eh, 3!Ec. cbn [app].
  change (at_key tbl "config_file_path") with (walk tbl "config_file_path" []).
  do 4 (erewrite Hstr by member). do 7 (erewrite Hint by member). erewrite Hbool by member.
  unfold value_or; cbn. rewrite !wrapu_small by done. by destruct s.
Qed.

(** C13: saving the settings and loading the file restores every one of them, into
    whatever object it is loaded, if the strings need no escape (none is written) and
    the file was written in full. *)
Theorem settings_roundtrip s path fs fs' :
  wf s -> plain_settings s -> SaveToFile s path fs = (Returned true, fs') ->
  flushed_text fs' path -> exists_ fs' path = Returned true ->
  forall s0, LoadFromFile path (s0, fs') = (Returned true, (s, fs')).
Proof.
  intros Hwf Hplain (fs1 & Hw)%SaveToFile_success Hf He s0.
  apply (write_text_at _ _ _ _ Hw) in Hf. rewrite settings_text_doc in Hf.
  destruct (parse_doc _ _ _ (settings_doc_ok s Hwf Hplain) Hf) as (tbl & Hp & Hv & Hs).
  unfold LoadFromFile, lift. erewrite (bind_returned get_state) by done. cbn [fst snd].
  rewrite He. erewrite bind_returned by done. cbn [negb]. unfold try_catch. rewrite Hp.
  do 2 erewrite bind_returned by done. unfold prod_map. cbn [fst snd].
  by rewrite (load_table_doc tbl s s0 Hwf Hv Hs).
Qed.

(** A string is written without escapes, so a quote in it changes what the file says:
    two settings with different names and addresses write the same file, and no reader
    can restore both. *)
Theorem settings_text_ambiguous : exists s s', s <> s' /\ wf s /\ wf s' /\
  settings_text s = settings_text s'.
Proof.
  pose (inner := dq +:+ nl +:+ "listen_address = " +:+ dq).
  pose (s a b := mk "c" a b 8080 "p2c" true 5000 2000 3 1024 30000 5000).
  exists (s ("a" +:+ inner +:+ "b") "c"), (s "a" ("b" +:+ inner +:+ "c")).
  split; [done|]. split; [by apply (bool_decide_unpack _)|].
  split; [by apply (bool_decide_unpack _)|reflexivity].
Qed.
End Theorems.

End AppSettings.
