(* ===== verification/TomlInstance.v ===== *)
(** * A concrete TOML library and disk

    [TomlLibOk] is satisfiable: files hold text, and a parser reads it line by line into
    a table, a list of values with their full paths.  The theorems of [Settings] are
    applied to it. *)

From S2P Require Import Prelude Text Settings.

(** ** Lines and documents *)
Module TomlText.

Definition parse_scalar (s : string) : option scalar :=
  match s with
  | "true" => Some (SBool true)
  | "false" => Some (SBool false)
  | "" => None
  | String c s' =>
      if Ascii.eqb c "034" then
        match split_on "034" s' with (x, Some "") => Some (SStr x) | _ => None end
      else match digit c, digits 0 s with Some _, (z, "") => Some (SInt z) | _, _ => None end
  end.

Definition parse_line (s : string) : option line :=
  match s with
  | "" => Some Blank
  | String c s' =>
      if Ascii.eqb c "#" then Some (Remark s')
      else if Ascii.eqb c "[" then
        match split_on "]" s' with (p, Some "") => Some (Section_ (pieces "." p)) | _ => None end
      else match split_on " " s with
           | (k, Some (String "=" (String " " v))) => Assign k <$> parse_scalar v
           | _ => None
           end
  end.

Definition parse (text : string) : option (list line) := mapM parse_line (pieces "010" text).

Ltac bools := repeat match goal with
  | H : Is_true (_ && _) |- _ => apply andb_prop_elim in H as [? ?]
  | H : Is_true (negb _) |- _ => apply negb_prop_elim in H
  end.

(** A class of characters without [d] in it gives strings that avoid [d]. *)
Lemma every_avoids p d s : p d = false -> every p s -> avoids d s.
Proof.
  intros Hd. apply every_impl. intros c Hc.
  destruct (Ascii.eqb_spec c d) as [->|]; [|done]. by rewrite Hd in Hc.
Qed.

Lemma bare_avoids d k : bare_char d = false -> bare k -> avoids d k.
Proof. unfold bare. intros Hd Hk. bools. by eapply every_avoids. Qed.

Lemma bare_head k : bare k -> exists c k', k = String c k' /\ bare_char c.
Proof. unfold bare. destruct k as [|c k]; intros; bools; [done|]. cbn in *. bools. eauto. Qed.

Lemma dotted_cons k path : path <> [] -> dotted (k :: path) = k +:+ String "." (dotted path).
Proof. by destruct path. Qed.

Lemma dotted_pieces path : path <> [] -> forallb bare path -> pieces "." (dotted path) = path.
Proof.
  induction path as [|k path IH]; [done|]. intros _ Hp. cbn [forallb] in Hp. bools.
  destruct (decide (path = [])) as [->|Hne]; [by apply pieces_last, bare_avoids|].
  rewrite dotted_cons, pieces_cut by (done || by apply bare_avoids). by rewrite IH.
Qed.

Lemma dotted_avoids d path : bare_char d = false -> d <> "."%char ->
  forallb bare path -> avoids d (dotted path).
Proof.
  intros Hd Hn. induction path as [|k path IH]; [done|]. intros Hp. cbn [forallb] in Hp. bools.
  destruct (decide (path = [])) as [->|Hne]; [by apply bare_avoids|].
  rewrite dotted_cons by done. unfold avoids. rewrite every_app. apply andb_prop_intro.
  split; [by apply bare_avoids|]. cbn [every].
  apply andb_prop_intro. split; [|by apply IH].
  destruct (Ascii.eqb_spec "." d); [congruence|done].
Qed.

Lemma scalar_avoids_nl v : scalar_ok v -> avoids "010" (scalar_text v).
Proof.
  destruct v as [s|z|[]]; cbn [scalar_ok scalar_text]; intros H; [|bools|done..].
  - unfold quoted, avoids, dq. rewrite every_app. cbn [every]. rewrite every_app.
    apply andb_prop_intro; split; [done|]. apply andb_prop_intro; split; [|done].
    by apply (every_avoids plain_char).
  - apply pretty_avoids; [|done]. by apply Z.leb_le, Is_true_true.
Qed.

Lemma line_avoids_nl l : line_ok l -> avoids "010" (line_text l).
Proof.
  destruct l as [s| |path|k v]; cbn [line_ok line_text]; intros H; bools.
  - by apply (every_avoids (between 32 126)).
  - done.
  - unfold avoids. rewrite !every_app.
    repeat (apply andb_prop_intro; split); try done. by apply dotted_avoids.
  - unfold avoids. rewrite !every_app. repeat (apply andb_prop_intro; split); try done.
    + by apply bare_avoids.
    + by apply scalar_avoids_nl.
Qed.

Lemma parse_scalar_text v : scalar_ok v -> parse_scalar (scalar_text v) = Some v.
Proof.
  destruct v as [s|z|[]]; cbn [scalar_ok scalar_text]; intros H; [|bools|done..].
  - unfold quoted, dq. rewrite app_cons. cbn [parse_scalar]. change ("" +:+ ?x) with x.
    change (Ascii.eqb "034" "034") with true. cbn iota. rewrite split_on_found; [done|].
    by apply (every_avoids plain_char).
  - assert (Hz : (0 <= z)%Z) by (by apply Z.leb_le, Is_true_true).
    destruct (pretty_head z Hz) as (c & s & d & E & Hd).
    pose proof (digits_pretty z "" Hz I) as Ed. rewrite app_empty_r, E in Ed.
    rewrite E. unfold parse_scalar. rewrite Hd, Ed.
    destruct (Ascii.eqb_spec c "034") as [->|]; [done|].
    by destruct s as [|c' s], c as [[] [] [] [] [] [] [] []].
Qed.

Lemma parse_line_text l : line_ok l -> parse_line (line_text l) = Some l.
Proof.
  destruct l as [s| |path|k v]; cbn [line_ok line_text]; intros H; [done|done|bools|bools].
  - rewrite app_cons. cbn [parse_line]. change ("" +:+ ?x) with x.
    change (Ascii.eqb "[" "#") with false. change (Ascii.eqb "[" "[") with true. cbn iota.
    change "]" with (String "]" ""). rewrite split_on_found by (by apply dotted_avoids).
    rewrite dotted_pieces; [done| |done]. by intros ->.
  - destruct (bare_head k) as (c & k' & -> & Hc); [done|].
    rewrite app_cons. unfold parse_line.
    destruct (Ascii.eqb_spec c "#") as [->|]; [done|].
    destruct (Ascii.eqb_spec c "[") as [->|]; [done|].
    change (String c (k' +:+ " = " +:+ scalar_text v))
      with (String c k' +:+ String " " (String "=" (String " " (scalar_text v)))).
    rewrite split_on_found by (by apply bare_avoids). by rewrite parse_scalar_text.
Qed.

Lemma doc_pieces doc : forallb line_ok doc ->
  pieces "010" (doc_text doc) = (line_text <$> doc) ++ [""].
Proof.
  induction doc as [|l doc IH]; [done|]. cbn [forallb]. intros H. bools.
  cbn [doc_text]. change (nl +:+ ?x) with (String "010" x).
  rewrite pieces_cut by (by apply line_avoids_nl). by rewrite IH.
Qed.

(** Printed documents are parsed back. *)
Lemma parse_doc_text doc : forallb line_ok doc -> parse (doc_text doc) = Some (doc ++ [Blank]).
Proof.
  intros H. unfold parse. rewrite doc_pieces by done.
  induction doc as [|l doc IH]; [done|]. cbn [forallb] in H. bools.
  rewrite fmap_cons, <- !app_comm_cons. cbn [mapM mbind option_bind].
  rewrite parse_line_text by done. cbn. by rewrite IH.
Qed.

End TomlText.

(** ** Tables *)
Module TomlTable.
Import TomlText.

Definition toml_table : Type := list (list string * option scalar).
Definition toml_view : Type := option (scalar + toml_table).

(** The entries below a key, and the value at it. *)
Definition below (k : string) (t : toml_table) : toml_table :=
  omap (fun e => match e with
                 | (k' :: p, v) => if String.eqb k k' then Some (p, v) else None
                 | ([], _) => None
                 end) t.

Fixpoint value_at (k : string) (t : toml_table) : option scalar :=
  match t with
  | [] => None
  | (p, Some v) :: t' => if bool_decide (p = [k]) then Some v else value_at k t'
  | (_, None) :: t' => value_at k t'
  end.

Definition get_key (t : toml_table) (k : string) : toml_view :=
  match value_at k t with
  | Some v => Some (inl v)
  | None => match below k t with [] => None | t' => Some (inr t') end
  end.

Definition get_view (w : toml_view) (k : string) : toml_view :=
  match w with Some (inr t) => get_key t k | _ => None end.

(** No value is given twice, nor at or above another path. *)
Definition clean (t : toml_table) : Prop := forall p v q o,
  (p, Some v) ∈ t -> (q, o) ∈ t -> p `prefix_of` q -> q = p /\ o = Some v.

Lemma elem_of_below k t p v : (p, v) ∈ below k t <-> (k :: p, v) ∈ t.
Proof.
  unfold below. rewrite list_elem_of_omap. split.
  - intros ([[|k' q] o] & Hin & E); [done|]. destruct (String.eqb_spec k k'); naive_solver.
  - intros Hin. exists (k :: p, v). by rewrite String.eqb_refl.
Qed.

Lemma below_clean k t : clean t -> clean (below k t).
Proof.
  intros H p v q o Hp%elem_of_below Hq%elem_of_below Hpq.
  destruct (H _ _ _ _ Hp Hq) as [[= ->] ->]; [|done]. by apply prefix_cons.
Qed.

Lemma value_at_inv k t v : value_at k t = Some v -> ([k], Some v) ∈ t.
Proof.
  induction t as [|[p [w|]] t IH]; simpl; [done| |by right; auto].
  case_bool_decide; [|by right; auto]. intros [= ->]. subst. by left.
Qed.

Lemma value_at_elem k t v : clean t -> ([k], Some v) ∈ t -> value_at k t = Some v.
Proof.
  intros Hc Hin. destruct (value_at k t) as [w|] eqn:E.
  - apply value_at_inv in E. by destruct (Hc _ _ _ _ E Hin) as [_ [= ->]].
  - exfalso. revert Hin E. clear Hc. induction t as [|[p [w|]] t IH]; simpl.
    + by intros ?%not_elem_of_nil.
    + case_bool_decide; [done|]. intros [[= <- <-]|?]%elem_of_cons; auto.
    + intros [?|?]%elem_of_cons; auto. done.
Qed.

(** Nothing but the value itself can be at the path of a value. *)
Lemma value_at_None k ks t o : clean t -> (k :: ks, o) ∈ t ->
  (ks <> [] \/ o = None) -> value_at k t = None.
Proof.
  intros Hc Hin Hne. destruct (value_at k t) as [w|] eqn:E; [exfalso|done].
  apply value_at_inv in E. destruct (Hc _ _ _ _ E Hin) as [[= ->] ->]; [|naive_solver].
  by exists ks.
Qed.

Lemma get_key_below k ks t o : clean t -> (k :: ks, o) ∈ t -> (ks <> [] \/ o = None) ->
  get_key t k = Some (inr (below k t)).
Proof.
  intros Hc Hin Hne. unfold get_key. rewrite (value_at_None k ks t o) by done.
  apply elem_of_below in Hin. by destruct (below k t); [apply not_elem_of_nil in Hin|].
Qed.

(** [extends] is the prefix test that [consistent] runs. *)
Lemma extends_prefix p q : extends p q <-> p `prefix_of` q.
Proof.
  unfold extends. rewrite bool_decide_spec. split.
  - intros <-. apply prefix_take.
  - intros [r ->]. by rewrite take_app_length.
Qed.

Lemma consistent_clean t : consistent t -> clean t.
Proof.
  induction t as [|[p v] t IH]; simpl.
  - by intros _ ????  ?%not_elem_of_nil.
  - intros [Hp%forallb_True Ht%IH]%andb_prop_elim p1 v1 q o.
    rewrite Forall_forall in Hp.
    assert (Hd : forall q o, (q, o) ∈ t -> (v <> None -> ~ p `prefix_of` q) /\
      (o <> None -> ~ q `prefix_of` p)).
    { intros q' o' Hin. specialize (Hp _ Hin). cbn in Hp.
      apply andb_prop_elim in Hp as [[_ H1]%andb_prop_elim H2].
      split; intros Hs Hpre; apply extends_prefix in Hpre;
        [destruct v|destruct o']; try done;
        (apply negb_prop_elim in H1 || apply negb_prop_elim in H2);
        try done; by apply negb_prop_elim in H2. }
    intros [[= -> <-]|H1]%elem_of_cons [[= -> ->]|H2]%elem_of_cons Hpre.
    + done.
    + by apply Hd in H2 as [[] _].
    + by apply Hd in H1 as [_ []].
    + by eapply Ht.
Qed.

End TomlTable.

(** ** The library *)
Module TextDisk.
Import TomlText TomlTable.

(** Files hold text; paths of [locked] cannot be opened for writing. *)
Record text_disk := mkDisk { texts : gmap string string; locked : gset string }.

Definition read_table (fs : text_disk) (path : string) : outcome toml_table :=
  match texts fs !! path with
  | None => Threw (Exn KToml ("File could not be opened: " +:+ path))
  | Some s =>
      match parse s with
      | Some doc => if consistent (entries [] doc) then Returned (entries [] doc)
                    else Threw (Exn KToml "cannot redefine existing key")
      | None => Threw (Exn KToml "Error while parsing")
      end
  end.

Definition value_of {A} (sel : scalar -> option A) (w : toml_view) : option A :=
  match w with Some (inl v) => sel v | _ => None end.

#[export] Instance text_toml : TomlLib text_disk := {|
  table := toml_table; view := toml_view;
  exists_ fs p := Returned (bool_decide (is_Some (texts fs !! p)));
  parse_file := read_table;
  at_key := get_key;
  view_at := get_view;
  as_table w := match w with Some (inr t) => Some t | _ => None end;
  value_string := value_of (fun v => match v with SStr s => Some s | _ => None end);
  value_int := value_of (fun v => match v with SInt z => Some z | _ => None end);
  value_bool := value_of (fun v => match v with SBool b => Some b | _ => None end);
  open_text p fs :=
    if decide (p ∈ locked fs) then (Returned false, fs)
    else (Returned true, mkDisk (<[p := ""]> (texts fs)) (locked fs));
  write_text p s fs := (Returned tt, mkDisk (<[p := s]> (texts fs)) (locked fs))
|}.

Lemma walk_below k k' ks t : get_key t k = Some (inr (below k t)) ->
  walk t k (k' :: ks) = walk (below k t : table) k' ks.
Proof. intros E. unfold walk. cbn [fold_left at_key view_at text_toml]. by rewrite E. Qed.

Lemma walk_value k ks t v : clean t -> (k :: ks, Some v) ∈ t ->
  walk (t : table) k ks = (Some (inl v) : toml_view).
Proof.
  revert k t. induction ks as [|k' ks IH]; intros k t Hc Hin.
  - cbn. unfold get_key. by rewrite (value_at_elem k t v).
  - rewrite walk_below by (eapply get_key_below; eauto).
    apply IH; [by apply below_clean|by apply elem_of_below].
Qed.

Lemma walk_section k ks t : clean t -> (k :: ks, None) ∈ t ->
  exists t' : toml_table, walk (t : table) k ks = (Some (inr t') : toml_view).
Proof.
  revert k t. induction ks as [|k' ks IH]; intros k t Hc Hin.
  - exists (below k t). cbn. eapply get_key_below; eauto.
  - rewrite walk_below by (eapply get_key_below; eauto).
    apply IH; [by apply below_clean|by apply elem_of_below].
Qed.

Lemma entries_blank section doc : entries section (doc ++ [Blank]) = entries section doc.
Proof.
  revert section. induction doc as [|[s| |path|k v] doc IH]; intros section; simpl;
    rewrite ?IH; done.
Qed.

#[export] Instance text_toml_ok : TomlLibOk text_toml.
Proof.
  apply (Build_TomlLibOk _ text_toml (fun fs p s => texts fs !! p = Some s) (fun _ _ => True)).
  - intros p s fs fs' [= <-] _. apply lookup_insert_eq.
  - intros fs p e. cbn. unfold read_table. repeat case_match; by intros [= <-].
  - intros doc fs p [Hl Hc]%andb_prop_elim Ht. exists (entries [] doc).
    assert (Hcl : clean (entries [] doc)) by (by apply consistent_clean). split; [|split].
    + cbn. unfold read_table. rewrite Ht, parse_doc_text, entries_blank by done.
      by destruct (consistent _).
    + intros k ks v Hin. unfold has_value_of. cbn.
      by rewrite (walk_value _ _ _ _ Hcl Hin); destruct v.
    + intros k ks Hin. destruct (walk_section _ _ _ Hcl Hin) as [t' E]. exists t'. cbn.
      rewrite E. split; [done|]. intros key. rewrite <- walk_key. by rewrite E.
Defined.

End TextDisk.

(** ** The theorems of [Settings] at concrete inputs *)
Module SettingsWitnesses.
Import TextDisk AppSettings.

Definition settings : AppSettings.AppSettings :=
  mk "lb.yaml" "edge" "127.0.0.1" 9000 "consistent-hash" false 50 20 2 10 0 1000.
Definition empty_disk : text_disk := mkDisk ∅ {["etc.toml"]}.
Definition saved : text_disk := (SaveToFile settings "ui.toml" empty_disk).2.

(** A file whose port does not fit 16 bits. *)
Definition odd_file : text_disk :=
  mkDisk {["ui.toml" := doc_text [Section_ ["defaults"]; Assign "listen_port" (SInt 70000)]]} ∅.

Example settings_roundtrip_witness :
  LoadFromFile "ui.toml" (make, saved) = (Returned true, (settings, saved)).
Proof.
  apply (settings_roundtrip settings "ui.toml" empty_disk saved);
    [by apply (bool_decide_unpack (wf settings))|vm_compute; exact I|reflexivity|exact I|reflexivity].
Defined.

(** The port of the file is cut to its low 16 bits. *)
Definition odd_settings : AppSettings.AppSettings :=
  mk "bitbridge-config.yaml" "my-bit-bridge-lb" "0.0.0.0" 4464 "p2c" true 5000 2000 3
     1024 30000 5000.

Example settings_fit_their_types_witness : wf odd_settings.
Proof.
  apply (settings_fit_their_types "ui.toml" make odd_file (Returned true) odd_settings odd_file);
    [by apply (bool_decide_unpack (wf make))|vm_compute; reflexivity].
Defined.

Example failed_load_keeps_settings_witness : settings = settings.
Proof.
  apply (failed_load_keeps_settings "ui.toml" settings
    (mkDisk {["ui.toml" := "oops"]} ∅) (Returned false) settings
    (mkDisk {["ui.toml" := "oops"]} ∅)); [vm_compute; reflexivity|done].
Defined.

End SettingsWitnesses.
