(* ===== verification/MainFrame.v ===== *)
(** * ui/MainFrame: the configuration tool

    The window holds a configuration, a list control that shows its services, four
    input fields and an indicator of unsaved changes.  Its handlers are stateful calls
    on the record [MainFrame]; [dispatch] is the event table the constructor binds, and
    a session of the user is a list of events.

    wxWidgets is not code of the repository: [WxLib] are the calls on strings and files,
    and the controls are their documented state (the text of a field, the rows of the
    list with their selection, the visibility of a label, the message boxes shown).
    Sizes and positions are left out. *)

From S2P Require Import Prelude Text Node Config Serialization Settings.
Import ServiceNode HealthCheckConfig ConnectionConfig LoadBalancerConfig.
Import AppSettings IConfigSerializer.

(** ** wxWidgets *)

(** Arguments of [wxString::Format]. *)
Inductive format_arg (W : Type) := AText (s : W) | AStd (s : string) | ANum (z : Z).
Arguments AText {W} s.
Arguments AStd {W} s.
Arguments ANum {W} z.

Class WxLib (FileSystem : Type) := {
  wxString : Type;
  wx : string -> wxString;                       (* from a literal or a std::string *)
  IsEmpty : wxString -> bool;
  ToStdString : wxString -> string;
  ToULong : wxString -> option Z;                (* the number stored, if it is one *)
  Format : string -> list (format_arg wxString) -> wxString;
  FileExists : FileSystem -> string -> bool      (* wxFileName::Exists *)
}.

(** The documented behaviour the theorems use: an [unsigned long] has 64 bits.  Nothing
    is assumed of [ToStdString], which gives the empty string for a text it cannot
    convert, so what is not [IsEmpty] may still be empty once converted. *)
Class WxLibOk {FileSystem} (W : WxLib FileSystem) := {
  ToULong_range s z : ToULong s = Some z -> in_u 64 z
}.

(** ** The window *)
Module MainFrame.
Section MainFrame.
Context {FileSystem : Type} `{W : WxLib FileSystem} `{Ser : IConfigSerializer FileSystem}.

Inductive widget := NameInput | IpInput | PortInput | WeightInput | OtherWidget.

#[export] Instance widget_eq_dec : EqDecision widget.
Proof. solve_decision. Defined.

(** A row of the list control. *)
Record row := mkRow { cells : list wxString; row_selected : bool }.

Record MainFrame := mkFrame {
  m_settings : AppSettings;
  m_config : LoadBalancerConfig;
  m_nameInput : wxString;
  m_ipInput : wxString;
  m_portInput : wxString;
  m_weightInput : wxString;
  m_serviceList : list row;
  emptyLabel_shown : bool;
  unsavedLabel_shown : bool;
  m_hasUnsavedChanges : bool;
  statusText : wxString;                         (* the first field of the status bar *)
  focus : widget;                                (* FindFocus() *)
  dialogs : list wxString;                       (* the message boxes shown, in order *)
  disk : FileSystem
}.

Definition set_config (c : LoadBalancerConfig) (w : MainFrame) : MainFrame :=
  mkFrame (m_settings w) c (m_nameInput w) (m_ipInput w) (m_portInput w) (m_weightInput w)
    (m_serviceList w) (emptyLabel_shown w) (unsavedLabel_shown w) (m_hasUnsavedChanges w)
    (statusText w) (focus w) (dialogs w) (disk w).
Definition set_input (f : widget) (s : wxString) (w : MainFrame) : MainFrame :=
  mkFrame (m_settings w) (m_config w)
    (if decide (f = NameInput) then s else m_nameInput w)
    (if decide (f = IpInput) then s else m_ipInput w)
    (if decide (f = PortInput) then s else m_portInput w)
    (if decide (f = WeightInput) then s else m_weightInput w)
    (m_serviceList w) (emptyLabel_shown w) (unsavedLabel_shown w) (m_hasUnsavedChanges w)
    (statusText w) (focus w) (dialogs w) (disk w).
Definition set_list (l : list row) (w : MainFrame) : MainFrame :=
  mkFrame (m_settings w) (m_config w) (m_nameInput w) (m_ipInput w) (m_portInput w)
    (m_weightInput w) l (emptyLabel_shown w) (unsavedLabel_shown w) (m_hasUnsavedChanges w)
    (statusText w) (focus w) (dialogs w) (disk w).
Definition set_emptyLabel (b : bool) (w : MainFrame) : MainFrame :=
  mkFrame (m_settings w) (m_config w) (m_nameInput w) (m_ipInput w) (m_portInput w)
    (m_weightInput w) (m_serviceList w) b (unsavedLabel_shown w) (m_hasUnsavedChanges w)
    (statusText w) (focus w) (dialogs w) (disk w).
Definition set_unsaved (shown changed : bool) (w : MainFrame) : MainFrame :=
  mkFrame (m_settings w) (m_config w) (m_nameInput w) (m_ipInput w) (m_portInput w)
    (m_weightInput w) (m_serviceList w) (emptyLabel_shown w) shown changed
    (statusText w) (focus w) (dialogs w) (disk w).
Definition set_status (s : wxString) (w : MainFrame) : MainFrame :=
  mkFrame (m_settings w) (m_config w) (m_nameInput w) (m_ipInput w) (m_portInput w)
    (m_weightInput w) (m_serviceList w) (emptyLabel_shown w) (unsavedLabel_shown w)
    (m_hasUnsavedChanges w) s (focus w) (dialogs w) (disk w).
Definition set_focus (f : widget) (w : MainFrame) : MainFrame :=
  mkFrame (m_settings w) (m_config w) (m_nameInput w) (m_ipInput w) (m_portInput w)
    (m_weightInput w) (m_serviceList w) (emptyLabel_shown w) (unsavedLabel_shown w)
    (m_hasUnsavedChanges w) (statusText w) f (dialogs w) (disk w).
Definition set_dialogs (l : list wxString) (w : MainFrame) : MainFrame :=
  mkFrame (m_settings w) (m_config w) (m_nameInput w) (m_ipInput w) (m_portInput w)
    (m_weightInput w) (m_serviceList w) (emptyLabel_shown w) (unsavedLabel_shown w)
    (m_hasUnsavedChanges w) (statusText w) (focus w) l (disk w).
Definition set_disk (fs : FileSystem) (w : MainFrame) : MainFrame :=
  mkFrame (m_settings w) (m_config w) (m_nameInput w) (m_ipInput w) (m_portInput w)
    (m_weightInput w) (m_serviceList w) (emptyLabel_shown w) (unsavedLabel_shown w)
    (m_hasUnsavedChanges w) (statusText w) (focus w) (dialogs w) fs.

Definition wxMessageBox (message : wxString) : M MainFrame unit :=
  modify (fun w => set_dialogs (dialogs w ++ [message]) w).
Definition SetStatusText (s : wxString) : M MainFrame unit := modify (set_status s).

(** *** The list control *)
Definition DeleteAllItems : M MainFrame unit := modify (set_list []).

(** A new row before row [index], or at the end; the call returns its position. *)
Definition InsertItem (index : nat) (label : wxString) : M MainFrame nat :=
  w ← get_state;
  let rows := m_serviceList w in
  _ ← modify (set_list (take index rows ++ [mkRow [label; wx ""; wx ""; wx ""] false] ++
                        drop index rows));
  mret (Nat.min index (length rows)).

Definition SetItem (index column : nat) (label : wxString) : M MainFrame unit :=
  modify (fun w => set_list
    (alter (fun r => mkRow (<[column := label]> (cells r)) (row_selected r)) index
       (m_serviceList w)) w).

(** [GetNextItem(item, wxLIST_NEXT_ALL, wxLIST_STATE_SELECTED)]: the first selected row
    after [item], or -1. *)
Definition GetNextItem (rows : list row) (item : Z) : Z :=
  let start := Z.to_nat (item + 1) in
  match list_find (fun r => Is_true (row_selected r)) (drop start rows) with
  | Some (k, _) => Z.of_nat (start + k)
  | None => -1
  end.

(** ** Operations *)
Definition ApplyDefaultConfig : M MainFrame unit :=
  w ← get_state;
  let s := m_settings w in
  let on_config (f : LoadBalancerConfig -> LoadBalancerConfig) : M MainFrame unit :=
    modify (fun w => set_config (f (m_config w)) w) in
  _ ← on_config (SetName (GetDefaultName s));
  _ ← on_config (SetListenAddress (GetDefaultListenAddress s));
  _ ← on_config (SetListenPort (GetDefaultListenPort s));
  _ ← on_config (SetRoutingAlgorithm (GetDefaultRoutingAlgorithm s));
  _ ← on_config (SetHealthCheck (HealthCheckConfig.make (GetDefaultHealthCheckEnabled s)
        (GetDefaultHealthCheckIntervalMs s) (GetDefaultHealthCheckTimeoutMs s)
        (GetDefaultHealthCheckUnhealthyThreshold s)));
  on_config (SetConnection (ConnectionConfig.make (GetDefaultMaxPerService s)
        (GetDefaultIdleTimeoutMs s) (GetDefaultConnectTimeoutMs s))).

Definition MarkUnsaved : M MainFrame unit := modify (set_unsaved true true).
Definition MarkSaved : M MainFrame unit := modify (set_unsaved false false).

(** The rows of services [i], [i + 1], ... *)
Fixpoint refresh_rows (services : list ServiceNode) (i n : nat) : M MainFrame unit :=
  match n with
  | 0 => skip
  | S n' =>
      s ← lift (at_ services i);
      index ← InsertItem i (wx (ServiceNode.GetName s));
      _ ← SetItem index 1 (wx (GetIp s));
      _ ← SetItem index 2 (wx (pretty (GetPort s)));
      _ ← SetItem index 3 (wx (pretty (GetWeight s)));
      refresh_rows services (S i) n'
  end.

Definition RefreshServiceList : M MainFrame unit :=
  _ ← DeleteAllItems;
  w ← get_state;
  let services := GetServices (m_config w) in
  _ ← refresh_rows services 0 (length services);
  modify (set_emptyLabel (bool_decide (services = []))).

(** [m_serializer->Load(config, path)] and [Save], run on the window's disk. *)
Definition load_from (path : string) (c : LoadBalancerConfig)
    : M MainFrame (expected unit string * LoadBalancerConfig) :=
  fun w => match Load (disk w) path c with
           | (Returned r, c') => (Returned (r, c'), w)
           | (Threw e, c') => (Threw e, w)
           end.

Definition save_to (path : string) (c : LoadBalancerConfig)
    : M MainFrame (expected unit string) :=
  fun w => let '(r, fs) := Save c path (disk w) in (r, set_disk fs w).

Definition loaded_from (path : string) : wxString :=
  Format "Configuration loaded from %s" [AStd path].

(** Loads into [*m_config] itself: what [Load] stored before it failed stays there. *)
Definition LoadExistingConfig : M MainFrame unit :=
  w ← get_state;
  let configPath := GetConfigFilePath (m_settings w) in
  if negb (FileExists (disk w) configPath) then skip
  else
    '(r, c) ← load_from configPath (m_config w);
    _ ← modify (set_config c);
    if has_value r
    then _ ← RefreshServiceList; _ ← MarkSaved; SetStatusText (loaded_from configPath)
    else skip.

Definition refuse (message : string) : M MainFrame bool :=
  _ ← wxMessageBox (wx message); mret false.

Definition ValidateInput (name ip port weight : wxString) : M MainFrame bool :=
  if IsEmpty name then refuse "Service name cannot be empty."
  else if IsEmpty ip then refuse "IP address cannot be empty."
  else if IsEmpty port then refuse "Port cannot be empty."
  else match ToULong port with
  | None => refuse "Port must be a number between 1 and 65535."
  | Some portVal =>
      if (portVal =? 0)%Z || (65535 <? portVal)%Z
      then refuse "Port must be a number between 1 and 65535."
      else match ToULong weight with
      | None => refuse "Weight must be a number between 1 and 65535."
      | Some weightVal =>
          if (weightVal =? 0)%Z || (65535 <? weightVal)%Z
          then refuse "Weight must be a number between 1 and 65535."
          else
            let testNode := ServiceNode.make "test" (ToStdString ip) (u16 portVal) 1 in
            if negb (IsValid testNode)
            then refuse "Invalid IP address format. Expected: x.x.x.x (0-255 per octet)."
            else mret true
      end
  end.

(** The loop over the services; [true] means that the handler returns. *)
Fixpoint find_duplicate (services : list ServiceNode) (name ip : wxString) (portVal : Z)
    : M MainFrame bool :=
  match services with
  | [] => mret false
  | existing :: services' =>
      if String.eqb (ServiceNode.GetName existing) (ToStdString name) then
        _ ← wxMessageBox (Format "A service named '%s' already exists." [AText name]);
        mret true
      else if String.eqb (GetIp existing) (ToStdString ip) &&
              (GetPort existing =? u16 portVal)%Z then
        _ ← wxMessageBox (Format "A service with address %s:%lu already exists."
                            [AText ip; ANum portVal]);
        mret true
      else find_duplicate services' name ip portVal
  end.

Definition OnAddService : M MainFrame unit :=
  w ← get_state;
  let name := m_nameInput w in
  let ip := m_ipInput w in
  let portStr := m_portInput w in
  let weightStr := m_weightInput w in
  valid ← ValidateInput name ip portStr weightStr;
  if negb valid then skip
  else
    let portVal := from_option id 0%Z (ToULong portStr) in
    let weightVal := from_option id 1%Z (ToULong weightStr) in
    w ← get_state;
    duplicate ← find_duplicate (GetServices (m_config w)) name ip portVal;
    if duplicate : bool then skip
    else
      let service := ServiceNode.make (ToStdString name) (ToStdString ip)
                       (u16 portVal) (u16 weightVal) in
      _ ← modify (fun w => set_config (AddService service (m_config w)) w);
      _ ← RefreshServiceList;
      _ ← MarkUnsaved;
      _ ← modify (set_input NameInput (wx ""));
      _ ← modify (set_input IpInput (wx ""));
      _ ← modify (set_input PortInput (wx ""));
      _ ← modify (set_input WeightInput (wx "1"));
      _ ← modify (set_focus NameInput);
      SetStatusText (Format "Service added: %s (%s:%s)" [AText name; AText ip; AText portStr]).

(** [while ((item = GetNextItem(item, ...)) != -1) selected.push_back(item);]  A round
    moves past a row, so one round more than there are rows is enough. *)
Fixpoint collect_selected (fuel : nat) (rows : list row) (item : Z) : list Z :=
  match fuel with
  | 0 => []
  | S fuel' =>
      let item := GetNextItem rows item in
      if (item =? -1)%Z then [] else item :: collect_selected fuel' rows item
  end.

Definition OnRemoveService : M MainFrame unit :=
  w ← get_state;
  let rows := m_serviceList w in
  let selected := collect_selected (S (length rows)) rows (-1) in
  if bool_decide (selected = []) then
    wxMessageBox (wx "Please select one or more services to remove.")
  else
    _ ← modify (fun w => set_config
          (fold_left (fun c idx => RemoveService (Z.to_nat idx) c) (rev selected)
             (m_config w)) w);
    _ ← RefreshServiceList;
    _ ← MarkUnsaved;
    SetStatusText (if length selected =? 1 then wx "1 service removed"
                   else Format "%zu services removed" [ANum (Z.of_nat (length selected))]).

(** Loads into a new object, which replaces [*m_config] only if loading succeeded. *)
Definition OnLoadConfig : M MainFrame unit :=
  w ← get_state;
  let configPath := GetConfigFilePath (m_settings w) in
  if negb (FileExists (disk w) configPath) then
    wxMessageBox (Format "Configuration file not found: %s" [AStd configPath])
  else
    '(r, newConfig) ← load_from configPath LoadBalancerConfig.default;
    if has_value r then
      _ ← modify (set_config newConfig);
      _ ← RefreshServiceList;
      _ ← MarkSaved;
      SetStatusText (loaded_from configPath)
    else wxMessageBox (wx "Failed to parse configuration file.").

Definition OnSaveConfig : M MainFrame unit :=
  w ← get_state;
  let configPath := GetConfigFilePath (m_settings w) in
  r ← save_to configPath (m_config w);
  if has_value r then
    _ ← MarkSaved;
    SetStatusText (Format "Configuration saved to %s" [AStd configPath])
  else wxMessageBox (wx "Failed to save configuration file.").

(** *** Keys; the result tells whether the event is skipped, left to the default *)
Inductive key := WXK_TAB | WXK_DELETE | WXK_BACK | OtherKey.

Definition tabOrder : list widget := [NameInput; IpInput; PortInput; WeightInput].

Definition HandleTabNavigation (GetKeyCode : key) (ShiftDown : bool) : M MainFrame bool :=
  match GetKeyCode with
  | WXK_TAB =>
      w ← get_state;
      let focused := focus w in
      let n := length tabOrder in
      match for_return 0 n (fun i =>
              if decide (tabOrder !! i = Some focused)
              then Some (if ShiftDown then (i + n - 1) mod n else (i + 1) mod n) else None) with
      | Some next => f ← lift (at_ tabOrder next); _ ← modify (set_focus f); mret false
      | None => mret true
      end
  | _ => mret true
  end.

Definition OnListKey (GetKeyCode : key) : M MainFrame bool :=
  match GetKeyCode with
  | WXK_DELETE | WXK_BACK => _ ← OnRemoveService; mret false
  | _ => mret true
  end.

(** *** The constructor *)
Definition initial_frame (settings : AppSettings) (fs : FileSystem) : MainFrame :=
  mkFrame settings LoadBalancerConfig.default (wx "") (wx "") (wx "") (wx "1") [] true
    false false (wx "Ready") OtherWidget [] fs.

Definition construct (settings : AppSettings) (fs : FileSystem) : outcome unit * MainFrame :=
  (_ ← ApplyDefaultConfig;
   _ ← LoadExistingConfig;
   modify (set_focus NameInput)) (initial_frame settings fs).

(** The bindings of the constructor, next to what the user can do to the controls and
    other programs to the disk. *)
Inductive button := ID_ADD_SERVICE | ID_REMOVE_SERVICE | ID_SAVE_CONFIG | ID_LOAD_CONFIG.
Inductive event :=
  | Button (b : button)                          (* wxEVT_BUTTON *)
  | TextEnter (f : widget)                       (* wxEVT_TEXT_ENTER *)
  | CharHook (k : key) (shift : bool)            (* wxEVT_CHAR_HOOK *)
  | ListKeyDown (k : key)                        (* wxEVT_KEY_DOWN of the list *)
  | Edit (f : widget) (s : wxString)
  | SelectRows (rows : list bool)
  | Click (f : widget)
  | DiskChanged (fs : FileSystem).

(** Rows keep their cells, whatever is selected. *)
Definition select_rows (flags : list bool) (rows : list row) : list row :=
  imap (fun i r => mkRow (cells r) (from_option id false (flags !! i))) rows.

Definition dispatch (e : event) : M MainFrame unit :=
  match e with
  | Button ID_ADD_SERVICE => OnAddService
  | Button ID_REMOVE_SERVICE => OnRemoveService
  | Button ID_SAVE_CONFIG => OnSaveConfig
  | Button ID_LOAD_CONFIG => OnLoadConfig
  | TextEnter OtherWidget => skip
  | TextEnter _ => OnAddService
  | CharHook k shift => _ ← HandleTabNavigation k shift; skip
  | ListKeyDown k => _ ← OnListKey k; skip
  | Edit f s => modify (set_input f s)
  | SelectRows flags => modify (fun w => set_list (select_rows flags (m_serviceList w)) w)
  | Click f => modify (set_focus f)
  | DiskChanged fs => modify (set_disk fs)
  end.

(** A session of the user; an exception that leaves a handler ends it. *)
Fixpoint run (events : list event) : M MainFrame unit :=
  match events with
  | [] => skip
  | e :: events' => _ ← dispatch e; run events'
  end.


(** ** What the list control shows *)
Definition row_of (s : ServiceNode) : row :=
  mkRow [wx (ServiceNode.GetName s); wx (GetIp s); wx (pretty (GetPort s));
         wx (pretty (GetWeight s))] false.

Definition refreshed (w : MainFrame) : MainFrame :=
  set_emptyLabel (bool_decide (m_services (m_config w) = []))
    (set_list (row_of <$> m_services (m_config w)) w).

Lemma InsertItem_end label w : InsertItem (length (m_serviceList w)) label w =
  (Returned (length (m_serviceList w)),
   set_list (m_serviceList w ++ [mkRow [label; wx ""; wx ""; wx ""] false]) w).
Proof.
  unfold InsertItem, mret, M_ret, modify, get_state, mbind, M_bind.
  by rewrite take_ge, drop_ge, app_nil_r, Nat.min_id by done.
Qed.

Lemma SetItem_last column label rows r w :
  SetItem (length rows) column label (set_list (rows ++ [r]) w) =
  (Returned tt, set_list (rows ++ [mkRow (<[column := label]> (cells r)) (row_selected r)]) w).
Proof.
  unfold SetItem, modify. f_equal. unfold set_list at 1. cbn [m_serviceList set_list].
  by rewrite alter_app_r_alt, Nat.sub_diag by done.
Qed.

Lemma set_list_twice l l' w : set_list l (set_list l' w) = set_list l w.
Proof. done. Qed.

Lemma refresh_rows_spec services before after w :
  services = before ++ after -> m_serviceList w = row_of <$> before ->
  refresh_rows services (length before) (length after) w =
  (Returned tt, set_list (row_of <$> services) w).
Proof.
  revert before w. induction after as [|s after IH]; intros before w -> Hl; cbn [length refresh_rows].
  - rewrite app_nil_r, <- Hl. by destruct w.
  - assert (Hlen : length before = length (m_serviceList w)) by (by rewrite Hl, length_fmap).
    erewrite bind_returned; [|unfold lift, at_; by rewrite list_lookup_middle].
    erewrite bind_returned by (rewrite Hlen; apply InsertItem_end). cbn beta.
    do 3 erewrite bind_returned by apply SetItem_last.
    replace (S (length before)) with (length (before ++ [s])) by (rewrite length_app; cbn; lia).
    rewrite IH; [|by rewrite <- app_assoc|cbn [m_serviceList set_list]; by rewrite Hl, fmap_app].
    by rewrite set_list_twice.
Qed.

(** [RefreshServiceList] makes the list show the configuration, whatever it showed. *)
Lemma Refresh_spec w : RefreshServiceList w = (Returned tt, refreshed w).
Proof.
  unfold RefreshServiceList. erewrite bind_returned by done.
  erewrite (bind_returned get_state) by done. cbn [m_config set_list GetServices].
  erewrite bind_returned by (by apply (refresh_rows_spec _ [])).
  unfold modify, refreshed. f_equal.
Qed.

(** The list shows the services, and the hint is there when there are none. *)
Definition in_sync (w : MainFrame) : Prop :=
  cells <$> m_serviceList w = (fun s => cells (row_of s)) <$> m_services (m_config w) /\
  emptyLabel_shown w = bool_decide (m_services (m_config w) = []).

Lemma refreshed_in_sync w : in_sync (refreshed w).
Proof. split; [|done]. cbn. by rewrite <- list_fmap_compose. Qed.

(** ** Adding a service *)
Definition number_ok (s : wxString) : bool :=
  match ToULong s with Some z => negb ((z =? 0) || (65535 <? z))%Z | None => false end.

Definition number_of (s : wxString) : Z := from_option id 0%Z (ToULong s).

Definition valid_input (name ip port weight : wxString) : bool :=
  negb (IsEmpty name) && negb (IsEmpty ip) && negb (IsEmpty port) && number_ok port &&
  number_ok weight &&
  IsValid (ServiceNode.make "test" (ToStdString ip) (u16 (number_of port)) 1).

Definition with_dialogs (l : list wxString) (w : MainFrame) : MainFrame :=
  set_dialogs (dialogs w ++ l) w.

Lemma with_no_dialogs w : with_dialogs [] w = w.
Proof. destruct w. unfold with_dialogs, set_dialogs. cbn. by rewrite app_nil_r. Qed.

(** [b] was returned, with one message box exactly if the input was refused. *)
Definition answered (b refused : bool) (m : M MainFrame bool) (w : MainFrame) : Prop :=
  exists d, m w = (Returned b, with_dialogs (if refused then [d] else []) w).

Lemma refuse_answer message w : answered false true (refuse message) w.
Proof. by exists (wx message). Qed.

Lemma ret_answer b w : answered b false (mret b) w.
Proof. exists (wx ""). cbn iota. by rewrite with_no_dialogs. Qed.

Lemma ValidateInput_spec name ip port weight w :
  let ok := valid_input name ip port weight in
  answered ok (negb ok) (ValidateInput name ip port weight) w.
Proof.
  cbn zeta. unfold ValidateInput, valid_input, number_ok, number_of.
  destruct (IsEmpty name); [apply refuse_answer|].
  destruct (IsEmpty ip); [apply refuse_answer|].
  destruct (IsEmpty port); [apply refuse_answer|].
  destruct (ToULong port) as [p|]; [|apply refuse_answer]. cbn [from_option id].
  destruct ((p =? 0) || (65535 <? p))%Z; [apply refuse_answer|].
  destruct (ToULong weight) as [q|]; [|apply refuse_answer].
  destruct ((q =? 0) || (65535 <? q))%Z; [apply refuse_answer|].
  destruct (IsValid _); [apply ret_answer|apply refuse_answer].
Qed.

(** The service that the fields describe, and those it must differ from. *)
Definition entered (w : MainFrame) : ServiceNode :=
  ServiceNode.make (ToStdString (m_nameInput w)) (ToStdString (m_ipInput w))
    (u16 (number_of (m_portInput w))) (u16 (from_option id 1%Z (ToULong (m_weightInput w)))).

Definition clashes (new existing : ServiceNode) : bool :=
  String.eqb (ServiceNode.GetName existing) (ServiceNode.GetName new) ||
  String.eqb (GetIp existing) (GetIp new) && (GetPort existing =? GetPort new)%Z.

Lemma find_duplicate_spec services name ip portVal weight w :
  let found := existsb (clashes (ServiceNode.make (ToStdString name) (ToStdString ip)
                                   (u16 portVal) weight)) services in
  answered found found (find_duplicate services name ip portVal) w.
Proof.
  cbn zeta. induction services as [|s services IH]; [apply ret_answer|].
  cbn [find_duplicate existsb]. unfold clashes at 1 3.
  cbn [ServiceNode.GetName GetIp GetPort ServiceNode.m_name m_ip m_port ServiceNode.make].
  destruct (String.eqb _ (ToStdString name)); [by eexists|].
  destruct (_ && _); [by eexists|]. exact IH.
Qed.

Definition accepted (w : MainFrame) : bool :=
  valid_input (m_nameInput w) (m_ipInput w) (m_portInput w) (m_weightInput w) &&
  negb (existsb (clashes (entered w)) (m_services (m_config w))).

(** The window after a service was added: it is last, the fields are empty. *)
Definition added (w : MainFrame) : MainFrame :=
  let services := m_services (m_config w) ++ [entered w] in
  mkFrame (m_settings w) (with_services services (m_config w)) (wx "") (wx "") (wx "") (wx "1")
    (row_of <$> services) false true true
    (Format "Service added: %s (%s:%s)"
       [AText (m_nameInput w); AText (m_ipInput w); AText (m_portInput w)])
    NameInput (dialogs w) (disk w).

Lemma OnAddService_cases w :
  if accepted w then OnAddService w = (Returned tt, added w)
  else exists d, OnAddService w = (Returned tt, with_dialogs [d] w).
Proof.
  unfold OnAddService, accepted. erewrite (bind_returned get_state) by done.
  destruct (ValidateInput_spec (m_nameInput w) (m_ipInput w) (m_portInput w) (m_weightInput w) w)
    as [d E]. erewrite bind_returned by exact E. clear E.
  destruct (valid_input _ _ _ _); cbn [negb andb]; [rewrite with_no_dialogs|by exists d].
  erewrite (bind_returned get_state) by done.
  destruct (find_duplicate_spec (m_services (m_config w)) (m_nameInput w) (m_ipInput w)
    (number_of (m_portInput w)) (u16 (from_option id 1%Z (ToULong (m_weightInput w)))) w)
    as [d' E]. erewrite bind_returned by exact E. clear E. fold (entered w).
  destruct (existsb _ _); cbn [negb]; [by exists d'|]. rewrite with_no_dialogs.
  erewrite bind_returned by done. erewrite bind_returned by apply Refresh_spec.
  do 6 erewrite bind_returned by done.
  unfold SetStatusText, modify, added, refreshed. destruct w.
  cbn -[app fmap]. by rewrite bool_decide_eq_false_2 by (by destruct (m_services _)).
Qed.


(** ** Removing services *)
Fixpoint selected_indices (i : nat) (flags : list bool) : list nat :=
  match flags with
  | [] => []
  | b :: flags' => (if b : bool then [i] else []) ++ selected_indices (S i) flags'
  end.

Definition flags_of (rows : list row) : list bool := row_selected <$> rows.

Lemma next_selected rows n :
  match list_find (fun r => Is_true (row_selected r)) rows with
  | Some (k, _) => selected_indices n (flags_of rows) =
      (n + k) :: selected_indices (S (n + k)) (flags_of (drop (S k) rows))
  | None => selected_indices n (flags_of rows) = []
  end.
Proof.
  revert n. induction rows as [|r rows IH]; intros n; [done|]. cbn [list_find].
  change (flags_of (r :: rows)) with (row_selected r :: flags_of rows). cbn [selected_indices].
  destruct (decide (Is_true (row_selected r))) as [Hr|Hr].
  - apply Is_true_true in Hr. by rewrite Hr, Nat.add_0_r.
  - specialize (IH (S n)). destruct (row_selected r); [done|]. cbn [app].
    destruct (list_find _ rows) as [[k r']|]; [|done]. cbn. rewrite IH.
    by rewrite <- Nat.add_succ_comm.
Qed.

Lemma collect_selected_spec fuel rows n : length rows < fuel + n ->
  collect_selected fuel rows (Z.of_nat n - 1) =
  Z.of_nat <$> selected_indices n (flags_of (drop n rows)).
Proof.
  revert n. induction fuel as [|fuel IH]; intros n Hf.
  - by rewrite drop_ge by lia.
  - cbn [collect_selected]. unfold GetNextItem.
    replace (Z.to_nat (Z.of_nat n - 1 + 1)) with n by (clear IH; lia).
    pose proof (next_selected (drop n rows) n) as Hn.
    destruct (list_find _ (drop n rows)) as [[k r]|] eqn:E; rewrite Hn; [|done].
    destruct (Z.eqb_spec (Z.of_nat (n + k)) (-1)); [lia|]. rewrite fmap_cons. f_equal.
    replace (Z.of_nat (n + k)) with (Z.of_nat (S (n + k)) - 1)%Z at 1 by lia.
    rewrite IH by lia. by rewrite drop_drop, Nat.add_succ_r.
Qed.

(** The services whose row is not selected. *)
Fixpoint kept {A} (flags : list bool) (l : list A) : list A :=
  match flags, l with
  | b :: flags', x :: l' => (if b : bool then [] else [x]) ++ kept flags' l'
  | _, _ => l
  end.

Lemma delete_selected {A} flags n (l : list A) :
  foldr (fun i l => delete i l) l (selected_indices n flags) = take n l ++ kept flags (drop n l).
Proof.
  revert n. induction flags as [|b flags IH]; intros n; cbn [selected_indices].
  - cbn. by rewrite take_drop.
  - destruct (drop n l) as [|x l'] eqn:E.
    + assert (Hn : length l <= n) by (by apply (f_equal length) in E; rewrite length_drop in E; cbn in E; lia).
      rewrite foldr_app, IH, !(take_ge l), (drop_ge l) by lia.
      assert (Hk : kept flags (@nil A) = []) by (by destruct flags). rewrite Hk, !app_nil_r.
      destruct b; [|done]. cbn. by rewrite delete_take_drop, take_ge, drop_ge, app_nil_r by lia.
    + assert (Hn : drop (S n) l = l') by (by rewrite <- Nat.add_1_r, <- drop_drop, E).
      assert (Hx : l !! n = Some x) by (by rewrite <- (Nat.add_0_r n), <- lookup_drop, E).
      assert (Hl : length (take n l) = n)
        by (apply length_take_le; apply lookup_lt_Some in Hx; lia).
      rewrite foldr_app, IH, Hn. rewrite (take_S_r l n x Hx). cbn [kept]. destruct b; cbn.
      * rewrite <- app_assoc. cbn. rewrite <- Hl at 1. by rewrite delete_middle.
      * by rewrite <- app_assoc.
Qed.

Lemma RemoveService_with i c :
  RemoveService i c = with_services (delete i (m_services c)) c.
Proof.
  rewrite <- RemoveService_delete. unfold RemoveService. case_match; by destruct c.
Qed.

(** Removing from the last selected row to the first removes exactly the selected ones. *)
Lemma remove_selected flags c :
  fold_left (fun c idx => RemoveService (Z.to_nat idx) c)
    (rev (Z.of_nat <$> selected_indices 0 flags)) c =
  with_services (kept flags (m_services c)) c.
Proof.
  rewrite <- fold_left_rev_right, rev_involutive.
  transitivity (foldr (fun i c => RemoveService i c) c (selected_indices 0 flags)).
  { induction (selected_indices 0 flags) as [|i l IH]; [done|]. cbn. by rewrite IH, Nat2Z.id. }
  transitivity (with_services
    (foldr (fun i l => delete i l) (m_services c) (selected_indices 0 flags)) c).
  { induction (selected_indices 0 flags) as [|i l IH]; [by destruct c|]. cbn.
    by rewrite IH, RemoveService_with. }
  by rewrite delete_selected.
Qed.

(** The window after a removal. *)
Definition removed (w : MainFrame) : MainFrame :=
  let flags := flags_of (m_serviceList w) in
  let services := kept flags (m_services (m_config w)) in
  let n := length (selected_indices 0 flags) in
  mkFrame (m_settings w) (with_services services (m_config w)) (m_nameInput w) (m_ipInput w)
    (m_portInput w) (m_weightInput w) (row_of <$> services) (bool_decide (services = []))
    true true
    (if n =? 1 then wx "1 service removed" else Format "%zu services removed" [ANum (Z.of_nat n)])
    (focus w) (dialogs w) (disk w).

Lemma OnRemoveService_cases w :
  OnRemoveService w =
  if existsb id (flags_of (m_serviceList w)) then (Returned tt, removed w)
  else (Returned tt, with_dialogs [wx "Please select one or more services to remove."] w).
Proof.
  unfold OnRemoveService. erewrite (bind_returned get_state) by done.
  change (-1)%Z with (Z.of_nat 0 - 1)%Z. rewrite collect_selected_spec by lia. rewrite drop_0.
  assert (He : existsb id (flags_of (m_serviceList w)) =
    bool_decide (selected_indices 0 (flags_of (m_serviceList w)) <> [])).
  { generalize 0. induction (flags_of (m_serviceList w)) as [|[] l IH]; intros n; [done|done|].
    apply IH. }
  rewrite He. destruct (selected_indices 0 (flags_of (m_serviceList w))) as [|i l] eqn:E; [done|].
  rewrite (bool_decide_eq_false_2 (_ = [])), (bool_decide_eq_true_2 (_ <> [])) by done.
  erewrite bind_returned by done. erewrite bind_returned by apply Refresh_spec.
  erewrite bind_returned by done. rewrite <- E, remove_selected, length_fmap.
  unfold SetStatusText, modify, removed, refreshed. rewrite E. by destruct w.
Qed.


(** ** Loading and saving *)
Definition loaded (c : LoadBalancerConfig) (w : MainFrame) : MainFrame :=
  set_status (loaded_from (GetConfigFilePath (m_settings w)))
    (set_unsaved false false (refreshed (set_config c w))).

Lemma reload_spec c w :
  (_ ← modify (set_config c); _ ← RefreshServiceList; _ ← MarkSaved;
   SetStatusText (loaded_from (GetConfigFilePath (m_settings w)))) w = (Returned tt, loaded c w).
Proof.
  erewrite bind_returned by done. erewrite bind_returned by apply Refresh_spec.
  by erewrite bind_returned by done.
Qed.

Lemma OnLoadConfig_cases w :
  let path := GetConfigFilePath (m_settings w) in
  OnLoadConfig w =
  if negb (FileExists (disk w) path)
  then (Returned tt, with_dialogs [Format "Configuration file not found: %s" [AStd path]] w)
  else match Load (disk w) path LoadBalancerConfig.default with
       | (Returned (Value tt), c) => (Returned tt, loaded c w)
       | (Returned (Unexpected _), _) =>
           (Returned tt, with_dialogs [wx "Failed to parse configuration file."] w)
       | (Threw e, _) => (Threw e, w)
       end.
Proof.
  cbn zeta. unfold OnLoadConfig. erewrite (bind_returned get_state) by done.
  destruct (FileExists _ _); cbn [negb]; [|done].
  destruct (Load _ _ _) as [[[[]|why]|e] c] eqn:E.
  - erewrite bind_returned by (unfold load_from; by rewrite E). cbn [has_value]. apply reload_spec.
  - by erewrite bind_returned by (unfold load_from; by rewrite E).
  - by erewrite bind_threw by (unfold load_from; by rewrite E).
Qed.

Definition saved_in (fs : FileSystem) (w : MainFrame) : MainFrame :=
  set_status (Format "Configuration saved to %s" [AStd (GetConfigFilePath (m_settings w))])
    (set_unsaved false false (set_disk fs w)).

Lemma OnSaveConfig_cases w :
  OnSaveConfig w =
  match Save (m_config w) (GetConfigFilePath (m_settings w)) (disk w) with
  | (Returned (Value tt), fs) => (Returned tt, saved_in fs w)
  | (Returned (Unexpected _), fs) =>
      (Returned tt, with_dialogs [wx "Failed to save configuration file."] (set_disk fs w))
  | (Threw e, fs) => (Threw e, set_disk fs w)
  end.
Proof.
  unfold OnSaveConfig. erewrite (bind_returned get_state) by done.
  destruct (Save _ _ _) as [[[[]|why]|e] fs] eqn:E.
  - by erewrite bind_returned by (unfold save_to; by rewrite E).
  - by erewrite bind_returned by (unfold save_to; by rewrite E).
  - by erewrite bind_threw by (unfold save_to; by rewrite E).
Qed.

(** The configuration of a new window: the defaults of the settings. *)
Definition default_config (s : AppSettings) : LoadBalancerConfig :=
  LoadBalancerConfig.make (GetDefaultName s) (GetDefaultListenAddress s) (GetDefaultListenPort s)
    (GetDefaultRoutingAlgorithm s) []
    (HealthCheckConfig.make (GetDefaultHealthCheckEnabled s) (GetDefaultHealthCheckIntervalMs s)
       (GetDefaultHealthCheckTimeoutMs s) (GetDefaultHealthCheckUnhealthyThreshold s))
    (ConnectionConfig.make (GetDefaultMaxPerService s) (GetDefaultIdleTimeoutMs s)
       (GetDefaultConnectTimeoutMs s)).

Lemma LoadExistingConfig_cases w :
  let path := GetConfigFilePath (m_settings w) in
  LoadExistingConfig w =
  if negb (FileExists (disk w) path) then (Returned tt, w)
  else match Load (disk w) path (m_config w) with
       | (Returned (Value tt), c) => (Returned tt, loaded c w)
       | (Returned (Unexpected _), c) => (Returned tt, set_config c w)
       | (Threw e, _) => (Threw e, w)
       end.
Proof.
  cbn zeta. unfold LoadExistingConfig. erewrite (bind_returned get_state) by done.
  destruct (FileExists _ _); cbn [negb]; [|done].
  destruct (Load _ _ _) as [[[[]|why]|e] c] eqn:E.
  - erewrite bind_returned by (unfold load_from; by rewrite E). cbn [has_value]. apply reload_spec.
  - by erewrite bind_returned by (unfold load_from; by rewrite E).
  - by erewrite bind_threw by (unfold load_from; by rewrite E).
Qed.

(** A window with the defaults, before it looks for a file. *)
Definition with_defaults (settings : AppSettings) (fs : FileSystem) : MainFrame :=
  set_config (default_config settings) (initial_frame settings fs).

Lemma construct_cases settings fs :
  construct settings fs =
  (_ ← LoadExistingConfig; modify (set_focus NameInput)) (with_defaults settings fs).
Proof.
  unfold construct.
  assert (E : ApplyDefaultConfig (initial_frame settings fs) =
              (Returned tt, with_defaults settings fs)) by reflexivity.
  by rewrite (bind_returned _ _ _ _ _ E).
Qed.

(** ** Invariants of a session *)
Lemma run_keeps (P : MainFrame -> Prop) (allowed : event -> Prop) :
  (forall e, allowed e -> keeps P (dispatch e)) ->
  forall events, Forall allowed events -> keeps P (run events).
Proof.
  intros He events. induction 1 as [|e events Ha _ IH]; [apply keeps_skip|].
  apply keeps_bind; [by apply He|done].
Qed.

(** A handler given by a case analysis keeps what each of its ends satisfies. *)
Lemma keeps_end {A} (P : MainFrame -> Prop) (m : M MainFrame A) :
  (forall w, P w -> P (m w).2) -> keeps P m.
Proof. intros H w Hw. specialize (H w Hw). destruct (m w) as [[a|e] w']; exact H. Qed.

(** What the keys do besides removing services: they move the focus. *)
Lemma tab_keeps (P : MainFrame -> Prop) k shift :
  (forall f w, P w -> P (set_focus f w)) -> keeps P (HandleTabNavigation k shift).
Proof.
  intros Hf. destruct k; try apply keeps_ret. unfold HandleTabNavigation.
  apply keeps_bind; [apply keeps_get|]. intros w. case_match; [|apply keeps_ret].
  keeps_steps.
Qed.

Lemma select_rows_cells flags rows : cells <$> select_rows flags rows = cells <$> rows.
Proof.
  apply list_eq. intros i. unfold select_rows. rewrite !list_lookup_fmap, list_lookup_imap.
  by destruct (rows !! i).
Qed.

(** Whatever the user does, the list shows the services of the configuration. *)
Lemma dispatch_in_sync e : keeps in_sync (dispatch e).
Proof.
  assert (Hadd : keeps in_sync OnAddService).
  { apply keeps_end. intros w Hw. pose proof (OnAddService_cases w) as E.
    destruct (accepted w); [|by destruct E as [d ->]]. rewrite E. split.
    - cbn. by rewrite <- list_fmap_compose.
    - cbn. by rewrite bool_decide_eq_false_2 by (by destruct (m_services _)). }
  assert (Hrem : keeps in_sync OnRemoveService).
  { apply keeps_end. intros w Hw. rewrite OnRemoveService_cases. case_match; [|done].
    split; [|done]. cbn. by rewrite <- list_fmap_compose. }
  destruct e as [[]|[]|k shift|k|f s|flags|f|fs]; cbn [dispatch]; try done;
    try apply keeps_skip.
  - apply keeps_end. intros w Hw. rewrite OnSaveConfig_cases. by repeat case_match.
  - apply keeps_end. intros w Hw. rewrite OnLoadConfig_cases.
    repeat case_match; try done. apply (refreshed_in_sync (set_config _ _)).
  - apply keeps_bind; [by apply tab_keeps|intros ?; apply keeps_skip].
  - apply keeps_bind; [|intros ?; apply keeps_skip]. destruct k; cbn [OnListKey];
    first [apply keeps_ret | apply keeps_bind; [done|intros ?; apply keeps_ret]].
  - apply keeps_modify. intros w [Hc He]. split; [|done]. cbn. by rewrite select_rows_cells.
Qed.

(** The file found at the start, if there is one, loads. *)
Definition starts_well (settings : AppSettings) (fs : FileSystem) : Prop :=
  let path := GetConfigFilePath settings in
  FileExists fs path -> exists c, Load fs path (default_config settings) = (Returned (Value tt), c).

(** C11: if the file found at the start, if any, loads, then whatever the user does, the list
    control shows exactly the services of the configuration, in order, also when a
    handler ends in an exception: so a row's position is its service's.  (If the file
    does not load the list need not show what was read: [half_loaded_start].) *)
Theorem list_mirrors_configuration settings fs events w r w' :
  starts_well settings fs -> construct settings fs = (Returned tt, w) ->
  run events w = (r, w') -> in_sync w'.
Proof.
  intros Hs Hc. eapply (keeps_run in_sync); [apply (run_keeps _ (fun _ => True));
    [intros e _; apply dispatch_in_sync|by apply Forall_true]|].
  rewrite construct_cases in Hc. apply (f_equal snd) in Hc. cbn in Hc. subst w.
  assert (H : in_sync (LoadExistingConfig (with_defaults settings fs)).2).
  { rewrite LoadExistingConfig_cases. cbn [disk m_settings with_defaults set_config initial_frame].
    destruct (FileExists _ _) eqn:E; cbn [negb]; [|done].
    destruct Hs as [c Hl]; [by rewrite E|].
    change (m_config (with_defaults settings fs)) with (default_config settings).
    rewrite Hl. apply (refreshed_in_sync (set_config _ _)). }
  unfold mbind, M_bind. by destruct (LoadExistingConfig _) as [[[]|e] w].
Qed.


Lemma rows_in_sync w : m_serviceList w = row_of <$> m_services (m_config w) ->
  emptyLabel_shown w = bool_decide (m_services (m_config w) = []) -> in_sync w.
Proof. intros H1 H2. split; [|done]. by rewrite H1, <- list_fmap_compose. Qed.

(** ** The services the tool puts together *)

(** A service that can be reached: a dotted quad, a port and a weight that are neither 0
    nor too large for 16 bits.  This is [IsValid] but for the name, which may be empty. *)
Definition reachable_service (s : ServiceNode) : Prop :=
  IsValidIpv4 (GetIp s) = true /\ (1 <= GetPort s <= 65535)%Z /\ (1 <= GetWeight s <= 65535)%Z.

(** Every service can be reached, no two have one name or one address. *)
Definition services_ok (l : list ServiceNode) : Prop :=
  Forall reachable_service l /\
  NoDup (ServiceNode.GetName <$> l) /\ NoDup ((fun s => (GetIp s, GetPort s)) <$> l).

Lemma kept_sublist {A} flags (l : list A) : kept flags l `sublist_of` l.
Proof.
  revert flags. induction l as [|x l IH]; intros [|[] flags]; cbn; try done;
    constructor; apply IH.
Qed.

Lemma Forall_sublist_of {A} (P : A -> Prop) l l' : l' `sublist_of` l -> Forall P l -> Forall P l'.
Proof. induction 1; [done|..]; rewrite Forall_cons; [rewrite Forall_cons|]; naive_solver. Qed.

Lemma services_ok_sublist l l' : l' `sublist_of` l -> services_ok l -> services_ok l'.
Proof.
  intros Hl (Hv & Hn & Ha). split_and!.
  - by eapply Forall_sublist_of.
  - eapply sublist_NoDup; [exact Hn|by apply fmap_sublist].
  - eapply sublist_NoDup; [exact Ha|by apply fmap_sublist].
Qed.

(** No service of the list clashes with [s]. *)
Lemma no_clash s l : existsb (clashes s) l = false <->
  Forall (fun e => ServiceNode.GetName e <> ServiceNode.GetName s /\
                   ~ (GetIp e = GetIp s /\ GetPort e = GetPort s)) l.
Proof.
  induction l as [|e l IH]; [done|]. cbn [existsb]. rewrite Forall_cons, orb_false_iff, IH.
  apply and_iff_compat_r. unfold clashes.
  destruct (String.eqb_spec (ServiceNode.GetName e) (ServiceNode.GetName s)),
    (String.eqb_spec (GetIp e) (GetIp s)), (Z.eqb_spec (GetPort e) (GetPort s));
    cbn; naive_solver.
Qed.

Lemma services_ok_snoc l s :
  services_ok l -> reachable_service s ->
  existsb (clashes s) l = false -> services_ok (l ++ [s]).
Proof.
  intros (Hv & Hn & Ha) Hs Hc%no_clash. rewrite Forall_forall in Hc.
  split_and!.
  - apply Forall_app. split; [done|]. by constructor.
  - rewrite fmap_app. apply NoDup_app. split_and!; [done| |apply NoDup_singleton].
    intros n (e & -> & He)%list_elem_of_fmap Hin%list_elem_of_singleton.
    by destruct (Hc e He).
  - rewrite fmap_app. apply NoDup_app. split_and!; [done| |apply NoDup_singleton].
    intros n (e & -> & He)%list_elem_of_fmap Hin%list_elem_of_singleton.
    injection Hin as Hi Hp. by destruct (Hc e He) as [_ []].
Qed.

Section Text.
Context {WOk : WxLibOk W}.

Lemma number_ok_spec s :
  number_ok s = true <-> exists z, ToULong s = Some z /\ (1 <= z <= 65535)%Z.
Proof.
  unfold number_ok. destruct (ToULong s) as [z|] eqn:E; [|naive_solver].
  apply ToULong_range in E as [H0 _].
  destruct (Z.eqb_spec z 0), (Z.ltb_spec 65535 z); cbn; split;
    try (intros [=]; fail); try (intros (z' & [= <-] & ?); lia).
  intros _. exists z. split; [done|lia].
Qed.

(** The node made for the test has a name, so [IsValid] is about address and port. *)
Lemma test_node_valid ip port :
  IsValid (ServiceNode.make "test" ip port 1) = IsValidIpv4 ip && negb (port =? 0)%Z.
Proof.
  unfold IsValid, ServiceNode.make. cbn [ServiceNode.m_name m_ip m_port].
  destruct (String.eqb_spec ip "") as [->|_]; [done|].
  change (String.eqb "test" "") with false. cbn [negb andb].
  by destruct (port =? 0)%Z, (IsValidIpv4 ip).
Qed.

(** What the four fields must hold. *)
Lemma valid_input_spec name ip port weight :
  valid_input name ip port weight = true <->
  IsEmpty name = false /\ IsEmpty ip = false /\ IsEmpty port = false /\
  IsValidIpv4 (ToStdString ip) = true /\
  (exists p, ToULong port = Some p /\ (1 <= p <= 65535)%Z) /\
  (exists q, ToULong weight = Some q /\ (1 <= q <= 65535)%Z).
Proof.
  unfold valid_input.
  rewrite test_node_valid, !andb_true_iff, !negb_true_iff, !number_ok_spec. split; [tauto|].
  intros (Hn & Hi & Hp & Hv & Hport & Hw). split_and!; try done.
  destruct Hport as (p & Ep & Hr). unfold number_of. rewrite Ep. cbn.
  rewrite wrapu_small by (split; [lia|]; cbn; lia). apply Z.eqb_neq. lia.
Qed.

(** What a user must enter for [OnAddService] to add a service. *)
Definition acceptable (w : MainFrame) : Prop :=
  (IsEmpty (m_nameInput w) = false /\ IsEmpty (m_ipInput w) = false /\
   IsEmpty (m_portInput w) = false /\ IsValidIpv4 (ToStdString (m_ipInput w)) = true /\
   (exists p, ToULong (m_portInput w) = Some p /\ (1 <= p <= 65535)%Z) /\
   (exists q, ToULong (m_weightInput w) = Some q /\ (1 <= q <= 65535)%Z)) /\
  Forall (fun e => ServiceNode.GetName e <> ServiceNode.GetName (entered w) /\
                   ~ (GetIp e = GetIp (entered w) /\ GetPort e = GetPort (entered w)))
    (m_services (m_config w)).

Lemma accepted_spec w : accepted w = true <-> acceptable w.
Proof.
  unfold accepted, acceptable. by rewrite andb_true_iff, valid_input_spec, negb_true_iff, no_clash.
Qed.

(** The 16-bit casts keep the numbers that were accepted. *)
Lemma entered_numbers w : acceptable w ->
  ToULong (m_portInput w) = Some (GetPort (entered w)) /\
  ToULong (m_weightInput w) = Some (GetWeight (entered w)) /\ reachable_service (entered w).
Proof.
  intros [(_ & _ & _ & Hv & (p & Ep & Hp) & (q & Eq & Hq)) _].
  unfold reachable_service, entered, number_of. rewrite Ep, Eq.
  cbn [from_option id ServiceNode.make GetIp GetWeight GetPort m_ip m_port m_weight].
  rewrite !wrapu_small by (split; [lia|]; cbn; lia). split_and!; (done || lia).
Qed.

(** A service with a dotted quad and a port is valid exactly if it has a name. *)
Lemma reachable_valid s : reachable_service s ->
  IsValid s = negb (String.eqb (ServiceNode.GetName s) "").
Proof.
  intros (Hv & Hp & _). unfold IsValid, GetIp, GetPort, ServiceNode.GetName in *. rewrite Hv.
  destruct (String.eqb_spec (m_ip s) "") as [E|_]; [by rewrite E in Hv|].
  destruct (Z.eqb_spec (m_port s) 0); [lia|]. by rewrite !andb_true_r.
Qed.

(** A reachable service fits its types. *)
Lemma reachable_wf s : reachable_service s -> ServiceNode.wf s.
Proof. unfold reachable_service, GetPort, GetWeight. intros (_ & ? & ?). split; (split; [cbn; lia|]); cbn; lia. Qed.

(** C10: "Add Service" on every input.  What is acceptable is appended, with the port and
    the weight that were typed, the list is redrawn, the change is marked and the fields
    are cleared; anything else shows one message box and changes nothing.  The test for
    an empty name is made before the text is converted: the service that is added is a
    valid one exactly if the converted name is not empty. *)
Theorem OnAddService_outcomes w :
  (acceptable w -> OnAddService w = (Returned tt, added w) /\
     ToULong (m_portInput w) = Some (GetPort (entered w)) /\
     ToULong (m_weightInput w) = Some (GetWeight (entered w)) /\
     IsValid (entered w) = negb (String.eqb (ToStdString (m_nameInput w)) "")) /\
  (~ acceptable w -> exists d, OnAddService w = (Returned tt, with_dialogs [d] w)).
Proof.
  pose proof (OnAddService_cases w) as E. rewrite <- accepted_spec. split.
  - intros Ha. rewrite Ha in E. split; [done|]. apply accepted_spec in Ha.
    destruct (entered_numbers w Ha) as (Ep & Eq & Hr). split_and!; [done..|].
    by apply reachable_valid.
  - intros Ha. by destruct (accepted w).
Qed.

(** Buttons other than "Load Configuration". *)
Definition no_load (e : event) : Prop := e <> Button ID_LOAD_CONFIG.

(** The window still has its settings, and its configuration is [base] with services
    put together by hand. *)
Definition edits (settings : AppSettings) (base : LoadBalancerConfig) (w : MainFrame) : Prop :=
  m_settings w = settings /\
  exists l, m_config w = with_services l base /\ services_ok l.

Lemma dispatch_edits settings base e : no_load e -> keeps (edits settings base) (dispatch e).
Proof.
  assert (Hadd : keeps (edits settings base) OnAddService).
  { apply keeps_end. intros w (Hs & l & Hc & Hl). pose proof (OnAddService_cases w) as E.
    destruct (accepted w) eqn:Ea; [|by destruct E as [d ->]; split; [|exists l]]. rewrite E.
    apply accepted_spec in Ea as Hacc. destruct (entered_numbers w Hacc) as (_ & _ & Hr).
    unfold accepted in Ea. apply andb_true_iff in Ea as [_ Ea%negb_true_iff].
    split; [done|]. exists (l ++ [entered w]). unfold added. cbn [snd m_config].
    rewrite Hc in Ea |- *. split; [done|]. by apply services_ok_snoc. }
  assert (Hrem : keeps (edits settings base) OnRemoveService).
  { apply keeps_end. intros w (Hs & l & Hc & Hl). rewrite OnRemoveService_cases.
    case_match; [|by split; [|exists l]]. split; [done|]. unfold removed. cbn [snd m_config].
    rewrite Hc. eexists. split; [done|]. eapply services_ok_sublist, Hl. apply kept_sublist. }
  intros Hl.
  destruct e as [[]|[]|k shift|k|f s|flags|f|fs]; cbn [dispatch]; try done;
    try apply keeps_skip; try by apply keeps_modify.
  - apply keeps_end. intros w Hw. rewrite OnSaveConfig_cases. by repeat case_match.
  - apply keeps_bind; [by apply tab_keeps|intros ?; apply keeps_skip].
  - apply keeps_bind; [|intros ?; apply keeps_skip]. destruct k; cbn [OnListKey];
    first [apply keeps_ret | apply keeps_bind; [done|intros ?; apply keeps_ret]].
Qed.

(** The same over a session. *)
Lemma run_edits settings base events w r w' :
  Forall no_load events -> run events w = (r, w') ->
  edits settings base w -> edits settings base w'.
Proof.
  intros He E Hw. apply (keeps_run _ _ _ _ _ (run_keeps (edits settings base) no_load
    (dispatch_edits settings base) events He) Hw E).
Qed.

(** C22: a configuration put together with the tool can be served, whatever the user does
    short of loading a file: every address is an IPv4 literal, ports and weights are
    between 1 and 65535, and names and addresses are distinct, as the hash ring needs
    the names to be. *)
Theorem services_stay_ok events w r w' :
  services_ok (m_services (m_config w)) -> Forall no_load events ->
  run events w = (r, w') -> services_ok (m_services (m_config w')).
Proof.
  intros Hw He E. destruct (run_edits (m_settings w) (m_config w) events w r w' He E)
    as (_ & l & -> & Hl); [|done]. split; [done|]. exists (m_services (m_config w)).
  by destruct (m_config w).
Qed.
End Text.

(** C20: "Remove Selected" removes exactly the services whose rows are selected, in any
    selection, keeps the order of the others, redraws the list and marks the change;
    with nothing selected it shows a message box and changes nothing. *)
Theorem OnRemoveService_outcomes w :
  let flags := flags_of (m_serviceList w) in
  (existsb id flags = true -> exists w', OnRemoveService w = (Returned tt, w') /\
     m_config w' = with_services (kept flags (m_services (m_config w))) (m_config w) /\
     in_sync w' /\ m_hasUnsavedChanges w' = true) /\
  (existsb id flags = false -> exists d, OnRemoveService w = (Returned tt, with_dialogs [d] w)).
Proof.
  cbn zeta. rewrite OnRemoveService_cases. split; intros ->; [|by eexists].
  exists (removed w). split_and!; try done. by apply rows_in_sync.
Qed.

(** After a successful "Save Configuration" of a configuration the file format can
    hold, no change is marked as unsaved, and "Load Configuration" brings back exactly
    that configuration. *)
Theorem save_then_load `{!SerializerContract FileSystem} w w1 :
  let path := GetConfigFilePath (m_settings w) in
  OnSaveConfig w = (Returned tt, w1) -> dialogs w1 = dialogs w ->
  storable (m_config w) -> durable (disk w1) path -> FileExists (disk w1) path ->
  m_hasUnsavedChanges w1 = false /\
  exists w2, OnLoadConfig w1 = (Returned tt, w2) /\ m_config w2 = m_config w /\
             in_sync w2 /\ m_hasUnsavedChanges w2 = false /\ dialogs w2 = dialogs w.
Proof.
  cbn zeta. rewrite OnSaveConfig_cases.
  destruct (Save _ _ _) as [[[[]|why]|e] fs] eqn:E; intros [= <-] Hd Hs Hf He.
  - split; [done|]. exists (loaded (m_config w) (saved_in fs w)). split_and!; try done.
    + rewrite OnLoadConfig_cases. apply Is_true_true in He.
      change (m_settings (saved_in fs w)) with (m_settings w). rewrite He. cbn [negb].
      change (disk (saved_in fs w)) with fs. by rewrite (load_of_saved _ _ _ _ Hs E Hf).
    + by apply rows_in_sync.
  - cbn in Hd. apply (f_equal length) in Hd. rewrite length_app in Hd. cbn in Hd. lia.
Qed.

(** C31: if the file found at the start fails to load, the window holds what [Load] read
    before it failed, and shows an empty list, no message and no unsaved change; saving
    then replaces the file by that part. *)
Theorem half_loaded_start settings fs why c :
  let path := GetConfigFilePath settings in
  FileExists fs path -> Load fs path (default_config settings) = (Returned (Unexpected why), c) ->
  exists w, construct settings fs = (Returned tt, w) /\ m_config w = c /\
    m_serviceList w = [] /\ dialogs w = [] /\ m_hasUnsavedChanges w = false /\
    forall fs', Save c path fs = (Returned (Value tt), fs') ->
      exists w', OnSaveConfig w = (Returned tt, w') /\ disk w' = fs' /\ dialogs w' = [].
Proof.
  cbn zeta. intros He Hl.
  exists (set_focus NameInput (set_config c (with_defaults settings fs))). split_and!; try done.
  - rewrite construct_cases. unfold mbind, M_bind. rewrite LoadExistingConfig_cases.
    apply Is_true_true in He.
    change (disk (with_defaults settings fs)) with fs.
    change (m_settings (with_defaults settings fs)) with settings.
    change (m_config (with_defaults settings fs)) with (default_config settings).
    by rewrite He, Hl.
  - intros fs' Hs. exists (saved_in fs' (set_focus NameInput (set_config c (with_defaults settings fs)))).
    rewrite OnSaveConfig_cases.
    change (m_config (set_focus _ (set_config c _))) with c.
    change (m_settings (set_focus _ (set_config c _))) with settings.
    change (disk (set_focus _ (set_config c _))) with fs. by rewrite Hs.
Qed.

End MainFrame.
End MainFrame.
