(* ===== verification/App.v ===== *)
(** * ui/BitBridgeApp: the configuration tool from its start

    [OnInit] loads the settings, whose file it creates if there is none, and opens the
    window.  The settings, the window and the serializer work on one file system. *)

From S2P Require Import Prelude Text Node Config Serialization Settings MainFrame.
Import LoadBalancerConfig AppSettings IConfigSerializer MainFrame.

Module BitBridgeApp.
Section BitBridgeApp.
Context {FileSystem : Type} `{W : WxLib FileSystem} `{T : TomlLib FileSystem}.
Context `{SOk : SerializerContract FileSystem}.

(** [true] and the window, unless an exception leaves the call. *)
Definition OnInit (fs : FileSystem) : outcome bool * option MainFrame :=
  match LoadFromFile "bitbridge-settings.toml" (AppSettings.make, fs) with
  | (Threw e, _) => (Threw e, None)
  | (Returned _, (settings, fs)) =>
      match construct settings fs with
      | (Threw e, _) => (Threw e, None)
      | (Returned _, frame) => (Returned true, Some frame)
      end
  end.

(** ** Restarting *)

(** The window that opens when the configuration file loads. *)
Lemma construct_loads settings fs c :
  let path := GetConfigFilePath settings in
  FileExists fs path -> Load fs path (default_config settings) = (Returned (Value tt), c) ->
  exists w, construct settings fs = (Returned tt, w) /\ m_config w = c /\
    m_settings w = settings /\ in_sync w /\ m_hasUnsavedChanges w = false /\ dialogs w = [].
Proof.
  cbn zeta. intros He Hl. exists (set_focus NameInput (loaded c (with_defaults settings fs))).
  split; [|split_and!; [done..|by apply rows_in_sync|done|done]].
  rewrite construct_cases. unfold mbind, M_bind. rewrite LoadExistingConfig_cases.
  apply Is_true_true in He.
  change (disk (with_defaults settings fs)) with fs.
  change (m_settings (with_defaults settings fs)) with settings.
  change (m_config (with_defaults settings fs)) with (default_config settings).
  by rewrite He, Hl.
Qed.

(** C32: what was saved is there after a restart.  If "Save Configuration" showed no
    message box, the configuration is one that the file format can hold, its file was
    written in full, and the settings file still says what it said, then the application
    starts again with a window that holds exactly the saved configuration, shows it in
    its list, and has no message and no unsaved change. *)
Theorem saved_survives_restart w w1 b :
  let path := GetConfigFilePath (m_settings w) in
  OnSaveConfig w = (Returned tt, w1) -> dialogs w1 = dialogs w ->
  storable (m_config w) -> durable (disk w1) path -> FileExists (disk w1) path ->
  LoadFromFile "bitbridge-settings.toml" (AppSettings.make, disk w1)
    = (Returned b, (m_settings w, disk w1)) ->
  exists w2, OnInit (disk w1) = (Returned true, Some w2) /\ m_config w2 = m_config w /\
    m_settings w2 = m_settings w /\ in_sync w2 /\ m_hasUnsavedChanges w2 = false /\
    dialogs w2 = [].
Proof.
  cbn zeta. rewrite OnSaveConfig_cases.
  destruct (Save _ _ _) as [[[[]|why]|e] fs] eqn:E; intros [= <-] Hd Hs Hf He Hload.
  - change (disk (saved_in fs w)) with fs in *.
    destruct (construct_loads (m_settings w) fs (m_config w) He) as (w2 & Ec & Hrest);
      [by apply (load_of_saved _ _ _ _ Hs E Hf)|].
    exists w2. unfold OnInit. by rewrite Hload, Ec.
  - cbn in Hd. apply (f_equal length) in Hd. rewrite length_app in Hd. cbn in Hd. lia.
Qed.

End BitBridgeApp.
End BitBridgeApp.
