(* ===== verification/State.v ===== *)
(** * core/state: the runtime state of the services

    [ServiceState] holds a node and three atomics; [ServicePool] is the vector of
    them.  [std::atomic<size_t>] fields are integers of [0, 2^64) whose [fetch_add]
    wraps.  A method that returns a mutable reference ([GetService]) is modelled by
    its lookup and by [update_at], which writes through the reference.

    Here each call runs without interference; [Atomics] runs them in many threads. *)

From S2P Require Import Prelude Node.

(** ** ServiceState *)
Module ServiceState.
Import ServiceNode.

Record ServiceState := mkState {
  m_node : ServiceNode;
  m_activeConnections : Z;     (* atomic<size_t> *)
  m_healthy : bool;            (* atomic<bool> *)
  m_consecutiveFailures : Z    (* atomic<size_t> *)
}.

#[export] Instance eq_dec : EqDecision ServiceState.
Proof. solve_decision. Defined.

Definition make (node : ServiceNode) : ServiceState := mkState node 0 true 0.

(** The copy and move constructors load the other object's atomics one by one. *)
Definition copy (other : ServiceState) : ServiceState :=
  mkState (m_node other) (m_activeConnections other) (m_healthy other)
          (m_consecutiveFailures other).

(** Copy and move assignment.  [same] is the test [this == &other]. *)
Definition assign (same : bool) (this other : ServiceState) : ServiceState :=
  if same then this else copy other.

Definition GetNode (s : ServiceState) : ServiceNode := m_node s.
Definition GetActiveConnections (s : ServiceState) : Z := m_activeConnections s.
Definition IsHealthy (s : ServiceState) : bool := m_healthy s.
Definition GetConsecutiveFailures (s : ServiceState) : Z := m_consecutiveFailures s.

Definition set_active (n : Z) (s : ServiceState) : ServiceState :=
  mkState (m_node s) n (m_healthy s) (m_consecutiveFailures s).

Definition IncrementConnections (s : ServiceState) : ServiceState :=
  set_active (u64 (m_activeConnections s + 1)) s.

(** [cell.compare_exchange_weak(expected, desired)]: whether it succeeded, the cell
    and [expected] afterwards.  The weak form may fail [spuriously]. *)
Definition compare_exchange_weak (spurious : bool) (cell expected desired : Z)
    : bool * Z * Z :=
  if (cell =? expected)%Z && negb spurious then (true, desired, expected)
  else (false, cell, cell).

(** The [while (current > 0)] loop: [spurious] tells, attempt by attempt, which weak
    exchanges fail for no reason; after its end none does. *)
Fixpoint decrement_loop (spurious : list bool) (cell current : Z) : Z :=
  if (0 <? current)%Z then
    match spurious with
    | [] => (compare_exchange_weak false cell current (current - 1)).1.2
    | b :: spurious' =>
        match compare_exchange_weak b cell current (current - 1) with
        | (true, cell', _) => cell'
        | (false, cell', current') => decrement_loop spurious' cell' current'
        end
    end
  else cell.

Definition DecrementConnections_weak (spurious : list bool) (s : ServiceState)
    : ServiceState :=
  set_active (decrement_loop spurious (m_activeConnections s) (m_activeConnections s)) s.

(** The call as the rest of the program sees it. *)
Definition DecrementConnections : ServiceState -> ServiceState :=
  DecrementConnections_weak [].

Definition SetHealthy (healthy : bool) (s : ServiceState) : ServiceState :=
  mkState (m_node s) (m_activeConnections s) healthy (m_consecutiveFailures s).

Definition IncrementFailures (s : ServiceState) : ServiceState :=
  mkState (m_node s) (m_activeConnections s) (m_healthy s)
          (u64 (m_consecutiveFailures s + 1)).

Definition ResetFailures (s : ServiceState) : ServiceState :=
  mkState (m_node s) (m_activeConnections s) (m_healthy s) 0.

(** *** Lemmas *)

Definition wf (s : ServiceState) : Prop :=
  in_u 64 (m_activeConnections s) /\ in_u 64 (m_consecutiveFailures s).

Lemma decrement_loop_spec spurious cell : (0 <= cell)%Z ->
  decrement_loop spurious cell cell = Z.max 0 (cell - 1).
Proof.
  induction spurious as [|b spurious IH]; intros Hc; simpl;
    destruct (Z.ltb_spec 0 cell); try lia;
    unfold compare_exchange_weak; rewrite Z.eqb_refl; simpl; [lia|].
  destruct b; simpl; [by apply IH|lia].
Qed.

Lemma Decrement_active s : wf s ->
  m_activeConnections (DecrementConnections s) = Z.max 0 (m_activeConnections s - 1).
Proof. intros [[??] _]. by apply decrement_loop_spec. Qed.

Lemma Increment_active s : (0 <= m_activeConnections s < 2 ^ 64 - 1)%Z ->
  m_activeConnections (IncrementConnections s) = (m_activeConnections s + 1)%Z.
Proof. intros H. apply wrapu_small. unfold in_u. lia. Qed.

Lemma fresh_service_wf node : wf (make node).
Proof. by apply (bool_decide_unpack (wf (make node))). Qed.
Lemma Increment_wf s : wf s -> wf (IncrementConnections s).
Proof. intros [??]. by split; [apply wrapu_in|]. Qed.
Lemma Decrement_wf s : wf s -> wf (DecrementConnections s).
Proof.
  intros Hs. split; [|apply Hs]. rewrite Decrement_active by done.
  destruct Hs as [[??] _]. unfold in_u. lia.
Qed.
Lemma SetHealthy_wf b s : wf s -> wf (SetHealthy b s).
Proof. done. Qed.
Lemma IncrementFailures_wf s : wf s -> wf (IncrementFailures s).
Proof. intros [??]. by split; [|apply wrapu_in]. Qed.
Lemma ResetFailures_wf s : wf s -> wf (ResetFailures s).
Proof. intros [??]. by split. Qed.

(** Whatever weak exchanges fail spuriously, [DecrementConnections] subtracts one
    from a positive counter and leaves zero alone: it never underflows, and it touches
    nothing else. *)
Theorem DecrementConnections_saturates spurious s : wf s ->
  DecrementConnections_weak spurious s = set_active (Z.max 0 (m_activeConnections s - 1)) s.
Proof. intros [[??] _]. unfold DecrementConnections_weak. by rewrite decrement_loop_spec. Qed.

Example DecrementConnections_saturates_witness :
  DecrementConnections_weak [true; true; false] (mkState ServiceNode.default 3 true 0)
  = mkState ServiceNode.default 2 true 0.
Proof.
  apply (DecrementConnections_saturates [true; true; false]
           (mkState ServiceNode.default 3 true 0)).
  by apply (bool_decide_unpack (_ /\ _)).
Defined.

End ServiceState.

(** ** ServicePool *)
Module ServicePool.
Import ServiceNode ServiceState.

Record ServicePool := mkPool { m_services : list ServiceState }.

(** The default constructor and the one from the configured nodes. *)
Definition empty : ServicePool := mkPool [].
Definition make (services : list ServiceNode) : ServicePool :=
  mkPool (ServiceState.make <$> services).

Definition GetSize (p : ServicePool) : nat := length (m_services p).

(** [m_services.at(index)] *)
Definition GetService (p : ServicePool) (index : nat) : outcome ServiceState :=
  at_ (m_services p) index.

Definition GetHealthyCount (p : ServicePool) : nat :=
  fold_left (fun count s => if IsHealthy s then S count else count) (m_services p) 0.

(** A method call on the reference [GetService(index)] returns. *)
Definition update_at (index : nat) (f : ServiceState -> ServiceState) (p : ServicePool)
    : ServicePool := mkPool (alter f index (m_services p)).

Definition wf (p : ServicePool) : Prop := Forall ServiceState.wf (m_services p).

Definition healthy_at (p : ServicePool) (i : nat) : bool :=
  match m_services p !! i with Some s => IsHealthy s | None => false end.

Definition active_at (p : ServicePool) (i : nat) : Z :=
  match m_services p !! i with Some s => GetActiveConnections s | None => 0 end.

Lemma fresh_pool_wf nodes : wf (make nodes).
Proof. apply Forall_fmap, Forall_true. intros. apply ServiceState.fresh_service_wf. Qed.

Lemma make_size nodes : GetSize (make nodes) = length nodes.
Proof. apply length_fmap. Qed.

Lemma update_at_size i f p : GetSize (update_at i f p) = GetSize p.
Proof. apply length_alter. Qed.

Lemma update_at_wf i f p :
  (forall s, ServiceState.wf s -> ServiceState.wf (f s)) -> wf p -> wf (update_at i f p).
Proof. intros Hf Hp. apply Forall_alter; [done|]. intros s _. apply Hf. Qed.

Lemma GetService_returned p i : i < GetSize p -> exists s, GetService p i = Returned s.
Proof. apply at_lt. Qed.

Lemma GetService_lookup p i s : GetService p i = Returned s <-> m_services p !! i = Some s.
Proof. apply at_returned. Qed.

Lemma healthy_at_lt p i : healthy_at p i -> i < GetSize p.
Proof. unfold healthy_at. case_match; [|done]. intros _. by eapply lookup_lt_Some. Qed.

Lemma fold_count_acc {A} (f : A -> bool) l n :
  fold_left (fun count s => if f s then S count else count) l n
  = n + length (List.filter f l).
Proof.
  revert n; induction l as [|s l IH]; intros n; simpl; [lia|].
  rewrite IH. destruct (f s); simpl; lia.
Qed.

Lemma GetHealthyCount_filter p :
  GetHealthyCount p = length (List.filter IsHealthy (m_services p)).
Proof. apply (fold_count_acc IsHealthy _ 0). Qed.

End ServicePool.
