(* ===== verification/Atomics.v ===== *)
(** * core/state/ServiceState.cpp under concurrency

    [IncrementConnections] and [DecrementConnections] as the atomic instructions they
    execute, one thread per counter of program, interleaved.  The decrement is a load
    followed by a compare-and-swap loop, so a call spans several steps and may see
    the counter change under it.  The theorem is linearizability, stated as
    refinement: every trace of calls and returns the instructions allow is a trace of
    a machine in which each call takes effect in one indivisible step. *)

From S2P Require Import Prelude Node State.
Import ServiceState.

(** What is common to both machines: a shared cell, the threads, visible events. *)
Module Machine.

Inductive op := Inc | Dec.
Inductive event := Call (t : nat) (o : op) | Ret (t : nat).

Record config (pc : Type) := mkConfig { cell : Z; threads : list pc }.
Arguments mkConfig {pc} cell threads.
Arguments cell {pc} c.
Arguments threads {pc} c.

(** [traced step c evs c']: a run from [c] to [c'] whose visible events are [evs]. *)
Inductive traced {C} (step : C -> option event -> C -> Prop) : C -> list event -> C -> Prop :=
  | traced_refl c : traced step c [] c
  | traced_silent c c' c'' evs :
      step c None c' -> traced step c' evs c'' -> traced step c evs c''
  | traced_event c e c' c'' evs :
      step c (Some e) c' -> traced step c' evs c'' -> traced step c (e :: evs) c''.

Lemma traced_app {C} (step : C -> option event -> C -> Prop) c1 evs1 c2 evs2 c3 :
  traced step c1 evs1 c2 -> traced step c2 evs2 c3 -> traced step c1 (evs1 ++ evs2) c3.
Proof. induction 1; simpl; eauto using traced. Qed.

End Machine.
Import Machine.

(** ** The instructions of ServiceState.cpp *)
Module Instr.

(** Where a thread is.  [AtTest current] is the loop head, with the local [current]. *)
Inductive pc := Idle | AtFetchAdd | AtLoad | AtTest (current : Z) | AtReturn.

Inductive step : config pc -> option event -> config pc -> Prop :=
  | call_inc n ts t :
      ts !! t = Some Idle ->
      step (mkConfig n ts) (Some (Call t Inc)) (mkConfig n (<[t := AtFetchAdd]> ts))
  | call_dec n ts t :
      ts !! t = Some Idle ->
      step (mkConfig n ts) (Some (Call t Dec)) (mkConfig n (<[t := AtLoad]> ts))
  | fetch_add n ts t :
      ts !! t = Some AtFetchAdd ->
      step (mkConfig n ts) None (mkConfig (u64 (n + 1)) (<[t := AtReturn]> ts))
  | load n ts t :
      ts !! t = Some AtLoad ->
      step (mkConfig n ts) None (mkConfig n (<[t := AtTest n]> ts))
  | exit_loop n ts t current :
      ts !! t = Some (AtTest current) -> ~ (0 < current)%Z ->
      step (mkConfig n ts) None (mkConfig n (<[t := AtReturn]> ts))
  | exchange n ts t current spurious ok n' current' :
      ts !! t = Some (AtTest current) -> (0 < current)%Z ->
      compare_exchange_weak spurious n current (current - 1) = (ok, n', current') ->
      step (mkConfig n ts) None
           (mkConfig n' (<[t := if ok then AtReturn else AtTest current']> ts))
  | return_ n ts t :
      ts !! t = Some AtReturn ->
      step (mkConfig n ts) (Some (Ret t)) (mkConfig n (<[t := Idle]> ts)).

Definition initial (n : Z) (k : nat) : config pc := mkConfig n (replicate k Idle).

End Instr.

(** ** The specification: each call is one indivisible step *)
Module Spec.

Inductive pc := Idle | Called (o : op) | Done.

(** The effect of a call on the counter. *)
Definition effect (o : op) (n : Z) : Z :=
  match o with Inc => u64 (n + 1) | Dec => Z.max 0 (n - 1) end.

Inductive step : config pc -> option event -> config pc -> Prop :=
  | call n ts t o :
      ts !! t = Some Idle ->
      step (mkConfig n ts) (Some (Call t o)) (mkConfig n (<[t := Called o]> ts))
  | take_effect n ts t o :
      ts !! t = Some (Called o) ->
      step (mkConfig n ts) None (mkConfig (effect o n) (<[t := Done]> ts))
  | return_ n ts t :
      ts !! t = Some Done ->
      step (mkConfig n ts) (Some (Ret t)) (mkConfig n (<[t := Idle]> ts)).

Definition initial (n : Z) (k : nat) : config pc := mkConfig n (replicate k Idle).

End Spec.

(** ** Refinement *)

(** A decrement has taken effect once its local [current] is zero: it was zero in the
    counter when the load or the failed exchange read it. *)
Definition abs (p : Instr.pc) : Spec.pc :=
  match p with
  | Instr.Idle => Spec.Idle
  | Instr.AtFetchAdd => Spec.Called Inc
  | Instr.AtLoad => Spec.Called Dec
  | Instr.AtTest current => if (0 <? current)%Z then Spec.Called Dec else Spec.Done
  | Instr.AtReturn => Spec.Done
  end.

Definition abs_config (c : config Instr.pc) : config Spec.pc :=
  mkConfig (cell c) (abs <$> threads c).

Definition counter_ok (c : config Instr.pc) : Prop := in_u 64 (cell c).

(** A weak exchange either replaces the expected value or reads the cell. *)
Lemma exchange_cases spurious n current d ok n' current' :
  compare_exchange_weak spurious n current d = (ok, n', current') ->
  (ok = true /\ n = current /\ n' = d) \/ (ok = false /\ n' = n /\ current' = n).
Proof.
  unfold compare_exchange_weak. case_match eqn:B; intros [= <- <- <-]; [left|by right].
  by apply andb_prop in B as [->%Z.eqb_eq _].
Qed.

Lemma step_counter_ok c l c' : Instr.step c l c' -> counter_ok c -> counter_ok c'.
Proof.
  unfold counter_ok, in_u. intros [] Hn; cbn in *; try done.
  - by apply wrapu_in.
  - destruct (exchange_cases _ _ _ _ _ _ _ H1) as [(_ & -> & ->)|(_ & -> & _)]; lia.
Qed.

Lemma abs_insert (ts : list Instr.pc) t p : abs <$> <[t := p]> ts = <[t := abs p]> (abs <$> ts).
Proof. apply list_fmap_insert. Qed.

Lemma abs_same (ts : list Instr.pc) t p q : ts !! t = Some p -> abs q = abs p ->
  abs <$> <[t := q]> ts = abs <$> ts.
Proof.
  intros Ht Hq. rewrite abs_insert, Hq. apply list_insert_id. by rewrite list_lookup_fmap, Ht.
Qed.

Lemma abs_lookup (ts : list Instr.pc) t p : ts !! t = Some p -> (abs <$> ts) !! t = Some (abs p).
Proof. intros Ht. by rewrite list_lookup_fmap, Ht. Qed.

(** Reading the counter inside a decrement: the call takes effect if it reads zero. *)
Lemma simulate_read n (ts : list Instr.pc) t p : (0 <= n)%Z ->
  ts !! t = Some p -> abs p = Spec.Called Dec ->
  Spec.step (mkConfig n (abs <$> ts)) None
            (mkConfig n (abs <$> <[t := Instr.AtTest n]> ts)) \/
  abs <$> <[t := Instr.AtTest n]> ts = abs <$> ts.
Proof.
  intros Hn Ht Hp. destruct (Z.ltb_spec 0 n) as [H|H].
  - right. apply (abs_same _ _ p); [done|]. rewrite Hp; simpl. by rewrite (proj2 (Z.ltb_lt _ _)).
  - left. assert (n = 0%Z) as -> by lia. rewrite abs_insert.
    apply (Spec.take_effect 0%Z _ _ Dec). by rewrite (abs_lookup _ _ _ Ht), Hp.
Qed.

(** A step of the instructions is at most one step of the specification, with the same
    visible event. *)
Lemma simulation c l c' : counter_ok c -> Instr.step c l c' ->
  Spec.step (abs_config c) l (abs_config c') \/ (l = None /\ abs_config c' = abs_config c).
Proof.
  unfold counter_ok, in_u, abs_config.
  intros Hok Hs. destruct Hs; cbn in *; rewrite ?abs_insert.
  - left. by apply Spec.call, (abs_lookup _ _ _ H).
  - left. by apply Spec.call, (abs_lookup _ _ _ H).
  - left. apply (Spec.take_effect _ _ _ Inc), (abs_lookup _ _ _ H).
  - rewrite <- abs_insert.
    destruct (simulate_read n ts t _ (proj1 Hok) H eq_refl) as [?| ->]; auto.
  - right. split; [done|]. f_equal. rewrite <- abs_insert.
    apply (abs_same _ _ (Instr.AtTest current)); [done|]. simpl.
    by rewrite (proj2 (Z.ltb_ge _ _)) by lia.
  - assert (Hc : abs (Instr.AtTest current) = Spec.Called Dec)
      by (simpl; by rewrite (proj2 (Z.ltb_lt _ _))).
    destruct (exchange_cases _ _ _ _ _ _ _ H1) as [(-> & -> & ->)|(-> & -> & ->)].
    + left. replace (current - 1)%Z with (Spec.effect Dec current) by (simpl; lia).
      apply Spec.take_effect. by rewrite (abs_lookup _ _ _ H), Hc.
    + rewrite <- abs_insert.
      destruct (simulate_read n ts t _ (proj1 Hok) H Hc) as [?| ->]; auto.
  - left. apply Spec.return_, (abs_lookup _ _ _ H).
Qed.

Lemma traced_simulation c evs c' : traced Instr.step c evs c' -> counter_ok c ->
  traced Spec.step (abs_config c) evs (abs_config c') /\ counter_ok c'.
Proof.
  induction 1 as [c|c c1 c2 evs Hs _ IH|c e c1 c2 evs Hs _ IH]; intros Hok.
  - split; [constructor|done].
  - destruct (IH (step_counter_ok _ _ _ Hs Hok)) as [Ht ?]. split; [|done].
    destruct (simulation _ _ _ Hok Hs) as [?|[_ <-]]; eauto using traced.
  - destruct (IH (step_counter_ok _ _ _ Hs Hok)) as [Ht ?]. split; [|done].
    destruct (simulation _ _ _ Hok Hs) as [?|[? _]]; [eauto using traced|done].
Qed.

(** The atomic machine counts: its final value is determined by the effects taken. *)
Lemma abs_initial n k : abs_config (Instr.initial n k) = Spec.initial n k.
Proof. unfold abs_config; simpl. by rewrite fmap_replicate. Qed.

(** C16: [IncrementConnections] and [DecrementConnections] are linearizable.  Any number
    of threads may interleave their instructions and any weak exchange may fail: the
    calls and returns they show, and the counter they leave, are those of a machine
    whose calls add one (modulo 2^64) or subtract one (down to zero) indivisibly. *)
Theorem counter_linearizable n k evs c :
  in_u 64 n -> traced Instr.step (Instr.initial n k) evs c ->
  exists a, traced Spec.step (Spec.initial n k) evs a /\ cell a = cell c /\ in_u 64 (cell c).
Proof.
  intros Hn Ht. destruct (traced_simulation _ _ _ Ht Hn) as [Hs Hc].
  rewrite abs_initial in Hs. by exists (abs_config c).
Qed.

(** Two decrements of a counter that is one, the second thread's exchange failing. *)
Definition race_events : list event := [Call 0 Dec; Call 1 Dec; Ret 0; Ret 1].

Lemma race_run : traced Instr.step (Instr.initial 1 2) race_events (Instr.initial 0 2).
Proof.
  unfold race_events, Instr.initial; simpl.
  eapply traced_event; [by apply (Instr.call_dec 1 _ 0)|].
  eapply traced_event; [by apply (Instr.call_dec 1 _ 1)|].
  eapply traced_silent; [by apply (Instr.load 1 _ 0)|].
  eapply traced_silent; [by apply (Instr.load 1 _ 1)|].
  eapply traced_silent; [by apply (Instr.exchange 1 _ 0 1 false true 0 1)|].
  eapply traced_silent; [by apply (Instr.exchange 0 _ 1 1 false false 0 0)|].
  eapply traced_silent; [by apply (Instr.exit_loop 0 _ 1 0)|].
  eapply traced_event; [by apply (Instr.return_ 0 _ 0)|].
  eapply traced_event; [by apply (Instr.return_ 0 _ 1)|].
  apply traced_refl.
Qed.

Example counter_linearizable_witness :
  exists a, traced Spec.step (Spec.initial 1 2) race_events a /\
            cell a = 0%Z /\ in_u 64 0.
Proof.
  apply (counter_linearizable 1 2 race_events (Instr.initial 0 2));
    [by apply (bool_decide_unpack (in_u 64 1))|apply race_run].
Defined.
