(* ===== verification/Rng.v ===== *)
(** * core/routing/Xoshiro256: the random number generator

    xoshiro256** seeded by SplitMix64, on 64-bit words.  [operator()] is [next]: the
    output and the new state.  The lemmas work on words as sums of bits: the state map
    and SplitMix64's finalizer are injective, from which the generator can never be
    in, or reach, the all-zero state it could not leave. *)

From S2P Require Import Prelude.

Module Xoshiro256StarStar.
Local Open Scope Z_scope.

Record Xoshiro256StarStar := mkRng { m_0 : Z; m_1 : Z; m_2 : Z; m_3 : Z }.

#[export] Instance eq_dec : EqDecision Xoshiro256StarStar.
Proof. solve_decision. Defined.

Definition min : Z := 0.
Definition max : Z := 2 ^ 64 - 1.

Definition RotateLeft (x k : Z) : Z :=
  Z.lor (u64 (Z.shiftl x k)) (Z.shiftr x (64 - k)).

(** The output and the new value of the [state] reference. *)
Definition SplitMix64 (state : Z) : Z * Z :=
  let state := u64 (state + 0x9e3779b97f4a7c15) in
  let z := u64 (Z.lxor state (Z.shiftr state 30) * 0xbf58476d1ce4e5b9) in
  let z := u64 (Z.lxor z (Z.shiftr z 27) * 0x94d049bb133111eb) in
  (Z.lxor z (Z.shiftr z 31), state).

(** The constructor. *)
Definition make (seed : Z) : Xoshiro256StarStar :=
  let '(s0, seed) := SplitMix64 seed in
  let '(s1, seed) := SplitMix64 seed in
  let '(s2, seed) := SplitMix64 seed in
  let '(s3, seed) := SplitMix64 seed in
  mkRng s0 s1 s2 s3.

(** [operator()], statement by statement. *)
Definition next (g : Xoshiro256StarStar) : Z * Xoshiro256StarStar :=
  let result := u64 (RotateLeft (u64 (m_1 g * 5)) 7 * 9) in
  let t := u64 (Z.shiftl (m_1 g) 17) in
  let s2 := Z.lxor (m_2 g) (m_0 g) in
  let s3 := Z.lxor (m_3 g) (m_1 g) in
  let s1 := Z.lxor (m_1 g) s2 in
  let s0 := Z.lxor (m_0 g) s3 in
  let s2 := Z.lxor s2 t in
  let s3 := RotateLeft s3 45 in
  (result, mkRng s0 s1 s2 s3).

(** Published outputs of SplitMix64 from the state 0. *)
Example splitmix_vectors :
  let '(a, s) := SplitMix64 0 in let '(b, _) := SplitMix64 s in
  a = 0xe220a8397b1dcdaf /\ b = 0x6e789e6aa1b965f4.
Proof. vm_compute. done. Qed.

(** The published first output of xoshiro256** from the state 1, 2, 3, 4. *)
Example xoshiro_vector : (next (mkRng 1 2 3 4)).1 = 11520.
Proof. reflexivity. Qed.

Definition wf (g : Xoshiro256StarStar) : Prop :=
  in_u 64 (m_0 g) /\ in_u 64 (m_1 g) /\ in_u 64 (m_2 g) /\ in_u 64 (m_3 g).

Definition zero : Xoshiro256StarStar := mkRng 0 0 0 0.

(** *** Words *)

Lemma word_bits x : in_u 64 x <-> 0 <= x /\ forall i, 64 <= i -> Z.testbit x i = false.
Proof.
  unfold in_u. split.
  - intros [H1 H2]. split; [done|]. intros i Hi.
    destruct (decide (x = 0)) as [->|]; [by rewrite Z.bits_0|].
    apply Z.bits_above_log2; [done|]. apply Z.log2_lt_pow2; [lia|].
    apply Z.lt_le_trans with (1 := H2). apply Z.pow_le_mono_r; lia.
  - intros [H1 H2]. split; [done|].
    destruct (decide (x = 0)) as [->|]; [lia|].
    apply Z.log2_lt_pow2; [lia|]. destruct (Z.lt_ge_cases (Z.log2 x) 64) as [|H]; [done|].
    specialize (H2 _ H). rewrite Z.bit_log2 in H2; [done|lia].
Qed.

Lemma lxor_word x y : in_u 64 x -> in_u 64 y -> in_u 64 (Z.lxor x y).
Proof.
  rewrite !word_bits. intros [? Hx] [? Hy]. split; [by apply Z.lxor_nonneg|].
  intros i Hi. by rewrite Z.lxor_spec, Hx, Hy.
Qed.

Lemma u64_word z : in_u 64 (u64 z).
Proof. by apply wrapu_in. Qed.

Lemma shiftr_word x k : 0 <= k -> in_u 64 x -> in_u 64 (Z.shiftr x k).
Proof.
  rewrite !word_bits. intros Hk [? Hx]. split; [by apply Z.shiftr_nonneg|].
  intros i Hi. rewrite Z.shiftr_spec by lia. apply Hx. lia.
Qed.

Lemma rotate_bits x k i : in_u 64 x -> 0 <= k <= 64 -> 0 <= i < 64 ->
  Z.testbit (RotateLeft x k) i =
  if decide (i < k) then Z.testbit x (i + (64 - k)) else Z.testbit x (i - k).
Proof.
  intros Hx Hk Hi. apply word_bits in Hx as [_ Hx]. unfold RotateLeft, wrapu.
  rewrite Z.lor_spec, Z.mod_pow2_bits_low, Z.shiftl_spec, Z.shiftr_spec by lia.
  case_decide; [by rewrite Z.testbit_neg_r by lia|].
  rewrite (Hx (i + (64 - k))) by lia. by rewrite orb_false_r.
Qed.

Lemma rotate_word x k : in_u 64 x -> 0 <= k <= 64 -> in_u 64 (RotateLeft x k).
Proof.
  intros Hx Hk. apply word_bits. unfold RotateLeft. split.
  - apply Z.lor_nonneg. split; [apply u64_word|]. apply Z.shiftr_nonneg, Hx.
  - intros i Hi. rewrite Z.lor_spec. pose proof (u64_word (Z.shiftl x k)) as [_ H]%word_bits.
    rewrite H by done. apply word_bits in Hx as [_ Hx]. rewrite Z.shiftr_spec by lia.
    apply Hx. lia.
Qed.

Lemma rotate_inj x y k : in_u 64 x -> in_u 64 y -> 0 <= k <= 64 ->
  RotateLeft x k = RotateLeft y k -> x = y.
Proof.
  intros Hx Hy Hk E. apply Z.bits_inj'. intros i Hi.
  destruct (Z.lt_ge_cases i 64) as [Hl|Hl].
  - destruct (decide (i < 64 - k)).
    + assert (B : Z.testbit (RotateLeft x k) (i + k) = Z.testbit (RotateLeft y k) (i + k))
        by (by rewrite E).
      rewrite !rotate_bits, !decide_False in B by (done || lia).
      by replace (i + k - k) with i in B by lia.
    + assert (B : Z.testbit (RotateLeft x k) (i - (64 - k)) =
                  Z.testbit (RotateLeft y k) (i - (64 - k))) by (by rewrite E).
      rewrite !rotate_bits, !decide_True in B by (done || lia).
      by replace (i - (64 - k) + (64 - k)) with i in B by lia.
  - apply word_bits in Hx as [_ Hx], Hy as [_ Hy]. by rewrite Hx, Hy.
Qed.

Lemma lxor_inj_l a b c : Z.lxor a b = Z.lxor a c -> b = c.
Proof.
  intros E. rewrite <- (Z.lxor_0_l b), <- (Z.lxor_0_l c), <- (Z.lxor_nilpotent a).
  by rewrite !Z.lxor_assoc, E.
Qed.

Lemma lxor_zero a b : Z.lxor a b = 0 -> a = b.
Proof. apply Z.lxor_eq. Qed.

(** [x ^ (x >> k)] is injective on words. *)
Lemma xorshift_inj k x y : 0 < k -> in_u 64 x -> in_u 64 y ->
  Z.lxor x (Z.shiftr x k) = Z.lxor y (Z.shiftr y k) -> x = y.
Proof.
  intros Hk Hx Hy E. apply lxor_zero.
  assert (Hd : Z.lxor x y = Z.shiftr (Z.lxor x y) k).
  { rewrite Z.shiftr_lxor. apply (lxor_inj_l y).
    rewrite (Z.lxor_comm x y), <- Z.lxor_assoc, Z.lxor_nilpotent, Z.lxor_0_l.
    rewrite (Z.lxor_comm (Z.shiftr x k)), <- Z.lxor_assoc, <- E.
    by rewrite Z.lxor_assoc, Z.lxor_nilpotent, Z.lxor_0_r. }
  pose proof (lxor_word x y Hx Hy) as [Hd0 _].
  rewrite Z.shiftr_div_pow2 in Hd by lia.
  destruct (decide (Z.lxor x y = 0)); [done|].
  pose proof (Z.pow_gt_1 2 k ltac:(lia)) as [? _].
  pose proof (Z.div_lt (Z.lxor x y) (2 ^ k) ltac:(lia) ltac:(lia)). lia.
Qed.

(** Multiplication by a constant that has an inverse modulo 2^64 is injective. *)
Lemma mul_inj c c' x y : u64 (c * c') = 1 -> in_u 64 x -> in_u 64 y ->
  u64 (x * c) = u64 (y * c) -> x = y.
Proof.
  intros Hc Hx Hy E. rewrite <- (wrapu_small 64 x Hx), <- (wrapu_small 64 y Hy).
  assert (H : forall z, u64 z = u64 (u64 (z * c) * c')).
  { intros z. unfold wrapu in *. rewrite Z.mul_mod_idemp_l by done.
    rewrite <- Z.mul_assoc, <- (Z.mul_mod_idemp_r z), Hc by done. by rewrite Z.mul_1_r. }
  by rewrite (H x), (H y), E.
Qed.

(** *** SplitMix64 *)

Lemma splitmix_state s : (SplitMix64 s).2 = u64 (s + 0x9e3779b97f4a7c15).
Proof. done. Qed.

Lemma splitmix_output_word s : in_u 64 (SplitMix64 s).1.
Proof. apply lxor_word; [apply u64_word|]. by apply shiftr_word, u64_word. Qed.

(** The finalizer is a bijection of words: equal outputs come from equal states. *)
Lemma splitmix_inj s t : (SplitMix64 s).1 = (SplitMix64 t).1 ->
  (SplitMix64 s).2 = (SplitMix64 t).2.
Proof.
  cbn [SplitMix64 fst snd].
  intros E%xorshift_inj; [|done|apply u64_word..].
  apply (mul_inj _ 0x319642b2d24d8ec3) in E;
    [|reflexivity|apply lxor_word, shiftr_word; (done || apply u64_word)..].
  apply xorshift_inj in E; [|done|apply u64_word..].
  apply (mul_inj _ 0x96de1b173f119089) in E;
    [|reflexivity|apply lxor_word, shiftr_word; (done || apply u64_word)..].
  by apply xorshift_inj in E; [|done|apply u64_word..].
Qed.

Lemma seeded_wf seed : wf (make seed).
Proof. split_and!; apply splitmix_output_word. Qed.

(** No seed gives the all-zero state. *)
Lemma make_nonzero seed : make seed <> zero.
Proof.
  intros E. assert (H : (SplitMix64 seed).1 = (SplitMix64 (SplitMix64 seed).2).1).
  { transitivity (m_0 (make seed)); [done|]. transitivity (m_1 (make seed)); [|done].
    by rewrite E. }
  apply splitmix_inj in H. rewrite !splitmix_state in H.
  pose proof (u64_word (seed + 0x9e3779b97f4a7c15)) as Hw. unfold wrapu, in_u in *.
  Z.div_mod_to_equations. lia.
Qed.

(** *** The state map *)

Lemma next_wf g : wf g -> wf (next g).2.
Proof.
  intros (? & ? & ? & ?). split_and!; cbn;
    repeat first [done | apply lxor_word | apply u64_word | apply rotate_word].
Qed.

Lemma next_output_word g : in_u 64 (next g).1.
Proof. apply u64_word. Qed.

Lemma mersenne_inj x y : in_u 64 x -> in_u 64 y ->
  Z.lxor x (u64 (Z.shiftl x 17)) = Z.lxor y (u64 (Z.shiftl y 17)) -> x = y.
Proof.
  intros Hx Hy E. apply lxor_zero. set (d := Z.lxor x y).
  assert (Hd : in_u 64 d) by (by apply lxor_word).
  assert (Hs : d = u64 (Z.shiftl d 17)).
  { apply Z.bits_inj'. intros i Hi. pose proof (f_equal (fun z => Z.testbit z i) E) as B.
    simpl in B. unfold d, wrapu in *. rewrite !Z.lxor_spec in *.
    destruct (Z.lt_ge_cases i 64).
    - rewrite !Z.mod_pow2_bits_low in * by done.
      rewrite Z.shiftl_lxor, Z.lxor_spec.
      destruct (Z.testbit x i), (Z.testbit y i), (Z.testbit (Z.shiftl x 17) i),
        (Z.testbit (Z.shiftl y 17) i); done.
    - rewrite !Z.mod_pow2_bits_high in * by lia. by rewrite !xorb_false_r in B; rewrite B, xorb_nilpotent. }
  apply (mul_inj (2 ^ 17 - 1) 0xfff7fffbfffdffff); [reflexivity|done|done|].
  rewrite Z.mul_0_l, Z.mul_sub_distr_l, Z.mul_1_r, <- Z.shiftl_mul_pow2 by done.
  unfold wrapu in *. rewrite <- Zminus_mod_idemp_l, <- Hs. by rewrite Z.sub_diag.
Qed.

Lemma lxor_mid a b c : Z.lxor (Z.lxor a b) (Z.lxor b c) = Z.lxor a c.
Proof. by rewrite Z.lxor_assoc, <- (Z.lxor_assoc b), Z.lxor_nilpotent, Z.lxor_0_l. Qed.

(** [operator()] permutes the states: two states with one successor are equal. *)
Lemma next_inj g h : wf g -> wf h -> (next g).2 = (next h).2 -> g = h.
Proof.
  destruct g as [g0 g1 g2 g3], h as [h0 h1 h2 h3].
  intros (? & ? & ? & ?) (? & ? & ? & ?). cbn in *. intros [= E0 E1 E2 E3].
  apply rotate_inj in E3; [|by apply lxor_word..|done].
  rewrite E3, (Z.lxor_comm g0), (Z.lxor_comm h0) in E0. apply lxor_inj_l in E0 as ->.
  assert (g1 = h1) as ->.
  { apply mersenne_inj; [done..|].
    rewrite <- (lxor_mid g1 (Z.lxor g2 h0)), <- (lxor_mid h1 (Z.lxor h2 h0)).
    by rewrite E1, E2. }
  apply lxor_inj_l in E1. rewrite (Z.lxor_comm g2), (Z.lxor_comm h2) in E1.
  apply lxor_inj_l in E1 as ->.
  rewrite (Z.lxor_comm g3), (Z.lxor_comm h3) in E3. by apply lxor_inj_l in E3 as ->.
Qed.

(** The state after [k] calls. *)
Definition after (k : nat) (g : Xoshiro256StarStar) : Xoshiro256StarStar :=
  Nat.iter k (fun g => (next g).2) g.

Lemma after_wf k g : wf g -> wf (after k g).
Proof. intros Hg. induction k as [|k IH]; [done|]. by apply next_wf. Qed.

Lemma next_nonzero g : wf g -> g <> zero -> (next g).2 <> zero.
Proof. intros Hg Hz E. by apply Hz, next_inj. Qed.

Lemma after_nonzero k g : wf g -> g <> zero -> after k g <> zero.
Proof.
  intros Hg Hz. induction k as [|k IH]; [done|]. apply next_nonzero; [by apply after_wf|done].
Qed.

(** From any seed, the generator is never in the all-zero state, the one state
    [operator()] maps to itself for ever: SplitMix64 never yields four zero words, and
    no other state leads to it. *)
Theorem seeded_never_zero seed k : after k (make seed) <> zero /\ wf (after k (make seed)).
Proof.
  split; [apply after_nonzero; [apply seeded_wf|apply make_nonzero]|].
  apply after_wf, seeded_wf.
Qed.

(** [operator()] is a permutation of the 256-bit states: different states have
    different successors, and the state stays four 64-bit words. *)
Theorem next_state_injective g h : wf g -> wf h -> g <> h ->
  (next g).2 <> (next h).2 /\ wf (next g).2 /\ in_u 64 (next g).1.
Proof.
  intros Hg Hh Hne. split_and!; [by intros ?%next_inj|by apply next_wf|apply next_output_word].
Qed.

Example next_state_injective_witness :
  (next (mkRng 1 2 3 4)).2 <> (next (mkRng 1 2 3 5)).2 /\
  wf (next (mkRng 1 2 3 4)).2 /\ in_u 64 (next (mkRng 1 2 3 4)).1.
Proof.
  apply next_state_injective;
    [by apply (bool_decide_unpack (_ /\ _))..|by apply (bool_decide_unpack (_ <> _))].
Defined.

End Xoshiro256StarStar.
