(* ===== verification/Routing.v ===== *)
(** * core/routing/IRoutingStrategy: the routing interface and its contract

    [SelectService] of the interface takes the strategy object, the pool and the
    routing key.  It may update the object, return a [std::expected], throw, or (for a
    strategy that loops) still be running when its fuel is spent: [None].

    [RoutingContract] is what the proxy relies on.  [P2C] and [Ring] discharge it. *)

From S2P Require Import Prelude Node State.
Import ServiceState ServicePool.

Module IRoutingStrategy.

Inductive RoutingError := NoHealthyServices | PoolEmpty.

#[export] Instance RoutingError_eq_dec : EqDecision RoutingError.
Proof. solve_decision. Defined.

Definition route : Type := expected nat RoutingError.

Class IRoutingStrategy (S : Type) := {
  SelectService : nat -> S -> ServicePool -> string -> option (outcome route * S)
}.

(** What a result says about the pool it was computed for. *)
Definition route_ok (p : ServicePool) (r : outcome route) : Prop :=
  match r with
  | Returned (Value i) => healthy_at p i
  | Returned (Unexpected NoHealthyServices) =>
      GetSize p <> 0 /\ forall i, healthy_at p i = false
  | Returned (Unexpected PoolEmpty) => GetSize p = 0
  | Threw _ => False
  end.

(** [built_for s n]: the strategy object may be used with pools of [n] services. *)
Class RoutingContract (S : Type) `{IRoutingStrategy S} := {
  built_for : S -> nat -> Prop;
  select_keeps fuel s p key r s' :
    built_for s (GetSize p) -> SelectService fuel s p key = Some (r, s') ->
    built_for s' (GetSize p);
  select_ok fuel s p key r s' :
    built_for s (GetSize p) -> SelectService fuel s p key = Some (r, s') ->
    route_ok p r;
  select_more_fuel fuel fuel' s p key x :
    fuel <= fuel' -> SelectService fuel s p key = Some x ->
    SelectService fuel' s p key = Some x
}.

(** A pool routes to exactly one of its three kinds of result. *)
Lemma route_ok_value p r : route_ok p r -> (exists i, healthy_at p i) ->
  exists i, r = Returned (Value i) /\ healthy_at p i.
Proof.
  intros Hr [i Hi]. pose proof (healthy_at_lt _ _ Hi).
  destruct r as [[j|[]]|]; simpl in Hr; [by exists j| |lia|done].
  destruct Hr as [_ Hr]. by rewrite Hr in Hi.
Qed.

(** Weights and every other part of the nodes are invisible to routing: a pool looks
    the same as another when health and load agree service by service. *)
Definition same_load (p q : ServicePool) : Prop :=
  GetSize p = GetSize q /\
  forall i, healthy_at p i = healthy_at q i /\ active_at p i = active_at q i.

End IRoutingStrategy.
