(* ===== verification/P2C.v ===== *)
(** * core/routing/P2CStrategy: the power of two choices

    [SelectService] draws two different positions among the healthy services and takes
    the one with fewer connections.  [std::uniform_int_distribution] is implementation
    defined: [UniformInt] is its interface and contract (a number of the range, made
    from calls of the generator). *)

From S2P Require Import Prelude Node State Rng Routing.
Import ServiceState ServicePool Xoshiro256StarStar IRoutingStrategy.

(** [draw b g] is [dist(g)] for a [uniform_int_distribution<size_t> dist(0, b)]. *)
Class UniformInt := {
  draw : nat -> Xoshiro256StarStar -> nat * Xoshiro256StarStar;
  draw_range b g : (draw b g).1 <= b;
  draw_advances b g : exists k, (draw b g).2 = after k g
}.

Module P2CStrategy.
Section P2C.
Context `{UniformInt}.

Record P2CStrategy := mkP2C { m_rng : Xoshiro256StarStar }.

(** The default constructor seeds from one [std::random_device] value. *)
Definition make_random (random_device : Z) : P2CStrategy :=
  mkP2C (Xoshiro256StarStar.make random_device).
Definition make (seed : Z) : P2CStrategy := mkP2C (Xoshiro256StarStar.make seed).

(** A copy does not share the generator: it gets a fresh seed.  A move takes it. *)
Definition copy (random_device : Z) (other : P2CStrategy) : P2CStrategy :=
  make_random random_device.
Definition move (other : P2CStrategy) : P2CStrategy := mkP2C (m_rng other).
Definition copy_assign (same : bool) (random_device : Z) (this other : P2CStrategy)
    : P2CStrategy := if same then this else mkP2C (Xoshiro256StarStar.make random_device).
Definition move_assign (same : bool) (this other : P2CStrategy) : P2CStrategy :=
  if same then this else mkP2C (m_rng other).

(** The vector [healthy]: the indices of the healthy services, in order. *)
Definition healthy_indices (pool : ServicePool) : list nat :=
  List.filter (healthy_at pool) (seq 0 (GetSize pool)).

(** [while (b == a) { b = dist(m_rng); }] *)
Fixpoint redraw (fuel bound a b : nat) (g : Xoshiro256StarStar)
    : option (nat * Xoshiro256StarStar) :=
  if b =? a then
    match fuel with
    | 0 => None
    | S fuel' => let '(b', g') := draw bound g in redraw fuel' bound a b' g'
    end
  else Some (b, g).

Definition lighter (pool : ServicePool) (healthy : list nat) (a b : nat) : outcome route :=
  ia ← at_ healthy a;
  sa ← GetService pool ia;
  ib ← at_ healthy b;
  sb ← GetService pool ib;
  if (GetActiveConnections sa <=? GetActiveConnections sb)%Z
  then Returned (Value ia) else Returned (Value ib).

Definition SelectService (fuel : nat) (s : P2CStrategy) (pool : ServicePool)
    (routingKey : string) : option (outcome route * P2CStrategy) :=
  if GetSize pool =? 0 then Some (Returned (Unexpected PoolEmpty), s)
  else
    let healthy := healthy_indices pool in
    match healthy with
    | [] => Some (Returned (Unexpected NoHealthyServices), s)
    | [i] => Some (Returned (Value i), s)
    | _ =>
        let bound := length healthy - 1 in
        let '(a, g) := draw bound (m_rng s) in
        let '(b, g) := draw bound g in
        match redraw fuel bound a b g with
        | None => None
        | Some (b, g) => Some (lighter pool healthy a b, mkP2C g)
        end
    end.

#[export] Instance p2c_strategy : IRoutingStrategy P2CStrategy := {
  SelectService := SelectService
}.

(** *** Lemmas *)

Lemma healthy_indices_elem p i : i ∈ healthy_indices p <-> healthy_at p i.
Proof.
  unfold healthy_indices. rewrite list_elem_of_In, filter_In, in_seq, Is_true_true.
  split; [by intros []|]. intros Hi. split; [|done].
  apply Is_true_true, healthy_at_lt in Hi. lia.
Qed.

Lemma healthy_indices_NoDup p : NoDup (healthy_indices p).
Proof. apply NoDup_ListNoDup, List.NoDup_filter, seq_NoDup. Qed.

Lemma healthy_indices_nil p : healthy_indices p = [] -> forall i, healthy_at p i = false.
Proof.
  intros E i. destruct (healthy_at p i) eqn:Hi; [|done].
  assert (Hin : i ∈ healthy_indices p) by (apply healthy_indices_elem; by rewrite Hi).
  rewrite E in Hin. by apply elem_of_nil in Hin.
Qed.

Lemma redraw_range fuel bound a b g b' g' :
  b <= bound -> redraw fuel bound a b g = Some (b', g') -> b' <= bound /\ b' <> a.
Proof.
  revert b g; induction fuel as [|fuel IH]; intros b g Hb; simpl;
    destruct (Nat.eqb_spec b a) as [->|Hne]; try done; try (by intros [= <- <-]).
  destruct (draw bound g) as [b1 g1] eqn:E. apply IH.
  pose proof (draw_range bound g). by rewrite E in *.
Qed.

Lemma redraw_more_fuel fuel fuel' bound a b g x : fuel <= fuel' ->
  redraw fuel bound a b g = Some x -> redraw fuel' bound a b g = Some x.
Proof.
  revert fuel' b g; induction fuel as [|fuel IH]; intros [|fuel'] b g Hf; simpl;
    try lia; try done; destruct (b =? a); try done.
  destruct (draw bound g). apply IH. lia.
Qed.

(** The pool has at least two healthy services: the general case of the function. *)
Definition two_healthy (p : ServicePool) : Prop := 2 <= length (healthy_indices p).

Lemma at_healthy p k : k < length (healthy_indices p) ->
  exists i s, at_ (healthy_indices p) k = Returned i /\ healthy_indices p !! k = Some i /\
              GetService p i = Returned s /\ healthy_at p i /\
              GetActiveConnections s = active_at p i.
Proof.
  intros Hk. unfold at_. destruct (lookup_lt_is_Some_2 _ _ Hk) as [i Hi]. rewrite Hi.
  assert (Hh : healthy_at p i) by (apply healthy_indices_elem; by eapply list_elem_of_lookup_2).
  destruct (GetService_returned _ _ (healthy_at_lt _ _ Hh)) as [s Hs].
  exists i, s. split_and!; try done. apply GetService_lookup in Hs.
  unfold active_at. by rewrite Hs.
Qed.

(** Two different positions are two different services; the lighter one is taken. *)
Lemma lighter_spec p a b : a < length (healthy_indices p) -> b < length (healthy_indices p) ->
  b <> a -> exists i j, lighter p (healthy_indices p) a b = Returned (Value i) /\
    healthy_at p i /\ healthy_at p j /\ i <> j /\ (active_at p i <= active_at p j)%Z.
Proof.
  intros Ha Hb Hne.
  destruct (at_healthy p a Ha) as (ia & sa & E1 & L1 & G1 & Hh1 & A1).
  destruct (at_healthy p b Hb) as (ib & sb & E2 & L2 & G2 & Hh2 & A2).
  assert (ia <> ib).
  { intros ->. apply Hne. symmetry. eapply NoDup_lookup; [apply healthy_indices_NoDup|done..]. }
  unfold lighter. rewrite E1; simpl. rewrite G1; simpl. rewrite E2; simpl. rewrite G2; simpl.
  rewrite A1, A2. destruct (Z.leb_spec (active_at p ia) (active_at p ib)).
  - exists ia, ib. by split_and!.
  - exists ib, ia. split_and!; [done..|lia].
Qed.

Lemma select_two fuel s p key : two_healthy p ->
  SelectService fuel s p key =
  let bound := length (healthy_indices p) - 1 in
  let '(a, g) := draw bound (m_rng s) in
  let '(b, g) := draw bound g in
  match redraw fuel bound a b g with
  | None => None
  | Some (b, g) => Some (lighter p (healthy_indices p) a b, mkP2C g)
  end.
Proof.
  unfold two_healthy, SelectService. destruct (Nat.eqb_spec (GetSize p) 0) as [E|_].
  - unfold healthy_indices. rewrite E. simpl. lia.
  - destruct (healthy_indices p) as [|i [|j l]]; simpl; intros; [lia..|done].
Qed.

Lemma select_two_spec fuel s p key r s' : two_healthy p ->
  SelectService fuel s p key = Some (r, s') ->
  exists i j, r = Returned (Value i) /\ healthy_at p i /\ healthy_at p j /\ i <> j /\
              (active_at p i <= active_at p j)%Z.
Proof.
  intros Ht. rewrite select_two by done. cbv zeta.
  unfold two_healthy in Ht. set (bound := length (healthy_indices p) - 1).
  destruct (draw bound (m_rng s)) as [a g] eqn:Ea. destruct (draw bound g) as [b g'] eqn:Eb.
  pose proof (draw_range bound (m_rng s)) as Ha. pose proof (draw_range bound g) as Hb.
  rewrite Ea in Ha. rewrite Eb in Hb. simpl in Ha, Hb.
  destruct (redraw fuel bound a b g') as [[b' g'']|] eqn:Er; [|done]. intros [= <- <-].
  apply redraw_range in Er as [Hb' Hne]; [|done].
  apply lighter_spec; unfold bound in *; lia.
Qed.

Lemma select_result fuel s p key r s' :
  SelectService fuel s p key = Some (r, s') -> route_ok p r.
Proof.
  destruct (decide (two_healthy p)) as [Ht|Ht].
  { intros (i & j & -> & Hi & _)%select_two_spec; done. }
  unfold SelectService. destruct (Nat.eqb_spec (GetSize p) 0); [by intros [= <- <-]|].
  destruct (healthy_indices p) as [|i [|j l]] eqn:Eh.
  - intros [= <- <-]. split; [done|]. by apply healthy_indices_nil.
  - intros [= <- <-]. apply healthy_indices_elem. rewrite Eh. by apply list_elem_of_here.
  - exfalso. apply Ht. unfold two_healthy. rewrite Eh. simpl. lia.
Qed.

#[export] Instance p2c_contract : RoutingContract P2CStrategy.
Proof.
  apply (Build_RoutingContract _ _ (fun _ _ => True)).
  - done.
  - intros fuel s p key r s' _. apply select_result.
  - intros fuel fuel' s p key x Hf. destruct (decide (two_healthy p)) as [Ht|Ht]; simpl.
    + rewrite !select_two by done. cbv zeta. destruct (draw _ _) as [a g].
      destruct (draw _ _) as [b g']. destruct (redraw fuel _ _ _ _) as [y|] eqn:E; [|done].
      by rewrite (redraw_more_fuel _ _ _ _ _ _ _ Hf E).
    + unfold SelectService, two_healthy in *.
      destruct (healthy_indices p) as [|i [|j l]]; [done..|simpl in Ht; lia].
Defined.

(** *** Termination of the redraw loop *)

(** The successive draws from a generator. *)
Definition draws_state (n bound : nat) (g : Xoshiro256StarStar) : Xoshiro256StarStar :=
  Nat.iter n (fun g => (draw bound g).2) g.
Definition nth_draw (n bound : nat) (g : Xoshiro256StarStar) : nat :=
  (draw bound (draws_state n bound g)).1.

Lemma draws_state_S n bound g :
  draws_state (S n) bound g = draws_state n bound (draw bound g).2.
Proof. apply Nat.iter_succ_r. Qed.

Lemma nth_draw_S n bound g : nth_draw (S n) bound g = nth_draw n bound (draw bound g).2.
Proof. unfold nth_draw. by rewrite draws_state_S. Qed.

Lemma redraw_returns n bound a b g : nth_draw n bound g <> a ->
  exists x, redraw (S n) bound a b g = Some x.
Proof.
  revert b g; induction n as [|n IH]; intros b g Hn; cbn [redraw];
    (destruct (Nat.eqb_spec b a) as [->|]; [|by eexists]);
    destruct (draw bound g) as [b' g'] eqn:E.
  - exists (b', g'). unfold nth_draw in Hn. simpl in Hn. rewrite E in Hn. simpl in *.
    by rewrite (proj2 (Nat.eqb_neq b' a)).
  - apply IH. by rewrite nth_draw_S, E in Hn.
Qed.

Lemma redraw_needs fuel bound a b g x : redraw fuel bound a b g = Some x ->
  b <> a \/ exists n, nth_draw n bound g <> a.
Proof.
  revert b g; induction fuel as [|fuel IH]; intros b g; simpl;
    destruct (Nat.eqb_spec b a) as [->|]; try done; try (by left); intros Hr; right.
  destruct (draw bound g) as [b' g'] eqn:E. apply IH in Hr as [Hb|[n Hn]].
  - exists 0. unfold nth_draw. simpl. by rewrite E.
  - exists (S n). by rewrite nth_draw_S, E.
Qed.

(** The strategy meets the contract of its interface in every case: no exception,
    [PoolEmpty] exactly for an empty pool, [NoHealthyServices] only when no service is
    healthy, and otherwise the index of a healthy service. *)
Theorem P2C_route_ok fuel s p key r s' :
  SelectService fuel s p key = Some (r, s') -> route_ok p r.
Proof. apply select_result. Qed.

(** The function by its draws: the first gives [a], the second [b], the others are the
    redraws. *)
Lemma select_draws s p key : two_healthy p ->
  let bound := length (healthy_indices p) - 1 in
  let d n := nth_draw n bound (m_rng s) in
  exists g, (forall n, d (S (S n)) = nth_draw n bound g) /\
    forall fuel, SelectService fuel s p key =
      match redraw fuel bound (d 0) (d 1) g with
      | None => None
      | Some (b, g) => Some (lighter p (healthy_indices p) (d 0) b, mkP2C g)
      end.
Proof.
  intros Ht. cbn zeta. set (bound := length (healthy_indices p) - 1).
  destruct (draw bound (m_rng s)) as [a g] eqn:Ea. destruct (draw bound g) as [b g'] eqn:Eb.
  assert (D0 : nth_draw 0 bound (m_rng s) = a) by (unfold nth_draw; simpl; by rewrite Ea).
  assert (D1 : nth_draw 1 bound (m_rng s) = b)
    by (unfold nth_draw; simpl; rewrite Ea; simpl; by rewrite Eb).
  exists g'. split; [intros n; rewrite !nth_draw_S, Ea; simpl; by rewrite Eb|].
  intros fuel. rewrite select_two by done. fold bound. cbv zeta. rewrite Ea. simpl.
  by rewrite Eb, D0, D1.
Qed.

(** A second value among the draws ends the loop. *)
Lemma select_returns n fuel s p key : two_healthy p ->
  let d n := nth_draw n (length (healthy_indices p) - 1) (m_rng s) in
  d n <> d 0 -> n <= fuel -> exists x, SelectService fuel s p key = Some x.
Proof.
  intros Ht d Hn Hf. destruct (select_draws s p key Ht) as (g & D & E). rewrite E.
  fold (d 0) (d 1). destruct (Nat.eqb_spec (d 1) (d 0)) as [H1|H1].
  - destruct n as [|[|n]]; [done..|].
    assert (Hr : nth_draw n (length (healthy_indices p) - 1) g <> d 0) by (rewrite <- D; exact Hn).
    destruct (redraw_returns n _ _ (d 1) _ Hr) as [[b g'] Hx].
    apply (redraw_more_fuel _ fuel) in Hx; [|lia]. rewrite Hx. by eexists.
  - apply Nat.eqb_neq in H1. destruct fuel; cbn [redraw]; rewrite H1; by eexists.
Qed.

(** C17: with two or more healthy services the choice is the less loaded of two
    different healthy services, whatever the generator draws; so a service that is
    strictly busier than every other healthy one is never chosen.  A choice is made as
    soon as the generator draws a second value. *)
Theorem P2C_lighter_of_two s p key : two_healthy p ->
  let d n := nth_draw n (length (healthy_indices p) - 1) (m_rng s) in
  let chosen r := exists i j, r = Returned (Value i) /\
    healthy_at p i /\ healthy_at p j /\ i <> j /\ (active_at p i <= active_at p j)%Z in
  (forall fuel r s', SelectService fuel s p key = Some (r, s') -> chosen r) /\
  (forall n fuel, d n <> d 0 -> n <= fuel ->
     exists r s', SelectService fuel s p key = Some (r, s') /\ chosen r).
Proof.
  intros Ht d chosen. assert (Hc : forall fuel r s',
    SelectService fuel s p key = Some (r, s') -> chosen r)
    by (intros fuel r s'; by apply select_two_spec).
  split; [exact Hc|]. intros n fuel Hn Hf.
  destruct (select_returns n fuel s p key Ht Hn Hf) as [[r s'] E]. exists r, s'. eauto.
Qed.

(** C30: the [while (b == a)] loop ends exactly when the generator ever draws a second
    value: if the [n]-th draw differs from the first, [n] redraws are enough, and if
    all draws are equal no amount of them is. *)
Theorem P2C_returns_iff s p key : two_healthy p ->
  let d n := nth_draw n (length (healthy_indices p) - 1) (m_rng s) in
  (forall n, d n <> d 0 -> exists x, SelectService n s p key = Some x) /\
  ((forall n, d n = d 0) -> forall fuel, SelectService fuel s p key = None).
Proof.
  intros Ht d. split; [intros n Hn; by apply (select_returns n n)|]. intros Hc fuel.
  destruct (select_draws s p key Ht) as (g & D & E). rewrite E. fold (d 0) (d 1).
  destruct (redraw fuel _ (d 0) (d 1) g) as [x|] eqn:Hr; [|done].
  exfalso. apply redraw_needs in Hr as [Hr|[n Hr]]; apply Hr; [apply Hc|].
  rewrite <- D. apply Hc.
Qed.

Lemma GetService_same p q i : same_load p q ->
  (exists e, GetService p i = Threw e /\ GetService q i = Threw e) \/
  (exists s t, GetService p i = Returned s /\ GetService q i = Returned t /\
               GetActiveConnections s = GetActiveConnections t).
Proof.
  intros [Hs Ha]. specialize (Ha i) as [_ Ha]. unfold active_at in Ha. unfold GetService, at_.
  unfold GetSize in Hs.
  destruct (State.ServicePool.m_services p !! i) as [s|] eqn:Ep,
    (State.ServicePool.m_services q !! i) as [t|] eqn:Eq.
  - right. by exists s, t.
  - apply lookup_lt_Some in Ep. apply lookup_ge_None in Eq. lia.
  - apply lookup_lt_Some in Eq. apply lookup_ge_None in Ep. lia.
  - left. by eexists.
Qed.

Lemma lighter_same p q l a b : same_load p q -> lighter p l a b = lighter q l a b.
Proof.
  intros Hpq. unfold lighter.
  destruct (at_ l a) as [ia|]; simpl; [|done].
  destruct (GetService_same p q ia Hpq) as [(e & -> & ->)|(s & t & -> & -> & Hst)]; [done|].
  destruct (at_ l b) as [ib|]; simpl; [|done].
  destruct (GetService_same p q ib Hpq) as [(e & -> & ->)|(s' & t' & -> & -> & Hst')]; [done|].
  simpl. by rewrite Hst, Hst'.
Qed.

Lemma select_same fuel s p q key :
  same_load p q -> SelectService fuel s p key = SelectService fuel s q key.
Proof.
  intros Hpq. pose proof Hpq as [Hs Hh]. unfold SelectService. rewrite Hs.
  assert (E : healthy_indices p = healthy_indices q).
  { unfold healthy_indices. rewrite Hs. apply filter_ext. intros i. apply Hh. }
  rewrite E. repeat (case_match; try done). by rewrite (lighter_same p q) by done.
Qed.

End P2C.

(** ** A concrete distribution

    The generator's output modulo the size of the range, as an example of the
    contract: every draw is in range and makes one call. *)
#[export] Instance modulo_draw : UniformInt.
Proof.
  refine {| draw b g := (Z.to_nat ((next g).1 mod Z.of_nat (S b)), (next g).2) |}.
  - intros b g. cbn [fst].
    pose proof (Z.mod_pos_bound (next g).1 (Z.of_nat (S b)) ltac:(lia)). lia.
  - intros b g. by exists 1.
Defined.

(** Three services, the second unhealthy, the third busier than the first. *)
Definition sample_pool : ServicePool :=
  mkPool [mkState ServiceNode.default 2 true 0; mkState ServiceNode.default 0 false 3;
          mkState ServiceNode.default 5 true 0].

Example P2C_route_ok_witness : route_ok sample_pool (Returned (Value 0)).
Proof.
  apply (P2C_route_ok 10 (make 42) sample_pool "10.0.0.1" _ (mkP2C (after 3 (Xoshiro256StarStar.make 42)))).
  vm_compute. reflexivity.
Defined.

Lemma sample_two_healthy : two_healthy sample_pool.
Proof. unfold two_healthy. vm_compute. lia. Qed.

Example P2C_lighter_of_two_witness :
  exists r s', SelectService 10 (make 42) sample_pool "10.0.0.1" = Some (r, s') /\
  exists i j, r = Returned (Value i : route) /\
    healthy_at sample_pool i /\ healthy_at sample_pool j /\ i <> j /\
    (active_at sample_pool i <= active_at sample_pool j)%Z.
Proof.
  apply (proj2 (P2C_lighter_of_two (make 42) sample_pool "10.0.0.1" sample_two_healthy) 2); [|lia].
  apply (bool_decide_unpack (_ <> _)). vm_compute. done.
Defined.

Example P2C_returns_iff_witness :
  exists x, SelectService 2 (make 42) sample_pool "10.0.0.1" = Some x.
Proof.
  apply (proj1 (P2C_returns_iff (make 42) sample_pool "10.0.0.1" sample_two_healthy)).
  apply (bool_decide_unpack (_ <> _)). vm_compute. done.
Defined.

End P2CStrategy.
