(* ===== verification/Ring.v ===== *)
(** * core/routing/ConsistentHashStrategy: the consistent hash ring

    The constructor places 150 virtual nodes per service on a ring of 64-bit hashes
    (FNV-1a of "name#v"), sorts it and refuses a ring on which two of them meet.
    [SelectService] hashes the key, finds the first virtual node at or after it and
    walks the ring until it meets a healthy service.

    [clockwise] is the abstract specification of that walk: the healthy virtual node
    at the smallest clockwise distance from the key, with no mention of sorting,
    searching or walking. *)

From S2P Require Import Prelude Text Node State Routing.
Import ServiceNode ServiceState ServicePool IRoutingStrategy.

(** ** FnvHash.hpp *)
Module fnv.

Definition FNV_OFFSET_BASIS : Z := 14695981039346656037.
Definition FNV_PRIME : Z := 1099511628211.

(** [static_cast<uint64_t>(static_cast<unsigned char>(c))] *)
Definition octet (c : ascii) : Z := Z.of_N (N_of_ascii c).

Definition absorb (hash : Z) (c : ascii) : Z := u64 (Z.lxor hash (octet c) * FNV_PRIME).

Fixpoint absorb_all (hash : Z) (data : string) : Z :=
  match data with
  | EmptyString => hash
  | String c data' => absorb_all (absorb hash c) data'
  end.

Definition Hash64 (data : string) : Z := absorb_all FNV_OFFSET_BASIS data.

Example Hash64_empty : Hash64 "" = 0xcbf29ce484222325%Z.
Proof. reflexivity. Qed.
Example Hash64_a : Hash64 "a" = 0xaf63dc4c8601ec8c%Z.
Proof. reflexivity. Qed.
Example Hash64_foobar : Hash64 "foobar" = 0x85944171f73967e8%Z.
Proof. reflexivity. Qed.

Lemma octet_inj c d : octet c = octet d -> c = d.
Proof.
  unfold octet. intros H%N2Z.inj. rewrite <- (ascii_N_embedding c), <- (ascii_N_embedding d).
  by rewrite H.
Qed.

Lemma octet_in c : in_u 64 (octet c).
Proof.
  unfold octet, in_u. pose proof (N_ascii_bounded c). lia.
Qed.

(** The prime is odd: multiplying by it is undone by multiplying by this. *)
Definition PRIME_INVERSE : Z := 14886173955864302971.

Lemma prime_cancel a b : in_u 64 a -> in_u 64 b ->
  u64 (a * FNV_PRIME) = u64 (b * FNV_PRIME) -> a = b.
Proof.
  assert (E : forall x, in_u 64 x -> u64 (u64 (x * FNV_PRIME) * PRIME_INVERSE) = x).
  { intros x Hx. unfold wrapu. rewrite Z.mul_mod_idemp_l by done.
    rewrite <- Z.mul_assoc, <- Z.mul_mod_idemp_r by done.
    replace ((FNV_PRIME * PRIME_INVERSE) mod 2 ^ 64)%Z with 1%Z by done.
    rewrite Z.mul_1_r. by apply Z.mod_small. }
  intros Ha Hb H. rewrite <- (E a), <- (E b) by done. by rewrite H.
Qed.

Lemma lxor_in a b : in_u 64 a -> in_u 64 b -> in_u 64 (Z.lxor a b).
Proof.
  unfold in_u. intros [Ha Ha'] [Hb Hb']. split; [apply Z.lxor_nonneg; tauto|].
  destruct (decide (Z.lxor a b = 0)%Z) as [->|Hn]; [lia|].
  assert (0 <= Z.lxor a b)%Z by (apply Z.lxor_nonneg; tauto).
  apply Z.log2_lt_pow2; [lia|].
  pose proof (Z.log2_lxor a b Ha Hb).
  assert (forall x, 0 <= x < 2 ^ 64 -> Z.log2 x < 64)%Z.
  { intros x [??]. destruct (decide (x = 0)%Z) as [->|]; [done|].
    apply Z.log2_lt_pow2; lia. }
  pose proof (H1 a ltac:(done)). pose proof (H1 b ltac:(done)). lia.
Qed.

Lemma lxor_cancel_r a b c : Z.lxor a c = Z.lxor b c -> a = b.
Proof.
  intros H. rewrite <- (Z.lxor_0_r a), <- (Z.lxor_0_r b), <- (Z.lxor_nilpotent c).
  by rewrite <- !Z.lxor_assoc, H.
Qed.

Lemma absorb_in h c : in_u 64 (absorb h c).
Proof. by apply wrapu_in. Qed.

Lemma absorb_all_in h s : in_u 64 h -> in_u 64 (absorb_all h s).
Proof. revert h; induction s; simpl; intros; [done|]. by apply IHs, absorb_in. Qed.

Lemma Hash64_in s : in_u 64 (Hash64 s).
Proof. apply absorb_all_in. by apply (bool_decide_unpack (in_u 64 _)). Qed.

Lemma absorb_inj_l h h' c : in_u 64 h -> in_u 64 h' -> absorb h c = absorb h' c -> h = h'.
Proof.
  intros ?? H%prime_cancel; [by apply lxor_cancel_r in H|apply lxor_in; auto using octet_in..].
Qed.

Lemma absorb_inj_r h c d : in_u 64 h -> absorb h c = absorb h d -> c = d.
Proof.
  intros ? H%prime_cancel; [|apply lxor_in; auto using octet_in..].
  rewrite (Z.lxor_comm h), (Z.lxor_comm h) in H. by apply lxor_cancel_r, octet_inj in H.
Qed.

Lemma absorb_all_inj h h' s : in_u 64 h -> in_u 64 h' ->
  absorb_all h s = absorb_all h' s -> h = h'.
Proof.
  revert h h'; induction s as [|c s IH]; simpl; intros h h' ?? E; [done|].
  apply (absorb_inj_l _ _ c); [done..|]. apply IH; auto using absorb_in.
Qed.

Lemma absorb_all_app h s t : absorb_all h (s +:+ t) = absorb_all (absorb_all h s) t.
Proof. revert h; induction s as [|c s IH]; intros; [done|]. apply IH. Qed.

(** Two strings that differ in exactly one byte never collide. *)
Theorem Hash64_one_byte pre c d post : c <> d ->
  Hash64 (pre +:+ String c post) <> Hash64 (pre +:+ String d post).
Proof.
  intros Hcd E. apply Hcd. revert E.
  unfold Hash64. rewrite !absorb_all_app. simpl. intros E%absorb_all_inj; [|apply absorb_in..].
  eapply absorb_inj_r; [|done]. apply Hash64_in.
Qed.

Example Hash64_one_byte_witness : Hash64 "web#10" <> Hash64 "web#20".
Proof. by apply (Hash64_one_byte "web#" "1" "2" "0"). Defined.

(** *** Neighbouring keys

    The last byte is absorbed by one multiplication: it moves the hash by a small
    multiple of the prime, which is a small part of the circle. *)

(** [within r a b]: going around the circle one way or the other, [a] and [b] are at
    most [r] apart. *)
Definition within (r a b : Z) : Prop := (u64 (a - b) <= r)%Z \/ (u64 (b - a) <= r)%Z.

Lemma lxor_near k h c d : (0 <= k)%Z -> Z.shiftr c k = Z.shiftr d k ->
  (Z.abs (Z.lxor h c - Z.lxor h d) < 2 ^ k)%Z.
Proof.
  intros Hk E. assert (Hq : Z.shiftr (Z.lxor h c) k = Z.shiftr (Z.lxor h d) k)
    by (by rewrite !Z.shiftr_lxor, E).
  rewrite !Z.shiftr_div_pow2 in Hq by done.
  assert (0 < 2 ^ k)%Z by (by apply Z.pow_pos_nonneg).
  pose proof (Z.div_mod (Z.lxor h c) (2 ^ k) ltac:(lia)).
  pose proof (Z.div_mod (Z.lxor h d) (2 ^ k) ltac:(lia)).
  pose proof (Z.mod_pos_bound (Z.lxor h c) (2 ^ k) ltac:(lia)).
  pose proof (Z.mod_pos_bound (Z.lxor h d) (2 ^ k) ltac:(lia)).
  rewrite Hq in *. lia.
Qed.

Lemma prime_near r x y : (0 <= r < 2 ^ 16)%Z -> (Z.abs (x - y) <= r)%Z ->
  within (r * FNV_PRIME) (u64 (x * FNV_PRIME)) (u64 (y * FNV_PRIME)).
Proof.
  intros Hr Hxy. unfold within, wrapu. rewrite <- !Zminus_mod. unfold FNV_PRIME in *.
  destruct (Z.le_ge_cases y x).
  - left. rewrite Z.mod_small by lia. lia.
  - right. rewrite Z.mod_small by lia. lia.
Qed.

Lemma absorb_near k h c d : (0 <= k <= 8)%Z -> Z.shiftr (octet c) k = Z.shiftr (octet d) k ->
  within ((2 ^ k - 1) * FNV_PRIME) (absorb h c) (absorb h d).
Proof.
  intros Hk E. pose proof (lxor_near k h _ _ ltac:(lia) E).
  pose proof (Z.pow_le_mono_r 2 k 8 ltac:(lia) ltac:(lia)).
  assert (0 < 2 ^ k)%Z by (apply Z.pow_pos_nonneg; lia).
  apply prime_near; lia.
Qed.

Lemma Hash64_snoc pre c : Hash64 (pre +:+ String c EmptyString) = absorb (Hash64 pre) c.
Proof. unfold Hash64. by rewrite absorb_all_app. Qed.

(** Keys that differ in their last byte only, as the addresses of one subnet do,
    hash to within 1/65536 of the circle of one another. *)
Theorem Hash64_last_byte_near pre c d :
  within (2 ^ 64 / 2 ^ 16)
    (Hash64 (pre +:+ String c EmptyString)) (Hash64 (pre +:+ String d EmptyString)).
Proof.
  rewrite !Hash64_snoc.
  assert (E : Z.shiftr (octet c) 8 = Z.shiftr (octet d) 8).
  { unfold octet. pose proof (N_ascii_bounded c). pose proof (N_ascii_bounded d).
    rewrite !Z.shiftr_div_pow2, !Z.div_small by lia. done. }
  pose proof (absorb_near 8 (Hash64 pre) c d ltac:(lia) E) as H.
  change ((2 ^ 8 - 1) * FNV_PRIME)%Z with 280375465193805%Z in H.
  change (2 ^ 64 / 2 ^ 16)%Z with 281474976710656%Z. unfold within in *. lia.
Qed.

End fnv.

(** ** ConsistentHashStrategy *)
Module ConsistentHashStrategy.
Import fnv.

Definition VNODES_PER_SERVICE : nat := 150.

(** [std::pair<uint64_t, size_t>]: a hash and the index of its service. *)
Abbreviation point := (Z * nat)%type.

Record ConsistentHashStrategy := mkRing { m_ring : list point }.

(** [HashCollisionError(vnodeIndex)] *)
Definition HashCollisionError (vnodeIndex : nat) : exn :=
  Exn KHashCollision ("Hash ring collision detected at vnode " +:+ pretty vnodeIndex).

(** [std::format("{}#{}", name, v)] *)
Definition vnode_label (name : string) (v : nat) : string := name +:+ "#" +:+ pretty v.

(** The inner and the outer loop of the constructor. *)
Definition vnodes (name : string) (i : nat) : list point :=
  (fun v => (Hash64 (vnode_label name v), i)) <$> seq 0 VNODES_PER_SERVICE.

Fixpoint place (pool : ServicePool) (i n : nat) (ring : list point) : outcome (list point) :=
  match n with
  | 0 => Returned ring
  | S n' =>
      s ← GetService pool i;
      place pool (S i) n' (ring ++ vnodes (GetName (GetNode s)) i)
  end.

(** [std::ranges::sort] by the first component. *)
Definition by_hash (x y : point) : Prop := (x.1 <= y.1)%Z.
#[export] Instance by_hash_dec x y : Decision (by_hash x y).
Proof. unfold by_hash. apply _. Defined.

Definition sort_ring (ring : list point) : list point := merge_sort by_hash ring.

(** The collision check: [ring.at(i).first == ring.at(i - 1).first] for some i. *)
Definition meets (ring : list point) (i : nat) : option (outcome unit) :=
  match x ← at_ ring i; y ← at_ ring (i - 1); Returned (x.1 =? y.1)%Z with
  | Threw e => Some (Threw e)
  | Returned true => Some (Threw (HashCollisionError i))
  | Returned false => None
  end.

Definition collision_check (ring : list point) : outcome unit :=
  from_option id (Returned tt) (for_return 1 (length ring - 1) (meets ring)).

(** The constructor, for whichever sorting function the library has. *)
Definition make_with (sort : list point -> list point) (pool : ServicePool)
    : outcome ConsistentHashStrategy :=
  ring ← place pool 0 (GetSize pool) [];
  _ ← collision_check (sort ring);
  Returned (mkRing (sort ring)).

Definition make : ServicePool -> outcome ConsistentHashStrategy := make_with sort_ring.

(** [std::ranges::lower_bound]: binary search for the first point that is not below
    [hash], in the range of [len] points that starts at [first]. *)
Fixpoint search (fuel : nat) (ring : list point) (hash : Z) (first len : nat) : nat :=
  match fuel with
  | 0 => first
  | S fuel' =>
      if len =? 0 then first
      else
        let half := len / 2 in
        match ring !! (first + half) with
        | Some x =>
            if (x.1 <? hash)%Z
            then search fuel' ring hash (first + half + 1) (len - half - 1)
            else search fuel' ring hash first half
        | None => first
        end
  end.

Definition lower_bound (ring : list point) (hash : Z) : nat :=
  search (length ring) ring hash 0 (length ring).

(** One turn of the walk. *)
Definition visit (pool : ServicePool) (ring : list point) (startIdx walked : nat)
    : option (outcome route) :=
  let idx := (startIdx + walked) mod length ring in
  match x ← at_ ring idx; s ← GetService pool x.2; Returned (x.2, IsHealthy s) with
  | Threw e => Some (Threw e)
  | Returned (i, true) => Some (Returned (Value i))
  | Returned (_, false) => None
  end.

Definition Select (s : ConsistentHashStrategy) (pool : ServicePool) (routingKey : string)
    : outcome route :=
  if (GetSize pool =? 0) || (length (m_ring s) =? 0)
  then Returned (Unexpected PoolEmpty)
  else
    let hash := Hash64 routingKey in
    let startIdx := lower_bound (m_ring s) hash in
    from_option id (Returned (Unexpected NoHealthyServices))
      (for_return 0 (length (m_ring s)) (visit pool (m_ring s) startIdx)).

(** The call leaves the object alone and always returns. *)
Definition SelectService (fuel : nat) (s : ConsistentHashStrategy) (pool : ServicePool)
    (routingKey : string) : option (outcome route * ConsistentHashStrategy) :=
  Some (Select s pool routingKey, s).

#[export] Instance consistent_hash_strategy : IRoutingStrategy ConsistentHashStrategy := {
  SelectService := SelectService
}.

(** *** The points of a ring *)

Fixpoint points_from (i : nat) (services : list ServiceState) : list point :=
  match services with
  | [] => []
  | s :: services' => vnodes (GetName (GetNode s)) i ++ points_from (S i) services'
  end.

Definition points (pool : ServicePool) : list point := points_from 0 (m_services pool).

Lemma place_points pool i ring : i <= GetSize pool ->
  place pool i (GetSize pool - i) ring
  = Returned (ring ++ points_from i (drop i (m_services pool))).
Proof.
  intros Hi. remember (GetSize pool - i) as n eqn:Hn.
  revert i ring Hi Hn; induction n as [|n IH]; intros i ring Hi Hn; simpl.
  - rewrite drop_ge by (unfold GetSize in *; lia). simpl. by rewrite app_nil_r.
  - destruct (lookup_lt_is_Some_2 (m_services pool) i) as [s Hs]; [unfold GetSize in *; lia|].
    unfold GetService, at_. rewrite Hs. simpl. rewrite IH by lia.
    rewrite (drop_S _ s i) by done. cbn [points_from]. by rewrite <- app_assoc.
Qed.

Lemma place_all pool : place pool 0 (GetSize pool) [] = Returned (points pool).
Proof. pose proof (place_points pool 0 []) as E. rewrite Nat.sub_0_r in E. apply E. lia. Qed.

Lemma elem_of_vnodes x name i :
  x ∈ vnodes name i <->
  x.2 = i /\ exists v, v < VNODES_PER_SERVICE /\ x.1 = Hash64 (vnode_label name v).
Proof.
  unfold vnodes. rewrite list_elem_of_fmap. split.
  - intros (v & -> & Hv%elem_of_seq). split; [done|]. exists v. split; [lia|done].
  - intros (Hi & v & Hv & Hx). exists v. split; [|apply elem_of_seq; lia].
    destruct x; simpl in *; congruence.
Qed.

Lemma elem_of_points_from x i l :
  x ∈ points_from i l <->
  exists k s, l !! k = Some s /\ x ∈ vnodes (GetName (GetNode s)) (i + k).
Proof.
  revert i; induction l as [|s l IH]; intros i; cbn [points_from].
  - split; [by intros ?%elem_of_nil|intros (k & ? & ? & _); by rewrite lookup_nil in *].
  - rewrite elem_of_app, IH. split.
    + intros [Hx|(k & t & Hk & Hx)].
      * exists 0, s. by rewrite Nat.add_0_r.
      * exists (S k), t. by rewrite Nat.add_succ_r.
    + intros ([|k] & t & Hk & Hx); simpl in Hk.
      * left. simplify_eq. by rewrite Nat.add_0_r in Hx.
      * right. exists k, t. by rewrite Nat.add_succ_r in Hx.
Qed.

Lemma elem_of_points x pool :
  x ∈ points pool <->
  exists s, m_services pool !! x.2 = Some s /\
            x ∈ vnodes (GetName (GetNode s)) x.2.
Proof.
  unfold points. rewrite elem_of_points_from. split.
  - intros (k & s & Hk & Hx). pose proof (proj1 (proj1 (elem_of_vnodes _ _ _) Hx)).
    simpl in *. subst k. eauto.
  - intros (s & Hk & Hx). exists x.2, s. eauto.
Qed.

Lemma points_from_length i l : length (points_from i l) = length l * VNODES_PER_SERVICE.
Proof.
  revert i; induction l as [|s l IH]; intros i; [done|]. cbn [points_from length].
  rewrite length_app, IH. unfold vnodes. rewrite length_fmap, length_seq. lia.
Qed.

Lemma points_index_lt x pool : x ∈ points pool -> x.2 < GetSize pool.
Proof. intros (s & Hs & _)%elem_of_points. by eapply lookup_lt_Some. Qed.

Lemma points_every_service pool i : i < GetSize pool -> exists x, x ∈ points pool /\ x.2 = i.
Proof.
  intros Hi. destruct (lookup_lt_is_Some_2 _ _ Hi) as [s Hs].
  exists (Hash64 (vnode_label (GetName (GetNode s)) 0), i). split; [|done].
  apply elem_of_points. exists s. split; [done|]. apply elem_of_vnodes. split; [done|].
  exists 0. split; [apply (Nat.lt_0_succ 149)|done].
Qed.

Lemma points_hash_in x pool : x ∈ points pool -> in_u 64 x.1.
Proof.
  intros (s & _ & (_ & v & _ & ->)%elem_of_vnodes)%elem_of_points. apply Hash64_in.
Qed.

(** *** The collision check *)

Lemma meets_adjacent ring i : 1 <= i < length ring ->
  exists x y, ring !! (i - 1) = Some x /\ ring !! i = Some y /\
    meets ring i = if (y.1 =? x.1)%Z then Some (Threw (HashCollisionError i)) else None.
Proof.
  intros Hi. destruct (lookup_lt_is_Some_2 ring i) as [y Hy]; [lia|].
  destruct (lookup_lt_is_Some_2 ring (i - 1)) as [x Hx]; [lia|].
  exists x, y. unfold meets, at_. rewrite Hx, Hy. simpl. split_and!; [done..|]. by destruct (y.1 =? x.1)%Z.
Qed.

(** [same_at l i]: the elements [i - 1] and [i] of [l] are equal. *)
Definition same_at (l : list Z) (i : nat) : Prop :=
  exists h, l !! (i - 1) = Some h /\ l !! i = Some h.

Lemma meets_None ring i : 1 <= i < length ring ->
  meets ring i = None <-> ~ same_at ring.*1 i.
Proof.
  intros Hi. destruct (meets_adjacent _ _ Hi) as (x & y & Hx & Hy & ->).
  unfold same_at. rewrite !list_lookup_fmap, Hx, Hy. simpl.
  destruct (Z.eqb_spec y.1 x.1) as [E|E]; split; try done.
  - intros H. destruct H. exists x.1. by rewrite E.
  - intros _ (h & ? & ?). congruence.
Qed.

Lemma meets_Some ring i r : 1 <= i < length ring ->
  meets ring i = Some r <-> same_at ring.*1 i /\ r = Threw (HashCollisionError i).
Proof.
  intros Hi. destruct (meets_adjacent _ _ Hi) as (x & y & Hx & Hy & ->).
  unfold same_at. rewrite !list_lookup_fmap, Hx, Hy. simpl.
  destruct (Z.eqb_spec y.1 x.1) as [E|E]; split; try done.
  - intros [= <-]. split; [|done]. exists x.1. by rewrite E.
  - by intros [_ ->].
  - intros ((h & ? & ?) & _). congruence.
Qed.

Lemma collision_check_returned ring :
  collision_check ring = Returned tt <-> forall i, 1 <= i < length ring -> ~ same_at ring.*1 i.
Proof.
  unfold collision_check. destruct (for_return _ _ _) as [r|] eqn:E; simpl.
  - apply for_return_Some in E as (i & Hi & Hr & _). apply meets_Some in Hr as [Hs ->]; [|lia].
    split; [done|]. intros H. destruct (H i); [lia|done].
  - split; [|done]. intros _ i Hi. apply meets_None; [done|].
    apply (proj1 (for_return_None _ _ _) E). lia.
Qed.

Lemma collision_check_threw ring e :
  collision_check ring = Threw e <->
  exists i, 1 <= i < length ring /\ same_at ring.*1 i /\ e = HashCollisionError i /\
            forall j, 1 <= j < i -> ~ same_at ring.*1 j.
Proof.
  unfold collision_check. destruct (for_return _ _ _) as [r|] eqn:E; simpl.
  - apply for_return_Some in E as (i & Hi & Hr & Hj).
    apply meets_Some in Hr as [Hs ->]; [|lia]. split.
    + intros [= <-]. exists i. repeat split; [lia..|done|].
      intros j Hji. apply meets_None; [lia|]. apply Hj. lia.
    + intros (k & Hk & Hsk & -> & Hjk). replace k with i; [done|].
      destruct (lt_eq_lt_dec i k) as [[?|?]|?]; [|done|].
      * by destruct (Hjk i); [lia|].
      * exfalso. apply (proj1 (meets_None ring k ltac:(lia))); [|done]. apply Hj. lia.
  - split; [done|]. intros (i & Hi & Hs & _). exfalso.
    apply (proj1 (meets_None ring i Hi)); [|done].
    apply (proj1 (for_return_None _ _ _) E). lia.
Qed.

(** The check looks at the hashes only. *)
Lemma collision_check_hashes ring ring' :
  ring.*1 = ring'.*1 -> collision_check ring = collision_check ring'.
Proof.
  intros Hk. assert (Hl : length ring = length ring').
  { apply (f_equal length) in Hk. by rewrite !length_fmap in Hk. }
  unfold collision_check. rewrite Hl. f_equal. apply for_return_ext. intros i Hi.
  assert (1 <= i < length ring') by lia. assert (1 <= i < length ring) by lia.
  destruct (meets ring' i) as [r|] eqn:E.
  - apply meets_Some in E; [|done]. apply meets_Some; [done|]. by rewrite Hk.
  - apply meets_None in E; [|done]. apply meets_None; [done|]. by rewrite Hk.
Qed.

(** *** Sorting *)

#[export] Instance by_hash_trans : Transitive by_hash.
Proof. unfold by_hash. intros x y z ??. lia. Qed.
#[export] Instance by_hash_total : Total by_hash.
Proof. unfold by_hash. intros x y. lia. Qed.

(** What [std::ranges::sort] promises; it is not stable. *)
Definition sorts (sort : list point -> list point) : Prop :=
  forall l, sort l ≡ₚ l /\ StronglySorted by_hash (sort l).

Lemma sort_ring_sorts : sorts sort_ring.
Proof.
  intros l. split; [apply merge_sort_Permutation|].
  apply StronglySorted_merge_sort; apply _.
Qed.

Lemma sorted_hashes ring : StronglySorted by_hash ring -> StronglySorted Z.le ring.*1.
Proof.
  induction 1 as [|x l _ IH Hx]; simpl; constructor; [done|]. by apply Forall_fmap.
Qed.

(** In a sorted list, equal elements are neighbours. *)
Lemma sorted_NoDup l : StronglySorted Z.le l ->
  (forall i, 1 <= i < length l -> ~ same_at l i) -> StronglySorted Z.lt l /\ NoDup l.
Proof.
  induction 1 as [|x l Hs IH Hx]; intros Hn; [split; constructor|].
  destruct IH as [Hlt Hnd].
  { intros i Hi (h & H1 & H2). apply (Hn (S i)); [simpl; lia|].
    exists h. destruct i as [|i]; [lia|]. simpl in *. by rewrite Nat.sub_0_r in H1. }
  assert (Hxl : Forall (Z.lt x) l).
  { destruct l as [|y l]; [constructor|]. inversion_clear Hlt as [|?? _ Hy].
    inversion_clear Hx as [|?? Hxy _].
    assert (x < y)%Z.
    { destruct (decide (x = y)) as [->|]; [|lia]. exfalso.
      apply (Hn 1); [simpl; lia|]. by exists y. }
    constructor; [done|]. eapply Forall_impl; [exact Hy|]. simpl. lia. }
  split; [by constructor|]. constructor; [|done].
  intros Hin. rewrite Forall_forall in Hxl. specialize (Hxl x Hin). lia.
Qed.

Lemma same_at_not_NoDup l i : 1 <= i -> same_at l i -> ~ NoDup l.
Proof.
  intros Hi (h & H1 & H2) Hn. pose proof (NoDup_lookup _ _ _ _ Hn H1 H2). lia.
Qed.

(** The constructor: one result for rings without a meeting, one for the others. *)
Lemma make_with_cases sort pool : sorts sort ->
  (NoDup (points pool).*1 /\ make_with sort pool = Returned (mkRing (sort (points pool)))) \/
  (~ NoDup (points pool).*1 /\ exists i, make_with sort pool = Threw (HashCollisionError i)).
Proof.
  intros Hsort. destruct (Hsort (points pool)) as [Hp Hs].
  unfold make_with. rewrite place_all. simpl.
  destruct (collision_check (sort (points pool))) as [[]|e] eqn:E.
  - left. split; [|done]. rewrite <- Hp.
    apply sorted_NoDup; [by apply sorted_hashes|]. intros i Hi.
    apply (proj1 (collision_check_returned _) E). by rewrite length_fmap in Hi.
  - right. apply collision_check_threw in E as (i & Hi & Hsame & -> & _).
    split; [|by eexists]. rewrite <- Hp. apply (same_at_not_NoDup _ i); [lia|done].
Qed.

Definition clockwise_ordered (x y : point) : Prop := (x.1 < y.1)%Z.

Lemma strictly_sorted_ring ring : StronglySorted by_hash ring -> NoDup ring.*1 ->
  StronglySorted clockwise_ordered ring.
Proof.
  induction 1 as [|x l Hs IH Hx]; simpl; intros Hn; constructor; inversion_clear Hn as [|?? Hxl Hnl].
  - by apply IH.
  - rewrite Forall_forall in Hx |- *. intros y Hy. specialize (Hx y Hy).
    unfold by_hash, clockwise_ordered in *.
    assert (x.1 <> y.1). { intros E. apply Hxl. rewrite E. by apply list_elem_of_fmap_2. }
    lia.
Qed.

(** What a strategy object is after its construction. *)
Definition ring_of (pool : ServicePool) (s : ConsistentHashStrategy) : Prop :=
  m_ring s ≡ₚ points pool /\ StronglySorted clockwise_ordered (m_ring s).

Lemma make_ring_of pool s : make pool = Returned s -> ring_of pool s.
Proof.
  destruct (make_with_cases sort_ring pool sort_ring_sorts) as [[Hn E]|[_ [i E]]];
    unfold make; rewrite E; [|done]. intros [= <-].
  destruct (sort_ring_sorts (points pool)) as [Hp Hs]. split; [done|].
  apply strictly_sorted_ring; [done|]. simpl. by rewrite Hp.
Qed.

(** C36: a ring that is built holds 150 virtual nodes of every service, in strictly
    increasing order of their hashes, each at the hash of its label. *)
Theorem make_builds_ring pool s : make pool = Returned s ->
  StronglySorted clockwise_ordered (m_ring s) /\
  length (m_ring s) = GetSize pool * VNODES_PER_SERVICE /\
  (forall h i, (h, i) ∈ m_ring s <->
     exists t v, m_services pool !! i = Some t /\ v < VNODES_PER_SERVICE /\
                 h = Hash64 (vnode_label (GetName (GetNode t)) v)).
Proof.
  intros [Hp Hs]%make_ring_of. split; [done|]. split.
  - rewrite Hp. apply points_from_length.
  - intros h i. rewrite Hp, elem_of_points. setoid_rewrite elem_of_vnodes. simpl. naive_solver.
Qed.

(** C37: the constructor throws exactly when two of the virtual nodes it places have the
    same hash, and [HashCollisionError] is all it throws. *)
Theorem make_throws_iff pool :
  (NoDup (points pool).*1 <-> exists s, make pool = Returned s) /\
  (~ NoDup (points pool).*1 <-> exists i, make pool = Threw (HashCollisionError i)).
Proof.
  destruct (make_with_cases sort_ring pool sort_ring_sorts) as [[Hn E]|[Hn [i E]]];
    unfold make; rewrite E; naive_solver.
Qed.

(** The ring does not depend on the sorting algorithm, which may be unstable: any
    two give the same object, or the same exception. *)
Theorem make_any_sort sort pool : sorts sort -> make_with sort pool = make pool.
Proof.
  intros Hsort. destruct (Hsort (points pool)) as [Hp Hs].
  destruct (sort_ring_sorts (points pool)) as [Hp' Hs'].
  assert (Hk : (sort (points pool)).*1 = (sort_ring (points pool)).*1).
  { apply (StronglySorted_unique Z.le); [by apply sorted_hashes..|]. by rewrite Hp, Hp'. }
  unfold make, make_with. rewrite place_all. simpl.
  rewrite (collision_check_hashes _ _ Hk).
  destruct (collision_check (sort_ring (points pool))) as [[]|e] eqn:E; [|done].
  simpl. do 2 f_equal. assert (Hn : NoDup (sort_ring (points pool)).*1).
  { apply sorted_NoDup; [by apply sorted_hashes|]. intros i Hi.
    apply (proj1 (collision_check_returned _) E). by rewrite length_fmap in Hi. }
  apply (StronglySorted_unique_strong by_hash); [|done..|by rewrite Hp, Hp'].
  intros x y Hx Hy ??. assert (E1 : x.1 = y.1) by (unfold by_hash in *; lia).
  rewrite Hp, <- Hp' in Hx.
  apply list_elem_of_lookup in Hx as [a Ha], Hy as [b Hb].
  assert (a = b) as ->; [|congruence].
  apply (NoDup_lookup _ _ _ x.1 Hn); rewrite list_lookup_fmap, ?Ha, ?Hb; simpl; congruence.
Qed.

(** *** The binary search *)

(** [k] splits the ring into the points below [hash] and the others. *)
Definition partition_point (ring : list point) (hash : Z) (k : nat) : Prop :=
  k <= length ring /\
  (forall j x, ring !! j = Some x -> (x.1 < hash)%Z <-> j < k).

Lemma sorted_lookup_lt ring i j x y : StronglySorted clockwise_ordered ring ->
  ring !! i = Some x -> ring !! j = Some y -> i < j -> (x.1 < y.1)%Z.
Proof.
  intros Hs. revert i j; induction Hs as [|z l Hs IH Hz]; intros i j Hi Hj Hij; [done|].
  destruct j as [|j]; [lia|]. destruct i as [|i]; simpl in *; simplify_eq.
  - rewrite Forall_forall in Hz. apply Hz. by eapply list_elem_of_lookup_2.
  - apply (IH i j); [done..|lia].
Qed.

Lemma search_spec ring hash : StronglySorted clockwise_ordered ring ->
  forall fuel first len, len <= fuel -> first + len <= length ring ->
  (forall j x, ring !! j = Some x -> j < first -> (x.1 < hash)%Z) ->
  (forall j x, ring !! j = Some x -> first + len <= j -> ~ (x.1 < hash)%Z) ->
  partition_point ring hash (search fuel ring hash first len).
Proof.
  intros Hs. induction fuel as [|fuel IH]; intros first len Hf Hl Hlo Hhi; cbn [search].
  - split; [lia|]. intros j x Hx. specialize (Hlo j x Hx). specialize (Hhi j x Hx). lia.
  - destruct (Nat.eqb_spec len 0) as [->|Hn].
    { split; [lia|]. intros j x Hx. specialize (Hlo j x Hx). specialize (Hhi j x Hx). lia. }
    pose proof (Nat.div_lt len 2 ltac:(lia) ltac:(lia)).
    destruct (lookup_lt_is_Some_2 ring (first + len / 2)) as [m Hm]; [lia|]. rewrite Hm.
    destruct (Z.ltb_spec m.1 hash) as [Hlt|Hge].
    + apply IH; [lia..| |].
      * intros j x Hx Hj. destruct (decide (j = first + len / 2)) as [->|]; [congruence|].
        pose proof (sorted_lookup_lt _ _ _ _ _ Hs Hx Hm ltac:(lia)). lia.
      * intros j x Hx Hj. apply (Hhi j); [done|lia].
    + apply IH; [lia..|done|]. intros j x Hx Hj.
      destruct (decide (j = first + len / 2)) as [->|]; [simplify_eq; lia|].
      pose proof (sorted_lookup_lt _ _ _ _ _ Hs Hm Hx ltac:(lia)). lia.
Qed.

Lemma lower_bound_spec ring hash : StronglySorted clockwise_ordered ring ->
  partition_point ring hash (lower_bound ring hash).
Proof.
  intros Hs. apply search_spec; [done|lia..| |]; intros j x Hx; [lia|].
  apply lookup_lt_Some in Hx. lia.
Qed.

(** *** The walk *)

(** The distance from the key to a point, clockwise around the 2^64 hashes. *)
Definition clock (key h : Z) : Z := u64 (h - key).

(** [clockwise ring pool key i]: of the points of healthy services, the one nearest to
    [key] going clockwise belongs to [i]. *)
Definition clockwise (ring : list point) (pool : ServicePool) (key : Z) (i : nat) : Prop :=
  exists h, (h, i) ∈ ring /\ healthy_at pool i /\
    forall x, x ∈ ring -> healthy_at pool x.2 -> (clock key h <= clock key x.1)%Z.

Lemma clock_split key h : in_u 64 key -> in_u 64 h ->
  clock key h = if decide (h < key)%Z then (h - key + 2 ^ 64)%Z else (h - key)%Z.
Proof.
  unfold in_u, clock, wrapu. intros ??. case_decide.
  - symmetry. apply Z.mod_unique with (-1)%Z; lia.
  - apply Z.mod_small. lia.
Qed.

Lemma clock_inj key h h' : in_u 64 h -> in_u 64 h' -> in_u 64 key ->
  clock key h = clock key h' -> h = h'.
Proof.
  intros ???. rewrite !clock_split by done. unfold in_u in *.
  repeat case_decide; lia.
Qed.

(** One lap from the partition point visits every point, nearest first. *)
Lemma lap_increasing ring key k u v x y :
  StronglySorted clockwise_ordered ring -> Forall (fun x => in_u 64 x.1) ring ->
  in_u 64 key -> partition_point ring key k ->
  u < v < length ring ->
  ring !! ((k + u) mod length ring) = Some x -> ring !! ((k + v) mod length ring) = Some y ->
  (clock key x.1 < clock key y.1)%Z.
Proof.
  intros Hs Hin Hkey [Hk Hp] Huv Hx Hy. set (n := length ring) in *.
  assert (E : forall w, w < n -> (k + w) mod n = if decide (k + w < n) then k + w else k + w - n).
  { intros w Hw. case_decide; [by apply Nat.mod_small|].
    symmetry. apply Nat.mod_unique with 1; lia. }
  rewrite E in Hx, Hy by lia.
  pose proof (Hp _ _ Hx) as Hpx. pose proof (Hp _ _ Hy) as Hpy.
  rewrite Forall_lookup in Hin. pose proof (Hin _ _ Hx) as Hix. pose proof (Hin _ _ Hy) as Hiy.
  rewrite !clock_split by done. unfold in_u in *.
  repeat case_decide; try lia.
  - pose proof (sorted_lookup_lt _ _ _ _ _ Hs Hx Hy ltac:(lia)). lia.
  - pose proof (sorted_lookup_lt _ _ _ _ _ Hs Hx Hy ltac:(lia)). lia.
Qed.

Lemma lap_complete (ring : list point) k x : k <= length ring -> x ∈ ring ->
  exists w, w < length ring /\ ring !! ((k + w) mod length ring) = Some x.
Proof.
  intros Hk [j Hj]%list_elem_of_lookup. pose proof (lookup_lt_Some _ _ _ Hj) as Hlt.
  destruct (decide (k <= j)).
  - exists (j - k). split; [lia|]. replace (k + (j - k)) with j by lia.
    by rewrite Nat.mod_small.
  - exists (j + length ring - k). split; [lia|].
    replace (k + (j + length ring - k)) with (j + 1 * length ring) by lia.
    by rewrite Nat.Div0.mod_add, Nat.mod_small.
Qed.

Lemma visit_healthy pool ring k w : Forall (fun x => x.2 < GetSize pool) ring ->
  0 < length ring ->
  exists x, ring !! ((k + w) mod length ring) = Some x /\
    visit pool ring k w =
      if healthy_at pool x.2 then Some (Returned (Value x.2)) else None.
Proof.
  intros Hin Hn. destruct (lookup_lt_is_Some_2 ring ((k + w) mod length ring)) as [x Hx].
  { apply Nat.mod_upper_bound. lia. }
  exists x. split; [done|]. unfold visit, at_. rewrite Hx. simpl.
  rewrite Forall_lookup in Hin. destruct (GetService_returned pool x.2) as [s Hs]; [by eapply Hin|].
  rewrite Hs. apply GetService_lookup in Hs. simpl. unfold healthy_at. rewrite Hs.
  by destruct (IsHealthy s).
Qed.

(** *** Routing *)

(** A strategy object fits pools of [n] services. *)
Definition ring_for (s : ConsistentHashStrategy) (n : nat) : Prop :=
  StronglySorted clockwise_ordered (m_ring s) /\
  Forall (fun x => in_u 64 x.1) (m_ring s) /\
  Forall (fun x => x.2 < n) (m_ring s) /\
  forall i, i < n -> exists x, x ∈ m_ring s /\ x.2 = i.

Lemma make_ring_for pool s : make pool = Returned s -> ring_for s (GetSize pool).
Proof.
  intros [Hp Hs]%make_ring_of. split_and!; [done|..].
  - rewrite Hp. apply Forall_forall. intros x. apply points_hash_in.
  - rewrite Hp. apply Forall_forall. intros x. apply points_index_lt.
  - intros i Hi. setoid_rewrite Hp. by apply points_every_service.
Qed.

Lemma ring_for_nonempty s n : ring_for s n -> n <> 0 -> 0 < length (m_ring s).
Proof.
  intros (_ & _ & _ & Hc) Hn. destruct (Hc 0) as (x & Hx & _); [lia|].
  apply list_elem_of_lookup in Hx as [j Hj]. apply lookup_lt_Some in Hj. lia.
Qed.

(** Every call ends in one of three ways. *)
Lemma Select_cases s pool key : ring_for s (GetSize pool) ->
  (GetSize pool = 0 /\ Select s pool key = Returned (Unexpected PoolEmpty)) \/
  (GetSize pool <> 0 /\ (forall i, healthy_at pool i = false) /\
   Select s pool key = Returned (Unexpected NoHealthyServices)) \/
  (exists i, Select s pool key = Returned (Value i) /\
             clockwise (m_ring s) pool (Hash64 key) i).
Proof.
  intros Hr. unfold Select. destruct (Nat.eqb_spec (GetSize pool) 0) as [E|E]; [by left|right].
  pose proof (ring_for_nonempty _ _ Hr E) as Hn. destruct Hr as (Hs & Hh & Hi & Hc).
  simpl. rewrite (proj2 (Nat.eqb_neq _ 0)) by lia.
  pose proof (lower_bound_spec _ (Hash64 key) Hs) as Hk.
  set (k := lower_bound (m_ring s) (Hash64 key)) in *.
  destruct (for_return _ _ _) as [r|] eqn:Er; simpl.
  - right. apply for_return_Some in Er as (w & Hw & Hv & Hbefore).
    destruct (visit_healthy pool _ k w Hi Hn) as ([h i] & Hx & Ev).
    rewrite Ev in Hv. simpl in Hv. destruct (healthy_at pool i) eqn:Hhi; simplify_eq.
    exists i. split; [done|]. exists h. split_and!; [by eapply list_elem_of_lookup_2|by rewrite Hhi|].
    intros y Hy Hhy. destruct (lap_complete _ k y (proj1 Hk) Hy) as (v & Hv & Hyv).
    destruct (lt_eq_lt_dec w v) as [[Hwv|<-]|Hwv].
    + change h with (h, i).1. apply Z.lt_le_incl.
      apply (lap_increasing _ _ k w v _ _ Hs Hh (Hash64_in key) Hk); [lia|done..].
    + rewrite Hx in Hyv. by simplify_eq.
    + specialize (Hbefore v ltac:(lia)).
      destruct (visit_healthy pool _ k v Hi Hn) as (z & Hz & Ez).
      rewrite Hyv in Hz. simplify_eq. rewrite Ez in Hbefore. by destruct (healthy_at pool z.2).
  - left. split_and!; [done| |done]. intros i. destruct (healthy_at pool i) eqn:Hhi; [|done].
    exfalso. destruct (Hc i) as (y & Hy & <-).
    { apply healthy_at_lt. by rewrite Hhi. }
    destruct (lap_complete _ k y (proj1 Hk) Hy) as (v & Hv & Hyv).
    destruct (visit_healthy pool _ k v Hi Hn) as (z & Hz & Ez).
    rewrite Hyv in Hz. simplify_eq. rewrite Hhi in Ez.
    rewrite for_return_None in Er. rewrite Er in Ez; [done|lia].
Qed.

Lemma clockwise_unique ring pool key i j : StronglySorted clockwise_ordered ring ->
  Forall (fun x => in_u 64 x.1) ring -> in_u 64 key ->
  clockwise ring pool key i -> clockwise ring pool key j -> i = j.
Proof.
  intros Hs Hh Hkey (h & Hx & Hhi & Hm) (h' & Hy & Hhj & Hm').
  specialize (Hm _ Hy Hhj). specialize (Hm' _ Hx Hhi). simpl in *.
  rewrite Forall_forall in Hh. pose proof (Hh _ Hx). pose proof (Hh _ Hy). simpl in *.
  assert (h = h') as <- by (apply (clock_inj key); [done..|lia]).
  apply list_elem_of_lookup in Hx as [a Ha], Hy as [b Hb].
  destruct (lt_eq_lt_dec a b) as [[Hab|<-]|Hab]; [|congruence|].
  - pose proof (sorted_lookup_lt _ _ _ _ _ Hs Ha Hb Hab). simpl in *. lia.
  - pose proof (sorted_lookup_lt _ _ _ _ _ Hs Hb Ha Hab). simpl in *. lia.
Qed.

Lemma Select_iff s pool key i : ring_for s (GetSize pool) ->
  Select s pool key = Returned (Value i) <-> clockwise (m_ring s) pool (Hash64 key) i.
Proof.
  intros Hr. pose proof Hr as (Hs & Hh & _ & _).
  destruct (Select_cases s pool key Hr) as [[Hz E]|[(_ & Hno & E)|(j & E & Hj)]]; rewrite E.
  - split; [done|]. intros (h & _ & Hhi%healthy_at_lt & _). lia.
  - split; [done|]. intros (h & _ & Hhi & _). by rewrite Hno in Hhi.
  - split; [by intros [= <-]|]. intros Hi. do 2 f_equal.
    by apply (clockwise_unique _ _ _ _ _ Hs Hh (Hash64_in key) Hj).
Qed.

#[export] Instance consistent_hash_contract : RoutingContract ConsistentHashStrategy.
Proof.
  refine {| built_for := ring_for |}.
  - by intros fuel s p key r s' Hr [= _ <-].
  - intros fuel s p key r s' Hr [= <- _].
    destruct (Select_cases s p key Hr) as [[Hz E]|[(Hn & Hno & E)|(j & E & Hj)]]; rewrite E; [done..|].
    by destruct Hj as (h & _ & Hhj & _).
  - by intros fuel fuel' s p key x _.
Defined.

(** Dropping points of other services, or the health of other services, leaves the
    nearest healthy point where it was. *)
Lemma clockwise_restrict ring ring' pool pool' key i :
  (forall x, x ∈ ring' -> healthy_at pool' x.2 -> x ∈ ring /\ healthy_at pool x.2) ->
  (forall h, (h, i) ∈ ring -> (h, i) ∈ ring') -> healthy_at pool' i ->
  clockwise ring pool key i -> clockwise ring' pool' key i.
Proof.
  intros Hsub Hi Hhi (h & Hx & _ & Hm). exists h. split_and!; [by apply Hi|done|].
  intros x Hx' Hhx. destruct (Hsub x Hx' Hhx). by apply Hm.
Qed.

(** *** Properties *)

(** C4: routing implements its specification: on a ring built for as many services as
    the pool has, the call returns [i] exactly when the healthy virtual node nearest to
    the key's hash, clockwise around the 2^64 hashes, is one of [i]. *)
Theorem Select_nearest_clockwise pool0 s pool key i :
  make pool0 = Returned s -> GetSize pool = GetSize pool0 ->
  Select s pool key = Returned (Value i) <-> clockwise (m_ring s) pool (Hash64 key) i.
Proof. intros Hm Hn. apply Select_iff. rewrite Hn. by apply make_ring_for. Qed.

(** The call always returns, never throws, and its answer says what the pool is
    like: a healthy service, or that none is, or that there is none. *)
Theorem Select_total pool0 s pool key :
  make pool0 = Returned s -> GetSize pool = GetSize pool0 ->
  exists r, Select s pool key = Returned r /\ route_ok pool (Returned r).
Proof.
  intros Hm Hn. pose proof (make_ring_for _ _ Hm) as Hr. rewrite <- Hn in Hr.
  pose proof (select_ok 0 s pool key _ s Hr eq_refl) as Hok.
  destruct (Select s pool key) as [r|e]; [|done]. by exists r.
Qed.

(** C18: services that fail take only their own keys with them: a key stays with its
    service for as long as that service is healthy. *)
Theorem failures_move_only_failed pool0 s p q key i :
  make pool0 = Returned s -> GetSize p = GetSize pool0 -> GetSize q = GetSize pool0 ->
  (forall j, healthy_at q j -> healthy_at p j) ->
  Select s p key = Returned (Value i) -> healthy_at q i ->
  Select s q key = Returned (Value i).
Proof.
  intros Hm Hp Hq Hsub Hi Hhi. apply make_ring_for in Hm.
  apply Select_iff in Hi; [|by rewrite Hp]. apply Select_iff; [by rewrite Hq|].
  revert Hi. apply clockwise_restrict; [|done..]. intros x Hx Hhx. auto.
Qed.

(** C19: configuring one more service moves keys to that service only: every other key
    is routed as it was before. *)
Theorem scale_out_moves_to_new services t s s' p q key i :
  make (mkPool services) = Returned s -> make (mkPool (services ++ [t])) = Returned s' ->
  GetSize p = length services -> GetSize q = S (length services) ->
  (forall j, j < length services -> healthy_at q j = healthy_at p j) ->
  Select s' q key = Returned (Value i) ->
  i = length services \/ Select s p key = Returned (Value i).
Proof.
  intros Hm Hm' Hp Hq Hh Hi.
  pose proof (make_ring_of _ _ Hm) as [Hr _]. pose proof (make_ring_of _ _ Hm') as [Hr' _].
  assert (Hsub : forall x, x ∈ m_ring s <-> x ∈ m_ring s' /\ x.2 < length services).
  { intros x. rewrite Hr, Hr', !elem_of_points. simpl. split.
    - intros (u & Hu & Hx). pose proof (lookup_lt_Some _ _ _ Hu).
      split; [|done]. exists u. by rewrite lookup_app_l.
    - intros ((u & Hu & Hx) & Hlt). exists u. by rewrite lookup_app_l in Hu. }
  apply make_ring_for in Hm, Hm'. unfold GetSize in Hm, Hm'. simpl in Hm, Hm'.
  rewrite length_app, Nat.add_1_r in Hm'.
  apply Select_iff in Hi; [|by rewrite Hq].
  assert (Hhi : healthy_at q i) by (by destruct Hi as (h & _ & Hhi & _)).
  pose proof (healthy_at_lt _ _ Hhi) as Hlt. rewrite Hq in Hlt.
  destruct (decide (i = length services)) as [|Hne]; [by left|right].
  apply Select_iff; [by rewrite Hp|]. revert Hi. apply clockwise_restrict.
  - intros x [Hx Hlx]%Hsub Hhx. by rewrite Hh.
  - intros h Hx. apply Hsub. split; [done|]. simpl. lia.
  - rewrite <- Hh; [done|lia].
Qed.

(** Two services of one name put their virtual nodes on the same places, so the
    constructor throws. *)
Theorem duplicate_names_collide pool i j t u :
  i <> j -> m_services pool !! i = Some t -> m_services pool !! j = Some u ->
  GetName (GetNode t) = GetName (GetNode u) ->
  exists k, make pool = Threw (HashCollisionError k).
Proof.
  intros Hij Ht Hu Hname.
  assert (Hd : ~ NoDup (points pool).*1); [|by
    destruct (make_with_cases sort_ring pool sort_ring_sorts) as [[? _]|[_ ?]]].
  intros Hn. set (h := Hash64 (vnode_label (GetName (GetNode t)) 0)).
  assert (H0 : 0 < VNODES_PER_SERVICE) by (apply (Nat.lt_0_succ 149)).
  assert (Hi : (h, i) ∈ points pool).
  { apply elem_of_points. exists t. split; [done|]. apply elem_of_vnodes. eauto. }
  assert (Hj : (h, j) ∈ points pool).
  { apply elem_of_points. exists u. split; [done|]. apply elem_of_vnodes.
    split; [done|]. exists 0. simpl. by rewrite <- Hname. }
  apply list_elem_of_lookup in Hi as [a Ha], Hj as [b Hb].
  assert (a = b) as ->; [|congruence].
  by apply (NoDup_lookup _ _ _ h Hn); rewrite list_lookup_fmap, ?Ha, ?Hb.
Qed.

(** The numbers of connections do not matter, nor do weights or any other part of
    the nodes: pools with the same healthy services route every key alike. *)
Theorem Select_health_only s p q key :
  GetSize p = GetSize q -> (forall i, healthy_at p i = healthy_at q i) ->
  Select s p key = Select s q key.
Proof.
  intros Hs Hh. unfold Select. rewrite Hs. case_match; [done|]. f_equal.
  apply for_return_ext. intros w _. unfold visit.
  destruct (at_ _ _) as [[h i]|]; [|done]. simpl.
  specialize (Hh i). unfold healthy_at in Hh. unfold GetService, at_. unfold GetSize in Hs.
  destruct (State.ServicePool.m_services p !! i) as [u|] eqn:Ep,
    (State.ServicePool.m_services q !! i) as [v|] eqn:Eq; simpl; [by rewrite Hh| | |done].
  - apply lookup_lt_Some in Ep. apply lookup_ge_None in Eq. lia.
  - apply lookup_lt_Some in Eq. apply lookup_ge_None in Ep. lia.
Qed.

(** The number of a virtual node ends in a decimal digit. *)
Lemma vnode_number v : v < VNODES_PER_SERVICE ->
  exists d, pretty v = (if v / 10 =? 0 then "" else pretty (v / 10)) +:+ String d EmptyString /\
            Z.shiftr (octet d) 4 = 3%Z.
Proof.
  intros Hv.
  assert (H : Forall (fun v => pretty v
                = (if v / 10 =? 0 then "" else pretty (v / 10)) +:+
                    String (ascii_of_nat (48 + v mod 10)) EmptyString /\
              Z.shiftr (octet (ascii_of_nat (48 + v mod 10))) 4 = 3%Z)
              (seq 0 VNODES_PER_SERVICE)).
  { apply (bool_decide_unpack (Forall _ _)). vm_compute. done. }
  rewrite Forall_forall in H. destruct (H v) as [E1 E2]; [apply elem_of_seq; lia|]. eauto.
Qed.

(** The 150 virtual nodes of a service are not spread over the circle: the ten whose
    numbers share all but the last digit lie within [15 * FNV_PRIME] of one another,
    less than a millionth of the circle. *)
Theorem vnodes_cluster name v w :
  v < VNODES_PER_SERVICE -> w < VNODES_PER_SERVICE -> v / 10 = w / 10 ->
  within (15 * FNV_PRIME) (Hash64 (vnode_label name v)) (Hash64 (vnode_label name w)) /\
  (15 * FNV_PRIME * 1000000 < 2 ^ 64)%Z.
Proof.
  intros Hv Hw E. split; [|done].
  destruct (vnode_number v Hv) as (c & Hc & Hc'), (vnode_number w Hw) as (d & Hd & Hd').
  unfold vnode_label. rewrite Hc, Hd, <- E, <- !app_assoc', !Hash64_snoc.
  apply (absorb_near 4); [lia|]. by rewrite Hc', Hd'.
Qed.

(** *** Witnesses *)

Definition sample (name : string) (load : Z) (healthy : bool) : ServiceState :=
  mkState (ServiceNode.make name "10.0.0.1" 80 1) load healthy 0.
Definition trio : list ServiceState :=
  [sample "alpha" 0 true; sample "beta" 7 true; sample "gamma" 2 true].
Definition trio_degraded : list ServiceState :=
  [sample "alpha" 5 true; sample "beta" 7 false; sample "gamma" 2 true].

Definition built (services : list ServiceState) : ConsistentHashStrategy :=
  match make (mkPool services) with Returned s => s | Threw _ => mkRing [] end.

Lemma trio_built : make (mkPool trio) = Returned (built trio).
Proof. vm_compute. reflexivity. Qed.
Lemma four_built : make (mkPool (trio ++ [sample "delta" 0 true]))
  = Returned (built (trio ++ [sample "delta" 0 true])).
Proof. vm_compute. reflexivity. Qed.

Example make_builds_ring_witness : length (m_ring (built trio)) = 450.
Proof. apply (make_builds_ring (mkPool trio) (built trio) trio_built). Defined.

Example make_any_sort_witness :
  make_with (fun l => sort_ring (reverse l)) (mkPool trio) = make (mkPool trio).
Proof.
  apply (make_any_sort (fun l => sort_ring (reverse l)) (mkPool trio)).
  intros l. destruct (sort_ring_sorts (reverse l)) as [Hp Hs]. split; [|exact Hs].
  rewrite Hp. apply reverse_Permutation.
Defined.

Example Select_nearest_clockwise_witness :
  clockwise (m_ring (built trio)) (mkPool trio_degraded) (Hash64 "192.168.7.20") 0.
Proof.
  apply (Select_nearest_clockwise (mkPool trio) (built trio) (mkPool trio_degraded)
           "192.168.7.20" 0 trio_built eq_refl).
  vm_compute. reflexivity.
Defined.

Example Select_total_witness : exists r,
  Select (built trio) (mkPool trio_degraded) "k1" = Returned r /\
  route_ok (mkPool trio_degraded) (Returned r).
Proof.
  apply (Select_total (mkPool trio) (built trio) (mkPool trio_degraded) "k1" trio_built eq_refl).
Defined.

(** A key of the first service stays with it when the second fails. *)
Example failures_move_only_failed_witness :
  Select (built trio) (mkPool trio_degraded) "203.0.113.9" = Returned (Value 0).
Proof.
  apply (failures_move_only_failed (mkPool trio) (built trio) (mkPool trio)
           (mkPool trio_degraded) "203.0.113.9" 0 trio_built eq_refl eq_refl).
  - intros [|[|[|j]]]; done.
  - vm_compute. reflexivity.
  - vm_compute. done.
Defined.

(** One key moves to the fourth service; another stays where it was. *)
Example scale_out_moves_to_new_witness :
  1 = 3 \/ Select (built trio) (mkPool trio) "zed" = Returned (Value 1).
Proof.
  apply (scale_out_moves_to_new trio (sample "delta" 0 true) (built trio)
           (built (trio ++ [sample "delta" 0 true])) (mkPool trio)
           (mkPool (trio ++ [sample "delta" 0 true])) "zed" 1
           trio_built four_built eq_refl eq_refl).
  - intros [|[|[|j]]]; simpl; [done..|lia].
  - vm_compute. reflexivity.
Defined.

Example scale_out_moved :
  Select (built (trio ++ [sample "delta" 0 true])) (mkPool (trio ++ [sample "delta" 0 true]))
    "10.45.2.1" = Returned (Value 3).
Proof. vm_compute. reflexivity. Qed.

Example duplicate_names_collide_witness : exists k,
  make (mkPool [sample "web" 0 true; sample "web" 1 true]) = Threw (HashCollisionError k).
Proof.
  apply (duplicate_names_collide (mkPool [sample "web" 0 true; sample "web" 1 true]) 0 1
           (sample "web" 0 true) (sample "web" 1 true)); [lia|done..].
Defined.

Example Select_health_only_witness :
  Select (built trio) (mkPool trio) "zed" = Select (built trio)
    (mkPool [sample "alpha" 99 true; sample "beta" 0 true; sample "gamma" 1 true]) "zed".
Proof.
  apply (Select_health_only (built trio) (mkPool trio)); [done|].
  intros [|[|[|j]]]; done.
Defined.

Example vnodes_cluster_witness :
  within (15 * FNV_PRIME) (Hash64 (vnode_label "web" 140)) (Hash64 (vnode_label "web" 149)) /\
  (15 * FNV_PRIME * 1000000 < 2 ^ 64)%Z.
Proof.
  apply (vnodes_cluster "web" 140 149);
    [unfold VNODES_PER_SERVICE; lia|unfold VNODES_PER_SERVICE; lia|reflexivity].
Defined.

End ConsistentHashStrategy.
