(* ===== verification/Asio.v ===== *)
(** * Boost.Asio, as far as the proxy and the health checker use it

    An asynchronous operation is started with a handler; later the io_context calls the
    handler once, with an error code.  The components keep their handlers, as data, in
    a list of pending operations.  A schedule is a list of events; an event completes
    the pending operation at some position, with a code that the schedule chooses.
    Properties are stated for every schedule, so for every order and every timing.

    A cancelled operation stays pending until it completes: [cancel] and [close] only
    ask for it, and an operation that was already done completes with success. *)

From S2P Require Import Prelude.

(** [boost::system::error_code] *)
Inductive error_code :=
  | success
  | operation_aborted
  | failure (what : string).

#[export] Instance error_code_eq_dec : EqDecision error_code.
Proof. solve_decision. Defined.

(** The test [if (ec)]. *)
Definition is_error (ec : error_code) : bool :=
  match ec with success => false | _ => true end.

(** [ec.message()] *)
Definition message (ec : error_code) : string :=
  match ec with
  | success => "Success"
  | operation_aborted => "Operation canceled"
  | failure what => what
  end.

(** Calls whose result the library decides: parsing an address, which throws
    [system_error] when it cannot; closing a socket, which may throw it too; the forms of
    [shutdown] and [close] that store an error code instead.  The second argument of
    the last three counts the component's requests so far, so that a later call on the
    same socket may end otherwise. *)
Class Asio := {
  address : Type;
  make_address : string -> outcome address;
  make_address_throws s e : make_address s = Threw e -> kind e = KSystemError;
  socket_close : nat -> nat -> outcome unit;
  socket_close_throws s n e : socket_close s n = Threw e -> kind e = KSystemError;
  socket_control : nat -> nat -> error_code
}.

(** ** Pending operations *)

(** The handler at position [k], taken out of the list. *)
Definition take_out {H} (k : nat) (pending : list H) : option (H * list H) :=
  (fun h => (h, delete k pending)) <$> pending !! k.

Lemma take_out_Some {H} k (l : list H) h l' :
  take_out k l = Some (h, l') <-> l !! k = Some h /\ l' = delete k l.
Proof.
  unfold take_out. destruct (l !! k) eqn:E; simpl; split; naive_solver.
Qed.

Lemma take_out_Permutation {H} k (l : list H) h l' :
  take_out k l = Some (h, l') -> l ≡ₚ h :: l'.
Proof. intros [Hk ->]%take_out_Some. by apply delete_Permutation. Qed.

(** How many pending operations satisfy [p]. *)
Definition count {H} (p : H -> bool) (l : list H) : nat := length (List.filter p l).

Lemma count_app {H} (p : H -> bool) l l' : count p (l ++ l') = count p l + count p l'.
Proof. unfold count. by rewrite List.filter_app, length_app. Qed.

Lemma count_cons {H} (p : H -> bool) h l :
  count p (h :: l) = (if p h then 1 else 0) + count p l.
Proof. unfold count. simpl. by destruct (p h). Qed.

Lemma count_take_out {H} (p : H -> bool) k l h l' :
  take_out k l = Some (h, l') -> count p l = (if p h then 1 else 0) + count p l'.
Proof.
  intros Hp%take_out_Permutation. rewrite <- count_cons. unfold count.
  apply Permutation_length.
  induction Hp as [|x l1 l2 _ IH|x y l1|l1 l2 l3 _ IH1 _ IH2]; simpl.
  - done.
  - destruct (p x); [by constructor|done].
  - destruct (p x), (p y); try done. apply perm_swap.
  - by etrans.
Qed.

Lemma count_nil {H} (p : H -> bool) : count p [] = 0.
Proof. done. Qed.

(** ** A loop of calls *)

(** [for (k = i; k < i + n; ++k) { body }] *)
Fixpoint for_each {St} (i n : nat) (body : nat -> M St unit) : M St unit :=
  match n with
  | 0 => skip
  | S n' => _ ← body i; for_each (S i) n' body
  end.

Lemma for_each_hoare {St} i n body (I : nat -> St -> Prop) (X : exn -> St -> Prop) :
  (forall k, i <= k < i + n -> hoare (I k) (body k) (fun _ => I (S k)) X) ->
  hoare (I i) (for_each i n body) (fun _ => I (i + n)) X.
Proof.
  revert i; induction n as [|n IH]; intros i H; simpl.
  - intros s Hs. by rewrite Nat.add_0_r.
  - eapply hoare_bind; [apply H; lia|]. intros []. rewrite <- Nat.add_succ_comm.
    apply IH. intros k Hk. apply H. lia.
Qed.

(** An address type in which every dotted string is an address, for examples. *)
Definition string_asio (valid : string -> bool) : Asio.
Proof.
  refine {| address := string;
            make_address s := if valid s then Returned s
                              else Threw (Exn KSystemError "Invalid argument");
            socket_close _ _ := Returned tt;
            socket_control _ _ := success |}.
  - intros s e. destruct (valid s); [done|]. by intros [= <-].
  - done.
Defined.
