(* ===== verification/Health.v ===== *)
(** * core/health/HealthChecker: active health checks

    A timer starts a round; a round starts a probe of every service: a connect and a
    timeout that closes its socket.  The outcome of the connect moves the service's
    failure counter and health. *)

From S2P Require Import Prelude Node Config State Asio.
Import ServiceNode ServiceState HealthCheckConfig.

Module HealthChecker.
Section HealthChecker.
Context `{Asio}.

(** The handlers: the lambdas passed to [async_wait] and [async_connect], with what they
    capture.  Sockets and timers are numbered as they are made. *)
Inductive handler :=
  | OnRound
  | OnProbeTimeout (socket : nat)
  | OnProbeConnect (index socket timer : nat).

Inductive timer_id := m_timer | probe_timer (n : nat).

(** What the checker asks of the library, in order. *)
Inductive request :=
  | ExpiresAfter (t : timer_id) (ms : Z)
  | Cancel (t : timer_id)
  | Connect (index socket : nat) (endpoint : address * Z)
  | Close (socket : nat)
  | Print (message : string).

(** The checker and what it shares: the pool by reference, the library's pending
    operations, the requests made. *)
Record HealthChecker := mkChecker {
  m_pool : ServicePool.ServicePool;
  m_config : HealthCheckConfig;
  m_stopped : bool;
  made : nat;                  (* sockets and timers made so far *)
  pending : list handler;
  requests : list request
}.

Definition make (pool : ServicePool.ServicePool) (config : HealthCheckConfig)
    : HealthChecker := mkChecker pool config false 0 [] [].

Definition with_pool p (w : HealthChecker) := mkChecker p (m_config w) (m_stopped w)
  (made w) (pending w) (requests w).
Definition with_stopped b (w : HealthChecker) := mkChecker (m_pool w) (m_config w) b
  (made w) (pending w) (requests w).
Definition with_made n (w : HealthChecker) := mkChecker (m_pool w) (m_config w)
  (m_stopped w) n (pending w) (requests w).
Definition with_pending l (w : HealthChecker) := mkChecker (m_pool w) (m_config w)
  (m_stopped w) (made w) l (requests w).

Definition request_ (r : request) : M HealthChecker unit :=
  modify (fun w => mkChecker (m_pool w) (m_config w) (m_stopped w) (made w) (pending w)
                             (requests w ++ [r])).
Definition await (h : handler) : M HealthChecker unit :=
  modify (fun w => with_pending (pending w ++ [h]) w).
Definition make_object : M HealthChecker nat :=
  fun w => (Returned (made w), with_made (S (made w)) w).

(** [try { socket->close(); } catch (const system_error &e) { println(...); }] *)
Definition close_caught (message : string) (socket : nat) : M HealthChecker unit :=
  w ← get_state;
  _ ← request_ (Close socket);
  try_catch (lift (socket_close socket (length (requests w)))) KSystemError
    (fun e => request_ (Print (message +:+ what e))).

(** A method call on the service that [m_pool.GetService(index)] returns. *)
Definition on_service (index : nat) (f : ServiceState -> ServiceState)
    : M HealthChecker unit :=
  modify (fun w => with_pool (ServicePool.update_at index f (m_pool w)) w).
Definition get_service (index : nat) : M HealthChecker ServiceState :=
  w ← get_state; lift (ServicePool.GetService (m_pool w) index).

Definition OnProbeResult (index socket : nat) (ec : error_code) : M HealthChecker unit :=
  _ ← get_service index;
  if is_error ec then
    _ ← on_service index IncrementFailures;
    svc ← get_service index;
    w ← get_state;
    let thresholdReached :=
      (GetUnhealthyThreshold (m_config w) <=? GetConsecutiveFailures svc)%Z in
    if thresholdReached && IsHealthy svc then
      _ ← request_ (Print ("HealthChecker: " +:+ GetName (GetNode svc) +:+ " marked unhealthy"));
      on_service index (SetHealthy false)
    else skip
  else
    svc ← get_service index;
    _ ← (if negb (IsHealthy svc)
         then request_ (Print ("HealthChecker: " +:+ GetName (GetNode svc) +:+ " recovered"))
         else skip);
    _ ← on_service index ResetFailures;
    _ ← on_service index (SetHealthy true);
    close_caught "HealthChecker: close error: " socket.

Definition ProbeOne (index : nat) : M HealthChecker unit :=
  svc ← get_service index;
  let node := GetNode svc in
  socket ← make_object;
  timer ← make_object;
  w ← get_state;
  _ ← request_ (ExpiresAfter (probe_timer timer) (GetTimeoutMs (m_config w)));
  _ ← await (OnProbeTimeout socket);
  address ← lift (make_address (GetIp node));
  _ ← request_ (Connect index socket (address, GetPort node));
  await (OnProbeConnect index socket timer).

Definition ProbeAll : M HealthChecker unit :=
  w ← get_state; for_each 0 (ServicePool.GetSize (m_pool w)) ProbeOne.

Definition ScheduleNextRound : M HealthChecker unit :=
  w ← get_state;
  if m_stopped w then skip
  else
    _ ← request_ (ExpiresAfter m_timer (GetIntervalMs (m_config w)));
    await OnRound.

Definition Start : M HealthChecker unit := ScheduleNextRound.

Definition Stop : M HealthChecker unit :=
  _ ← modify (with_stopped true); request_ (Cancel m_timer).

(** The bodies of the lambdas. *)
Definition dispatch (h : handler) (ec : error_code) : M HealthChecker unit :=
  match h with
  | OnRound =>
      w ← get_state;
      if is_error ec || m_stopped w then skip
      else _ ← ProbeAll; ScheduleNextRound
  | OnProbeTimeout socket =>
      if is_error ec then skip
      else close_caught "HealthChecker: timeout close error: " socket
  | OnProbeConnect index socket timer =>
      _ ← request_ (Cancel (probe_timer timer));
      OnProbeResult index socket ec
  end.

(** ** Schedules *)

Inductive event :=
  | Complete (k : nat) (ec : error_code)   (* the io_context calls the k-th handler *)
  | CallStop                               (* the signal handler calls [Stop] *).

Definition handle (e : event) : M HealthChecker unit :=
  match e with
  | Complete k ec =>
      w ← get_state;
      match take_out k (pending w) with
      | Some (h, rest) => _ ← modify (with_pending rest); dispatch h ec
      | None => skip
      end
  | CallStop => Stop
  end.

Fixpoint run (events : list event) : M HealthChecker unit :=
  match events with
  | [] => skip
  | e :: events' => _ ← handle e; run events'
  end.

(** ** What one call does *)

(** The new state of a service whose probe ended with [ec]. *)
Definition verdict (c : HealthCheckConfig) (ec : error_code) (s : ServiceState)
    : ServiceState :=
  if is_error ec then
    let s := IncrementFailures s in
    if (GetUnhealthyThreshold c <=? GetConsecutiveFailures s)%Z && IsHealthy s
    then SetHealthy false s else s
  else SetHealthy true (ResetFailures s).

Definition is_connect (r : request) : bool :=
  match r with Connect _ _ _ => true | _ => false end.

(** [w'] is [w] after some requests, none of which is a connect, and [f] on the pool. *)
Definition quietly (f : ServicePool.ServicePool -> ServicePool.ServicePool)
    (w w' : HealthChecker) : Prop :=
  exists rs, count is_connect rs = 0 /\
    w' = mkChecker (f (m_pool w)) (m_config w) (m_stopped w) (made w) (pending w)
                   (requests w ++ rs).

Lemma quietly_refl w : quietly id w w.
Proof. exists []. split; [done|]. destruct w. simpl. by rewrite app_nil_r. Qed.

Lemma quietly_trans f g w1 w2 w3 :
  quietly f w1 w2 -> quietly g w2 w3 -> quietly (g ∘ f) w1 w3.
Proof.
  intros (rs & H1 & ->) (rs' & H2 & ->). exists (rs ++ rs'). simpl.
  by rewrite count_app, H1, H2, app_assoc.
Qed.

Lemma request_quiet r w : is_connect r = false ->
  exists w', request_ r w = (Returned tt, w') /\ quietly id w w'.
Proof.
  intros Hr. eexists. split; [done|]. exists [r]. by rewrite count_cons, Hr.
Qed.

Lemma close_caught_quiet message socket w :
  exists w', close_caught message socket w = (Returned tt, w') /\ quietly id w w'.
Proof.
  unfold close_caught. erewrite bind_returned by done. erewrite bind_returned by done.
  unfold try_catch, lift.
  destruct (socket_close socket (length (requests w))) as [[]|e] eqn:E.
  - eexists. split; [done|]. by exists [Close socket].
  - rewrite decide_True by (by eapply socket_close_throws).
    eexists. split; [done|]. eexists [Close socket; Print _]. split; [done|].
    simpl. by rewrite <- app_assoc.
Qed.

Lemma update_at_compose i f g p :
  ServicePool.update_at i f (ServicePool.update_at i g p) = ServicePool.update_at i (f ∘ g) p.
Proof. unfold ServicePool.update_at. simpl. by rewrite list_alter_alter_eq. Qed.

Lemma update_at_at i f g p s : ServicePool.m_services p !! i = Some s -> f s = g s ->
  ServicePool.update_at i f p = ServicePool.update_at i g p.
Proof.
  intros Hs E. unfold ServicePool.update_at. f_equal. apply list_alter_ext; [|done].
  intros x Hx. by simplify_eq.
Qed.

Lemma get_service_spec index w s : ServicePool.m_services (m_pool w) !! index = Some s ->
  get_service index w = (Returned s, w).
Proof. intros Hs. unfold get_service, lift, ServicePool.GetService, at_, mbind, M_bind. simpl. by rewrite Hs. Qed.

Lemma OnProbeResult_spec index socket ec w :
  index < ServicePool.GetSize (m_pool w) ->
  exists w', OnProbeResult index socket ec w = (Returned tt, w') /\
    quietly (ServicePool.update_at index (verdict (m_config w) ec)) w w'.
Proof.
  intros [s Hs]%lookup_lt_is_Some_2. unfold OnProbeResult.
  erewrite bind_returned by (by apply get_service_spec).
  destruct (is_error ec) eqn:Hec.
  - erewrite bind_returned by done.
    erewrite bind_returned
      by (apply (get_service_spec _ _ (IncrementFailures s)); simpl; by rewrite list_lookup_alter_eq, Hs).
    erewrite bind_returned by done. cbn [m_config with_pool].
    assert (Ev : verdict (m_config w) ec s =
      if (GetUnhealthyThreshold (m_config w) <=? GetConsecutiveFailures (IncrementFailures s))%Z
         && IsHealthy (IncrementFailures s)
      then SetHealthy false (IncrementFailures s) else IncrementFailures s)
      by (unfold verdict; by rewrite Hec).
    cbv zeta. destruct (_ && _).
    + eexists. split; [done|]. eexists [Print _]. split; [done|]. unfold with_pool. simpl.
      f_equal. rewrite update_at_compose. symmetry. by eapply update_at_at.
    + eexists. split; [done|]. exists []. split; [done|]. unfold with_pool. simpl.
      rewrite app_nil_r. f_equal. symmetry. by eapply update_at_at.
  - erewrite bind_returned by (by apply get_service_spec).
    set (say := if negb (IsHealthy s) then _ else _).
    assert (exists w1, say w = (Returned tt, w1) /\ quietly id w w1) as (w1 & E1 & H1).
    { unfold say. destruct (negb _); [by apply request_quiet|].
      exists w. split; [done|apply quietly_refl]. }
    erewrite bind_returned by done. erewrite bind_returned by done.
    erewrite bind_returned by done.
    destruct (close_caught_quiet "HealthChecker: close error: " socket
      (with_pool (ServicePool.update_at index (SetHealthy true) (ServicePool.update_at index ResetFailures (m_pool w1)))
         w1)) as (w2 & E2 & H2).
    exists w2. split; [exact E2|]. destruct H1 as (rs & Hr & ->), H2 as (rs' & Hr' & ->).
    exists (rs ++ rs'). rewrite count_app, Hr, Hr'. split; [done|]. simpl.
    rewrite app_assoc. f_equal. rewrite update_at_compose. symmetry. eapply update_at_at; [done|].
    unfold verdict. by rewrite Hec.
Qed.

(** ** What a round does *)

(** The targets of some requests, and the services the handlers of a list probe. *)
Definition target (r : request) : option (nat * (address * Z)) :=
  match r with Connect i _ endpoint => Some (i, endpoint) | _ => None end.
Definition probed (h : handler) : option nat :=
  match h with OnProbeConnect i _ _ => Some i | _ => None end.
Definition is_round (h : handler) : bool := match h with OnRound => true | _ => false end.

(** Where the services are, or the exception of the first address that is none. *)
Fixpoint endpoints (i : nat) (services : list ServiceState)
    : outcome (list (nat * (address * Z))) :=
  match services with
  | [] => Returned []
  | s :: services' =>
      a ← make_address (GetIp (GetNode s));
      rest ← endpoints (S i) services';
      Returned ((i, (a, GetPort (GetNode s))) :: rest)
  end.

(** The services before the first whose address does not parse. *)
Fixpoint parsed (i : nat) (services : list ServiceState) : list (nat * (address * Z)) :=
  match services with
  | [] => []
  | s :: services' =>
      match make_address (GetIp (GetNode s)) with
      | Returned a => (i, (a, GetPort (GetNode s))) :: parsed (S i) services'
      | Threw _ => []
      end
  end.

Lemma endpoints_parsed i services : (parsed i services).*1 = seq i (length (parsed i services)) /\
  match endpoints i services with
  | Returned eps => parsed i services = eps /\ length eps = length services
  | Threw x => kind x = KSystemError /\ length (parsed i services) < length services
  end.
Proof.
  revert i; induction services as [|s l IH]; intros i; [done|]. cbn [parsed endpoints].
  destruct (make_address (GetIp (GetNode s))) as [a|e] eqn:Ea; cbn [mbind outcome_bind].
  - destruct (IH (S i)) as [Hs Hl]. split; [cbn; by rewrite Hs|].
    destruct (endpoints (S i) l); destruct Hl as [Hl1 Hl2]; cbn [length];
      [|split; [done|lia]]. rewrite Hl1. split; [done|]. cbn [length]. by rewrite Hl2.
  - split; [done|]. split; [by eapply make_address_throws|]. cbn. lia.
Qed.

Definition result_of {A} (r : outcome A) : outcome unit :=
  match r with Returned _ => Returned tt | Threw e => Threw e end.

(** [w'] is [w] after it made sockets and timers and started [hs] with [rs]. *)
Definition started (hs : list handler) (rs : list request) (w w' : HealthChecker) : Prop :=
  exists n, w' = mkChecker (m_pool w) (m_config w) (m_stopped w) n (pending w ++ hs)
                           (requests w ++ rs).

Lemma started_trans hs rs hs' rs' w1 w2 w3 :
  started hs rs w1 w2 -> started hs' rs' w2 w3 -> started (hs ++ hs') (rs ++ rs') w1 w3.
Proof. intros [n ->] [m ->]. exists m. simpl. by rewrite !app_assoc. Qed.

Lemma ProbeOne_spec i w s : ServicePool.m_services (m_pool w) !! i = Some s ->
  exists hs rs w', ProbeOne i w = (result_of (make_address (GetIp (GetNode s))), w') /\
    started hs rs w w' /\ count is_round hs = 0 /\
    match make_address (GetIp (GetNode s)) with
    | Returned a => omap probed hs = [i] /\ omap target rs = [(i, (a, GetPort (GetNode s)))]
    | Threw _ => omap probed hs = [] /\ omap target rs = []
    end.
Proof.
  intros Hs. unfold ProbeOne.
  erewrite bind_returned by (by apply get_service_spec). cbv zeta.
  do 5 erewrite bind_returned by done.
  destruct (make_address (GetIp (GetNode s))) as [a|e] eqn:Ea.
  - eexists [OnProbeTimeout _; OnProbeConnect i _ _], [ExpiresAfter _ _; Connect i _ _], _.
    erewrite bind_returned by done. erewrite bind_returned by done. split; [reflexivity|].
    split; [|done]. eexists. simpl. by rewrite <- !app_assoc.
  - eexists [OnProbeTimeout _], [ExpiresAfter _ _], _.
    erewrite bind_threw by done. split; [reflexivity|]. split; [|done]. by eexists.
Qed.

Lemma probe_loop_spec n i w :
  i + n = ServicePool.GetSize (m_pool w) ->
  exists hs rs w',
    let r := endpoints i (drop i (ServicePool.m_services (m_pool w))) in
    for_each i n ProbeOne w = (result_of r, w') /\ started hs rs w w' /\
    count is_round hs = 0 /\ Forall (fun j => j < i + n) (omap probed hs) /\
    let before := parsed i (drop i (ServicePool.m_services (m_pool w))) in
    omap probed hs = before.*1 /\ omap target rs = before.
Proof.
  revert i w; induction n as [|n IH]; intros i w Hn; cbn zeta.
  - exists [], [], w. rewrite drop_ge by (unfold ServicePool.GetSize in Hn; lia).
    split; [done|]. split; [exists (made w); rewrite !app_nil_r; by destruct w|].
    split; [done|]. by split; [constructor|].
  - destruct (lookup_lt_is_Some_2 (ServicePool.m_services (m_pool w)) i) as [s Hs];
      [unfold ServicePool.GetSize in Hn; lia|].
    rewrite (drop_S _ s i) by done. cbn [for_each endpoints parsed].
    destruct (ProbeOne_spec i w s Hs) as (hs & rs & w1 & E & Hw1 & Hr & Ha).
    destruct (make_address (GetIp (GetNode s))) as [a|e]; simpl in E, Ha |- *;
      destruct Ha as [Hp Ht].
    + erewrite bind_returned by done. destruct Hw1 as [m ->].
      destruct (IH (S i) (mkChecker (m_pool w) (m_config w) (m_stopped w) m
        (pending w ++ hs) (requests w ++ rs))) as (hs' & rs' & w2 & E2 & Hw2 & Hr2 & Hlt & Hp' & Ht');
        [simpl; lia|]. simpl in E2, Hp', Ht'.
      exists (hs ++ hs'), (rs ++ rs'), w2. rewrite E2, count_app, Hr, Hr2, !omap_app, Hp, Ht.
      split; [by destruct (endpoints _ _)|]. split; [by eapply started_trans; [exists m|]|].
      split; [done|]. split.
      * constructor; [lia|]. eapply Forall_impl; [exact Hlt|]. simpl. lia.
      * by rewrite Hp', Ht'.
    + exists hs, rs, w1. erewrite bind_threw by done. rewrite Hp.
      split_and!; [done..|constructor|done|done].
Qed.

Lemma ProbeAll_spec w :
  exists hs rs w', let r := endpoints 0 (ServicePool.m_services (m_pool w)) in
    ProbeAll w = (result_of r, w') /\ started hs rs w w' /\ count is_round hs = 0 /\
    Forall (fun j => j < ServicePool.GetSize (m_pool w)) (omap probed hs) /\
    let before := parsed 0 (ServicePool.m_services (m_pool w)) in
    omap probed hs = before.*1 /\ omap target rs = before.
Proof.
  unfold ProbeAll. erewrite bind_returned by done.
  destruct (probe_loop_spec (ServicePool.GetSize (m_pool w)) 0 w) as (hs & rs & w' & H1);
    [done|]. exists hs, rs, w'. by rewrite drop_0 in H1.
Qed.

(** ** What a handler does *)

(** What the completion of [h] means for the pool. *)
Definition effect (h : handler) (c : HealthCheckConfig) (ec : error_code)
    (p : ServicePool.ServicePool) : ServicePool.ServicePool :=
  match h with
  | OnProbeConnect i _ _ => ServicePool.update_at i (verdict c ec) p
  | _ => p
  end.

Definition in_pool (n : nat) (h : handler) : Prop := forall i, probed h = Some i -> i < n.

(** Every handler but a successful round timer makes no probe and cannot throw. *)
Lemma dispatch_quiet h ec w :
  in_pool (ServicePool.GetSize (m_pool w)) h ->
  is_round h && negb (is_error ec) && negb (m_stopped w) = false ->
  exists w', dispatch h ec w = (Returned tt, w') /\
             quietly (effect h (m_config w) ec) w w'.
Proof.
  intros Hin Hr. destruct h as [|socket|i socket timer]; simpl.
  - erewrite bind_returned by done. simpl in Hr.
    destruct (is_error ec), (m_stopped w); simpl in *; try done;
      exists w; (split; [done|apply quietly_refl]).
  - destruct (is_error ec); [exists w; split; [done|apply quietly_refl]|].
    apply close_caught_quiet.
  - destruct (request_quiet (Cancel (probe_timer timer)) w eq_refl) as (w1 & E1 & H1).
    erewrite bind_returned by done. destruct H1 as (rs & Hrs & ->).
    destruct (OnProbeResult_spec i socket ec
      (mkChecker (m_pool w) (m_config w) (m_stopped w) (made w) (pending w) (requests w ++ rs)))
      as (w2 & E2 & rs' & Hrs' & ->); [by apply Hin|].
    eexists. split; [exact E2|]. exists (rs ++ rs'). rewrite count_app, Hrs, Hrs'.
    split; [done|]. simpl. by rewrite app_assoc.
Qed.

(** The round timer: probes, then the next round; or the exception of an address. *)
Lemma dispatch_round w : m_stopped w = false ->
  exists hs rs w', let r := endpoints 0 (ServicePool.m_services (m_pool w)) in
    dispatch OnRound success w = (result_of r, w') /\ started hs rs w w' /\
    Forall (fun j => j < ServicePool.GetSize (m_pool w)) (omap probed hs) /\
    let before := parsed 0 (ServicePool.m_services (m_pool w)) in
    omap probed hs = before.*1 /\ omap target rs = before /\
    count is_round hs = match r with Returned _ => 1 | Threw _ => 0 end.
Proof.
  intros Hst. destruct (ProbeAll_spec w) as (hs & rs & w1 & E & Hw & Hr & Hlt & Hp & Ht).
  cbn zeta in *. unfold dispatch. erewrite bind_returned by done. rewrite Hst. simpl.
  destruct (endpoints _ _) as [eps|e].
  - exists (hs ++ [OnRound]), (rs ++ [ExpiresAfter m_timer (GetIntervalMs (m_config w))]).
    erewrite bind_returned by done. destruct Hw as [n ->].
    unfold ScheduleNextRound. erewrite bind_returned by done. cbn [m_stopped]. rewrite Hst.
    erewrite bind_returned by done. eexists. split; [done|]. split.
    + exists n. simpl. by rewrite Hst, !app_assoc.
    + rewrite !omap_app, count_app, Hr, Ht, Hp. simpl. rewrite !app_nil_r.
      rewrite Hp in Hlt. done.
  - exists hs, rs, w1. erewrite bind_threw by done. done.
Qed.

(** What is known of a checker while it runs. *)
Definition wf (w : HealthChecker) : Prop :=
  Forall (in_pool (ServicePool.GetSize (m_pool w))) (pending w).

(** The probe result, if any, that an event delivers. *)
Definition delivery (e : event) (w : HealthChecker) : list (nat * error_code) :=
  match e with
  | Complete k ec =>
      match pending w !! k with
      | Some h => match probed h with Some i => [(i, ec)] | None => [] end
      | None => []
      end
  | CallStop => []
  end.

Definition judge (c : HealthCheckConfig) (p : ServicePool.ServicePool)
    (r : nat * error_code) : ServicePool.ServicePool :=
  ServicePool.update_at r.1 (verdict c r.2) p.

Lemma effect_judge h c ec p :
  effect h c ec p = foldl (judge c) p (match probed h with Some i => [(i, ec)] | None => [] end).
Proof. by destruct h. Qed.

Lemma effect_size h c ec p : ServicePool.GetSize (effect h c ec p) = ServicePool.GetSize p.
Proof. destruct h; simpl; [done..|apply ServicePool.update_at_size]. Qed.

Lemma in_pool_probed n hs : Forall (fun j => j < n) (omap probed hs) -> Forall (in_pool n) hs.
Proof.
  intros Hf. apply Forall_forall. intros h Hh i Hi. rewrite Forall_forall in Hf.
  apply Hf. apply list_elem_of_omap. eauto.
Qed.

(** One event: the pool moves by the delivered result, and only the round timer of a
    checker that was not stopped starts anything or throws. *)
Lemma handle_spec e w r w' : wf w -> handle e w = (r, w') ->
  wf w' /\ m_config w' = m_config w /\
  m_pool w' = foldl (judge (m_config w)) (m_pool w) (delivery e w) /\
  (r = Returned tt \/ exists x, endpoints 0 (ServicePool.m_services (m_pool w)) = Threw x /\ r = Threw x) /\
  count is_round (pending w') <= count is_round (pending w) /\
  m_stopped w' = (m_stopped w || match e with CallStop => true | _ => false end).
Proof.
  intros Hwf E. destruct e as [k ec|]; cbn [handle] in E.
  2: { injection E as <- <-. simpl. rewrite orb_true_r. split_and!; try done. by left. }
  erewrite bind_returned in E by done.
  destruct (take_out k (pending w)) as [[h rest]|] eqn:Et.
  2: { injection E as <- <-. unfold delivery. unfold take_out in Et.
       destruct (pending w !! k); [done|]. rewrite orb_false_r. split_and!; try done. by left. }
  erewrite bind_returned in E by done.
  change (dispatch h ec (with_pending rest w) = (r, w')) in E.
  pose proof (take_out_Permutation _ _ _ _ Et) as Hperm.
  pose proof (count_take_out is_round _ _ _ _ Et) as Hcount.
  apply take_out_Some in Et as [Hk _]. unfold delivery. rewrite Hk, orb_false_r.
  unfold wf in Hwf. rewrite Hperm in Hwf. inversion_clear Hwf as [|?? Hh Hrest].
  destruct (is_round h && negb (is_error ec) && negb (m_stopped w)) eqn:Hr.
  - destruct h; try done. destruct ec; try done. destruct (m_stopped w) eqn:Hst; [done|].
    destruct (dispatch_round (with_pending rest w)) as (hs & rs & w1 & Ed & [n Hw1] & Hlt & Hm); [done|].
    cbn [m_pool with_pending] in Ed, Hlt, Hm. rewrite E in Ed. injection Ed as -> ->. subst w1. simpl.
    split.
    { unfold wf. simpl. apply Forall_app. split; [done|]. by apply in_pool_probed. }
    rewrite count_app. simpl in Hcount. split_and!; try done.
    + destruct (endpoints _ _); [by left|right; by eexists].
    + destruct Hm as (_ & _ & Hm). destruct (endpoints _ _); lia.
  - destruct (dispatch_quiet h ec (with_pending rest w) Hh Hr) as (w1 & Ed & rs & _ & ->).
    rewrite E in Ed. injection Ed as -> ->. simpl.
    rewrite effect_judge. split_and!; try done; [|by left|lia].
    unfold wf. simpl. rewrite <- effect_judge, effect_size. done.
Qed.

(** ** Whole schedules *)

(** The probe results that a schedule delivers, oldest first. *)
Fixpoint results (events : list event) (w : HealthChecker) : list (nat * error_code) :=
  match events with
  | [] => []
  | e :: events' =>
      delivery e w ++
      match handle e w with
      | (Returned _, w') => results events' w'
      | (Threw _, _) => []
      end
  end.

(** How many of the latest results are failures in a row. *)
Definition streak (codes : list error_code) : nat :=
  fold_left (fun n ec => if is_error ec then S n else 0) codes 0.

Definition codes_of (i : nat) (rs : list (nat * error_code)) : list error_code :=
  (List.filter (fun r => r.1 =? i) rs).*2.

Definition launched (pool : ServicePool.ServicePool) (c : HealthCheckConfig)
    : HealthChecker := (Start (make pool c)).2.

Lemma verdict_node c ec s : GetNode (verdict c ec s) = GetNode s.
Proof. unfold verdict. destruct (is_error ec); [by case_match|done]. Qed.

Lemma endpoints_nodes i l l' : GetNode <$> l = GetNode <$> l' -> endpoints i l = endpoints i l'.
Proof.
  revert i l'; induction l as [|s l IH]; intros i [|s' l'] E; try done.
  injection E as Es El. simpl. by rewrite Es, (IH _ _ El).
Qed.

Lemma judge_nodes c p rs :
  GetNode <$> ServicePool.m_services (foldl (judge c) p rs) = GetNode <$> ServicePool.m_services p.
Proof.
  revert p; induction rs as [|[i ec] rs IH]; intros p; simpl; [done|]. rewrite IH. simpl.
  rewrite (list_fmap_alter _ _ id); [by apply list_alter_id|].
  apply Forall_true. intros s. apply verdict_node.
Qed.

Lemma run_spec events w r w' : wf w -> run events w = (r, w') ->
  wf w' /\ m_pool w' = foldl (judge (m_config w)) (m_pool w) (results events w) /\
  count is_round (pending w') <= count is_round (pending w) /\
  (r = Returned tt \/ exists x, endpoints 0 (ServicePool.m_services (m_pool w)) = Threw x /\ r = Threw x).
Proof.
  revert w; induction events as [|e events IH]; intros w Hwf E; simpl in *.
  - injection E as <- <-. split_and!; try done. by left.
  - destruct (handle e w) as [r1 w1] eqn:E1.
    pose proof (handle_spec _ _ _ _ Hwf E1) as (Hwf1 & Hc & Hp & Hr & Hround & _).
    destruct r1 as [[]|x1].
    + erewrite bind_returned in E by done.
      destruct (IH w1 Hwf1 E) as (Hwf' & Hp' & Hround' & Hr').
      rewrite Hc, Hp in Hp'. rewrite foldl_app. split_and!; [done|done|lia|].
      destruct Hr' as [->|(x & Hx & ->)]; [by left|right]. exists x. split; [|done].
      rewrite <- Hx. apply endpoints_nodes. by rewrite Hp, judge_nodes.
    + erewrite bind_threw in E by done. injection E as <- <-. rewrite app_nil_r.
      by split_and!.
Qed.

Lemma launched_spec pool c :
  launched pool c = mkChecker pool c false 0 [OnRound] [ExpiresAfter m_timer (GetIntervalMs c)].
Proof. done. Qed.

Lemma launched_wf pool c : wf (launched pool c).
Proof. rewrite launched_spec. constructor; [|constructor]. by intros i. Qed.

Lemma judge_lookup c p rs i s : ServicePool.m_services p !! i = Some s ->
  ServicePool.m_services (foldl (judge c) p rs) !! i
  = Some (foldl (fun s ec => verdict c ec s) s (codes_of i rs)).
Proof.
  revert p s; induction rs as [|[j ec] rs IH]; intros p s Hs; simpl; [done|].
  unfold codes_of. simpl. destruct (Nat.eqb_spec j i) as [->|Hj]; simpl.
  - apply IH. simpl. by rewrite list_lookup_alter_eq, Hs.
  - apply IH. simpl. by rewrite list_lookup_alter_ne.
Qed.

Lemma streak_snoc l ec : streak (l ++ [ec]) = if is_error ec then S (streak l) else 0.
Proof. unfold streak. by rewrite fold_left_app. Qed.

(** The counter and the health are functions of the streak alone. *)
Lemma verdict_streak c s codes : in_u 32 (GetUnhealthyThreshold c) ->
  IsHealthy s = true -> GetConsecutiveFailures s = 0%Z ->
  foldl (fun s ec => verdict c ec s) s codes =
  mkState (GetNode s) (GetActiveConnections s)
    (Z.of_nat (streak codes) <? Z.max 1 (GetUnhealthyThreshold c))%Z
    (u64 (Z.of_nat (streak codes))).
Proof.
  intros Ht Hh Hf. induction codes as [|ec codes IH] using rev_ind.
  - destruct s as [node active healthy failures]; simpl in *; subst. f_equal.
    symmetry. apply Z.ltb_lt. change (streak []) with 0. lia.
  - rewrite foldl_app, IH, streak_snoc. simpl. unfold verdict.
    destruct (is_error ec); unfold IncrementFailures, SetHealthy, ResetFailures,
      GetConsecutiveFailures, IsHealthy; simpl.
    + set (n := streak codes). rewrite Nat2Z.inj_succ. unfold Z.succ.
      assert (E : u64 (u64 (Z.of_nat n) + 1) = u64 (Z.of_nat n + 1))
        by (unfold wrapu; by rewrite Z.add_mod_idemp_l).
      rewrite E. unfold in_u in Ht. destruct (Z.ltb_spec (Z.of_nat n) (Z.max 1 (GetUnhealthyThreshold c))).
      * rewrite (wrapu_small 64 (Z.of_nat n + 1)) by (unfold in_u; lia). rewrite andb_true_r.
        destruct (Z.leb_spec (GetUnhealthyThreshold c) (Z.of_nat n + 1)); simpl; f_equal;
          symmetry; [apply Z.ltb_ge|apply Z.ltb_lt]; lia.
      * rewrite andb_false_r. f_equal. symmetry. apply Z.ltb_ge. lia.
    + f_equal. symmetry. apply Z.ltb_lt. lia.
Qed.

(** *** Properties *)

(** C3: health is exactly the failure streak.  After any schedule, from services that
    start healthy, a service is healthy if and only if fewer than
    [max 1 unhealthyThreshold] of its latest probes failed in a row; the 64-bit counter
    holds that number; nodes and connection counts are untouched.  The 64-bit counter
    may wrap around without harm. *)
Theorem health_is_streak pool c events r w' i s :
  in_u 32 (GetUnhealthyThreshold c) ->
  ServicePool.m_services pool !! i = Some s ->
  IsHealthy s = true -> GetConsecutiveFailures s = 0%Z ->
  run events (launched pool c) = (r, w') ->
  let n := Z.of_nat (streak (codes_of i (results events (launched pool c)))) in
  ServicePool.m_services (m_pool w') !! i =
  Some (mkState (GetNode s) (GetActiveConnections s)
          (n <? Z.max 1 (GetUnhealthyThreshold c))%Z (u64 n)).
Proof.
  intros Ht Hs Hh Hf E. apply (run_spec _ _ _ _ (launched_wf pool c)) in E as (_ & -> & _).
  erewrite judge_lookup by done. cbn zeta. f_equal. by apply verdict_streak.
Qed.

(** Rounds do not overlap their timer: whatever completes, in whatever order, at most
    one round timer is pending. *)
Theorem one_round_timer pool c events r w' :
  run events (launched pool c) = (r, w') -> count is_round (pending w') <= 1.
Proof. intros E. by apply (run_spec _ _ _ _ (launched_wf pool c)) in E as (_ & _ & ? & _). Qed.

(** If every service has an address that parses, no schedule makes the checker
    throw. *)
Theorem checker_never_throws pool c events eps :
  endpoints 0 (ServicePool.m_services pool) = Returned eps ->
  exists w', run events (launched pool c) = (Returned tt, w').
Proof.
  intros He. destruct (run events (launched pool c)) as [r w'] eqn:E.
  destruct (run_spec _ _ _ _ (launched_wf pool c) E) as (_ & _ & _ & [->|(x & Hx & _)]);
    [eauto|]. simpl in Hx. congruence.
Qed.

(** C40: a round probes every service once, in order, at its address and port, and
    schedules the next one, if every address parses.  If one does not, the services
    before it are probed, the exception leaves the handler, and no next round is
    scheduled: health checking is over. *)
Theorem round_probes_every_service w : m_stopped w = false ->
  let services := ServicePool.m_services (m_pool w) in
  exists w' hs rs, dispatch OnRound success w = (result_of (endpoints 0 services), w') /\
    m_pool w' = m_pool w /\ pending w' = pending w ++ hs /\ requests w' = requests w ++ rs /\
    omap probed hs = seq 0 (length (omap target rs)) /\
    match endpoints 0 services with
    | Returned eps => omap target rs = eps /\ length eps = length services /\
                      count is_round hs = 1
    | Threw x => kind x = KSystemError /\ omap target rs = parsed 0 services /\
                 length (parsed 0 services) < length services /\ count is_round hs = 0
    end.
Proof.
  intros Hst services.
  destruct (dispatch_round w Hst) as (hs & rs & w' & E & [n Hw'] & _ & Hp & Ht & Hr).
  fold services in E, Hp, Ht, Hr. destruct (endpoints_parsed 0 services) as [Hs He].
  exists w', hs, rs. rewrite Ht, Hp, <- Hs. subst w'. split_and!; [done..|].
  destruct (endpoints 0 services) as [eps|x]; destruct He; by split_and!.
Qed.

(** *** Stopping *)

(** A schedule that completes [n] pending operations, and none besides. *)
Fixpoint completes (n : nat) (events : list event) : Prop :=
  match events with
  | [] => n = 0
  | Complete k _ :: events' => k < n /\ completes (n - 1) events'
  | CallStop :: events' => completes n events'
  end.

Lemma stopped_step k ec w : wf w -> m_stopped w = true -> k < length (pending w) ->
  exists w', handle (Complete k ec) w = (Returned tt, w') /\ wf w' /\ m_stopped w' = true /\
    length (pending w') = length (pending w) - 1 /\
    count is_connect (requests w') = count is_connect (requests w).
Proof.
  intros Hwf Hst Hk. destruct (lookup_lt_is_Some_2 _ _ Hk) as [h Hh].
  assert (Ht : take_out k (pending w) = Some (h, delete k (pending w))).
  { by apply take_out_Some. }
  assert (Hin : in_pool (ServicePool.GetSize (m_pool w)) h).
  { unfold wf in Hwf. rewrite Forall_lookup in Hwf. by eapply Hwf. }
  destruct (dispatch_quiet h ec (with_pending (delete k (pending w)) w))
    as (w' & E & rs & Hrs & ->); [done|simpl; by rewrite Hst, andb_false_r|].
  assert (E' : handle (Complete k ec) w = (Returned tt, mkChecker (effect h (m_config w) ec (m_pool w)) (m_config w)
    (m_stopped w) (made w) (delete k (pending w)) (requests w ++ rs))).
  { cbn [handle]. erewrite bind_returned by done. rewrite Ht. erewrite bind_returned by done.
    exact E. }
  eexists. split; [exact E'|]. split; [by eapply handle_spec|]. simpl. split; [done|].
  rewrite count_app, Hrs, Nat.add_0_r. split; [|done].
  pose proof (Permutation_length (take_out_Permutation _ _ _ _ Ht)) as Hl.
  simpl in Hl. lia.
Qed.

Lemma stop_step w : wf w ->
  exists w', handle CallStop w = (Returned tt, w') /\ wf w' /\ m_stopped w' = true /\
    pending w' = pending w /\
    count is_connect (requests w') = count is_connect (requests w).
Proof.
  intros Hwf. eexists. repeat (split; [done|]).
  simpl. rewrite count_app. apply Nat.add_0_r.
Qed.

Lemma stopped_drains w later : wf w -> m_stopped w = true ->
  completes (length (pending w)) later ->
  exists w', run later w = (Returned tt, w') /\ pending w' = [] /\
    count is_connect (requests w') = count is_connect (requests w).
Proof.
  revert w; induction later as [|[k ec|] later IH]; intros w Hwf Hst Hc; simpl in Hc.
  - exists w. split; [done|]. split; [by apply nil_length_inv|done].
  - destruct Hc as [Hk Hc].
    destruct (stopped_step k ec w Hwf Hst Hk) as (w1 & E1 & Hwf1 & Hst1 & Hl & Hq).
    rewrite <- Hl in Hc. destruct (IH w1 Hwf1 Hst1 Hc) as (w' & E' & Hp & Hq').
    exists w'. cbn [run]. erewrite bind_returned by done. split_and!; [done..|congruence].
  - destruct (stop_step w Hwf) as (w1 & E1 & Hwf1 & Hst1 & Hp1 & Hq1).
    rewrite <- Hp1 in Hc. destruct (IH w1 Hwf1 Hst1 Hc) as (w' & E' & Hp & Hq).
    exists w'. cbn [run]. erewrite bind_returned by done. split_and!; [done..|congruence].
Qed.

(** C27: [Stop] ends health checking.  Whenever it is called, no probe is started after
    it, no exception is thrown, and when the operations pending at that moment have
    completed, in any order, nothing is pending: the io_context can return. *)
Theorem Stop_drains pool c before w later :
  run before (launched pool c) = (Returned tt, w) ->
  completes (length (pending w)) later ->
  exists w', run (CallStop :: later) w = (Returned tt, w') /\ pending w' = [] /\
    count is_connect (requests w') = count is_connect (requests w).
Proof.
  intros E Hc. apply (run_spec _ _ _ _ (launched_wf pool c)) in E as (Hwf & _).
  destruct (stop_step w Hwf) as (w1 & E1 & Hwf1 & Hst1 & Hp1 & Hq1).
  rewrite <- Hp1 in Hc. destruct (stopped_drains w1 later Hwf1 Hst1 Hc) as (w' & E' & Hp & Hq).
  exists w'. cbn [run]. erewrite bind_returned by done. split_and!; [done..|congruence].
Qed.

End HealthChecker.
End HealthChecker.

(** ** An example

    Two services and a threshold of two; dotted quads are the addresses that parse.
    The first service fails two rounds, the second answers. *)
Module HealthWitnesses.
Import HealthChecker.

#[local] Instance dotted : Asio := string_asio IsValidIpv4.

Definition pair : ServicePool.ServicePool :=
  ServicePool.make [ServiceNode.make "a" "10.0.0.1" 80 1; ServiceNode.make "b" "10.0.0.2" 81 1].
Definition misspelt : ServicePool.ServicePool :=
  ServicePool.make [ServiceNode.make "a" "10.0.0.1" 80 1; ServiceNode.make "b" "10.0.0" 81 1].
Definition twice : HealthCheckConfig := HealthCheckConfig.make true 5000 2000 2.

Definition two_rounds : list event :=
  [Complete 0 success; Complete 1 (failure "refused"); Complete 2 success;
   Complete 2 success; Complete 3 (failure "refused")].

Definition after_two_rounds : HealthChecker := (run two_rounds (launched pair twice)).2.

Lemma two_rounds_run : run two_rounds (launched pair twice) = (Returned tt, after_two_rounds).
Proof. unfold after_two_rounds. apply (settled (run two_rounds (launched pair twice))). vm_compute. reflexivity. Qed.

Example health_is_streak_witness :
  ServicePool.m_services (m_pool after_two_rounds) !! 0 =
  Some (mkState (ServiceNode.make "a" "10.0.0.1" 80 1) 0 false 2).
Proof.
  refine (health_is_streak pair twice two_rounds (Returned tt) after_two_rounds 0
    (ServiceState.make (ServiceNode.make "a" "10.0.0.1" 80 1)) _ eq_refl eq_refl eq_refl two_rounds_run).
  by apply (bool_decide_unpack (in_u 32 2)).
Defined.

Example one_round_timer_witness : count is_round (pending after_two_rounds) <= 1.
Proof. apply (one_round_timer pair twice two_rounds (Returned tt)). exact two_rounds_run. Defined.

Example checker_never_throws_witness :
  exists w', run [Complete 0 success; CallStop; Complete 3 operation_aborted] (launched pair twice)
             = (Returned tt, w').
Proof.
  eapply (checker_never_throws pair twice
    [Complete 0 success; CallStop; Complete 3 operation_aborted]).
  vm_compute. reflexivity.
Defined.

Example round_probes_every_service_witness :
  exists w' hs rs, dispatch OnRound success (make pair twice) = (Returned tt, w') /\
    m_pool w' = pair /\ pending w' = [] ++ hs /\ requests w' = [] ++ rs /\
    omap probed hs = seq 0 (length (omap target rs)) /\
    omap target rs = [(0, ("10.0.0.1", 80%Z)); (1, ("10.0.0.2", 81%Z))] /\
    length [(0, ("10.0.0.1", 80%Z)); (1, ("10.0.0.2", 81%Z))] = 2 /\ count is_round hs = 1.
Proof. apply (@round_probes_every_service dotted (make pair twice)). reflexivity. Defined.

(** A host name instead of an address: the exception is out and nothing is scheduled. *)
Example misspelt_round :
  (dispatch OnRound success (make misspelt twice)).1 = Threw (Exn KSystemError "Invalid argument") /\
  count is_round (pending (dispatch OnRound success (make misspelt twice)).2) = 0.
Proof. vm_compute. done. Qed.

(** Four operations are pending after the two rounds; the schedule ends them out of
    order. *)
Example Stop_drains_witness :
  exists w', run [CallStop; Complete 4 success; Complete 0 success; Complete 3 operation_aborted;
                  Complete 1 success; Complete 1 (failure "reset"); Complete 0 success]
                 after_two_rounds = (Returned tt, w') /\ pending w' = [] /\
    count is_connect (requests w') = 4.
Proof.
  apply (Stop_drains pair twice two_rounds after_two_rounds
    [Complete 4 success; Complete 0 success; Complete 3 operation_aborted;
     Complete 1 success; Complete 1 (failure "reset"); Complete 0 success]).
  - exact two_rounds_run.
  - vm_compute. repeat split; lia.
Defined.

End HealthWitnesses.
