(* ===== verification/Session.v ===== *)
(** * core/proxy/Session: one proxied connection

    A session connects to its backend and then relays bytes both ways, each direction
    through a buffer of its own: read some, write them all, read again.  Errors, end
    of file and the two timers lead to [Shutdown].  The session lives as long as a
    pending handler holds a pointer to it. *)

From S2P Require Import Prelude Node Asio.
From Stdlib Require Import Init.Byte.
Import ServiceNode.

Module Session.
Section Session.
Context `{Asio}.

Definition BUFFER_SIZE : nat := Z.to_nat 8192.

(** The asynchronous operations a session starts.  The two kinds of write are for the
    [bytes] first bytes of the buffer they were given; [sent] of them have been
    transferred so far. *)
Inductive operation :=
  | ConnectTimer
  | Connecting
  | IdleTimer
  | ReadingClient
  | WritingBackend (bytes sent : nat)
  | ReadingBackend
  | WritingClient (bytes sent : nat).

Inductive timer := m_connectTimer | m_idleTimer.
Inductive socket := m_clientSocket | m_backendSocket.

Inductive request :=
  | ExpiresAfter (t : timer) (ms : Z)
  | Cancel (t : timer)
  | Connect (endpoint : address * Z)
  | ShutdownBoth (s : socket)
  | Close (s : socket)
  | Print (text : string).

(** The session's fields; then what the operating system and the library hold for it:
    whether its sockets have been closed, the bytes that have arrived from and left for
    either side, the pending operations with a mark on those started on a socket
    already closed, the requests made. *)
Record Session := mkSession {
  m_backend : ServiceNode;
  m_connectTimeoutMs : Z;
  m_idleTimeoutMs : Z;
  m_clientBuf : list byte;
  m_backendBuf : list byte;
  m_shuttingDown : bool;
  closed : bool;
  fromClient : list byte;
  toBackend : list byte;
  fromBackend : list byte;
  toClient : list byte;
  pending : list (operation * bool);
  requests : list request
}.

Definition make (backend : ServiceNode) (connectTimeoutMs idleTimeoutMs : Z) : Session :=
  mkSession backend connectTimeoutMs idleTimeoutMs
    (replicate BUFFER_SIZE x00) (replicate BUFFER_SIZE x00) false false [] [] [] [] [] [].

Definition with_wires cb bb fc tb fb tc (w : Session) : Session :=
  mkSession (m_backend w) (m_connectTimeoutMs w) (m_idleTimeoutMs w) cb bb
    (m_shuttingDown w) (closed w) fc tb fb tc (pending w) (requests w).
Definition with_flags shut cl (w : Session) : Session :=
  mkSession (m_backend w) (m_connectTimeoutMs w) (m_idleTimeoutMs w) (m_clientBuf w)
    (m_backendBuf w) shut cl (fromClient w) (toBackend w) (fromBackend w) (toClient w)
    (pending w) (requests w).
Definition with_library p r (w : Session) : Session :=
  mkSession (m_backend w) (m_connectTimeoutMs w) (m_idleTimeoutMs w) (m_clientBuf w)
    (m_backendBuf w) (m_shuttingDown w) (closed w) (fromClient w) (toBackend w)
    (fromBackend w) (toClient w) p r.

Definition request_ (r : request) : M Session unit :=
  modify (fun w => with_library (pending w) (requests w ++ [r]) w).
Definition await_timer (o : operation) : M Session unit :=
  modify (fun w => with_library (pending w ++ [(o, false)]) (requests w) w).
Definition await_socket (o : operation) : M Session unit :=
  modify (fun w => with_library (pending w ++ [(o, closed w)]) (requests w) w).

(** [socket.shutdown(shutdown_both, ec); if (ec) println(...)] and the same for close. *)
Definition socket_number (s : socket) : nat :=
  match s with m_clientSocket => 0 | m_backendSocket => 1 end.
Definition control (r : request) (s : socket) (text : string) : M Session unit :=
  w ← get_state;
  _ ← request_ r;
  let ec := socket_control (socket_number s) (length (requests w)) in
  if is_error ec then request_ (Print (text +:+ message ec)) else skip.

Definition Shutdown : M Session unit :=
  w ← get_state;
  if m_shuttingDown w then skip
  else
    _ ← modify (with_flags true (closed w));
    _ ← request_ (Cancel m_connectTimer);
    _ ← request_ (Cancel m_idleTimer);
    _ ← control (ShutdownBoth m_clientSocket) m_clientSocket
          "Session: client socket shutdown error: ";
    _ ← control (Close m_clientSocket) m_clientSocket
          "Session: client socket close error: ";
    _ ← control (ShutdownBoth m_backendSocket) m_backendSocket
          "Session: backend socket shutdown error: ";
    _ ← control (Close m_backendSocket) m_backendSocket
          "Session: backend socket close error: ";
    modify (with_flags true true).

Definition ReadFromClient : M Session unit :=
  w ← get_state;
  _ ← (if (0 <? m_idleTimeoutMs w)%Z then
         _ ← request_ (ExpiresAfter m_idleTimer (m_idleTimeoutMs w));
         await_timer IdleTimer
       else skip);
  await_socket ReadingClient.

Definition ReadFromBackend : M Session unit := await_socket ReadingBackend.

Definition OnConnected (ec : error_code) : M Session unit :=
  _ ← request_ (Cancel m_connectTimer);
  if is_error ec then
    _ ← request_ (Print ("Session: backend connect failed: " +:+ message ec));
    Shutdown
  else
    _ ← ReadFromClient;
    ReadFromBackend.

Definition ConnectToBackend : M Session unit :=
  w ← get_state;
  let node := m_backend w in
  address ← lift (make_address (GetIp node));
  _ ← request_ (ExpiresAfter m_connectTimer (m_connectTimeoutMs w));
  _ ← await_timer ConnectTimer;
  _ ← request_ (Connect (address, GetPort node));
  await_socket Connecting.

Definition Start : M Session unit := ConnectToBackend.

(** The bodies of the lambdas; [bytes] is the second argument of the read handlers. *)
Definition dispatch (o : operation) (ec : error_code) (bytes : nat) : M Session unit :=
  match o with
  | ConnectTimer | IdleTimer => if is_error ec then skip else Shutdown
  | Connecting => OnConnected ec
  | ReadingClient => if is_error ec then Shutdown else await_socket (WritingBackend bytes 0)
  | WritingBackend _ _ => if is_error ec then Shutdown else ReadFromClient
  | ReadingBackend => if is_error ec then Shutdown else await_socket (WritingClient bytes 0)
  | WritingClient _ _ => if is_error ec then Shutdown else ReadFromBackend
  end.

(** ** Schedules

    [Complete k ec data] completes the [k]-th pending operation; for a read that
    succeeds, [data] are the bytes it read.  [Transfer k n] sends [n] more bytes of a
    write, from its buffer as it is then; a write that completes with success sends
    what is left. *)
Inductive event :=
  | Complete (k : nat) (ec : error_code) (data : list byte)
  | Transfer (k n : nat).

(** What the library can do: nothing succeeds on a socket that was closed before the
    operation was started, and a read yields a byte at least and what fits at most. *)
Definition possible (e : event) (w : Session) : bool :=
  match e with
  | Complete k ec data =>
      match pending w !! k with
      | Some (o, dead) =>
          is_error ec ||
          (negb dead &&
           match o with
           | ReadingClient | ReadingBackend =>
               (1 <=? length data) && (length data <=? BUFFER_SIZE)
           | _ => true
           end)
      | None => false
      end
  | Transfer k n =>
      match pending w !! k with
      | Some (WritingBackend bytes sent, false) | Some (WritingClient bytes sent, false) =>
          (1 <=? n) && (sent + n <=? bytes)
      | _ => false
      end
  end.

(** Bytes [sent] to [sent + n] of a buffer. *)
Definition slice (sent n : nat) (buf : list byte) : list byte := take n (drop sent buf).

(** Reading [data] into a buffer. *)
Definition fill (data buf : list byte) : list byte := data ++ drop (length data) buf.

(** What a successful operation does before its handler is called. *)
Definition transfer (o : operation) (data : list byte) (w : Session) : Session :=
  match o with
  | ReadingClient =>
      with_wires (fill data (m_clientBuf w)) (m_backendBuf w) (fromClient w ++ data)
        (toBackend w) (fromBackend w) (toClient w) w
  | WritingBackend bytes sent =>
      with_wires (m_clientBuf w) (m_backendBuf w) (fromClient w)
        (toBackend w ++ slice sent (bytes - sent) (m_clientBuf w)) (fromBackend w)
        (toClient w) w
  | ReadingBackend =>
      with_wires (m_clientBuf w) (fill data (m_backendBuf w)) (fromClient w)
        (toBackend w) (fromBackend w ++ data) (toClient w) w
  | WritingClient bytes sent =>
      with_wires (m_clientBuf w) (m_backendBuf w) (fromClient w) (toBackend w)
        (fromBackend w) (toClient w ++ slice sent (bytes - sent) (m_backendBuf w)) w
  | _ => w
  end.

(** The same for a part of a write: what is sent, and what the operation becomes. *)
Definition progress (k n : nat) (w : Session) : Session :=
  match pending w !! k with
  | Some (WritingBackend bytes sent, dead) =>
      with_library (<[k := (WritingBackend bytes (sent + n), dead)]> (pending w)) (requests w)
        (with_wires (m_clientBuf w) (m_backendBuf w) (fromClient w)
           (toBackend w ++ slice sent n (m_clientBuf w)) (fromBackend w) (toClient w) w)
  | Some (WritingClient bytes sent, dead) =>
      with_library (<[k := (WritingClient bytes (sent + n), dead)]> (pending w)) (requests w)
        (with_wires (m_clientBuf w) (m_backendBuf w) (fromClient w) (toBackend w)
           (fromBackend w) (toClient w ++ slice sent n (m_backendBuf w)) w)
  | _ => w
  end.

Definition handle (e : event) : M Session unit :=
  w ← get_state;
  if negb (possible e w) then skip
  else
    match e with
    | Complete k ec data =>
        match take_out k (pending w) with
        | Some ((o, _), rest) =>
            _ ← modify (with_library rest (requests w));
            _ ← (if is_error ec then skip else modify (transfer o data));
            dispatch o ec (length data)
        | None => skip
        end
    | Transfer k n => modify (progress k n)
    end.

Fixpoint run (events : list event) : M Session unit :=
  match events with
  | [] => skip
  | e :: events' => _ ← handle e; run events'
  end.

(** ** What a handler does

    [continues] is the session as an abstract machine: the operations that follow the
    completion of [o], or [None] where the session shuts down. *)
Definition idle_timer (w : Session) : list operation :=
  if (0 <? m_idleTimeoutMs w)%Z then [IdleTimer] else [].

Definition continues (w : Session) (o : operation) (ec : error_code) (bytes : nat)
    : option (list operation) :=
  if is_error ec then
    match o with ConnectTimer | IdleTimer => Some [] | _ => None end
  else
    match o with
    | ConnectTimer | IdleTimer => None
    | Connecting => Some (idle_timer w ++ [ReadingClient; ReadingBackend])
    | ReadingClient => Some [WritingBackend bytes 0]
    | WritingBackend _ _ => Some (idle_timer w ++ [ReadingClient])
    | ReadingBackend => Some [WritingClient bytes 0]
    | WritingClient _ _ => Some [ReadingBackend]
    end.

Definition is_timer (o : operation) : bool :=
  match o with ConnectTimer | IdleTimer => true | _ => false end.
Definition is_idle (o : operation) : bool :=
  match o with IdleTimer => true | _ => false end.
Definition is_arm (r : request) : bool :=
  match r with ExpiresAfter m_idleTimer _ => true | _ => false end.
Definition is_close (s : socket) (r : request) : bool :=
  match r, s with
  | Close m_clientSocket, m_clientSocket | Close m_backendSocket, m_backendSocket => true
  | _, _ => false
  end.

Definition mark (w : Session) (o : operation) : operation * bool :=
  (o, if is_timer o then false else closed w).

Definition shut (w : Session) : Session :=
  if m_shuttingDown w then w else with_flags true true w.

(** The requests of a call: how many arm the idle timer and close either socket. *)
Definition asks (rs : list request) (arms closes : nat) : Prop :=
  count is_arm rs = arms /\ forall s, count (is_close s) rs = closes.

(** [m] returns, leaving [w'] but for some more requests. *)
Definition returns (m : M Session unit) (w w' : Session) (arms closes : nat) : Prop :=
  exists rs, asks rs arms closes /\
    m w = (Returned tt, with_library (pending w') (requests w ++ rs) w').

Lemma control_spec r s text w :
  exists ps, control r s text w
    = (Returned tt, with_library (pending w) (requests w ++ r :: ps) w) /\ asks ps 0 0.
Proof.
  exists (if is_error (socket_control (socket_number s) (length (requests w)))
          then [Print (text +:+ message (socket_control (socket_number s) (length (requests w))))]
          else []).
  unfold control. erewrite bind_returned by done. erewrite bind_returned by done. cbv zeta.
  destruct (is_error _); unfold request_, modify, with_library; simpl.
  - split; [by rewrite <- app_assoc|]. split; [done|by intros []].
  - split; [done|]. split; [done|by intros []].
Qed.

(** Updates of different parts commute and the last of one part wins. *)
Lemma library_library p r p' r' w :
  with_library p r (with_library p' r' w) = with_library p r w.
Proof. done. Qed.
Lemma flags_library s c p r w :
  with_flags s c (with_library p r w) = with_library p r (with_flags s c w).
Proof. done. Qed.
Lemma flags_flags s c s' c' w : with_flags s c (with_flags s' c' w) = with_flags s c w.
Proof. done. Qed.
Lemma pending_library p r w : pending (with_library p r w) = p.
Proof. done. Qed.
Lemma requests_library p r w : requests (with_library p r w) = r.
Proof. done. Qed.
Lemma library_self w : with_library (pending w) (requests w) w = w.
Proof. by destruct w. Qed.
Lemma session_request_spec r w :
  request_ r w = (Returned tt, with_library (pending w) (requests w ++ [r]) w).
Proof. done. Qed.
Lemma modify_spec (f : Session -> Session) w : modify f w = (Returned tt, f w).
Proof. done. Qed.

Lemma Shutdown_returns w :
  returns Shutdown w (shut w) 0 (if m_shuttingDown w then 0 else 1).
Proof.
  unfold Shutdown, returns, shut. erewrite bind_returned by done.
  destruct (m_shuttingDown w).
  { exists []. split; [split; [done|by intros []]|]. by rewrite app_nil_r, library_self. }
  erewrite bind_returned by apply modify_spec.
  set (w1 := with_flags true (closed w) w).
  erewrite bind_returned by apply session_request_spec.
  erewrite bind_returned by apply session_request_spec.
  rewrite library_library, pending_library, requests_library.
  do 4 match goal with
  | |- context [(control ?r ?s ?t ≫= _) ?w] =>
      let ps := fresh "ps" in let E := fresh "E" in let Hp := fresh "Hp" in
      destruct (control_spec r s t w) as (ps & E & Hp); erewrite bind_returned by exact E;
      clear E; rewrite library_library, pending_library, requests_library
  end.
  exists ([Cancel m_connectTimer; Cancel m_idleTimer]
    ++ (ShutdownBoth m_clientSocket :: ps) ++ (Close m_clientSocket :: ps0)
    ++ (ShutdownBoth m_backendSocket :: ps1) ++ (Close m_backendSocket :: ps2)).
  split.
  - destruct Hp as [Ha Hc], Hp0 as [Ha0 Hc0], Hp1 as [Ha1 Hc1], Hp2 as [Ha2 Hc2].
    split; [|intros s]; rewrite ?count_app, ?count_cons, ?Ha, ?Ha0, ?Ha1, ?Ha2,
      ?Hc, ?Hc0, ?Hc1, ?Hc2; [done|by destruct s].
  - rewrite modify_spec. unfold w1. rewrite flags_library, flags_flags.
    f_equal. f_equal. change (requests (with_flags true (closed w) w)) with (requests w).
    by rewrite <- !app_assoc.
Qed.

(** The next operations of a session that goes on. *)
Lemma await_returns o w : returns (await_socket o) w
  (with_library (pending w ++ [(o, closed w)]) (requests w) w) 0 0.
Proof.
  exists []. split; [split; [done|by intros []]|]. by rewrite app_nil_r.
Qed.

Lemma ReadFromClient_returns w : returns ReadFromClient w
  (with_library (pending w ++ map (mark w) (idle_timer w ++ [ReadingClient])) (requests w) w)
  (count is_idle (idle_timer w)) 0.
Proof.
  unfold ReadFromClient, idle_timer, returns. erewrite bind_returned by done.
  destruct (0 <? m_idleTimeoutMs w)%Z.
  - exists [ExpiresAfter m_idleTimer (m_idleTimeoutMs w)].
    split; [split; [done|by intros []]|].
    unfold await_socket, await_timer, request_, modify, mbind, M_bind, with_library. simpl.
    by rewrite <- app_assoc.
  - exists []. split; [split; [done|by intros []]|].
    erewrite bind_returned by done. unfold await_socket, modify, with_library. simpl.
    by rewrite app_nil_r.
Qed.

Definition next (w : Session) (o : operation) (ec : error_code) (bytes : nat) : Session :=
  match continues w o ec bytes with
  | Some new => with_library (pending w ++ map (mark w) new) (requests w) w
  | None => shut w
  end.

Definition arms (w : Session) (o : operation) (ec : error_code) (bytes : nat) : nat :=
  match continues w o ec bytes with Some new => count is_idle new | None => 0 end.

Definition closes (w : Session) (o : operation) (ec : error_code) (bytes : nat) : nat :=
  match continues w o ec bytes with
  | Some _ => 0
  | None => if m_shuttingDown w then 0 else 1
  end.

Lemma skip_returns w : returns skip w (with_library (pending w ++ []) (requests w) w) 0 0.
Proof.
  exists []. split; [split; [done|by intros []]|]. unfold with_library. simpl.
  rewrite !app_nil_r. by destruct w.
Qed.

Lemma shut_library p r w : shut (with_library p r w) = with_library p r (shut w).
Proof. unfold shut. simpl. by destruct (m_shuttingDown w). Qed.
Lemma shut_pending w : pending (shut w) = pending w.
Proof. unfold shut. by destruct (m_shuttingDown w). Qed.

Lemma OnConnected_returns ec w :
  returns (OnConnected ec) w (next w Connecting ec 0) (arms w Connecting ec 0)
    (closes w Connecting ec 0).
Proof.
  unfold OnConnected, next, arms, closes, continues, returns.
  erewrite bind_returned by apply session_request_spec. destruct (is_error ec).
  - erewrite bind_returned by apply session_request_spec.
    rewrite library_library, pending_library, requests_library, <- app_assoc.
    set (rs0 := [Cancel m_connectTimer] ++ _).
    destruct (Shutdown_returns (with_library (pending w) (requests w ++ rs0) w))
      as (rs & [Ha Hc] & E).
    exists (rs0 ++ rs). split.
    + split; [|intros s]; rewrite count_app; [by rewrite Ha|]. rewrite Hc. by destruct s.
    + by rewrite E, shut_library, pending_library, requests_library, library_library, <- app_assoc,
        shut_pending.
  - destruct (ReadFromClient_returns (with_library (pending w)
      (requests w ++ [Cancel m_connectTimer]) w)) as (rs & [Ha Hc] & E).
    erewrite bind_returned by exact E. exists ([Cancel m_connectTimer] ++ rs). split.
    + split; [|intros s]; rewrite count_app.
      { rewrite Ha, count_app. symmetry. apply Nat.add_0_r. }
      rewrite Hc. by destruct s.
    + unfold ReadFromBackend, await_socket. rewrite modify_spec.
      rewrite !library_library, !pending_library, !requests_library, !map_app, <- !app_assoc.
      done.
Qed.

Lemma dispatch_returns o ec bytes w :
  returns (dispatch o ec bytes) w (next w o ec bytes) (arms w o ec bytes) (closes w o ec bytes).
Proof.
  destruct o; simpl dispatch; try apply (OnConnected_returns ec w);
    unfold next, arms, closes, continues; destruct (is_error ec);
    try (apply skip_returns || apply Shutdown_returns || apply await_returns ||
         apply ReadFromClient_returns).
  rewrite count_app, (Nat.add_0_r (count is_idle _) : _ + count is_idle [ReadingClient] = _).
  apply ReadFromClient_returns.
Qed.

(** The session that the handler of the [k]-th operation finds. *)
Definition arrived (k : nat) (o : operation) (ec : error_code) (data : list byte)
    (w : Session) : Session :=
  with_library (delete k (pending w)) (requests w)
    (if is_error ec then w else transfer o data w).

Lemma handle_complete k ec data o dead w :
  possible (Complete k ec data) w = true -> pending w !! k = Some (o, dead) ->
  let w1 := arrived k o ec data w in
  returns (handle (Complete k ec data)) w (next w1 o ec (length data))
    (arms w1 o ec (length data)) (closes w1 o ec (length data)).
Proof.
  intros Hp Hk. cbn zeta. unfold returns, handle. erewrite bind_returned by done. rewrite Hp. cbn [negb].
  unfold take_out. rewrite Hk. cbn [fmap option_fmap option_map].
  erewrite bind_returned by done.
  destruct (dispatch_returns o ec (length data) (arrived k o ec data w)) as (rs & Hrs & E).
  exists rs. split; [exact Hrs|].
  assert (Ew : (if is_error ec then skip else modify (transfer o data))
    (with_library (delete k (pending w)) (requests w) w) = (Returned tt, arrived k o ec data w)).
  { unfold arrived. destruct (is_error ec); [done|]. unfold modify. by destruct o. }
  erewrite bind_returned by exact Ew. rewrite E.
  unfold arrived. by destruct (is_error ec), o.
Qed.

Lemma handle_impossible e w : possible e w = false -> handle e w = (Returned tt, w).
Proof. intros Hp. unfold handle. erewrite bind_returned by done. by rewrite Hp. Qed.

Lemma handle_transfer k n w : possible (Transfer k n) w = true ->
  handle (Transfer k n) w = (Returned tt, progress k n w).
Proof. intros Hp. unfold handle. erewrite bind_returned by done. by rewrite Hp. Qed.

(** No handler throws. *)
Lemma handle_returns e w : exists w', handle e w = (Returned tt, w').
Proof.
  destruct (possible e w) eqn:Hp; [|eexists; by apply handle_impossible].
  destruct e as [k ec data|k n]; [|eexists; by apply handle_transfer].
  pose proof Hp as Hp'. simpl in Hp'. destruct (pending w !! k) as [[o dead]|] eqn:Hk; [|done].
  destruct (handle_complete k ec data o dead w Hp Hk) as (rs & _ & E). eauto.
Qed.

(** ** The two directions

    [Up] is client to backend, [Down] the other way. *)
Inductive direction := Up | Down.

Definition from (d : direction) (w : Session) : list byte :=
  match d with Up => fromClient w | Down => fromBackend w end.
Definition to (d : direction) (w : Session) : list byte :=
  match d with Up => toBackend w | Down => toClient w end.
Definition buf (d : direction) (w : Session) : list byte :=
  match d with Up => m_clientBuf w | Down => m_backendBuf w end.

(** The operations that drive a direction: connecting drives both. *)
Definition drives (d : direction) (o : operation) : bool :=
  match o, d with
  | Connecting, _ => true
  | (ReadingClient | WritingBackend _ _), Up => true
  | (ReadingBackend | WritingClient _ _), Down => true
  | _, _ => false
  end.
Definition drives_ (d : direction) (p : operation * bool) : bool := drives d p.1.

Definition writing (o : operation) : option (nat * nat) :=
  match o with
  | WritingBackend bytes sent | WritingClient bytes sent => Some (bytes, sent)
  | _ => None
  end.

(** What a pending operation says about its direction: a write holds in the buffer
    exactly the bytes that have arrived and not left; otherwise there are none. *)
Definition fact (d : direction) (w : Session) (o : operation) : Prop :=
  match writing o with
  | Some (bytes, sent) => sent <= bytes <= BUFFER_SIZE /\
      from d w = to d w ++ slice sent (bytes - sent) (buf d w)
  | None => to d w = from d w
  end.

Definition bytes_ok (d : direction) (w : Session) : Prop :=
  length (buf d w) = BUFFER_SIZE /\ to d w `prefix_of` from d w /\
  length (from d w) <= length (to d w) + BUFFER_SIZE.

Record lane_ok (d : direction) (w : Session) : Prop := {
  lane_bytes : bytes_ok d w;
  lane_one : count (drives_ d) (pending w) <= 1;
  lane_driven : m_shuttingDown w = false -> count (drives_ d) (pending w) = 1;
  lane_fact o dead : (o, dead) ∈ pending w -> drives d o = true -> fact d w o
}.

Record ok (w : Session) : Prop := {
  ok_lane d : lane_ok d w;
  ok_closed : closed w = m_shuttingDown w;
  ok_dead o dead : (o, dead) ∈ pending w -> dead = true -> closed w = true
}.

Lemma slice_length sent n (l : list byte) : sent + n <= length l -> length (slice sent n l) = n.
Proof. intros Hl. unfold slice. rewrite length_take, length_drop. lia. Qed.

Lemma slice_split sent n m (l : list byte) :
  slice sent (n + m) l = slice sent n l ++ slice (sent + n) m l.
Proof.
  unfold slice. rewrite <- (take_drop n (drop sent l)) at 1. rewrite drop_drop.
  rewrite take_app. f_equal; [by rewrite take_take, Nat.min_r by lia|].
  destruct (decide (n <= length (drop sent l))).
  - rewrite length_take, Nat.min_l by done. f_equal. lia.
  - rewrite length_drop in *. rewrite (drop_ge l (sent + n)) by lia. by rewrite !take_nil.
Qed.

Lemma slice_fill (data b : list byte) : slice 0 (length data) (fill data b) = data.
Proof. unfold slice, fill. rewrite drop_0. by rewrite take_app_length. Qed.

Lemma fill_length data b : length data <= length b -> length (fill data b) = length b.
Proof. intros Hl. unfold fill. rewrite length_app, length_drop. lia. Qed.

(** ** The invariant is kept *)

Lemma fact_bytes d w o : fact d w o -> length (buf d w) = BUFFER_SIZE -> bytes_ok d w.
Proof.
  unfold fact, bytes_ok. destruct (writing o) as [[bytes sent]|].
  - intros [Hb E] Hl. rewrite E. split_and!; [done|by apply prefix_app_r|].
    rewrite length_app, slice_length by lia. lia.
  - intros -> Hl. split_and!; [done..|lia].
Qed.

Lemma lane_library d p r w : (forall o, fact d (with_library p r w) o = fact d w o) /\
  bytes_ok d (with_library p r w) = bytes_ok d w.
Proof. split; [intros o|]; by destruct d. Qed.

Lemma shut_shuttingDown w : m_shuttingDown (shut w) = true.
Proof. unfold shut. by destruct (m_shuttingDown w) eqn:E. Qed.

(** Shutting down asks nothing of a direction any more. *)
Lemma lane_shut d w : bytes_ok d w -> count (drives_ d) (pending w) <= 1 ->
  (forall o dead, (o, dead) ∈ pending w -> drives d o = true -> fact d w o) ->
  lane_ok d (shut w).
Proof.
  intros Hb Hc Hf. split.
  - unfold shut. destruct (m_shuttingDown w), d; exact Hb.
  - by rewrite shut_pending.
  - by rewrite shut_shuttingDown.
  - intros o dead. rewrite shut_pending. intros Ho Hd. specialize (Hf o dead Ho Hd).
    unfold shut. destruct (m_shuttingDown w), d; exact Hf.
Qed.

Lemma count_mark d w new : count (drives_ d) (map (mark w) new) = count (drives d) new.
Proof.
  induction new as [|o new IH]; [done|]. cbn [map]. rewrite !count_cons, IH. done.
Qed.

(** A direction that goes on: [new] holds its driver, or the rest does. *)
Lemma lane_add d w new : bytes_ok d w ->
  count (drives_ d) (pending w) + count (drives d) new <= 1 ->
  (m_shuttingDown w = false -> count (drives_ d) (pending w) + count (drives d) new = 1) ->
  (forall o dead, (o, dead) ∈ pending w -> drives d o = true -> fact d w o) ->
  (forall o, o ∈ new -> drives d o = true -> fact d w o) ->
  lane_ok d (with_library (pending w ++ map (mark w) new) (requests w) w).
Proof.
  intros Hb Hle Heq Hf Hn. split.
  - by destruct d.
  - rewrite pending_library, count_app, count_mark. lia.
  - rewrite pending_library, count_app, count_mark. apply Heq.
  - intros o dead. rewrite pending_library, elem_of_app. intros Ho Hd.
    rewrite (proj1 (lane_library _ _ _ _)). destruct Ho as [Ho|Ho]; [by eapply Hf|].
    apply list_elem_of_In, in_map_iff in Ho as (o' & [= <- _] & Ho%list_elem_of_In).
    by apply Hn.
Qed.

Lemma arrived_same d k o ec data w : drives d o = false ->
  from d (arrived k o ec data w) = from d w /\ to d (arrived k o ec data w) = to d w /\
  buf d (arrived k o ec data w) = buf d w.
Proof. intros Hd. unfold arrived. destruct (is_error ec), o, d; done. Qed.

Lemma arrived_shuttingDown k o ec data w :
  m_shuttingDown (arrived k o ec data w) = m_shuttingDown w.
Proof. unfold arrived. destruct (is_error ec), o; done. Qed.
Lemma arrived_closed k o ec data w : closed (arrived k o ec data w) = closed w.
Proof. unfold arrived. destruct (is_error ec), o; done. Qed.
Lemma arrived_idle k o ec data w : idle_timer (arrived k o ec data w) = idle_timer w.
Proof. unfold arrived. destruct (is_error ec), o; done. Qed.
Lemma arrived_pending k o ec data w : pending (arrived k o ec data w) = delete k (pending w).
Proof. done. Qed.

Lemma pending_split k p w : pending w !! k = Some p -> pending w ≡ₚ p :: delete k (pending w).
Proof. apply delete_Permutation. Qed.

Lemma count_delete (f : operation * bool -> bool) k p w : pending w !! k = Some p ->
  count f (pending w) = (if f p then 1 else 0) + count f (delete k (pending w)).
Proof. intros Hk. apply (count_take_out f k). by apply take_out_Some. Qed.

Lemma elem_of_rest k p q w : pending w !! k = Some p -> q ∈ delete k (pending w) -> q ∈ pending w.
Proof. intros Hk Hq. rewrite (pending_split _ _ _ Hk). by apply list_elem_of_further. Qed.

(** The bytes after an operation that drives the direction succeeded: those that its
    successor is about. *)
Definition successor (d : direction) (o : operation) (bytes : nat) : operation :=
  match o, d with
  | ReadingClient, _ => WritingBackend bytes 0
  | ReadingBackend, _ => WritingClient bytes 0
  | _, Up => ReadingClient
  | _, Down => ReadingBackend
  end.

Lemma arrived_fact d k o dead data w : ok w ->
  possible (Complete k success data) w = true -> pending w !! k = Some (o, dead) ->
  drives d o = true ->
  length (buf d (arrived k o success data w)) = BUFFER_SIZE /\
  fact d (arrived k o success data w) (successor d o (length data)).
Proof.
  intros Hok Hp Hk Hd. destruct (ok_lane _ Hok d) as [(Hl & _ & _) _ _ Hf].
  specialize (Hf o dead (list_elem_of_lookup_2 _ _ _ Hk) Hd).
  simpl in Hp. rewrite Hk in Hp. simpl in Hp.
  apply andb_true_iff in Hp as [_ Hp]. unfold fact in *.
  destruct o, d; try done; simpl in *.
  1,3: apply andb_true_iff in Hp as [_ Hp2%Nat.leb_le];
    rewrite fill_length by (by rewrite Hl); split; [done|]; rewrite Nat.sub_0_r, slice_fill, Hf;
    split; [lia|done].
  all: by destruct Hf as [_ Hf]; split; [|symmetry].
Qed.

Lemma no_driver d l o dead :
  count (drives_ d) l = 0 -> (o, dead) ∈ l -> drives d o = false.
Proof.
  intros Hz [j Hj]%list_elem_of_lookup. destruct (drives d o) eqn:Hd; [|done].
  pose proof (count_take_out (drives_ d) j l (o, dead) _
    (proj2 (take_out_Some _ _ _ _) (conj Hj eq_refl))) as Hc.
  unfold drives_ at 2 in Hc. simpl in Hc. rewrite Hd in Hc. lia.
Qed.

(** The driver of a direction is followed by one driver, and nothing else is. *)
Lemma continues_drivers d w o ec bytes new : continues w o ec bytes = Some new ->
  count (drives d) new = (if drives d o then 1 else 0) /\
  forall o', o' ∈ new -> drives d o' = true ->
    ec = success /\ drives d o = true /\ o' = successor d o bytes.
Proof.
  unfold continues, idle_timer. intros Hc.
  destruct ec, o, (0 <? m_idleTimeoutMs w)%Z; simpl in Hc; simplify_eq; destruct d;
    (split; [done|]); intros o' Ho'; set_unfold; naive_solver.
Qed.

Lemma arrived_bytes d k o dead ec data w : ok w ->
  possible (Complete k ec data) w = true -> pending w !! k = Some (o, dead) ->
  bytes_ok d (arrived k o ec data w).
Proof.
  intros Hok Hp Hk. destruct (drives d o) eqn:Ho.
  - destruct (is_error ec) eqn:Hec.
    + unfold arrived. rewrite Hec, (proj2 (lane_library _ _ _ _)). apply Hok.
    + destruct ec; try done. eapply fact_bytes; by eapply arrived_fact.
  - destruct (arrived_same d k o ec data w Ho) as (E1 & E2 & E3). unfold bytes_ok.
    rewrite E1, E2, E3. apply Hok.
Qed.

(** The operations that stay pending keep their facts. *)
Lemma arrived_rest d k o dead ec data w o' b : ok w -> pending w !! k = Some (o, dead) ->
  (o', b) ∈ delete k (pending w) -> drives d o' = true ->
  fact d (arrived k o ec data w) o'.
Proof.
  intros Hok Hk Ho' Hd'. destruct (ok_lane _ Hok d) as [_ H1 _ Hf].
  pose proof (count_delete (drives_ d) _ _ _ Hk) as Hc. unfold drives_ at 2 in Hc. simpl in Hc.
  destruct (drives d o) eqn:Ho.
  - apply no_driver with (d := d) in Ho'; [congruence|lia].
  - specialize (Hf o' b (elem_of_rest _ _ _ _ Hk Ho') Hd').
    destruct (arrived_same d k o ec data w Ho) as (E1 & E2 & E3). unfold fact in *.
    by rewrite E1, E2, E3.
Qed.

Lemma complete_lane d k o dead ec data w : ok w ->
  possible (Complete k ec data) w = true -> pending w !! k = Some (o, dead) ->
  lane_ok d (next (arrived k o ec data w) o ec (length data)).
Proof.
  intros Hok Hp Hk. pose proof (arrived_bytes d k o dead ec data w Hok Hp Hk) as Hb.
  destruct (ok_lane _ Hok d) as [_ H1 Hdriven _].
  pose proof (count_delete (drives_ d) _ _ _ Hk) as Hc. unfold drives_ at 2 in Hc. simpl in Hc.
  unfold next. destruct (continues _ o ec (length data)) as [new|] eqn:Hcont.
  - destruct (continues_drivers d _ _ _ _ _ Hcont) as [Hn Hsucc].
    apply lane_add; rewrite ?arrived_pending, ?arrived_shuttingDown, ?Hn; [done|lia| | |].
    + intros Hs%Hdriven. lia.
    + intros o' b Ho' Hd'. by eapply arrived_rest.
    + intros o' Ho' Hd'. destruct (Hsucc o' Ho' Hd') as (-> & Ho & ->). by eapply arrived_fact.
  - apply lane_shut; rewrite ?arrived_pending; [done|lia|].
    intros o' b Ho' Hd'. by eapply arrived_rest.
Qed.

Lemma insert_rest {A} (l : list A) k x y : l !! k = Some x -> <[k := y]> l ≡ₚ y :: delete k l.
Proof.
  intros Hk. rewrite insert_take_drop by (by eapply lookup_lt_Some).
  rewrite delete_take_drop. symmetry. apply Permutation_middle.
Qed.

Lemma count_Permutation {A} (f : A -> bool) l l' : l ≡ₚ l' -> count f l = count f l'.
Proof.
  induction 1 as [|x l1 l2 _ IH|x y l|l1 l2 l3 _ IH1 _ IH2]; rewrite ?count_cons; [done|lia|lia|lia].
Qed.

(** A part of a write was sent: the operation is replaced by the one for the rest. *)
Lemma sent_lane d w w' k o o' b : ok w -> pending w !! k = Some (o, b) ->
  pending w' = <[k := (o', b)]> (pending w) -> drives d o' = drives d o ->
  m_shuttingDown w' = m_shuttingDown w -> buf d w' = buf d w ->
  (if drives d o then fact d w' o' else from d w' = from d w /\ to d w' = to d w) ->
  lane_ok d w'.
Proof.
  intros Hok Hk Hp Ho Hs Hbuf Hf. destruct (ok_lane _ Hok d) as [Hb H1 Hdriven Hfacts].
  pose proof (insert_rest _ _ _ (o', b) Hk) as Hperm. rewrite <- Hp in Hperm.
  assert (Hcount : count (drives_ d) (pending w') = count (drives_ d) (pending w)).
  { rewrite (count_Permutation _ _ _ Hperm), count_cons.
    rewrite (count_delete (drives_ d) _ _ _ Hk). unfold drives_ at 1 3. simpl. by rewrite Ho. }
  split; rewrite ?Hcount, ?Hs; [|done|done|].
  - destruct (drives d o).
    + eapply fact_bytes; [exact Hf|]. rewrite Hbuf. apply Hb.
    + destruct Hf as [E1 E2]. unfold bytes_ok. by rewrite E1, E2, Hbuf.
  - intros o2 b2 Ho2 Hd2. rewrite Hperm in Ho2.
    pose proof (count_delete (drives_ d) _ _ _ Hk) as Hc. unfold drives_ at 2 in Hc. simpl in Hc.
    apply elem_of_cons in Ho2 as [[= -> ->]|Ho2].
    + rewrite Ho in Hd2. by rewrite Hd2 in Hf.
    + destruct (drives d o) eqn:E.
      * apply (no_driver d) in Ho2; [congruence|lia].
      * destruct Hf as [E1 E2]. unfold fact. rewrite E1, E2, Hbuf.
        apply (Hfacts o2 b2 (elem_of_rest _ _ _ _ Hk Ho2) Hd2).
Qed.

Lemma fact_sent (f t b : list byte) bytes sent n : sent + n <= bytes ->
  f = t ++ slice sent (bytes - sent) b ->
  f = (t ++ slice sent n b) ++ slice (sent + n) (bytes - (sent + n)) b.
Proof.
  intros Hn ->. rewrite <- app_assoc, <- slice_split. do 2 f_equal. lia.
Qed.

Lemma transfer_lane d k n w : ok w -> possible (Transfer k n) w = true ->
  lane_ok d (progress k n w).
Proof.
  intros Hok Hp. simpl in Hp. unfold progress.
  destruct (pending w !! k) as [[o dead]|] eqn:Hk; [|done].
  destruct o as [| | | |bytes sent| |bytes sent]; try done; destruct dead; try done;
    apply andb_true_iff in Hp as [_ Hp%Nat.leb_le];
    (eapply sent_lane; [exact Hok|exact Hk|reflexivity|by destruct d|done|by destruct d|]).
  - destruct d; simpl; [|done]. destruct (lane_fact _ _ (ok_lane _ Hok Up) _ _ (list_elem_of_lookup_2 _ _ _ Hk) eq_refl) as [Hb E].
    split; [lia|]. simpl. by apply fact_sent.
  - destruct d; simpl; [done|]. destruct (lane_fact _ _ (ok_lane _ Hok Down) _ _ (list_elem_of_lookup_2 _ _ _ Hk) eq_refl) as [Hb E].
    split; [lia|]. simpl. by apply fact_sent.
Qed.

Lemma shut_closed w : closed w = m_shuttingDown w -> closed (shut w) = true.
Proof. unfold shut. by destruct (m_shuttingDown w). Qed.

(** The invariant does not look at the requests. *)
Lemma ok_requests r w : ok w -> ok (with_library (pending w) r w).
Proof.
  intros [Hl Hc Hd]. split; [|done..]. intros d. destruct (Hl d) as [H1 H2 H3 H4].
  by split; destruct d.
Qed.

Lemma closed_library p r w : closed (with_library p r w) = closed w.
Proof. done. Qed.
Lemma shuttingDown_library p r w : m_shuttingDown (with_library p r w) = m_shuttingDown w.
Proof. done. Qed.

Lemma next_ok k o dead ec data w : ok w -> possible (Complete k ec data) w = true ->
  pending w !! k = Some (o, dead) -> ok (next (arrived k o ec data w) o ec (length data)).
Proof.
  intros Hok Hp Hk. split; [intros d; by eapply complete_lane|..].
  - unfold next. destruct (continues _ _ _ _).
    + rewrite closed_library, shuttingDown_library, arrived_closed, arrived_shuttingDown. apply Hok.
    + rewrite shut_closed, shut_shuttingDown; [done|].
      rewrite arrived_closed, arrived_shuttingDown. apply Hok.
  - intros o' b Ho' ->. unfold next in *. destruct (continues _ _ _ _) as [new|].
    + rewrite closed_library. rewrite pending_library in Ho'. apply elem_of_app in Ho' as [Ho'|Ho'].
      * rewrite arrived_closed. rewrite arrived_pending in Ho'.
        apply (ok_dead _ Hok o' true); [by eapply elem_of_rest|done].
      * apply list_elem_of_In, in_map_iff in Ho' as (o2 & E & _). injection E as _ E.
        by destruct (is_timer o2).
    + rewrite shut_closed; [done|]. rewrite arrived_closed, arrived_shuttingDown. apply Hok.
Qed.

Lemma progress_ok k n w : ok w -> possible (Transfer k n) w = true -> ok (progress k n w).
Proof.
  intros Hok Hp. split; [intros d; by apply transfer_lane|..]; simpl in Hp; unfold progress.
  - destruct (pending w !! k) as [[[] ?]|]; apply Hok.
  - intros o b Ho ->. destruct (pending w !! k) as [[o' dead]|] eqn:Hk; [|done].
    destruct o'; try done; destruct dead; try done; simpl in *;
      rewrite (insert_rest _ _ _ _ Hk) in Ho; apply elem_of_cons in Ho as [?|Ho]; try done;
      (apply (ok_dead _ Hok o true); [by eapply elem_of_rest|done]).
Qed.

Lemma session_handle_ok e w w' : ok w -> handle e w = (Returned tt, w') -> ok w'.
Proof.
  intros Hok E. destruct (possible e w) eqn:Hp.
  2: { rewrite handle_impossible in E by done. by injection E as <-. }
  destruct e as [k ec data|k n].
  - pose proof Hp as Hp'. simpl in Hp'. destruct (pending w !! k) as [[o dead]|] eqn:Hk; [|done].
    destruct (handle_complete k ec data o dead w Hp Hk) as (rs & _ & E'). rewrite E in E'.
    injection E' as ->. apply ok_requests. by eapply next_ok.
  - rewrite handle_transfer in E by done. injection E as <-. by apply progress_ok.
Qed.

Lemma session_run_ok events w : ok w -> exists w', run events w = (Returned tt, w') /\ ok w'.
Proof.
  revert w; induction events as [|e events IH]; intros w Hok; [by exists w|].
  destruct (handle_returns e w) as [w1 E1]. destruct (IH w1) as (w' & E' & Hok').
  { by eapply session_handle_ok. }
  exists w'. split; [|done]. cbn [run]. by erewrite bind_returned by done.
Qed.

(** ** A started session *)

Definition launched (backend : ServiceNode) (connectTimeoutMs idleTimeoutMs : Z) : Session :=
  (Start (make backend connectTimeoutMs idleTimeoutMs)).2.

Lemma Start_spec backend ct it :
  Start (make backend ct it) =
  match make_address (GetIp backend) with
  | Returned a =>
      (Returned tt, with_library [(ConnectTimer, false); (Connecting, false)]
         [ExpiresAfter m_connectTimer ct; Connect (a, GetPort backend)] (make backend ct it))
  | Threw e => (Threw e, make backend ct it)
  end.
Proof.
  unfold Start, ConnectToBackend. erewrite bind_returned by done. cbv zeta.
  change (m_backend (make backend ct it)) with backend.
  destruct (make_address (GetIp backend)) as [a|e]; [|by erewrite bind_threw by done].
  by erewrite bind_returned by done.
Qed.

Lemma session_launched_ok backend ct it a : make_address (GetIp backend) = Returned a ->
  ok (launched backend ct it).
Proof.
  intros Ha. unfold launched. rewrite Start_spec, Ha. cbn [snd]. split.
  - intros d. split; rewrite ?pending_library, ?shuttingDown_library.
    + assert (Hb : length (replicate BUFFER_SIZE x00) = BUFFER_SIZE) by apply length_replicate.
      unfold bytes_ok. destruct d; (split_and!; [exact Hb|done|apply Nat.le_0_l]).
    + by destruct d.
    + by destruct d.
    + intros o dead Ho Hd. unfold fact.
      apply elem_of_cons in Ho as [[= -> ->]|Ho]; [by destruct d|].
      apply list_elem_of_singleton in Ho as [= -> ->]. by destruct d.
  - done.
  - intros o dead Ho ->. by apply elem_of_cons in Ho as [?|?%list_elem_of_singleton].
Qed.

(** Closing: never before [Shutdown], once in it, never after. *)
Definition closed_once (w : Session) : Prop :=
  forall s, count (is_close s) (requests w) = if m_shuttingDown w then 1 else 0.

Lemma next_shuttingDown w o ec bytes : m_shuttingDown (next w o ec bytes) =
  match continues w o ec bytes with Some _ => m_shuttingDown w | None => true end.
Proof. unfold next. destruct (continues w o ec bytes); [done|apply shut_shuttingDown]. Qed.

Lemma handle_closed_once e w w' :
  closed_once w -> handle e w = (Returned tt, w') -> closed_once w'.
Proof.
  intros Hc E s. destruct (possible e w) eqn:Hp.
  2: { rewrite handle_impossible in E by done. injection E as <-. apply Hc. }
  destruct e as [k ec data|k n].
  - pose proof Hp as Hp'. simpl in Hp'. destruct (pending w !! k) as [[o dead]|] eqn:Hk; [|done].
    destruct (handle_complete k ec data o dead w Hp Hk) as (rs & [_ Hrs] & E'). rewrite E in E'.
    injection E' as ->. rewrite requests_library, shuttingDown_library, count_app, Hrs, Hc.
    rewrite next_shuttingDown. unfold closes. rewrite arrived_shuttingDown.
    destruct (continues _ _ _ _), (m_shuttingDown w); done.
  - rewrite handle_transfer in E by done. injection E as <-. unfold progress.
    destruct (pending w !! k) as [[[] ?]|]; apply Hc.
Qed.

Lemma run_invariant (I : Session -> Prop) :
  (forall e w w', I w -> handle e w = (Returned tt, w') -> I w') ->
  forall events w w', I w -> run events w = (Returned tt, w') -> I w'.
Proof.
  intros Hstep events. induction events as [|e events IH]; intros w w' HI E.
  - by injection E as <-.
  - cbn [run] in E. destruct (handle_returns e w) as [w1 E1].
    erewrite bind_returned in E by done. eapply IH; [|done]. by eapply Hstep.
Qed.

Lemma launched_closed_once backend ct it : closed_once (launched backend ct it).
Proof.
  intros s. unfold launched. rewrite Start_spec.
  destruct (make_address (GetIp backend)); by destruct s.
Qed.

(** *** Properties of every schedule *)
Section schedules.
Context (backend : ServiceNode) (ct it : Z) (a : address).
Context (Ha : make_address (GetIp backend) = Returned a).

(** C1: relay integrity.  Whatever completes, in whatever order, what has been sent to
    either side is a prefix of what the other side has sent; at most one buffer is in
    between, and nothing is while the direction is not writing: no byte is lost,
    repeated, changed or reordered before the session shuts down. *)
Theorem relay_integrity events d :
  exists w, run events (launched backend ct it) = (Returned tt, w) /\
    to d w `prefix_of` from d w /\
    length (from d w) <= length (to d w) + BUFFER_SIZE /\
    (m_shuttingDown w = false ->
     (forall o dead, (o, dead) ∈ pending w -> drives d o = true -> writing o = None) ->
     to d w = from d w).
Proof.
  destruct (session_run_ok events _ (session_launched_ok backend ct it a Ha)) as (w & E & Hok).
  destruct (ok_lane _ Hok d) as [(_ & Hpre & Hlen) _ Hdriven Hfact].
  exists w. split_and!; [done..|]. intros Hs Hw.
  assert (Hone : 0 < count (drives_ d) (pending w)) by (rewrite Hdriven by done; lia).
  unfold count in Hone. destruct (List.filter _ _) as [|[o dead] l] eqn:El; [simpl in Hone; lia|].
  assert (Hin : In (o, dead) (List.filter (drives_ d) (pending w))) by (rewrite El; by left).
  apply filter_In in Hin as [Hin%list_elem_of_In Hd].
  specialize (Hfact o dead Hin Hd). unfold fact in Hfact. by rewrite (Hw o dead Hin Hd) in Hfact.
Qed.

(** C8: each direction has one operation in flight, never two, so no buffer is read
    into while it is being written from and no two writes race; and while the session is
    not shutting down it never has none: it cannot stall. *)
Theorem one_operation_per_direction events d :
  exists w, run events (launched backend ct it) = (Returned tt, w) /\
    count (drives_ d) (pending w) <= 1 /\
    (m_shuttingDown w = false -> count (drives_ d) (pending w) = 1).
Proof.
  destruct (session_run_ok events _ (session_launched_ok backend ct it a Ha)) as (w & E & Hok).
  exists w. destruct (ok_lane _ Hok d). by split_and!.
Qed.

(** C29: both sockets are closed exactly once, by the one [Shutdown] that finds the
    session running. *)
Theorem sockets_closed_once events s :
  exists w, run events (launched backend ct it) = (Returned tt, w) /\
    closed w = m_shuttingDown w /\
    count (is_close s) (requests w) = if m_shuttingDown w then 1 else 0.
Proof.
  destruct (session_run_ok events _ (session_launched_ok backend ct it a Ha)) as (w & E & Hok).
  exists w. split_and!; [done|apply Hok|].
  exact (run_invariant closed_once handle_closed_once events _ w (launched_closed_once _ _ _) E s).
Qed.

End schedules.

(** ** After [Shutdown]

    An operation weighs the number of completions it can still lead to, and the bytes it
    has to send.  On a session that is shutting down every event lowers the weight. *)
Definition weigh (p : operation * bool) : nat :=
  match p with
  | (_, true) | (ConnectTimer, _) | (IdleTimer, _) => 1
  | (Connecting, false) => 4
  | (ReadingClient, false) | (ReadingBackend, false) => 2
  | (WritingBackend bytes sent, false) | (WritingClient bytes sent, false) => 3 + (bytes - sent)
  end.

Definition total (l : list (operation * bool)) : nat := foldr (fun p n => weigh p + n) 0 l.
Definition weight (w : Session) : nat := total (pending w).

Lemma total_Permutation l l' : l ≡ₚ l' -> total l = total l'.
Proof. induction 1; simpl; lia. Qed.

Lemma total_app l l' : total (l ++ l') = total l + total l'.
Proof. induction l; simpl; lia. Qed.

Lemma weigh_pos p : 1 <= weigh p.
Proof. destruct p as [[] []]; simpl; lia. Qed.

Lemma weight_delete k p w : pending w !! k = Some p ->
  weight w = weigh p + total (delete k (pending w)).
Proof. intros Hk. unfold weight. by rewrite (total_Permutation _ _ (pending_split _ _ _ Hk)). Qed.

Lemma continues_weight w o dead ec bytes new : closed w = true ->
  is_error ec || negb dead = true -> continues w o ec bytes = Some new ->
  total (map (mark w) new) < weigh (o, dead).
Proof.
  unfold continues, idle_timer, mark. intros Hc Hd Hn.
  destruct ec, dead; try done; destruct o, (0 <? m_idleTimeoutMs w)%Z; simpl in Hn; simplify_eq;
    simpl; rewrite ?Hc; simpl; lia.
Qed.

Lemma shutting_step e w w' : ok w -> m_shuttingDown w = true -> possible e w = true ->
  handle e w = (Returned tt, w') -> weight w' < weight w /\ m_shuttingDown w' = true.
Proof.
  intros Hok Hs Hp E. assert (Hc : closed w = true) by (by rewrite ok_closed).
  destruct e as [k ec data|k n].
  - pose proof Hp as Hp'. simpl in Hp'. destruct (pending w !! k) as [[o dead]|] eqn:Hk; [|done].
    destruct (handle_complete k ec data o dead w Hp Hk) as (rs & _ & E'). rewrite E in E'.
    injection E' as ->. rewrite shuttingDown_library, next_shuttingDown, arrived_shuttingDown.
    rewrite (weight_delete _ _ _ Hk). unfold weight. rewrite pending_library. unfold next.
    destruct (continues _ _ _ _) as [new|] eqn:Hn.
    + rewrite pending_library, arrived_pending, total_app.
      assert (Hw : total (map (mark (arrived k o ec data w)) new) < weigh (o, dead)).
      { eapply continues_weight; [by rewrite arrived_closed| |exact Hn].
        destruct (is_error ec); [done|]. by destruct dead. }
      split; [lia|done].
    + rewrite shut_pending, arrived_pending. split; [|done].
      pose proof (weigh_pos (o, dead)). lia.
  - rewrite handle_transfer in E by done. injection E as <-. cbn [possible] in Hp. unfold progress.
    destruct (pending w !! k) as [[o dead]|] eqn:Hk; [|done].
    destruct o; try done; destruct dead; try done; apply andb_true_iff in Hp as [Hp1 Hp2];
      apply Nat.leb_le in Hp1, Hp2; (split; [|done]);
      rewrite (weight_delete _ _ _ Hk); unfold weight; rewrite pending_library;
      rewrite (total_Permutation _ _ (insert_rest _ _ _ _ Hk)); simpl; lia.
Qed.

(** What an event brings in: a success starts the next operations, and the bytes of a
    read are to be written. *)
Definition supply (e : event) : nat :=
  match e with Complete _ success data => 2 + length data | _ => 0 end.

Lemma continues_supply w o k ec data dead new : is_error ec || negb dead = true ->
  continues w o ec (length data) = Some new ->
  S (total (map (mark w) new)) <= weigh (o, dead) + supply (Complete k ec data).
Proof.
  unfold continues, idle_timer, mark. intros Hd Hn.
  destruct ec, dead; try done; destruct o, (0 <? m_idleTimeoutMs w)%Z; simpl in Hn; simplify_eq;
    simpl; destruct (closed w); simpl; lia.
Qed.

(** Running or shutting down, a session gets one event closer to its end but for what
    the event brings in. *)
Lemma supply_step e w w' : possible e w = true -> handle e w = (Returned tt, w') ->
  S (weight w') <= weight w + supply e.
Proof.
  intros Hp E. destruct e as [k ec data|k n].
  - pose proof Hp as Hp'. simpl in Hp'. destruct (pending w !! k) as [[o dead]|] eqn:Hk; [|done].
    destruct (handle_complete k ec data o dead w Hp Hk) as (rs & _ & E'). rewrite E in E'.
    injection E' as ->. rewrite (weight_delete _ _ _ Hk). unfold weight.
    rewrite pending_library. unfold next. destruct (continues _ _ _ _) as [new|] eqn:Hn.
    + rewrite pending_library, arrived_pending, total_app.
      apply (continues_supply _ _ k _ _ dead) in Hn; [lia|].
      destruct (is_error ec); [done|]. by destruct dead.
    + rewrite shut_pending, arrived_pending. pose proof (weigh_pos (o, dead)). lia.
  - rewrite handle_transfer in E by done. injection E as <-. cbn [possible] in Hp. unfold progress.
    destruct (pending w !! k) as [[o dead]|] eqn:Hk; [|done].
    destruct o; try done; destruct dead; try done; apply andb_true_iff in Hp as [Hp1 Hp2];
      apply Nat.leb_le in Hp1, Hp2; rewrite (weight_delete _ _ _ Hk); unfold weight;
      rewrite pending_library, (total_Permutation _ _ (insert_rest _ _ _ _ Hk)); simpl; lia.
Qed.

(** A schedule in which every event is one the library can produce. *)
Fixpoint all_possible (events : list event) (w : Session) : Prop :=
  match events with
  | [] => True
  | e :: events' => possible e w = true /\ all_possible events' (handle e w).2
  end.

Lemma shutting_bound events w : ok w -> m_shuttingDown w = true ->
  all_possible events w -> length events <= weight w.
Proof.
  revert w; induction events as [|e events IH]; intros w Hok Hs Hp; simpl; [lia|].
  destruct Hp as [Hpe Hp]. destruct (handle_returns e w) as [w1 E1].
  destruct (shutting_step e w w1 Hok Hs Hpe E1) as [Hw Hs1]. rewrite E1 in Hp.
  specialize (IH w1 (session_handle_ok _ _ _ Hok E1) Hs1 Hp). lia.
Qed.

(** C28: after [Shutdown] the session comes to its end: whatever the pending operations
    complete with, only so many completions are left, and when there are none left to
    happen nothing is pending: the last pointer is gone and the destructor runs. *)
Theorem shutdown_terminates backend ct it a before later w w' :
  make_address (GetIp backend) = Returned a ->
  run before (launched backend ct it) = (Returned tt, w) -> m_shuttingDown w = true ->
  all_possible later w -> run later w = (Returned tt, w') ->
  length later <= weight w /\
  ((forall e, possible e w' = false) -> pending w' = []).
Proof.
  intros Ha E Hs Hp E'. destruct (session_run_ok before _ (session_launched_ok backend ct it a Ha)) as (w1 & E1 & Hok).
  rewrite E in E1. injection E1 as <-. split; [by apply shutting_bound|].
  intros Hn. destruct (pending w') as [|[o dead] l] eqn:Hl; [done|].
  specialize (Hn (Complete 0 operation_aborted [])). unfold possible in Hn. by rewrite Hl in Hn.
Qed.

(** The idle timer watches one direction.  It is armed when the backend is connected
    and each time client data has been passed on, and by nothing else: what the
    backend sends does not count as activity. *)
Theorem idle_timer_armed_by_client k ec data o dead w :
  possible (Complete k ec data) w = true -> pending w !! k = Some (o, dead) ->
  exists w', handle (Complete k ec data) w = (Returned tt, w') /\
    count is_arm (requests w') = count is_arm (requests w) +
      match o, ec with
      | Connecting, success | WritingBackend _ _, success =>
          if (0 <? m_idleTimeoutMs w)%Z then 1 else 0
      | _, _ => 0
      end.
Proof.
  intros Hp Hk. destruct (handle_complete k ec data o dead w Hp Hk) as (rs & [Hrs _] & E).
  eexists. split; [exact E|]. rewrite requests_library, count_app, Hrs. f_equal.
  unfold arms, continues. rewrite arrived_idle. unfold idle_timer.
  by destruct ec, o, (0 <? m_idleTimeoutMs w)%Z.
Qed.

(** One completion, for following a schedule step by step. *)
Lemma complete_step k ec data o dead w events :
  possible (Complete k ec data) w = true -> pending w !! k = Some (o, dead) ->
  exists rs, run (Complete k ec data :: events) w =
    run events (with_library (pending (next (arrived k o ec data w) o ec (length data))) rs
                  (next (arrived k o ec data w) o ec (length data))).
Proof.
  intros Hp Hk. destruct (handle_complete k ec data o dead w Hp Hk) as (rs & _ & E).
  eexists. cbn [run]. by erewrite bind_returned by exact E.
Qed.

(** The connect timer and a connection made at the same moment leave a timer behind:
    [Shutdown] has run and closed the sockets, then [OnConnected] arms the idle timer of
    the dead session, which nothing cancels; the session, and the connection counted
    for it, stay until the timer expires. *)
Theorem idle_timer_outlives_shutdown backend ct it a :
  make_address (GetIp backend) = Returned a -> (0 < it)%Z ->
  exists events w, run events (launched backend ct it) = (Returned tt, w) /\
    m_shuttingDown w = true /\ closed w = true /\ pending w = [(IdleTimer, false)].
Proof.
  intros Ha Hit.
  exists [Complete 0 success []; Complete 0 success []; Complete 1 (failure "Bad file descriptor") [];
          Complete 1 (failure "Bad file descriptor") []].
  unfold launched. rewrite Start_spec, Ha. cbn [snd].
  destruct (complete_step 0 success [] ConnectTimer false
    (with_library [(ConnectTimer, false); (Connecting, false)]
       [ExpiresAfter m_connectTimer ct; Connect (a, GetPort backend)] (make backend ct it))
    [Complete 0 success []; Complete 1 (failure "Bad file descriptor") [];
     Complete 1 (failure "Bad file descriptor") []]) as [rs ->]; [done..|].
  set (w1 := next _ _ _ _).
  assert (E1 : exists r, w1 = with_library [(Connecting, false)] r (with_flags true true (make backend ct it)))
    by (eexists; reflexivity).
  destruct E1 as [r1 ->]. rewrite pending_library, library_library.
  destruct (complete_step 0 success [] Connecting false
    (with_library [(Connecting, false)] rs (with_flags true true (make backend ct it)))
    [Complete 1 (failure "Bad file descriptor") []; Complete 1 (failure "Bad file descriptor") []])
    as [rs2 ->]; [done..|].
  set (w2 := next _ _ _ _).
  assert (E2 : exists r, w2 = with_library [(IdleTimer, false); (ReadingClient, true); (ReadingBackend, true)] r
     (with_flags true true (make backend ct it))).
  { unfold w2, next, continues, idle_timer. cbn. rewrite (proj2 (Z.ltb_lt 0 it)) by done. by eexists. }
  destruct E2 as [r2 ->]. rewrite pending_library, library_library.
  destruct (complete_step 1 (failure "Bad file descriptor") [] ReadingClient true
    (with_library [(IdleTimer, false); (ReadingClient, true); (ReadingBackend, true)] rs2
       (with_flags true true (make backend ct it)))
    [Complete 1 (failure "Bad file descriptor") []]) as [rs3 ->]; [done..|].
  destruct (complete_step 1 (failure "Bad file descriptor") [] ReadingBackend true
    (with_library [(IdleTimer, false); (ReadingBackend, true)] rs3 (with_flags true true (make backend ct it)))
    []) as [rs4 E4]; [done..|].
  set (w4 := next _ _ _ _) in E4.
  assert (E5 : exists r, w4 = with_library [(IdleTimer, false)] r (with_flags true true (make backend ct it)))
    by (eexists; reflexivity).
  destruct E5 as [r4 E5]. rewrite E5 in E4. eexists. split; [exact E4|].
  split; [reflexivity|split; reflexivity].
Qed.

(** There is no half-close.  A client that has sent its request and closes its side
    for writing loses the answer: end of file in one direction closes both sockets
    while the other direction still has bytes to deliver. *)
Theorem end_of_file_drops_answer backend ct a answer :
  make_address (GetIp backend) = Returned a -> 1 <= length answer <= BUFFER_SIZE ->
  exists events w, run events (launched backend ct 0) = (Returned tt, w) /\
    Forall (fun e => match e with Complete _ (failure what) _ => what = "End of file" | _ => True end)
      events /\
    fromBackend w = answer /\ toClient w = [] /\ closed w = true.
Proof.
  intros Ha [Hl1 Hl2].
  exists [Complete 1 success []; Complete 2 success answer; Complete 1 (failure "End of file") []].
  unfold launched. rewrite Start_spec, Ha. cbn [snd]. set (w0 := make backend ct 0).
  destruct (complete_step 1 success [] Connecting false
    (with_library [(ConnectTimer, false); (Connecting, false)]
       [ExpiresAfter m_connectTimer ct; Connect (a, GetPort backend)] w0)
    [Complete 2 success answer; Complete 1 (failure "End of file") []]) as [rs ->]; [done..|].
  set (w1 := next _ _ _ _).
  assert (E1 : exists r, w1 = with_library [(ConnectTimer, false); (ReadingClient, false); (ReadingBackend, false)] r w0)
    by (eexists; reflexivity).
  destruct E1 as [r1 ->]. rewrite pending_library, library_library.
  destruct (complete_step 2 success answer ReadingBackend false
    (with_library [(ConnectTimer, false); (ReadingClient, false); (ReadingBackend, false)] rs w0)
    [Complete 1 (failure "End of file") []]) as [rs2 ->].
  { cbn [possible]. rewrite pending_library. cbn [lookup list_lookup].
    rewrite (proj2 (Nat.leb_le 1 _)), (proj2 (Nat.leb_le _ _)) by done. done. }
  { done. }
  set (w2 := next _ _ _ _).
  assert (E2 : exists r bb, w2 = with_library
      [(ConnectTimer, false); (ReadingClient, false); (WritingClient (length answer) 0, false)] r
      (with_wires (m_clientBuf w0) bb [] [] answer [] w0)) by (do 2 eexists; reflexivity).
  destruct E2 as (r2 & bb & ->). rewrite pending_library, library_library.
  destruct (complete_step 1 (failure "End of file") [] ReadingClient false
    (with_library [(ConnectTimer, false); (ReadingClient, false); (WritingClient (length answer) 0, false)] rs2
       (with_wires (m_clientBuf w0) bb [] [] answer [] w0)) []) as [rs3 E3]; [done..|].
  eexists. split; [exact E3|]. split; [|done]. by repeat constructor.
Qed.

(** A backend whose address does not parse: [Start] throws before any operation is
    started, so nothing keeps the session alive. *)
Theorem Start_bad_address backend ct it e : make_address (GetIp backend) = Threw e ->
  exists w, Start (make backend ct it) = (Threw e, w) /\ kind e = KSystemError /\
    pending w = [] /\ requests w = [].
Proof.
  intros Ha. eexists. rewrite Start_spec, Ha. split; [done|].
  split; [by eapply make_address_throws|done].
Qed.

End Session.
End Session.

(** ** An example: a dotted quad as backend *)
Module SessionWitnesses.
Import Session.

#[local] Instance dotted : Asio := string_asio IsValidIpv4.

Definition web : ServiceNode := ServiceNode.make "web" "10.0.0.1" 80 1.

(** Connected; two bytes arrive from the client, one is sent, then the other; three from
    the backend. *)
Definition exchange : list event :=
  [Complete 1 success []; Complete 2 success [x41; x42]; Transfer 3 1; Complete 3 success [];
   Complete 2 success [x43; x44; x45]].

Example relay_integrity_witness :
  exists w, run exchange (launched web 1000 30000) = (Returned tt, w) /\
    to Up w `prefix_of` from Up w /\ length (from Up w) <= length (to Up w) + BUFFER_SIZE /\
    (m_shuttingDown w = false ->
     (forall o dead, (o, dead) ∈ pending w -> drives Up o = true -> writing o = None) ->
     to Up w = from Up w).
Proof. apply (relay_integrity web 1000 30000 ("10.0.0.1" : @address dotted) eq_refl exchange Up). Defined.

Example exchange_sent : toBackend (run exchange (launched web 1000 30000)).2 = [x41; x42].
Proof. vm_compute. reflexivity. Qed.

Example one_operation_per_direction_witness :
  exists w, run exchange (launched web 1000 30000) = (Returned tt, w) /\
    count (drives_ Down) (pending w) <= 1 /\
    (m_shuttingDown w = false -> count (drives_ Down) (pending w) = 1).
Proof. apply (one_operation_per_direction web 1000 30000 ("10.0.0.1" : @address dotted) eq_refl exchange Down). Defined.

Example sockets_closed_once_witness :
  exists w, run [Complete 0 success []; Complete 0 success []] (launched web 1000 30000) = (Returned tt, w) /\
    closed w = m_shuttingDown w /\
    count (is_close m_backendSocket) (requests w) = if m_shuttingDown w then 1 else 0.
Proof.
  apply (sockets_closed_once web 1000 30000 ("10.0.0.1" : @address dotted) eq_refl
           [Complete 0 success []; Complete 0 success []] m_backendSocket).
Defined.

(** The connect timer expires first. *)
Definition timed_out : Session := (run [Complete 0 success []] (launched web 1000 30000)).2.

Lemma run_returned events w :
  (run events w).1 = Returned tt -> run events w = (Returned tt, (run events w).2).
Proof. intros E. rewrite <- E. apply surjective_pairing. Qed.

Example shutdown_terminates_witness :
  length [Complete 0 operation_aborted []] <= weight timed_out /\
  ((forall e, possible e (run [Complete 0 operation_aborted []] timed_out).2 = false) ->
   pending (run [Complete 0 operation_aborted []] timed_out).2 = []).
Proof.
  apply (shutdown_terminates web 1000 30000 ("10.0.0.1" : @address dotted) [Complete 0 success []]
    [Complete 0 operation_aborted []] timed_out (run [Complete 0 operation_aborted []] timed_out).2 eq_refl).
  - apply run_returned. vm_compute. reflexivity.
  - vm_compute. reflexivity.
  - split; [vm_compute; reflexivity|exact I].
  - apply run_returned. vm_compute. reflexivity.
Defined.

Example idle_timer_armed_by_client_witness :
  exists w', handle (Complete 1 success []) (launched web 1000 30000) = (Returned tt, w') /\
    count is_arm (requests w') = count is_arm (requests (launched web 1000 30000)) +
      (if (0 <? m_idleTimeoutMs (launched web 1000 30000))%Z then 1 else 0).
Proof.
  apply (idle_timer_armed_by_client 1 success [] Connecting false (launched web 1000 30000));
    vm_compute; reflexivity.
Defined.

Example idle_timer_outlives_shutdown_witness :
  exists events w, run events (launched web 1000 30000) = (Returned tt, w) /\
    m_shuttingDown w = true /\ closed w = true /\ pending w = [(IdleTimer, false)].
Proof.
  apply (idle_timer_outlives_shutdown web 1000 30000 ("10.0.0.1" : @address dotted) eq_refl). lia.
Defined.

Example end_of_file_drops_answer_witness :
  exists events w, run events (launched web 1000 0) = (Returned tt, w) /\
    Forall (fun e => match e with Complete _ (failure what) _ => what = "End of file" | _ => True end)
      events /\
    fromBackend w = [x4f; x4b] /\ toClient w = [] /\ closed w = true.
Proof.
  apply (end_of_file_drops_answer web 1000 ("10.0.0.1" : @address dotted) [x4f; x4b] eq_refl).
  split; apply Nat.leb_le; vm_compute; reflexivity.
Defined.

Example Start_bad_address_witness :
  exists w, Start (make (ServiceNode.make "web" "web.internal" 80 1) 1000 0)
              = (Threw (Exn KSystemError "Invalid argument"), w) /\
    KSystemError = KSystemError /\ pending w = [] /\ requests w = [].
Proof.
  apply (@Start_bad_address dotted (ServiceNode.make "web" "web.internal" 80 1) 1000 0
           (Exn KSystemError "Invalid argument")).
  vm_compute. reflexivity.
Defined.

End SessionWitnesses.
