(* ===== verification/TcpProxy.v ===== *)
(** * core/proxy/TcpProxy: the acceptor

    One accept is pending at a time.  Each accepted connection is routed by the
    strategy, and becomes a session that counts as a connection of its service from
    before it is started until it is destroyed.

    The proxy is generic in the strategy: its theorems use [RoutingContract] only. *)

From S2P Require Import Prelude Node State Routing Asio Session.
Import ServiceState ServicePool IRoutingStrategy.

Module TcpProxy.
Section TcpProxy.
Context `{Asio} {St : Type} `{RoutingContract St}.

Inductive request :=
  | ReuseAddress
  | CloseAcceptor
  | CloseClient
  | Print (text : string).

(** The proxy's fields (the pool and the strategy by reference); then the acceptor: whether
    it is closed, and the accepts pending on it, with a mark on those started after
    that; the sessions alive, each with the index of its service, and how many there
    have been; the requests made. *)
Record TcpProxy := mkProxy {
  m_pool : ServicePool;
  m_strategy : St;
  m_connectTimeoutMs : Z;
  m_idleTimeoutMs : Z;
  closed : bool;
  accepting : list bool;
  sessions : gmap nat (nat * Session.Session);
  opened : nat;
  requests : list request
}.

Definition make (pool : ServicePool) (strategy : St) (connectTimeoutMs idleTimeoutMs : Z)
    : TcpProxy :=
  mkProxy pool strategy connectTimeoutMs idleTimeoutMs false [] ∅ 0 [].

(** The constructor: the address is parsed, and the acceptor opened, bound and set to
    listen, which [listen] says the outcome of. *)
Definition construct (listen : outcome unit) (listenAddress : string) (pool : ServicePool)
    (strategy : St) (connectTimeoutMs idleTimeoutMs : Z) : outcome TcpProxy :=
  _ ← make_address listenAddress;
  _ ← listen;
  Returned (make pool strategy connectTimeoutMs idleTimeoutMs).

Definition with_pool p (w : TcpProxy) := mkProxy p (m_strategy w) (m_connectTimeoutMs w)
  (m_idleTimeoutMs w) (closed w) (accepting w) (sessions w) (opened w) (requests w).
Definition with_strategy s (w : TcpProxy) := mkProxy (m_pool w) s (m_connectTimeoutMs w)
  (m_idleTimeoutMs w) (closed w) (accepting w) (sessions w) (opened w) (requests w).
Definition with_acceptor c l (w : TcpProxy) := mkProxy (m_pool w) (m_strategy w)
  (m_connectTimeoutMs w) (m_idleTimeoutMs w) c l (sessions w) (opened w) (requests w).
Definition with_sessions m n (w : TcpProxy) := mkProxy (m_pool w) (m_strategy w)
  (m_connectTimeoutMs w) (m_idleTimeoutMs w) (closed w) (accepting w) m n (requests w).

Definition request_ (r : request) : M TcpProxy unit :=
  modify (fun w => mkProxy (m_pool w) (m_strategy w) (m_connectTimeoutMs w)
    (m_idleTimeoutMs w) (closed w) (accepting w) (sessions w) (opened w) (requests w ++ [r])).
Definition on_service (index : nat) (f : ServiceState -> ServiceState) : M TcpProxy unit :=
  modify (fun w => with_pool (update_at index f (m_pool w)) w).

(** [try { x.close(); } catch (const system_error &e) { println(...); }], for the acceptor
    (socket 0) and for a client that is turned away (socket 1). *)
Definition close_caught (r : request) (socket : nat) (text : string) : M TcpProxy unit :=
  w ← get_state;
  _ ← request_ r;
  try_catch (lift (socket_close socket (length (requests w)))) KSystemError
    (fun e => request_ (Print (text +:+ what e))).

Definition AcceptNext : M TcpProxy unit :=
  modify (fun w => with_acceptor (closed w) (accepting w ++ [closed w]) w).

(** [set_option] says whether setting the option threw. *)
Definition Start (set_option : outcome unit) : M TcpProxy unit :=
  _ ← request_ ReuseAddress;
  _ ← lift set_option;
  AcceptNext.

Definition Stop : M TcpProxy unit :=
  _ ← modify (fun w => with_acceptor true (accepting w) w);
  close_caught CloseAcceptor 0 "TcpProxy: acceptor close error: ".

(** Lines 69 to 82: the session is made and counted, then started.  If starting it
    throws, unwinding destroys it and its destructor takes the count back. *)
Definition open_session (backendIdx : nat) : M TcpProxy unit :=
  w ← get_state;
  backend ← lift (GetService (m_pool w) backendIdx);
  let session := Session.make (GetNode backend) (m_connectTimeoutMs w) (m_idleTimeoutMs w) in
  _ ← on_service backendIdx IncrementConnections;
  match Session.Start session with
  | (Returned _, session) =>
      modify (fun w => with_sessions (<[opened w := (backendIdx, session)]> (sessions w))
                                     (S (opened w)) w)
  | (Threw e, _) => _ ← on_service backendIdx DecrementConnections; throw e
  end.

(** What follows the call of the strategy. *)
Definition routed (routingKey : string) (result : outcome route) : M TcpProxy unit :=
  match result with
  | Threw e => throw e
  | Returned (Unexpected _) =>
      _ ← request_ (Print ("TcpProxy: no healthy backend for " +:+ routingKey
                           +:+ ", dropping connection"));
      _ ← close_caught CloseClient 1 "TcpProxy: close error: ";
      AcceptNext
  | Returned (Value backendIdx) =>
      _ ← open_session backendIdx;
      AcceptNext
  end.

(** [peer] is the outcome of [remote_endpoint()], as a string.  [None]: the strategy is
    still running when its fuel is spent. *)
Definition OnAccept (fuel : nat) (ec : error_code) (peer : outcome string) (w : TcpProxy)
    : option (outcome unit * TcpProxy) :=
  match ec with
  | operation_aborted => Some (Returned tt, w)
  | failure _ =>
      Some ((_ ← request_ (Print ("TcpProxy: accept error: " +:+ message ec)); AcceptNext) w)
  | success =>
      match peer with
      | Threw e => Some (Threw e, w)
      | Returned routingKey =>
          match SelectService fuel (m_strategy w) (m_pool w) routingKey with
          | None => None
          | Some (result, strategy) => Some (routed routingKey result (with_strategy strategy w))
          end
      end
  end.

(** ** Schedules *)

Inductive event :=
  | Accept (k : nat) (ec : error_code) (peer : outcome string)
  | OfSession (id : nat) (e : Session.event)
  | CallStop.

(** No accept succeeds that was started on the closed acceptor. *)
Definition possible (e : event) (w : TcpProxy) : bool :=
  match e with
  | Accept k ec _ =>
      match accepting w !! k with Some dead => is_error ec || negb dead | None => false end
  | OfSession id e =>
      match sessions w !! id with Some (_, s) => Session.possible e s | None => false end
  | CallStop => true
  end.

(** After a handler of a session, the session is destroyed if nothing is pending: its
    destructor calls [DecrementConnections]. *)
Definition session_event (id : nat) (e : Session.event) : M TcpProxy unit :=
  w ← get_state;
  match sessions w !! id with
  | None => skip
  | Some (i, s) =>
      let (r, s') := Session.handle e s in
      _ ← (if decide (Session.pending s' = [])
           then _ ← modify (with_sessions (delete id (sessions w)) (opened w));
                on_service i DecrementConnections
           else modify (with_sessions (<[id := (i, s')]> (sessions w)) (opened w)));
      lift r
  end.

Definition handle (fuel : nat) (e : event) (w : TcpProxy) : option (outcome unit * TcpProxy) :=
  if negb (possible e w) then Some (Returned tt, w)
  else
    match e with
    | Accept k ec peer => OnAccept fuel ec peer (with_acceptor (closed w) (delete k (accepting w)) w)
    | OfSession id e => Some (session_event id e w)
    | CallStop => Some (Stop w)
    end.

Fixpoint run (fuel : nat) (events : list event) (w : TcpProxy)
    : option (outcome unit * TcpProxy) :=
  match events with
  | [] => Some (Returned tt, w)
  | e :: events' =>
      match handle fuel e w with
      | Some (Returned _, w') => run fuel events' w'
      | x => x
      end
  end.

(** ** The invariant *)

(** The sessions alive on service [i]. *)
Definition live (i : nat) (m : gmap nat (nat * Session.Session)) : nat :=
  size (filter (fun p => p.2.1 = i) m).

Record ok (w : TcpProxy) : Prop := {
  ok_count : (Z.of_nat (opened w) + 1 < 2 ^ 64)%Z ->
             forall i, active_at (m_pool w) i = Z.of_nat (live i (sessions w));
  ok_fresh id : is_Some (sessions w !! id) -> id < opened w;
  ok_size : size (sessions w) <= opened w;
  ok_session id i s : sessions w !! id = Some (i, s) ->
                      i < GetSize (m_pool w) /\ Session.pending s <> [] /\ Session.ok s;
  ok_accept : length (accepting w) <= 1;
  ok_built : built_for (m_strategy w) (GetSize (m_pool w))
}.

Lemma live_insert i id j s m : m !! id = None ->
  live i (<[id := (j, s)]> m) = (if decide (j = i) then 1 else 0) + live i m.
Proof.
  intros Hm. unfold live. rewrite map_filter_insert. simpl. case_decide.
  - rewrite map_size_insert_None; [done|]. apply map_lookup_filter_None. by left.
  - by rewrite delete_id.
Qed.

Lemma live_delete i id j s m : m !! id = Some (j, s) ->
  live i m = (if decide (j = i) then 1 else 0) + live i (delete id m).
Proof.
  intros Hm. rewrite <- (insert_delete_id m id (j, s)) at 1 by done.
  apply live_insert, lookup_delete_eq.
Qed.

Lemma live_update i id j s s' m : m !! id = Some (j, s) ->
  live i (<[id := (j, s')]> m) = live i m.
Proof.
  intros Hm. rewrite (live_delete i id j s m) by done.
  rewrite <- insert_delete_eq. apply live_insert, lookup_delete_eq.
Qed.

Lemma live_le i m : live i m <= size m.
Proof. apply map_size_filter. Qed.

(** A change of one service's counter. *)
Lemma active_update p i f g j : (forall s, GetActiveConnections (f s) = g (GetActiveConnections s)) ->
  i < GetSize p ->
  active_at (update_at i f p) j = if decide (j = i) then g (active_at p i) else active_at p j.
Proof.
  intros Hg [s Hs]%lookup_lt_is_Some_2. unfold active_at, update_at. cbn [State.ServicePool.m_services].
  case_decide as Hj.
  - subst. rewrite list_lookup_alter_eq, Hs. apply Hg.
  - by rewrite list_lookup_alter_ne.
Qed.

Lemma active_increment p i j : i < GetSize p -> (0 <= active_at p i < 2 ^ 64 - 1)%Z ->
  active_at (update_at i IncrementConnections p) j
  = (active_at p j + if decide (j = i) then 1 else 0)%Z.
Proof.
  intros Hi Hr. rewrite (active_update p i _ (fun n => u64 (n + 1))) by done.
  case_decide; subst; [|lia]. apply wrapu_small. unfold in_u. lia.
Qed.

Lemma active_decrement p i j : i < GetSize p -> (0 < active_at p i)%Z ->
  active_at (update_at i DecrementConnections p) j
  = (active_at p j - if decide (j = i) then 1 else 0)%Z.
Proof.
  intros Hi Hr. rewrite (active_update p i _ (fun n => decrement_loop [] n n)) by done.
  case_decide; subst; [|lia]. rewrite decrement_loop_spec by lia. lia.
Qed.

(** ** The parts of a handler *)

(** Changes that the invariant does not see. *)
Definition same_state (w w' : TcpProxy) : Prop :=
  m_pool w' = m_pool w /\ sessions w' = sessions w /\ opened w' = opened w /\
  m_strategy w' = m_strategy w /\ closed w' = closed w.

Lemma proxy_request_spec r w : exists w', request_ r w = (Returned tt, w') /\ same_state w w' /\
  accepting w' = accepting w.
Proof. by eexists. Qed.

Lemma close_caught_spec r socket text w :
  exists w', close_caught r socket text w = (Returned tt, w') /\ same_state w w' /\
    accepting w' = accepting w.
Proof.
  unfold close_caught. erewrite bind_returned by done. erewrite bind_returned by done.
  unfold try_catch, lift.
  destruct (socket_close socket (length (requests w))) as [[]|e] eqn:E; [by eexists|].
  rewrite decide_True by (by eapply socket_close_throws). by eexists.
Qed.

Lemma same_trans w1 w2 w3 : same_state w1 w2 -> same_state w2 w3 -> same_state w1 w3.
Proof. intros (?&?&?&?&?) (?&?&?&?&?). repeat split; congruence. Qed.

Lemma same_ok w w' : same_state w w' -> length (accepting w') <= 1 -> ok w -> ok w'.
Proof.
  intros (E1 & E2 & E3 & E4 & _) Ha [H1' H2' H3' H4' _ H6'].
  by split; rewrite ?E1, ?E2, ?E3, ?E4.
Qed.

Lemma ok_active w i : ok w -> (Z.of_nat (opened w) + 1 < 2 ^ 64)%Z ->
  (0 <= active_at (m_pool w) i < 2 ^ 64 - 1)%Z.
Proof.
  intros Hok Hb. rewrite (ok_count _ Hok Hb).
  pose proof (live_le i (sessions w)). pose proof (ok_size _ Hok). lia.
Qed.

Lemma fresh_session w : ok w -> sessions w !! opened w = None.
Proof.
  intros Hok. destruct (sessions w !! opened w) eqn:E; [|done].
  pose proof (ok_fresh _ Hok (opened w) ltac:(by eexists)). lia.
Qed.

(** Opening a session: one more connection and one more session, or, when it cannot
    be started, neither. *)
Lemma open_session_spec i w : ok w -> i < GetSize (m_pool w) ->
  exists b, GetService (m_pool w) i = Returned b /\
  match make_address (ServiceNode.GetIp (GetNode b)) with
  | Returned _ => exists s, open_session i w = (Returned tt,
        with_sessions (<[opened w := (i, s)]> (sessions w)) (S (opened w))
          (with_pool (update_at i IncrementConnections (m_pool w)) w)) /\
      s = Session.launched (GetNode b) (m_connectTimeoutMs w) (m_idleTimeoutMs w) /\
      Session.pending s <> [] /\ Session.ok s
  | Threw e => open_session i w = (Threw e,
        with_pool (update_at i DecrementConnections
                     (update_at i IncrementConnections (m_pool w))) w)
  end.
Proof.
  intros Hok Hi. destruct (GetService_returned _ _ Hi) as [b Hb]. exists b. split; [done|].
  unfold open_session. erewrite bind_returned by done.
  erewrite bind_returned by (unfold lift; by rewrite Hb).
  erewrite bind_returned by done. unfold Session.launched. rewrite Session.Start_spec.
  destruct (make_address _) as [a|e] eqn:Ea; [|done].
  eexists. split; [reflexivity|]. split; [done|]. split; [done|].
  pose proof (Session.session_launched_ok (GetNode b) (m_connectTimeoutMs w) (m_idleTimeoutMs w) a Ea) as Hs.
  unfold Session.launched in Hs. by rewrite Session.Start_spec, Ea in Hs.
Qed.

Lemma opened_ok i s w : ok w -> i < GetSize (m_pool w) ->
  Session.pending s <> [] /\ Session.ok s ->
  ok (with_sessions (<[opened w := (i, s)]> (sessions w)) (S (opened w))
        (with_pool (update_at i IncrementConnections (m_pool w)) w)).
Proof.
  intros Hok Hi Hs. pose proof (fresh_session w Hok) as Hf.
  split; cbn [m_pool sessions opened accepting m_strategy with_sessions with_pool];
    rewrite ?update_at_size; try apply Hok.
  - intros Hb j. rewrite active_increment, live_insert by
      (first [done|apply ok_active; [done|lia]]).
    rewrite (ok_count _ Hok) by lia. repeat case_decide; subst; (done || lia).
  - intros id Hid. destruct (decide (id = opened w)) as [->|Hne]; [lia|].
    rewrite lookup_insert_ne in Hid by done. pose proof (ok_fresh _ Hok id Hid). lia.
  - rewrite map_size_insert_None by done. pose proof (ok_size _ Hok). lia.
  - intros id j t Hid. destruct (decide (id = opened w)) as [->|Hne].
    + rewrite lookup_insert_eq in Hid. by simplify_eq.
    + rewrite lookup_insert_ne in Hid by done. by eapply ok_session.
Qed.

Lemma unopened_ok i w : ok w -> i < GetSize (m_pool w) ->
  ok (with_pool (update_at i DecrementConnections (update_at i IncrementConnections (m_pool w))) w).
Proof.
  intros Hok Hi. split; cbn [m_pool sessions opened accepting m_strategy with_pool];
    rewrite ?update_at_size; try apply Hok.
  intros Hb j. pose proof (ok_active w i Hok Hb).
  rewrite active_decrement; rewrite ?update_at_size, ?active_increment by done; [|done|].
  - rewrite (ok_count _ Hok) by done. lia.
  - case_decide; [lia|done].
Qed.

Lemma updated_ok id i s s' w : ok w -> sessions w !! id = Some (i, s) ->
  Session.pending s' <> [] -> Session.ok s' -> ok (with_sessions (<[id := (i, s')]> (sessions w)) (opened w) w).
Proof.
  intros Hok Hid Hs Hsok. split; cbn [m_pool sessions opened accepting m_strategy with_sessions];
    try apply Hok.
  - intros Hb j. rewrite (live_update _ _ _ _ _ _ Hid). by apply Hok.
  - intros id' Hid'. apply Hok. destruct (decide (id' = id)) as [->|]; [by eexists|].
    by rewrite lookup_insert_ne in Hid' by done.
  - rewrite map_size_insert_Some by eauto. apply Hok.
  - intros id' j t Hid'. destruct (decide (id' = id)) as [->|Hne].
    + rewrite lookup_insert_eq in Hid'. simplify_eq. split; [|done]. by eapply ok_session.
    + rewrite lookup_insert_ne in Hid' by done. by eapply ok_session.
Qed.

Lemma destroyed_ok id i s w : ok w -> sessions w !! id = Some (i, s) ->
  ok (with_pool (update_at i DecrementConnections (m_pool w))
        (with_sessions (delete id (sessions w)) (opened w) w)).
Proof.
  intros Hok Hid. destruct (ok_session _ Hok _ _ _ Hid) as [Hi _].
  split; cbn [m_pool sessions opened accepting m_strategy with_sessions with_pool];
    rewrite ?update_at_size; try apply Hok.
  - intros Hb j. pose proof (live_delete i id i s _ Hid) as Hl.
    rewrite decide_True in Hl by done.
    rewrite active_decrement by (first [done|rewrite (ok_count _ Hok) by done; lia]).
    rewrite (ok_count _ Hok) by done. rewrite (live_delete j id i s _ Hid).
    repeat case_decide; subst; (done || lia).
  - intros id' Hid'. apply Hok. destruct (decide (id' = id)) as [->|]; [by eexists|].
    by rewrite lookup_delete_ne in Hid' by done.
  - rewrite map_size_delete_Some by eauto. pose proof (ok_size _ Hok). lia.
  - intros id' j t [_ Hid']%lookup_delete_Some. by eapply ok_session.
Qed.

(** ** What a handler does *)

Lemma AcceptNext_spec w : AcceptNext w = (Returned tt, with_acceptor (closed w) (accepting w ++ [closed w]) w).
Proof. done. Qed.

(** What becomes of a routed connection. *)
Definition dropped (w w' : TcpProxy) : Prop :=
  (forall i, healthy_at (m_pool w) i = false) /\
  m_pool w' = m_pool w /\ sessions w' = sessions w /\ opened w' = opened w.

Definition relayed (i : nat) (w w' : TcpProxy) : Prop :=
  exists b, healthy_at (m_pool w) i /\ GetService (m_pool w) i = Returned b /\
    m_pool w' = update_at i IncrementConnections (m_pool w) /\
    sessions w !! opened w = None /\
    sessions w' = <[opened w := (i, Session.launched (GetNode b) (m_connectTimeoutMs w)
                                      (m_idleTimeoutMs w))]> (sessions w) /\
    opened w' = S (opened w).

Definition unparsable (i : nat) (e : exn) (w w' : TcpProxy) : Prop :=
  exists b, healthy_at (m_pool w) i /\ GetService (m_pool w) i = Returned b /\
    make_address (ServiceNode.GetIp (GetNode b)) = Threw e /\
    m_pool w' = update_at i DecrementConnections (update_at i IncrementConnections (m_pool w)) /\
    sessions w' = sessions w /\ opened w' = opened w.

(** A connection that is routed: dropped, or opened on a healthy service, or fatal
    because the service's address does not parse.  [accepting] is empty before. *)
Lemma routed_spec key result w : ok w -> accepting w = [] -> route_ok (m_pool w) result ->
  exists r w', routed key result w = (r, w') /\ ok w' /\ closed w' = closed w /\
    m_strategy w' = m_strategy w /\
    accepting w' = match r with Returned _ => [closed w] | Threw _ => [] end /\
    exists answer, result = Returned answer /\
    match answer, r with
    | Unexpected _, Returned _ => dropped w w'
    | Value i, Returned _ => relayed i w w'
    | Value i, Threw e => unparsable i e w w'
    | Unexpected _, Threw _ => False
    end.
Proof.
  intros Hok Ha Hr. destruct result as [[i|e]|e]; [| |done].
  - assert (Hi : i < GetSize (m_pool w)) by (apply healthy_at_lt; exact Hr).
    destruct (open_session_spec i w Hok Hi) as (b & Hb & Hopen).
    unfold routed. destruct (make_address _) as [a|e] eqn:Ea.
    + destruct Hopen as (s & E & Es & Hs). do 2 eexists.
      erewrite bind_returned by exact E. rewrite AcceptNext_spec. split; [reflexivity|].
      pose proof (opened_ok i s w Hok Hi Hs) as Hok'.
      cbn [m_pool m_strategy sessions opened closed accepting with_acceptor with_sessions with_pool].
      rewrite Ha. split; [refine (same_ok _ _ _ _ Hok'); [by repeat split|simpl; lia]|].
      split_and!; try done. exists (Value i). split; [done|]. exists b.
      split_and!; try done; [by apply fresh_session|]. by rewrite <- Es.
    + do 2 eexists. erewrite bind_threw by exact Hopen.
      split; [reflexivity|]. split; [by apply unopened_ok|]. split_and!; try done.
      exists (Value i). split; [done|]. by exists b.
  - unfold routed.
    destruct (proxy_request_spec (Print ("TcpProxy: no healthy backend for " +:+ key
      +:+ ", dropping connection")) w) as (w1 & E1 & S1 & A1).
    erewrite bind_returned by exact E1.
    destruct (close_caught_spec CloseClient 1 "TcpProxy: close error: " w1) as (w2 & E2 & S2 & A2).
    erewrite bind_returned by exact E2. rewrite AcceptNext_spec. do 2 eexists. split; [reflexivity|].
    pose proof (same_trans _ _ _ S1 S2) as (P1 & P2 & P3 & P4 & P5).
    cbn [m_strategy closed accepting with_acceptor]. rewrite A2, A1, Ha, P4, P5.
    split; [refine (same_ok _ _ _ _ Hok); [by split_and!|simpl; lia]|].
    split_and!; try done. exists (Unexpected e). split; [done|]. split_and!; try done.
    + intros i. destruct e; [by apply Hr|]. destruct (healthy_at (m_pool w) i) eqn:Hi; [|done].
      assert (Hlt : i < GetSize (m_pool w)) by (apply healthy_at_lt; by rewrite Hi).
      simpl in Hr. lia.
Qed.

Lemma strategy_ok s w : ok w -> built_for s (GetSize (m_pool w)) -> ok (with_strategy s w).
Proof. intros [] ?. by split. Qed.

(** The whole accept handler. *)
Lemma OnAccept_spec fuel ec peer w r w' : ok w -> accepting w = [] ->
  OnAccept fuel ec peer w = Some (r, w') ->
  ok w' /\ closed w' = closed w /\
  (r = Returned tt -> ec <> operation_aborted -> accepting w' = [closed w]).
Proof.
  intros Hok Ha E. destruct ec as [| |what]; cbn [OnAccept] in E.
  - destruct peer as [key|e]; [|by injection E as <- <-].
    destruct (IRoutingStrategy.SelectService _ _ _ _) as [[result s]|] eqn:Es; [|done]. apply (inj Some) in E.
    pose proof (strategy_ok s w Hok (select_keeps _ _ _ _ _ _ (ok_built _ Hok) Es)) as Hok'.
    pose proof (select_ok _ _ _ _ _ _ (ok_built _ Hok) Es) as Hr.
    destruct (routed_spec key result (with_strategy s w) Hok' Ha Hr)
      as (r1 & w1 & E1 & Hw & Hc & _ & Hacc & _).
    rewrite E in E1. injection E1 as <- <-. split_and!; [done..|]. intros -> _. exact Hacc.
  - by injection E as <- <-.
  - apply (inj Some) in E. destruct (proxy_request_spec (Print ("TcpProxy: accept error: " +:+ message (failure what))) w)
      as (w1 & E1 & S1 & A1).
    erewrite bind_returned in E by exact E1. rewrite AcceptNext_spec in E. injection E as <- <-.
    pose proof S1 as (P1 & P2 & P3 & P4 & P5).
    cbn [closed accepting with_acceptor]. rewrite A1, Ha, P5. split; [|done].
    refine (same_ok _ _ _ _ Hok); [by split_and!|simpl; lia].
Qed.

Lemma accepting_taken k dead w : ok w -> accepting w !! k = Some dead ->
  accepting w = [dead] /\ delete k (accepting w) = [].
Proof.
  intros Hok Hk. pose proof (ok_accept _ Hok) as Hl.
  destruct (accepting w) as [|x [|y l]]; simpl in Hl; [done| |lia].
  destruct k; simpl in Hk; by simplify_eq.
Qed.

Lemma session_event_spec id e w : ok w ->
  exists w', session_event id e w = (Returned tt, w') /\ ok w' /\ closed w' = closed w /\
    accepting w' = accepting w.
Proof.
  intros Hok. unfold session_event. erewrite bind_returned by done.
  destruct (sessions w !! id) as [[i s]|] eqn:Hid; [|by exists w].
  destruct (Session.handle_returns e s) as [s' Es]. rewrite Es. cbv iota beta.
  case_decide as Hp; eexists; (split; [done|]).
  - split; [|done]. exact (destroyed_ok id i s w Hok Hid).
  - split; [|done]. refine (updated_ok id i s s' w Hok Hid Hp _).
    eapply Session.session_handle_ok; [|exact Es]. by eapply ok_session.
Qed.

Lemma Stop_spec w : ok w -> exists w', Stop w = (Returned tt, w') /\ ok w' /\
  closed w' = true /\ accepting w' = accepting w /\ sessions w' = sessions w /\
  opened w' = opened w /\ m_pool w' = m_pool w.
Proof.
  intros Hok. unfold Stop. erewrite bind_returned by done.
  set (w1 := with_acceptor true (accepting w) w).
  destruct (close_caught_spec CloseAcceptor 0 "TcpProxy: acceptor close error: " w1)
    as (w2 & E2 & S2 & A2).
  exists w2. split; [exact E2|]. pose proof S2 as (P1 & P2 & P3 & P4 & P5).
  rewrite P1, P2, P3, P5, A2. split; [|done].
  assert (Hok1 : ok w1) by (by destruct Hok; split).
  refine (same_ok _ _ S2 _ Hok1). rewrite A2. apply Hok.
Qed.

Lemma proxy_handle_ok fuel e w r w' : ok w -> handle fuel e w = Some (r, w') -> ok w'.
Proof.
  intros Hok E. unfold handle in E. destruct (possible e w) eqn:Hp; [|by injection E as <- <-].
  cbn [negb] in E. destruct e as [k ec peer|id e|].
  - simpl in Hp. destruct (accepting w !! k) as [dead|] eqn:Hk; [|done].
    destruct (accepting_taken _ _ _ Hok Hk) as [_ Hd]. rewrite Hd in E.
    eapply OnAccept_spec; [| |exact E]; [|done].
    refine (same_ok _ _ _ _ Hok); [by repeat split|simpl; lia].
  - destruct (session_event_spec id e w Hok) as (w1 & E1 & Hw & _). apply (inj Some) in E.
    rewrite E1 in E. by injection E as <- <-.
  - destruct (Stop_spec w Hok) as (w1 & E1 & Hw & _). apply (inj Some) in E.
    rewrite E1 in E. by injection E as <- <-.
Qed.

Lemma proxy_run_ok fuel events w r w' : ok w -> run fuel events w = Some (r, w') -> ok w'.
Proof.
  revert w; induction events as [|e events IH]; intros w Hok E; simpl in E.
  - by injection E as <- <-.
  - destruct (handle fuel e w) as [[[[]|x] w1]|] eqn:E1; [| |done].
    + eapply IH; [|exact E]. by eapply proxy_handle_ok.
    + injection E as <- <-. by eapply proxy_handle_ok.
Qed.

(** ** Properties *)

(** The proxy after [Start], on a pool in which no connection is counted. *)
Definition launched (pool : ServicePool) (strategy : St) (ct it : Z) : TcpProxy :=
  (Start (Returned tt) (make pool strategy ct it)).2.

Lemma proxy_launched_ok pool strategy ct it :
  built_for strategy (GetSize pool) -> (forall i, active_at pool i = 0%Z) ->
  ok (launched pool strategy ct it).
Proof.
  intros Hb Ha. assert (Es : sessions (launched pool strategy ct it) = ∅) by done.
  split; rewrite ?Es.
  - intros _ i. unfold live. rewrite map_filter_empty, map_size_empty. apply Ha.
  - intros id [s Hs]. by rewrite lookup_empty in Hs.
  - rewrite map_size_empty. apply Nat.le_0_l.
  - intros id i s Hs. by rewrite lookup_empty in Hs.
  - done.
  - done.
Qed.

(** The load the strategies see is the truth.  After any schedule of accepts, session
    events and errors, a service counts exactly as many connections as sessions are
    alive on it: every session is counted once and uncounted once, however it ends. *)
Theorem connections_counted pool strategy ct it fuel events r w :
  built_for strategy (GetSize pool) -> (forall i, active_at pool i = 0%Z) ->
  run fuel events (launched pool strategy ct it) = Some (r, w) ->
  (Z.of_nat (opened w) + 1 < 2 ^ 64)%Z ->
  forall i, active_at (m_pool w) i = Z.of_nat (live i (sessions w)).
Proof.
  intros Hb Ha E. apply ok_count. eapply proxy_run_ok; [|exact E]. by apply proxy_launched_ok.
Qed.

(** C7: every accepted connection has one of five ends.  The strategy does not return; or
    no service is healthy, and the connection is dropped with nothing changed; or a
    session is opened on the service that the strategy chose, healthy at that moment,
    which then counts one more; or the address of that service does not parse, or the
    client is already gone so that its address cannot be asked for, and the exception
    leaves the handler with no accept pending. *)
Theorem accept_outcomes fuel peer w : ok w -> accepting w = [false] ->
  match handle fuel (Accept 0 success peer) w with
  | None => exists key, peer = Returned key /\
      IRoutingStrategy.SelectService fuel (m_strategy w) (m_pool w) key = None
  | Some (Returned _, w') =>
      accepting w' = [closed w] /\
      exists key answer, peer = Returned key /\
        IRoutingStrategy.SelectService fuel (m_strategy w) (m_pool w) key
          = Some (Returned answer, m_strategy w') /\
        match answer with
        | Unexpected _ => dropped w w'
        | Value i => relayed i w w'
        end
  | Some (Threw e, w') =>
      accepting w' = [] /\
      ((peer = Threw e /\ m_pool w' = m_pool w /\ sessions w' = sessions w) \/
       exists key i, peer = Returned key /\
         IRoutingStrategy.SelectService fuel (m_strategy w) (m_pool w) key
           = Some (Returned (Value i), m_strategy w') /\ unparsable i e w w')
  end.
Proof.
  intros Hok Ha. unfold handle, possible. rewrite Ha. cbn [lookup list_lookup is_error negb orb].
  cbn [delete list_delete OnAccept]. set (w0 := with_acceptor (closed w) [] w).
  destruct peer as [key|e]; [|split; [done|by left]].
  assert (Hok0 : ok w0) by (refine (same_ok _ _ _ _ Hok); [by repeat split|simpl; lia]).
  change (m_strategy w0) with (m_strategy w). change (m_pool w0) with (m_pool w).
  destruct (IRoutingStrategy.SelectService _ _ _ _) as [[result s]|] eqn:Es; [|by exists key].
  pose proof (strategy_ok s w0 Hok0 (select_keeps _ _ _ _ _ _ (ok_built _ Hok) Es)) as Hok'.
  pose proof (select_ok _ _ _ _ _ _ (ok_built _ Hok) Es) as Hr.
  destruct (routed_spec key result (with_strategy s w0) Hok' eq_refl Hr)
    as (r & w1 & -> & _ & _ & Hst & Hacc & answer & -> & Hend).
  change (m_strategy (with_strategy s w0)) with s in Hst.
  destruct r as [[]|e], answer as [i|why]; try done; (split; [exact Hacc|]).
  - exists key, (Value i). by rewrite Hst.
  - exists key, (Unexpected why). by rewrite Hst.
  - right. exists key, i. by rewrite Hst.
Qed.

(** Unless the accept was aborted, a handler that returns leaves one accept pending:
    neither errors nor clients that are turned away stop the proxy from accepting. *)
Theorem keeps_accepting fuel k ec peer w w' : ok w -> ec <> operation_aborted ->
  possible (Accept k ec peer) w = true ->
  handle fuel (Accept k ec peer) w = Some (Returned tt, w') -> accepting w' = [closed w].
Proof.
  intros Hok Hec Hp E. unfold handle in E. rewrite Hp in E. cbn [negb] in E.
  simpl in Hp. destruct (accepting w !! k) as [dead|] eqn:Hk; [|done].
  destruct (accepting_taken _ _ _ Hok Hk) as [_ Hd]. rewrite Hd in E.
  refine (proj2 (proj2 (OnAccept_spec _ _ _ _ _ _ _ _ E)) eq_refl Hec); [|done].
  refine (same_ok _ _ _ _ Hok); [by repeat split|simpl; lia].
Qed.

(** A client that is gone before its connection is handled takes the server with it:
    [remote_endpoint()] throws, nothing in the handler catches it, and no accept is
    pending any more. *)
Theorem vanished_client_is_fatal fuel e w : accepting w = [false] ->
  exists w', handle fuel (Accept 0 success (Threw e)) w = Some (Threw e, w') /\
    accepting w' = [] /\ m_pool w' = m_pool w /\ sessions w' = sessions w.
Proof.
  intros Ha. unfold handle, possible. rewrite Ha. by eexists.
Qed.

(** C39: [Stop] and a finished accept at the same moment leave the proxy spinning: the
    handler of that accept starts another on the closed acceptor, which fails at once
    with a code that is not [operation_aborted], and so on for ever, so the io_context
    never runs out of work. *)
Theorem stop_race_spins fuel ec peer w w2 n : ok w -> accepting w = [false] ->
  ec <> operation_aborted ->
  run fuel [CallStop; Accept 0 ec peer] w = Some (Returned tt, w2) ->
  exists w', run fuel (replicate n (Accept 0 (failure "Bad file descriptor") peer)) w2
               = Some (Returned tt, w') /\ closed w' = true /\ accepting w' = [true].
Proof.
  intros Hok Ha Hec E. destruct (Stop_spec w Hok) as (w1 & E1 & Hok1 & Hc1 & Ha1 & _).
  cbn [run handle possible negb] in E. rewrite E1 in E.
  destruct (handle fuel (Accept 0 ec peer) w1) as [[[[]|x] w3]|] eqn:E3; try done.
  injection E as <-.
  assert (Hp : possible (Accept 0 ec peer) w1 = true).
  { simpl. rewrite Ha1, Ha. simpl. by rewrite orb_true_r. }
  assert (H3 : ok w3 /\ closed w3 = true /\ accepting w3 = [true]).
  { split; [by eapply proxy_handle_ok|]. unfold handle in E3. rewrite Hp in E3. cbn [negb] in E3.
    rewrite Ha1, Ha in E3. cbn [delete list_delete] in E3.
    apply OnAccept_spec in E3 as (_ & Hc3 & Ha3); [|refine (same_ok _ _ _ _ Hok1); [by repeat split|simpl; lia]|done].
    cbn [closed with_acceptor] in Hc3, Ha3. rewrite Hc1 in Hc3, Ha3. by rewrite Ha3. }
  clear -H3. revert w3 H3. induction n as [|n IH]; intros w (Hok & Hc & Ha); [by exists w|].
  cbn [replicate run]. unfold handle, possible. rewrite Ha. cbn [lookup list_lookup is_error negb orb delete list_delete OnAccept].
  erewrite bind_returned by done. rewrite AcceptNext_spec. apply IH.
  cbn [closed accepting with_acceptor]. rewrite Hc. split; [|done].
  refine (same_ok _ _ _ _ Hok); [by repeat split|simpl; lia].
Qed.

(** ** What the proxy does to the pool

    Connection counts, and nothing else. *)
Definition unloaded (p : ServicePool) : list ServiceState := set_active 0 <$> m_services p.

Lemma unloaded_update i f p : (forall s, set_active 0 (f s) = set_active 0 s) ->
  unloaded (update_at i f p) = unloaded p.
Proof.
  intros Hf. unfold unloaded, update_at. cbn [m_services].
  rewrite (list_fmap_alter _ _ id); [by apply list_alter_id|]. by apply Forall_true.
Qed.

Section unloaded.
Context (u : list ServiceState).
Let same (w : TcpProxy) : Prop := unloaded (m_pool w) = u.

Lemma keeps_request r : keeps same (request_ r).
Proof. unfold request_. keeps_steps; done. Qed.

Lemma keeps_on_service i f : (forall s, set_active 0 (f s) = set_active 0 s) ->
  keeps same (on_service i f).
Proof.
  intros Hf. apply keeps_modify. intros w Hw. unfold same. cbn [m_pool with_pool].
  by rewrite unloaded_update.
Qed.

#[local] Hint Resolve keeps_request keeps_on_service : keeps.

Lemma keeps_close_caught r socket text : keeps same (close_caught r socket text).
Proof. unfold close_caught. keeps_steps. Qed.

Lemma keeps_AcceptNext : keeps same AcceptNext.
Proof. unfold AcceptNext. keeps_steps; done. Qed.

#[local] Hint Resolve keeps_close_caught keeps_AcceptNext : keeps.

Lemma keeps_open_session i : keeps same (open_session i).
Proof. unfold open_session. keeps_steps; done. Qed.

#[local] Hint Resolve keeps_open_session : keeps.

Lemma keeps_routed key result : keeps same (routed key result).
Proof. unfold routed. keeps_steps. Qed.

Lemma keeps_session_event id e : keeps same (session_event id e).
Proof. unfold session_event. keeps_steps; done. Qed.

Lemma keeps_Stop : keeps same Stop.
Proof. unfold Stop. keeps_steps; done. Qed.

Lemma handle_same fuel e w r w' : same w -> handle fuel e w = Some (r, w') -> same w'.
Proof.
  intros Hs E. unfold handle in E. destruct (negb (possible e w)); [by injection E as <- <-|].
  destruct e as [k ec peer|id e|].
  - destruct ec; cbn [OnAccept] in E; [|by injection E as <- <-|].
    + destruct peer as [key|e]; [|by injection E as <- <-].
      destruct (IRoutingStrategy.SelectService _ _ _ _) as [[result s]|]; [|done].
      apply (inj Some) in E. by eapply (keeps_run _ _ _ _ _ (keeps_routed key result)); [|exact E].
    + apply (inj Some) in E. refine (keeps_run same _ _ _ _ _ _ E); [|done]. keeps_steps.
  - apply (inj Some) in E. by eapply (keeps_run _ _ _ _ _ (keeps_session_event id e)); [|exact E].
  - apply (inj Some) in E. by eapply (keeps_run _ _ _ _ _ keeps_Stop); [|exact E].
Qed.

End unloaded.

Lemma handle_unloaded fuel e w r w' : handle fuel e w = Some (r, w') ->
  unloaded (m_pool w') = unloaded (m_pool w).
Proof. by apply handle_same. Qed.

Lemma unloaded_size p q : unloaded p = unloaded q -> GetSize p = GetSize q.
Proof. intros E%(f_equal length). unfold unloaded in E. by rewrite !length_fmap in E. Qed.

Lemma unloaded_healthy p q i : unloaded p = unloaded q -> healthy_at p i = healthy_at q i.
Proof.
  intros E%(f_equal (.!! i)). unfold unloaded in E. rewrite !list_lookup_fmap in E.
  unfold healthy_at. destruct (State.ServicePool.m_services p !! i), (State.ServicePool.m_services q !! i);
    try done. apply (inj Some) in E. by apply (f_equal State.ServiceState.m_healthy) in E.
Qed.

(** ** Winding down *)

(** The events that the sessions alive can still lead to by themselves. *)
Definition backlog (m : gmap nat (nat * Session.Session)) : nat :=
  map_fold (fun _ p n => Session.weight p.2 + n) 0 m.

Lemma backlog_insert id i s m : m !! id = None ->
  backlog (<[id := (i, s)]> m) = Session.weight s + backlog m.
Proof.
  intros Hm. unfold backlog.
  rewrite (map_fold_insert_L (fun _ p n => Session.weight p.2 + n) 0 id (i, s) m); [done| |done].
  intros. lia.
Qed.

Lemma backlog_delete id i s m : m !! id = Some (i, s) ->
  backlog m = Session.weight s + backlog (delete id m).
Proof.
  intros Hm. rewrite <- (backlog_insert id i s) by apply lookup_delete_eq.
  by rewrite insert_delete_id.
Qed.

(** An event of a session brings the sessions closer to their end, but for what it
    brings in; it opens none. *)
Lemma session_event_backlog id e w : ok w -> possible (OfSession id e) w = true ->
  exists w', session_event id e w = (Returned tt, w') /\ ok w' /\ closed w' = closed w /\
    accepting w' = accepting w /\ opened w' = opened w /\
    S (backlog (sessions w')) <= backlog (sessions w) + Session.supply e.
Proof.
  intros Hok Hp. destruct (session_event_spec id e w Hok) as (w' & E & Hok' & Hc & Ha).
  exists w'. split_and!; try done; unfold session_event in E;
    erewrite bind_returned in E by done; simpl in Hp;
    (destruct (sessions w !! id) as [[i s]|] eqn:Hid; [|done]);
    (destruct (Session.handle_returns e s) as [s' Es]); rewrite Es in E; cbv iota beta in E.
  - by case_decide; injection E as <-.
  - apply Session.supply_step in Es; [|done]. rewrite (backlog_delete _ _ _ _ Hid).
    case_decide; injection E as <-; cbn [sessions with_sessions with_pool]; [lia|].
    rewrite <- insert_delete_eq, backlog_insert by apply lookup_delete_eq. lia.
Qed.

End TcpProxy.
End TcpProxy.
