(* ===== verification/ProxyInstances.v ===== *)
(** * The proxy with each of the two strategies, on concrete schedules *)

From S2P Require Import Prelude Node State Rng Routing P2C Ring Asio Session TcpProxy.
Import P2CStrategy ConsistentHashStrategy.
Import ServiceState ServicePool IRoutingStrategy TcpProxy.

Module ProxyWitnesses.

#[local] Instance dotted : Asio := string_asio ServiceNode.IsValidIpv4.

Lemma active_make nodes i : active_at (ServicePool.make nodes) i = 0%Z.
Proof.
  unfold active_at, ServicePool.make. cbn [ServicePool.m_services]. rewrite list_lookup_fmap.
  by destruct (nodes !! i).
Qed.

(** The state that a schedule ends in. *)
Definition final {St} `{IRoutingStrategy St} (fuel : nat) (events : list event)
    (w : TcpProxy (St := St)) : TcpProxy :=
  match run fuel events w with Some (_, w') => w' | None => w end.

Lemma proxy_run_final {St} `{IRoutingStrategy St} fuel events (w : TcpProxy (St := St)) :
  fst <$> run fuel events w = Some (Returned tt) ->
  run fuel events w = Some (Returned tt, final fuel events w).
Proof. unfold final. destruct (run fuel events w) as [[r w']|]; [|done]. by intros [= ->]. Qed.

Lemma handle_final {St} `{IRoutingStrategy St} fuel e (w : TcpProxy (St := St)) :
  fst <$> handle fuel e w = Some (Returned tt) ->
  handle fuel e w = Some (Returned tt, final fuel [e] w).
Proof.
  unfold final. cbn [run]. destruct (handle fuel e w) as [[[[]|x] w']|]; [done|..]; by intros [=].
Qed.

Definition pool : ServicePool :=
  ServicePool.make [ServiceNode.make "a" "10.0.0.1" 80 1; ServiceNode.make "b" "10.0.0.2" 81 1].

(** Two clients are accepted, and the first session's connect times out: its two
    operations complete and it is destroyed. *)
Definition two_clients : list event :=
  [Accept 0 success (Returned "192.168.0.9"); Accept 0 success (Returned "192.168.0.10");
   OfSession 0 (Session.Complete 0 success []); OfSession 0 (Session.Complete 0 operation_aborted [])].

Definition p2c_proxy : TcpProxy := launched pool (P2CStrategy.make 42) 1000 30000.

Lemma p2c_ok : ok p2c_proxy.
Proof. apply proxy_launched_ok; [exact I|]. apply active_make. Qed.

Example connections_counted_witness :
  active_at (m_pool (final 10 two_clients p2c_proxy)) 0
  = Z.of_nat (live 0 (sessions (final 10 two_clients p2c_proxy))).
Proof.
  apply (connections_counted pool (P2CStrategy.make 42) 1000 30000 10 two_clients (Returned tt)
           (final 10 two_clients p2c_proxy)).
  - exact I.
  - apply active_make.
  - apply proxy_run_final. vm_compute. reflexivity.
  - vm_compute. reflexivity.
Defined.

Example two_clients_one_left :
  opened (final 10 two_clients p2c_proxy) = 2 /\ size (sessions (final 10 two_clients p2c_proxy)) = 1.
Proof. vm_compute. split; reflexivity. Qed.

Example accept_outcomes_witness :
  match handle 10 (Accept 0 success (Returned "192.168.0.9")) p2c_proxy with
  | None => exists key, Returned "192.168.0.9" = Returned key /\
      IRoutingStrategy.SelectService 10 (m_strategy p2c_proxy) (m_pool p2c_proxy) key = None
  | Some (Returned _, w') =>
      accepting w' = [closed p2c_proxy] /\
      exists key answer, Returned "192.168.0.9" = Returned key /\
        IRoutingStrategy.SelectService 10 (m_strategy p2c_proxy) (m_pool p2c_proxy) key
          = Some (Returned answer, m_strategy w') /\
        match answer with
        | Unexpected _ => dropped p2c_proxy w'
        | Value i => relayed i p2c_proxy w'
        end
  | Some (Threw e, w') =>
      accepting w' = [] /\
      ((Returned "192.168.0.9" = Threw e /\ m_pool w' = m_pool p2c_proxy /\
        sessions w' = sessions p2c_proxy) \/
       exists key i, Returned "192.168.0.9" = Returned key /\
         IRoutingStrategy.SelectService 10 (m_strategy p2c_proxy) (m_pool p2c_proxy) key
           = Some (Returned (Value i), m_strategy w') /\ unparsable i e p2c_proxy w')
  end.
Proof. exact (accept_outcomes 10 (Returned "192.168.0.9") p2c_proxy p2c_ok eq_refl). Defined.

Definition refused : event := Accept 0 (failure "Too many open files") (Returned "").

Example keeps_accepting_witness : accepting (final 10 [refused] p2c_proxy) = [closed p2c_proxy].
Proof.
  apply (keeps_accepting 10 0 (failure "Too many open files") (Returned "") p2c_proxy
           (final 10 [refused] p2c_proxy) p2c_ok); [done|done|].
  apply handle_final. vm_compute. reflexivity.
Defined.

Example vanished_client_is_fatal_witness :
  exists w', handle 10 (Accept 0 success (Threw (Exn KSystemError "not connected"))) p2c_proxy
               = Some (Threw (Exn KSystemError "not connected"), w') /\
    accepting w' = [] /\ m_pool w' = m_pool p2c_proxy /\ sessions w' = sessions p2c_proxy.
Proof. apply (vanished_client_is_fatal 10 (Exn KSystemError "not connected") p2c_proxy eq_refl). Defined.

(** The client is accepted just as the signal arrives. *)
Definition race : list event := [CallStop; Accept 0 success (Returned "192.168.0.9")].

Example stop_race_spins_witness :
  exists w', run 10 (replicate 1000 (Accept 0 (failure "Bad file descriptor") (Returned "192.168.0.9")))
               (final 10 race p2c_proxy) = Some (Returned tt, w') /\
    closed w' = true /\ accepting w' = [true].
Proof.
  apply (stop_race_spins 10 success (Returned "192.168.0.9") p2c_proxy (final 10 race p2c_proxy)
           1000 p2c_ok eq_refl); [done|].
  apply proxy_run_final. vm_compute. reflexivity.
Defined.

(** The same proxy with the ring: a client keeps its service. *)
Definition ring_proxy : TcpProxy :=
  launched pool (match ConsistentHashStrategy.make pool with
                 | Returned s => s | Threw _ => ConsistentHashStrategy.mkRing [] end) 1000 30000.

Example ring_is_sticky :
  let w := final 0 [Accept 0 success (Returned "192.168.0.9");
                    Accept 0 success (Returned "192.168.0.9")] ring_proxy in
  live 0 (sessions w) + live 1 (sessions w) = 2 /\
  (live 0 (sessions w) = 0 \/ live 1 (sessions w) = 0).
Proof. vm_compute. split; [reflexivity|]. by left || by right. Qed.

End ProxyWitnesses.
