(* ===== verification/LoadBalancer.v ===== *)
(** * core/main.cpp: the load balancer process

    [main] loads the configuration, builds the pool, the strategy the configuration
    names, the proxy and the health checker, and runs the io_context.  The proxy and the
    checker share the pool; the signal handler stops both.

    A run of the process is a schedule of the events of its parts; it ends with 0 when
    nothing is pending any more, and with 1 when an exception reaches [main]. *)

From S2P Require Import Prelude Node Config Serialization State Rng Routing P2C Ring.
From S2P Require Import Asio Session Health TcpProxy.

(** ** The strategy behind [std::unique_ptr<IRoutingStrategy>] *)
Module AnyStrategy.
Section AnyStrategy.
Context `{UniformInt}.

Inductive AnyStrategy :=
  | UsesP2C (s : P2CStrategy.P2CStrategy)
  | UsesRing (s : ConsistentHashStrategy.ConsistentHashStrategy).

(** The virtual call. *)
Definition SelectService (fuel : nat) (s : AnyStrategy) (pool : ServicePool.ServicePool)
    (routingKey : string) : option (outcome IRoutingStrategy.route * AnyStrategy) :=
  match s with
  | UsesP2C s =>
      (fun x => (x.1, UsesP2C x.2)) <$> P2CStrategy.SelectService fuel s pool routingKey
  | UsesRing s =>
      (fun x => (x.1, UsesRing x.2)) <$>
        ConsistentHashStrategy.SelectService fuel s pool routingKey
  end.

#[export] Instance any_strategy : IRoutingStrategy.IRoutingStrategy AnyStrategy := {
  IRoutingStrategy.SelectService := SelectService
}.

(** Each kind of object keeps its own contract. *)
#[export] Instance any_contract : IRoutingStrategy.RoutingContract AnyStrategy.
Proof.
  refine {| IRoutingStrategy.built_for s n :=
              match s with
              | UsesP2C s => IRoutingStrategy.built_for
                               (RoutingContract := P2CStrategy.p2c_contract) s n
              | UsesRing s => IRoutingStrategy.built_for
                               (RoutingContract := ConsistentHashStrategy.consistent_hash_contract) s n
              end |}.
  - intros fuel [s|s] p key r s'; simpl; intros Hb E.
    + by apply fmap_Some in E as ([r' t] & E & [= -> ->]).
    + by injection E as <- <-.
  - intros fuel [s|s] p key r s'; simpl; intros Hb E.
    + apply fmap_Some in E as ([r' t] & E & [= -> ->]).
      exact (IRoutingStrategy.select_ok (RoutingContract := P2CStrategy.p2c_contract)
        fuel s p key _ t Hb E).
    + injection E as <- <-.
      exact (IRoutingStrategy.select_ok (RoutingContract :=
        ConsistentHashStrategy.consistent_hash_contract) fuel s p key _ s Hb eq_refl).
  - intros fuel fuel' [s|s] p key [r t] Hf; simpl; intros E; [|done].
    apply fmap_Some in E as ([r' t'] & E & [= -> ->]).
    apply fmap_Some. exists (r', t'). split; [|done].
    exact (IRoutingStrategy.select_more_fuel (RoutingContract := P2CStrategy.p2c_contract)
      fuel fuel' s p key (r', t') Hf E).
Defined.

End AnyStrategy.
End AnyStrategy.

Module LoadBalancer.
Import LoadBalancerConfig AnyStrategy.
Section LoadBalancer.
Context `{Asio} `{UniformInt} {FileSystem : Type} `{IConfigSerializer.IConfigSerializer FileSystem}.

(** What the operating system decides at start-up. *)
Record environment := mkEnvironment {
  random_device : Z;                 (* the seed drawn for [P2CStrategy] *)
  listen : Z -> outcome unit;        (* opening and binding the port *)
  signal_set : outcome unit;         (* installing SIGINT and SIGTERM *)
  set_option : outcome unit          (* reuse_address *)
}.

(** The running process: the proxy, which holds the pool; the checker, if enabled, whose
    pool is the same object; whether a signal is still waited for. *)
Record LoadBalancer := mkLoadBalancer {
  proxy : TcpProxy.TcpProxy (St := AnyStrategy);
  healthChecker : option HealthChecker.HealthChecker;
  signals : bool
}.

Inductive process :=
  | Exited (code : Z) (text : string)
  | Running (lb : LoadBalancer).

Definition strategyFactory (seed : Z) (pool : ServicePool.ServicePool)
    : list (string * (unit -> outcome AnyStrategy)) :=
  [("p2c", fun _ => Returned (UsesP2C (P2CStrategy.make_random seed)));
   ("consistent-hash", fun _ =>
      s ← ConsistentHashStrategy.make pool; Returned (UsesRing s))].

Definition serve (env : environment) (config : LoadBalancerConfig)
    (pool : ServicePool.ServicePool) (strategy : AnyStrategy) : outcome process :=
  let conn := GetConnection config in
  proxy ← TcpProxy.construct (listen env (GetListenPort config)) (GetListenAddress config)
            pool strategy (ConnectionConfig.GetConnectTimeoutMs conn)
            (ConnectionConfig.GetIdleTimeoutMs conn);
  let hc := GetHealthCheck config in
  let healthChecker :=
    if HealthCheckConfig.GetEnabled hc then Some (HealthChecker.make pool hc) else None in
  _ ← signal_set env;
  match TcpProxy.Start (set_option env) proxy with
  | (Threw e, _) => Threw e
  | (Returned _, proxy) =>
      match healthChecker with
      | None => Returned (Running (mkLoadBalancer proxy None true))
      | Some checker =>
          match HealthChecker.Start checker with
          | (Threw e, _) => Threw e
          | (Returned _, checker) => Returned (Running (mkLoadBalancer proxy (Some checker) true))
          end
      end
  end.

(** The body of the [try] block, up to [ioContext.run()]. *)
Definition start (env : environment) (fs : FileSystem) (configPath : string)
    : outcome process :=
  match IConfigSerializer.Load fs configPath LoadBalancerConfig.default with
  | (Threw e, _) => Threw e
  | (Returned (Unexpected error), _) => Returned (Exited 1 ("Error: " +:+ error))
  | (Returned (Value _), config) =>
      if GetServiceCount config =? 0
      then Returned (Exited 1 "Error: No services defined in config")
      else
        let pool := ServicePool.make (GetServices config) in
        match assoc (GetRoutingAlgorithm config) (strategyFactory (random_device env) pool) with
        | None => Returned (Exited 1 ("Error: unknown routing algorithm '" +:+
                                       GetRoutingAlgorithm config +:+ "'"))
        | Some construct => strategy ← construct tt; serve env config pool strategy
        end
  end.

Definition main (env : environment) (fs : FileSystem) (argv : list string) : process :=
  match argv with
  | _ :: configPath :: _ =>
      match start env fs configPath with
      | Returned p => p
      | Threw e => Exited 1 ("Fatal: " +:+ what e)
      end
  | _ => Exited 1 "Usage: bit_bridge_lb <config-file>"
  end.

(** ** The running process *)

Inductive event :=
  | OfProxy (e : TcpProxy.event)
  | OfChecker (k : nat) (ec : error_code)
  | Signal (ec : error_code).

(** The program's own events: stopping is the signal handler's. *)
Definition possible (e : event) (lb : LoadBalancer) : bool :=
  match e with
  | OfProxy TcpProxy.CallStop => false
  | OfProxy e => TcpProxy.possible e (proxy lb)
  | OfChecker k _ =>
      match healthChecker lb with
      | Some c => k <? length (HealthChecker.pending c)
      | None => false
      end
  | Signal _ => signals lb
  end.

(** Both parts see the pool as the last of them left it. *)
Definition with_proxy (p : TcpProxy.TcpProxy) (lb : LoadBalancer) : LoadBalancer :=
  mkLoadBalancer p (HealthChecker.with_pool (TcpProxy.m_pool p) <$> healthChecker lb) (signals lb).
Definition with_checker (c : HealthChecker.HealthChecker) (lb : LoadBalancer) : LoadBalancer :=
  mkLoadBalancer (TcpProxy.with_pool (HealthChecker.m_pool c) (proxy lb)) (Some c) (signals lb).

Definition on_proxy (m : M TcpProxy.TcpProxy unit) : M LoadBalancer unit :=
  fun lb => let (r, p) := m (proxy lb) in (r, with_proxy p lb).
Definition on_checker (m : M HealthChecker.HealthChecker unit) : M LoadBalancer unit :=
  fun lb => match healthChecker lb with
            | None => (Returned tt, lb)
            | Some c => let (r, c) := m c in (r, with_checker c lb)
            end.

(** The handler of the signal set, lines 77 to 86 of main.cpp. *)
Definition on_signal (ec : error_code) : M LoadBalancer unit :=
  _ ← modify (fun lb => mkLoadBalancer (proxy lb) (healthChecker lb) false);
  if is_error ec then skip
  else
    _ ← on_checker HealthChecker.Stop;
    on_proxy TcpProxy.Stop.

Definition handle (fuel : nat) (e : event) (lb : LoadBalancer)
    : option (outcome unit * LoadBalancer) :=
  if negb (possible e lb) then Some (Returned tt, lb)
  else
    match e with
    | OfProxy e =>
        (fun x => (x.1, with_proxy x.2 lb)) <$> TcpProxy.handle fuel e (proxy lb)
    | OfChecker k ec =>
        Some (on_checker (HealthChecker.handle (HealthChecker.Complete k ec)) lb)
    | Signal ec => Some (on_signal ec lb)
    end.

Fixpoint run (fuel : nat) (events : list event) (lb : LoadBalancer)
    : option (outcome unit * LoadBalancer) :=
  match events with
  | [] => Some (Returned tt, lb)
  | e :: events' =>
      match handle fuel e lb with
      | Some (Returned _, lb') => run fuel events' lb'
      | x => x
      end
  end.

(** The io_context is out of work. *)
Definition idle (lb : LoadBalancer) : Prop :=
  TcpProxy.accepting (proxy lb) = [] /\ TcpProxy.sessions (proxy lb) = ∅ /\
  match healthChecker lb with Some c => HealthChecker.pending c = [] | None => True end /\
  signals lb = false.

#[export] Instance idle_dec lb : Decision (idle lb).
Proof.
  assert (D : Decision (TcpProxy.sessions (proxy lb) = ∅)).
  { destruct (decide (size (TcpProxy.sessions (proxy lb)) = 0)) as [E|E].
    - left. by apply map_size_empty_inv.
    - right. intros E'. apply E. by rewrite E', map_size_empty. }
  assert (D' : Decision (match healthChecker lb with
                         | Some c => HealthChecker.pending c = [] | None => True end)).
  { destruct (healthChecker lb) as [c|]; [|by left].
    destruct (HealthChecker.pending c); [by left|by right]. }
  unfold idle. apply _.
Defined.

(** What the process returns after a schedule, if it has ended. *)
Definition exit_code (x : outcome unit * LoadBalancer) : option Z :=
  match x with
  | (Threw _, _) => Some 1%Z
  | (Returned _, lb) => if decide (idle lb) then Some 0%Z else None
  end.

(** ** The invariant of the process *)

Record ok (lb : LoadBalancer) : Prop := {
  ok_proxy : TcpProxy.ok (proxy lb);
  ok_checker c : healthChecker lb = Some c ->
    HealthChecker.m_pool c = TcpProxy.m_pool (proxy lb) /\ HealthChecker.wf c
}.

(** What the checker does to the pool is invisible to the proxy: sizes and connection
    counts stay. *)
Lemma verdict_active c ec s :
  ServiceState.GetActiveConnections (HealthChecker.verdict c ec s) = ServiceState.GetActiveConnections s.
Proof. unfold HealthChecker.verdict. destruct (is_error ec); [by case_match|done]. Qed.

Lemma judge_size c rs p :
  ServicePool.GetSize (foldl (HealthChecker.judge c) p rs) = ServicePool.GetSize p.
Proof.
  revert p; induction rs as [|[i ec] rs IH]; intros p; [done|]. simpl. rewrite IH.
  apply ServicePool.update_at_size.
Qed.

Lemma judge_active c rs p i :
  ServicePool.active_at (foldl (HealthChecker.judge c) p rs) i = ServicePool.active_at p i.
Proof.
  revert p; induction rs as [|[j ec] rs IH]; intros p; [done|]. simpl. rewrite IH.
  destruct (decide (j < ServicePool.GetSize p)) as [Hj|Hj].
  - unfold HealthChecker.judge. simpl. rewrite (TcpProxy.active_update p j _ id) by
      (done || intros; apply verdict_active). case_decide; by subst.
  - unfold HealthChecker.judge, ServicePool.active_at, ServicePool.update_at. simpl.
    rewrite list_lookup_alter. case_decide; [|done]. subst.
    unfold ServicePool.GetSize in Hj. rewrite (lookup_ge_None_2 _ i) by lia. done.
Qed.

Lemma proxy_pool_ok p w : TcpProxy.ok w ->
  ServicePool.GetSize p = ServicePool.GetSize (TcpProxy.m_pool w) ->
  (forall i, ServicePool.active_at p i = ServicePool.active_at (TcpProxy.m_pool w) i) ->
  TcpProxy.ok (TcpProxy.with_pool p w).
Proof.
  intros [H1' H2' H3' H4' H5' H6'] Hs Ha.
  split; cbn [TcpProxy.m_pool TcpProxy.sessions TcpProxy.opened TcpProxy.accepting
              TcpProxy.m_strategy TcpProxy.with_pool]; rewrite ?Hs; try done.
  intros Hb i. rewrite Ha. by apply H1'.
Qed.

Lemma checker_pool_wf p c : HealthChecker.wf c ->
  ServicePool.GetSize p = ServicePool.GetSize (HealthChecker.m_pool c) ->
  HealthChecker.wf (HealthChecker.with_pool p c).
Proof. intros Hwf E. unfold HealthChecker.wf. simpl. by rewrite E. Qed.

(** A step of one part, seen by the whole. *)
Lemma with_proxy_ok p lb : ok lb -> TcpProxy.ok p ->
  ServicePool.GetSize (TcpProxy.m_pool p) = ServicePool.GetSize (TcpProxy.m_pool (proxy lb)) ->
  ok (with_proxy p lb).
Proof.
  intros Hok Hp Hs. split; [done|]. intros c Hc. simpl in Hc.
  apply fmap_Some in Hc as (c0 & Hc0 & ->). split; [done|].
  destruct (ok_checker _ Hok _ Hc0) as [E Hwf]. apply checker_pool_wf; [done|]. by rewrite E.
Qed.

Lemma with_checker_ok c' c lb rs : ok lb -> healthChecker lb = Some c ->
  HealthChecker.wf c' ->
  HealthChecker.m_pool c' = foldl (HealthChecker.judge (HealthChecker.m_config c)) (HealthChecker.m_pool c) rs ->
  ok (with_checker c' lb).
Proof.
  intros Hok Hc Hwf Hp. destruct (ok_checker _ Hok _ Hc) as [E _].
  split; [|by intros c0 [= <-]]. simpl. apply proxy_pool_ok; [apply Hok|..].
  - by rewrite Hp, judge_size, E.
  - intros i. by rewrite Hp, judge_active, E.
Qed.

Lemma checker_step lb c e r c' : ok lb -> healthChecker lb = Some c ->
  HealthChecker.handle e c = (r, c') -> ok (with_checker c' lb).
Proof.
  intros Hok Hc E. destruct (ok_checker _ Hok _ Hc) as [_ Hwf].
  destruct (HealthChecker.handle_spec _ _ _ _ Hwf E) as (Hwf' & _ & Hp & _).
  by eapply with_checker_ok.
Qed.

(** The signal handler, part by part. *)
Lemma on_checker_stop lb : ok lb ->
  exists lb', on_checker HealthChecker.Stop lb = (Returned tt, lb') /\ ok lb' /\
    TcpProxy.sessions (proxy lb') = TcpProxy.sessions (proxy lb) /\
    TcpProxy.accepting (proxy lb') = TcpProxy.accepting (proxy lb) /\
    TcpProxy.opened (proxy lb') = TcpProxy.opened (proxy lb) /\
    TcpProxy.m_pool (proxy lb') = TcpProxy.m_pool (proxy lb) /\ signals lb' = signals lb /\
    match healthChecker lb, healthChecker lb' with
    | Some c, Some c' => HealthChecker.m_stopped c' = true /\
                         HealthChecker.pending c' = HealthChecker.pending c
    | None, None => True
    | _, _ => False
    end.
Proof.
  intros Hok. unfold on_checker. destruct (healthChecker lb) as [c|] eqn:Hc.
  - destruct (ok_checker _ Hok _ Hc) as [E Hwf].
    destruct (HealthChecker.handle HealthChecker.CallStop c) as [r c'] eqn:Es.
    pose proof (checker_step _ _ _ _ _ Hok Hc Es) as Hok'.
    cbn [HealthChecker.handle] in Es. rewrite Es. injection Es as <- <-.
    eexists. split; [reflexivity|]. split; [exact Hok'|]. by split_and!.
  - exists lb. rewrite Hc. by split_and!.
Qed.

Lemma on_signal_spec lb : ok lb ->
  exists lb', on_signal success lb = (Returned tt, lb') /\ ok lb' /\
    TcpProxy.closed (proxy lb') = true /\
    TcpProxy.sessions (proxy lb') = TcpProxy.sessions (proxy lb) /\
    TcpProxy.accepting (proxy lb') = TcpProxy.accepting (proxy lb) /\
    TcpProxy.opened (proxy lb') = TcpProxy.opened (proxy lb) /\
    TcpProxy.m_pool (proxy lb') = TcpProxy.m_pool (proxy lb) /\ signals lb' = false /\
    match healthChecker lb, healthChecker lb' with
    | Some c, Some c' => HealthChecker.m_stopped c' = true /\
                         HealthChecker.pending c' = HealthChecker.pending c
    | None, None => True
    | _, _ => False
    end.
Proof.
  intros Hok. unfold on_signal. erewrite bind_returned by done. cbn [is_error].
  set (lb0 := mkLoadBalancer _ _ _). assert (Hok0 : ok lb0) by (by destruct Hok; split).
  destruct (on_checker_stop lb0 Hok0) as (lb1 & E1 & Hok1 & S1 & A1 & O1 & P1 & G1 & C1).
  erewrite bind_returned by exact E1. unfold on_proxy.
  destruct (TcpProxy.Stop_spec (proxy lb1) (ok_proxy _ Hok1)) as (w & Ew & Hw & Hcl & Aw & Sw & Ow & Pw).
  rewrite Ew. eexists. split; [reflexivity|]. split; [apply with_proxy_ok; [done..|by rewrite Pw]|].
  cbn [proxy signals healthChecker with_proxy]. rewrite Aw, Sw, Ow, Pw, S1, A1, O1, P1, G1.
  split_and!; try done. cbn [healthChecker lb0] in C1.
  destruct (healthChecker lb), (healthChecker lb1); simpl; naive_solver.
Qed.

Lemma process_handle_ok fuel e lb r lb' : ok lb -> handle fuel e lb = Some (r, lb') -> ok lb'.
Proof.
  intros Hok E. unfold handle in E. destruct (negb (possible e lb)); [by injection E as <- <-|].
  destruct e as [e|k ec|ec].
  - apply fmap_Some in E as ([r' p] & E & [= -> ->]).
    apply with_proxy_ok; [done| |].
    + eapply TcpProxy.proxy_handle_ok; [apply Hok|exact E].
    + by apply TcpProxy.unloaded_size, (TcpProxy.handle_unloaded fuel e _ r').
  - apply (inj Some) in E. unfold on_checker in E. destruct (healthChecker lb) as [c|] eqn:Hc.
    + destruct (HealthChecker.handle (HealthChecker.Complete k ec) c) as [r' c'] eqn:Eh.
      injection E as <- <-. by eapply checker_step.
    + by injection E as <- <-.
  - apply (inj Some) in E. destruct (is_error ec) eqn:Hec.
    + unfold on_signal in E. erewrite bind_returned in E by done. rewrite Hec in E.
      injection E as <- <-. by destruct Hok; split.
    + destruct ec; try done. destruct (on_signal_spec lb Hok) as (lb1 & E1 & Hok1 & _).
      rewrite E1 in E. by injection E as <- <-.
Qed.

Lemma process_run_ok fuel events lb r lb' : ok lb -> run fuel events lb = Some (r, lb') -> ok lb'.
Proof.
  revert lb; induction events as [|e events IH]; intros lb Hok E; simpl in E.
  - by injection E as <- <-.
  - destruct (handle fuel e lb) as [[[[]|x] lb1]|] eqn:E1; [| |done].
    + eapply IH; [|exact E]. by eapply process_handle_ok.
    + injection E as <- <-. by eapply process_handle_ok.
Qed.

(** ** Start-up *)

Lemma make_no_connections nodes i : ServicePool.active_at (ServicePool.make nodes) i = 0%Z.
Proof.
  unfold ServicePool.active_at, ServicePool.make. cbn [ServicePool.m_services].
  rewrite list_lookup_fmap. by destruct (nodes !! i).
Qed.

(** What a configuration is turned into. *)
Definition runs_on (config : LoadBalancerConfig) (lb : LoadBalancer) : Prop :=
  TcpProxy.m_pool (proxy lb) = ServicePool.make (GetServices config) /\
  TcpProxy.sessions (proxy lb) = ∅ /\ TcpProxy.accepting (proxy lb) = [false] /\
  TcpProxy.opened (proxy lb) = 0 /\ TcpProxy.closed (proxy lb) = false /\
  TcpProxy.m_connectTimeoutMs (proxy lb)
    = ConnectionConfig.GetConnectTimeoutMs (GetConnection config) /\
  TcpProxy.m_idleTimeoutMs (proxy lb)
    = ConnectionConfig.GetIdleTimeoutMs (GetConnection config) /\
  healthChecker lb =
    (if HealthCheckConfig.GetEnabled (GetHealthCheck config)
     then Some (HealthChecker.launched (ServicePool.make (GetServices config)) (GetHealthCheck config))
     else None) /\
  signals lb = true.

(** The strategy the configuration names: two random choices seeded from the random
    device, or the ring of the configuration's services. *)
Definition routes_by (env : environment) (config : LoadBalancerConfig) (lb : LoadBalancer) : Prop :=
  (GetRoutingAlgorithm config = "p2c" /\
   TcpProxy.m_strategy (proxy lb) = UsesP2C (P2CStrategy.make_random (random_device env))) \/
  (GetRoutingAlgorithm config = "consistent-hash" /\
   exists s, ConsistentHashStrategy.make (ServicePool.make (GetServices config)) = Returned s /\
             TcpProxy.m_strategy (proxy lb) = UsesRing s).

Lemma serve_spec env config strategy :
  match serve env config (ServicePool.make (GetServices config)) strategy with
  | Returned (Running lb) => runs_on config lb /\ TcpProxy.m_strategy (proxy lb) = strategy
  | Returned (Exited _ _) => False
  | Threw _ => True
  end.
Proof.
  unfold serve, TcpProxy.construct. destruct (make_address _); [|done]. simpl.
  destruct (listen env _); [|done]. simpl. destruct (signal_set env); [|done]. simpl.
  unfold TcpProxy.Start. erewrite bind_returned by done.
  destruct (set_option env) as [[]|]; [|by erewrite bind_threw by done].
  erewrite bind_returned by done. unfold TcpProxy.AcceptNext, modify.
  destruct (HealthCheckConfig.GetEnabled (GetHealthCheck config)) eqn:He; simpl;
    unfold runs_on; simpl; rewrite He; by split_and!.
Qed.

Lemma start_running env fs path lb : start env fs path = Returned (Running lb) ->
  exists config u, IConfigSerializer.Load fs path LoadBalancerConfig.default
                     = (Returned (Value u), config) /\
    GetServices config <> [] /\ runs_on config lb /\
    ((GetRoutingAlgorithm config = "p2c" /\
      TcpProxy.m_strategy (proxy lb) = UsesP2C (P2CStrategy.make_random (random_device env))) \/
     (GetRoutingAlgorithm config = "consistent-hash" /\
      exists s, ConsistentHashStrategy.make (ServicePool.make (GetServices config)) = Returned s /\
                TcpProxy.m_strategy (proxy lb) = UsesRing s)).
Proof.
  unfold start. destruct (IConfigSerializer.Load fs path _) as [[[u|e]|x] config]; try done.
  destruct (Nat.eqb_spec (GetServiceCount config) 0) as [|Hn]; [done|].
  assert (Hs : GetServices config <> []).
  { intros E. apply Hn. unfold GetServiceCount. unfold GetServices in E. by rewrite E. }
  cbn [strategyFactory assoc]. destruct (String.eqb_spec (GetRoutingAlgorithm config) "p2c") as [Ea|_].
  - cbn [mbind outcome_bind]. intros E.
    pose proof (serve_spec env config (UsesP2C (P2CStrategy.make_random (random_device env)))) as Hsp.
    rewrite E in Hsp. destruct Hsp as [Hr Hst]. exists config, u. split_and!; try done. by left.
  - destruct (String.eqb_spec (GetRoutingAlgorithm config) "consistent-hash") as [Ea|_]; [|done].
    destruct (ConsistentHashStrategy.make _) as [s|e] eqn:Es; [|done]. cbn [mbind outcome_bind].
    intros E. pose proof (serve_spec env config (UsesRing s)) as Hsp. rewrite E in Hsp.
    destruct Hsp as [Hr Hst]. exists config, u. split_and!; try done. right. eauto.
Qed.

Lemma running_ok env fs argv lb : main env fs argv = Running lb -> ok lb.
Proof.
  unfold main. destruct argv as [|prog [|path rest]]; try done.
  destruct (start env fs path) as [p|e] eqn:E; [|done]. intros ->.
  apply start_running in E as (config & u & _ & _ & Hr & Hst).
  destruct Hr as (Hp & Hs & Ha & Ho & Hcl & _ & _ & Hc & _). split.
  - split; rewrite ?Hp, ?Hs, ?Ho.
    + intros _ i. rewrite make_no_connections. unfold TcpProxy.live.
      by rewrite map_filter_empty, map_size_empty.
    + intros id [s Hid]. by rewrite lookup_empty in Hid.
    + by rewrite map_size_empty.
    + intros id i s Hid. by rewrite lookup_empty in Hid.
    + by rewrite Ha.
    + destruct Hst as [[_ ->]|(_ & s & Es & ->)]; [done|]. by apply ConsistentHashStrategy.make_ring_for.
  - intros c E. rewrite Hc in E. destruct (HealthCheckConfig.GetEnabled _); [|done].
    injection E as <-. rewrite Hp. split; [done|]. apply HealthChecker.launched_wf.
Qed.

(** ** Properties *)

(** C25: every way [main] can start.  It exits with 1, or it runs, and then on the services,
    timeouts, strategy and health checks that the configuration file gives. *)
Theorem main_starts_as_configured env fs argv :
  match main env fs argv with
  | Exited code _ => code = 1%Z
  | Running lb =>
      exists prog path rest config u, argv = prog :: path :: rest /\
        IConfigSerializer.Load fs path LoadBalancerConfig.default = (Returned (Value u), config) /\
        GetServices config <> [] /\ runs_on config lb /\
        ((GetRoutingAlgorithm config = "p2c" /\
          TcpProxy.m_strategy (proxy lb) = UsesP2C (P2CStrategy.make_random (random_device env))) \/
         (GetRoutingAlgorithm config = "consistent-hash" /\
          exists s, ConsistentHashStrategy.make (ServicePool.make (GetServices config)) = Returned s /\
                    TcpProxy.m_strategy (proxy lb) = UsesRing s))
  end.
Proof.
  destruct (main env fs argv) as [code text|lb] eqn:E; unfold main in E;
    destruct argv as [|prog [|path rest]]; try done; try (by injection E as <- _).
  - destruct (start env fs path) as [p|e] eqn:Es; [|by injection E as <- _]. subst p.
    unfold start in Es. destruct (IConfigSerializer.Load _ _ _) as [[[u|e]|x] config]; try done;
      [|by injection Es as <- _].
    destruct (_ =? 0); [by injection Es as <- _|].
    destruct (assoc _ _) as [mk|]; [|by injection Es as <- _].
    destruct (mk tt) as [s|x]; [|done]. cbn [mbind outcome_bind] in Es.
    pose proof (serve_spec env config s) as Hsp. by rewrite Es in Hsp.
  - destruct (start env fs path) as [p|e] eqn:Es; [|done]. subst p.
    apply start_running in Es as (config & u & Hl & Hrest). exists prog, path, rest, config, u. done.
Qed.

(** C2: the counts survive the whole process.  Whatever the proxy, the sessions, the health
    checker and the signal handler do, in whatever order, every service counts as many
    connections as sessions are alive on it. *)
Theorem process_connections_counted env fs argv lb0 fuel events r lb :
  main env fs argv = Running lb0 -> run fuel events lb0 = Some (r, lb) ->
  (Z.of_nat (TcpProxy.opened (proxy lb)) + 1 < 2 ^ 64)%Z ->
  forall i, ServicePool.active_at (TcpProxy.m_pool (proxy lb)) i
            = Z.of_nat (TcpProxy.live i (TcpProxy.sessions (proxy lb))).
Proof.
  intros Hm E. apply TcpProxy.ok_count, ok_proxy. eapply process_run_ok; [|exact E]. by eapply running_ok.
Qed.

(** The signal handler closes the acceptor and stops the checker; sessions, what they
    wait for, and the pool are left as they are: connections are drained, not cut. *)
Theorem signal_keeps_sessions fuel lb : ok lb -> signals lb = true ->
  exists lb', handle fuel (Signal success) lb = Some (Returned tt, lb') /\
    TcpProxy.closed (proxy lb') = true /\
    TcpProxy.sessions (proxy lb') = TcpProxy.sessions (proxy lb) /\
    TcpProxy.m_pool (proxy lb') = TcpProxy.m_pool (proxy lb) /\
    (forall c', healthChecker lb' = Some c' -> HealthChecker.m_stopped c' = true).
Proof.
  intros Hok Hs. destruct (on_signal_spec lb Hok) as (lb' & E & _ & Hcl & Hse & _ & _ & Hp & _ & Hc).
  exists lb'. unfold handle, possible. rewrite Hs. cbn [negb]. split_and!; [by f_equal|done..|].
  intros c' Hc'. rewrite Hc' in Hc. destruct (healthChecker lb); [|done]. by destruct Hc.
Qed.

(** ** Winding down

    The process after the signal.  A measure of what is pending goes down with every
    event, but for what the peers still send. *)

(** The acceptor's part of a shutdown without the race of [TcpProxy.stop_race_spins]: an
    accept ends because the acceptor was closed. *)
Definition orderly (e : event) (lb : LoadBalancer) : Prop :=
  match e with
  | OfProxy (TcpProxy.Accept _ ec _) =>
      ec = operation_aborted /\ TcpProxy.closed (proxy lb) = true
  | _ => True
  end.

Fixpoint orderly_schedule (fuel : nat) (events : list event) (lb : LoadBalancer) : Prop :=
  match events with
  | [] => True
  | e :: events' =>
      possible e lb = true /\ orderly e lb /\
      match handle fuel e lb with
      | Some (Returned _, lb') => orderly_schedule fuel events' lb'
      | _ => True
      end
  end.

(** The events that what is pending can lead to by itself, and what an event brings in. *)
Definition waiting (lb : LoadBalancer) : nat :=
  length (TcpProxy.accepting (proxy lb)) +
  match healthChecker lb with Some c => length (HealthChecker.pending c) | None => 0 end +
  TcpProxy.backlog (TcpProxy.sessions (proxy lb)).

Definition supply (e : event) : nat :=
  match e with OfProxy (TcpProxy.OfSession _ e) => Session.supply e | _ => 0 end.
Definition supplied (events : list event) : nat := sum_list_with supply events.

Record stopping (lb : LoadBalancer) : Prop := {
  stopping_ok : ok lb;
  stopping_closed : TcpProxy.closed (proxy lb) = true;
  stopping_checker c : healthChecker lb = Some c -> HealthChecker.m_stopped c = true;
  stopping_signals : signals lb = false
}.

Lemma signal_stops lb : ok lb -> exists lb', on_signal success lb = (Returned tt, lb') /\
  stopping lb' /\ TcpProxy.sessions (proxy lb') = TcpProxy.sessions (proxy lb) /\
  waiting lb' = waiting lb /\ TcpProxy.opened (proxy lb') = TcpProxy.opened (proxy lb).
Proof.
  intros Hok.
  destruct (on_signal_spec lb Hok) as (lb' & E & Hok' & Hcl & Hs & Ha & Ho & _ & Hsig & Hc).
  exists lb'. unfold waiting. rewrite Hs, Ha. split_and!; [done| |done| |done].
  - split; [done..| |done]. intros c Ec. rewrite Ec in Hc.
    destruct (healthChecker lb); [|done]. apply Hc.
  - destruct (healthChecker lb), (healthChecker lb'); try done. by destruct Hc as [_ ->].
Qed.

(** The accept that was pending is aborted: nothing follows it. *)
Lemma stopping_accept fuel k peer lb : stopping lb ->
  possible (OfProxy (TcpProxy.Accept k operation_aborted peer)) lb = true ->
  exists p, handle fuel (OfProxy (TcpProxy.Accept k operation_aborted peer)) lb
              = Some (Returned tt, with_proxy p lb) /\
    TcpProxy.closed p = TcpProxy.closed (proxy lb) /\
    TcpProxy.opened p = TcpProxy.opened (proxy lb) /\
    TcpProxy.sessions p = TcpProxy.sessions (proxy lb) /\
    length (TcpProxy.accepting (proxy lb)) = 1 /\ TcpProxy.accepting p = [].
Proof.
  intros Hst Hp. unfold handle. rewrite Hp. cbn [negb]. unfold TcpProxy.handle.
  change (TcpProxy.possible (TcpProxy.Accept k operation_aborted peer) (proxy lb) = true) in Hp.
  rewrite Hp. cbn [negb TcpProxy.OnAccept fmap option_fmap option_map fst snd].
  eexists. split; [reflexivity|]. simpl in Hp.
  destruct (TcpProxy.accepting (proxy lb) !! k) as [dead|] eqn:Hk; [|done].
  destruct (TcpProxy.accepting_taken _ _ _ (ok_proxy _ (stopping_ok _ Hst)) Hk) as [E Hd].
  split_and!; try done. by rewrite E.
Qed.

Lemma with_proxy_waiting p lb : waiting (with_proxy p lb) =
  length (TcpProxy.accepting p) +
  match healthChecker lb with Some c => length (HealthChecker.pending c) | None => 0 end +
  TcpProxy.backlog (TcpProxy.sessions p).
Proof. unfold waiting. cbn. by destruct (healthChecker lb). Qed.

Lemma with_proxy_stopping p lb : stopping lb -> ok (with_proxy p lb) ->
  TcpProxy.closed p = true -> stopping (with_proxy p lb).
Proof.
  intros Hst Hok Hc. split; [done..| |by apply Hst]. intros c Ec. cbn in Ec.
  apply fmap_Some in Ec as (c0 & Hc0 & ->). exact (stopping_checker _ Hst c0 Hc0).
Qed.

(** Every event after the signal is handled without an exception, opens no session and
    brings the end closer. *)
Lemma stopping_step fuel e lb : stopping lb -> possible e lb = true -> orderly e lb ->
  exists lb', handle fuel e lb = Some (Returned tt, lb') /\ stopping lb' /\
    TcpProxy.opened (proxy lb') = TcpProxy.opened (proxy lb) /\
    S (waiting lb') <= waiting lb + supply e.
Proof.
  intros Hst Hp Ho. pose proof (stopping_ok _ Hst) as Hok. pose proof (stopping_closed _ Hst) as Hcl.
  destruct e as [[k ec peer|id e|]|k ec|ec].
  - destruct Ho as [-> _]. destruct (stopping_accept fuel k peer lb Hst Hp)
      as (p & E & Hc & Hop & Hs & Hl & Ha).
    eexists. split; [exact E|]. split; [|split; [done|]].
    + apply with_proxy_stopping; [done|by eapply process_handle_ok|by rewrite Hc].
    + rewrite with_proxy_waiting. unfold waiting. rewrite Ha, Hs, Hl. cbn [length supply]. lia.
  - destruct (TcpProxy.session_event_backlog id e (proxy lb) (ok_proxy _ Hok) Hp)
      as (p & E & Hpok & Hc & Ha & Hop & Hb).
    assert (Eh : handle fuel (OfProxy (TcpProxy.OfSession id e)) lb = Some (Returned tt, with_proxy p lb)).
    { unfold handle. rewrite Hp. cbn [negb]. unfold TcpProxy.handle.
      change (TcpProxy.possible (TcpProxy.OfSession id e) (proxy lb) = true) in Hp.
      rewrite Hp. cbn [negb]. by rewrite E. }
    eexists. split; [exact Eh|]. split; [|split; [done|]].
    + apply with_proxy_stopping; [done|by eapply process_handle_ok|by rewrite Hc].
    + rewrite with_proxy_waiting. unfold waiting. rewrite Ha. cbn [supply]. lia.
  - done.
  - unfold possible in Hp. destruct (healthChecker lb) as [c|] eqn:Hc; [|done].
    apply Nat.ltb_lt in Hp. destruct (ok_checker _ Hok _ Hc) as [_ Hwf].
    destruct (HealthChecker.stopped_step k ec c Hwf (stopping_checker _ Hst _ Hc) Hp)
      as (c' & E & _ & Hs & Hl & _).
    exists (with_checker c' lb). split; [|split; [|split; [done|]]].
    + unfold handle, possible. rewrite Hc. apply Nat.ltb_lt in Hp. rewrite Hp. cbn [negb].
      unfold on_checker. by rewrite Hc, E.
    + split; [by eapply checker_step|done|by intros c0 [= <-]|apply Hst].
    + unfold waiting. rewrite Hc. cbn [healthChecker with_checker proxy TcpProxy.with_pool
        TcpProxy.accepting TcpProxy.sessions supply]. lia.
  - unfold possible in Hp. by rewrite (stopping_signals _ Hst) in Hp.
Qed.

Lemma stopping_run fuel later lb : stopping lb -> orderly_schedule fuel later lb ->
  exists lb', run fuel later lb = Some (Returned tt, lb') /\ stopping lb' /\
    TcpProxy.opened (proxy lb') = TcpProxy.opened (proxy lb) /\
    length later + waiting lb' <= waiting lb + supplied later.
Proof.
  revert lb; induction later as [|e later IH]; intros lb Hst Hl.
  - exists lb. split_and!; [done..|]. cbn. lia.
  - destruct Hl as (Hp & Ho & Hl).
    destruct (stopping_step fuel e lb Hst Hp Ho) as (lb1 & E & Hst1 & Hop & Hw).
    rewrite E in Hl. destruct (IH lb1 Hst1 Hl) as (lb' & E' & Hst' & Hop' & Hw').
    exists lb'. cbn [run]. rewrite E. split_and!; [done..|congruence|].
    unfold supplied in *. cbn [sum_list_with length]. lia.
Qed.

(** When nothing can happen any more, nothing is pending. *)
Lemma stopping_stuck lb : stopping lb ->
  (forall e, possible e lb = true -> ~ orderly e lb) -> idle lb.
Proof.
  intros Hst Hn. pose proof (stopping_ok _ Hst) as Hok. split; [|split; [|split; [|apply Hst]]].
  - destruct (TcpProxy.accepting (proxy lb)) as [|dead l] eqn:Ha; [done|]. exfalso.
    apply (Hn (OfProxy (TcpProxy.Accept 0 operation_aborted (Returned "")))); [cbn; by rewrite Ha|].
    split; [done|apply Hst].
  - apply map_empty. intros id. destruct (TcpProxy.sessions (proxy lb) !! id) as [[i s]|] eqn:Hid; [|done].
    exfalso. destruct (TcpProxy.ok_session _ (ok_proxy _ Hok) _ _ _ Hid) as (_ & Hp & _).
    apply (Hn (OfProxy (TcpProxy.OfSession id (Session.Complete 0 (failure "End of file") [])))); [|done].
    cbn. rewrite Hid. by destruct (Session.pending s) as [|[o d] l].
  - destruct (healthChecker lb) as [c|] eqn:Hc; [|done].
    destruct (HealthChecker.pending c) as [|h l] eqn:Hp; [done|]. exfalso.
    apply (Hn (OfChecker 0 success)); [cbn; by rewrite Hc, Hp|done].
Qed.

(** C26: graceful shutdown.  A signal, at any moment of the process, cuts no session.
    After it, in whatever order what is pending completes and whatever the codes and the
    data, no exception is thrown and no session is opened; what is left to happen is at
    most what was pending, and two events and the bytes for each success on a
    session; and when nothing is left to happen the process ends with 0.  The one thing
    that must not happen is that an accept ends otherwise than by the closing of the
    acceptor, which [TcpProxy.stop_race_spins] is about. *)
Theorem graceful_shutdown env fs argv lb0 fuel before lb :
  main env fs argv = Running lb0 -> run fuel before lb0 = Some (Returned tt, lb) ->
  signals lb = true ->
  exists lb1, handle fuel (Signal success) lb = Some (Returned tt, lb1) /\
    TcpProxy.sessions (proxy lb1) = TcpProxy.sessions (proxy lb) /\
    forall later, orderly_schedule fuel later lb1 ->
      exists lb', run fuel later lb1 = Some (Returned tt, lb') /\
        TcpProxy.opened (proxy lb') = TcpProxy.opened (proxy lb) /\
        length later <= waiting lb + supplied later /\
        ((forall e, possible e lb' = true -> ~ orderly e lb') ->
         exit_code (Returned tt, lb') = Some 0%Z).
Proof.
  intros Hm E Hs. assert (Hok : ok lb) by (eapply process_run_ok; [by eapply running_ok|exact E]).
  destruct (signal_stops lb Hok) as (lb1 & E1 & Hst & Hse & Hw & Hop). exists lb1.
  split; [unfold handle, possible; rewrite Hs; cbn [negb]; by f_equal|]. split; [done|].
  intros later Hl. destruct (stopping_run fuel later lb1 Hst Hl) as (lb' & E' & Hst' & Hop' & Hw').
  exists lb'. split_and!; [done|congruence|lia|]. intros Hn. simpl.
  by rewrite decide_True by (by apply stopping_stuck).
Qed.

End LoadBalancer.
(** ** From the configuration tool to the running process *)
Section Saved.
Context `{Asio} `{UniformInt} `{YOk : YamlLibOk}.
#[local] Existing Instance YamlConfigSerializer.yaml_serializer.

(** A configuration that was saved and written in full can be run: the process starts
    on exactly what was saved, routing by the strategy that it names, given that the
    system lets it listen. *)
Theorem saved_configuration_runs c path fs fs' env prog a :
  LoadBalancerConfig.wf c -> YamlConfigSerializer.printable_config c ->
  YamlConfigSerializer.Save c path fs = (Returned (Value tt), fs') -> flushed fs' path ->
  GetServices c <> [] ->
  GetRoutingAlgorithm c = "p2c" \/
  (GetRoutingAlgorithm c = "consistent-hash" /\
   exists s, ConsistentHashStrategy.make (ServicePool.make (GetServices c)) = Returned s) ->
  make_address (GetListenAddress c) = Returned a ->
  listen env (GetListenPort c) = Returned tt ->
  signal_set env = Returned tt -> set_option env = Returned tt ->
  exists lb, main env fs' [prog; path] = Running lb /\ runs_on c lb /\ routes_by env c lb.
Proof.
  intros Hwf Hpr Hs Hf Hne Halg Ha Hl Hsig Hopt.
  pose proof (YamlConfigSerializer.load_saved c path fs fs' Hwf Hpr Hs Hf LoadBalancerConfig.default) as Hload.
  assert (Hserve : forall strategy, exists lb,
    serve env c (ServicePool.make (GetServices c)) strategy = Returned (Running lb) /\
    runs_on c lb /\ TcpProxy.m_strategy (proxy lb) = strategy).
  { intros strategy. unfold serve, TcpProxy.construct. rewrite Ha, Hl, Hsig, Hopt. simpl.
    unfold runs_on. destruct (HealthCheckConfig.GetEnabled (GetHealthCheck c)); simpl;
      (eexists; split; [reflexivity|]; by split_and!). }
  unfold main, start. cbn [IConfigSerializer.Load YamlConfigSerializer.yaml_serializer].
  rewrite Hload. destruct (Nat.eqb_spec (GetServiceCount c) 0) as [E|_].
  { exfalso. apply Hne. by apply nil_length_inv. }
  cbn [strategyFactory assoc]. destruct Halg as [Halg|[Halg [s Es]]]; rewrite Halg;
    cbn [String.eqb Ascii.eqb Bool.eqb]; rewrite ?Es; cbn [mbind outcome_bind].
  - destruct (Hserve (UsesP2C (P2CStrategy.make_random (random_device env)))) as (lb & E & Hr & Hst).
    exists lb. rewrite E. split_and!; [done..|]. by left.
  - destruct (Hserve (UsesRing s)) as (lb & E & Hr & Hst).
    exists lb. rewrite E. split_and!; [done..|]. right. eauto.
Qed.

End Saved.

End LoadBalancer.
