(* ===== verification/ProcessInstances.v ===== *)
(** * The whole process on concrete schedules, from a file that was saved *)

From S2P Require Import Prelude Node Config Serialization YamlInstance State Rng Routing.
From S2P Require Import P2C Ring Asio Session Health TcpProxy LoadBalancer.
Import TreeYaml YamlConfigSerializer P2CStrategy AnyStrategy LoadBalancer.

Module ProcessWitnesses.

#[local] Instance dotted : Asio := string_asio ServiceNode.IsValidIpv4.
#[local] Existing Instance YamlConfigSerializer.yaml_serializer.

Definition config : LoadBalancerConfig.LoadBalancerConfig :=
  LoadBalancerConfig.make "lb" "127.0.0.1" 8080 "p2c"
    [ServiceNode.make "a" "10.0.0.1" 9001 1; ServiceNode.make "b" "10.0.0.2" 9002 3]
    (HealthCheckConfig.make true 50 20 1) (ConnectionConfig.make 10 30000 1000).

Definition saved : FS (YamlLib := tree_yaml) :=
  (Save (Y := tree_yaml) config "lb.yaml" YamlWitnesses.empty_disk).2.

Definition env : environment :=
  mkEnvironment 42 (fun _ => Returned tt) (Returned tt) (Returned tt).

Definition nothing : LoadBalancer := mkLoadBalancer
  (TcpProxy.make ServicePool.empty (UsesP2C (P2CStrategy.make 0)) 0 0) None false.

Definition the_process (p : process) : LoadBalancer :=
  match p with Running lb => lb | Exited _ _ => nothing end.
Definition is_running (p : process) : bool :=
  match p with Running _ => true | Exited _ _ => false end.

Lemma the_process_running p : is_running p = true -> p = Running (the_process p).
Proof. by destruct p. Qed.

Definition started : LoadBalancer := the_process (main env saved ["bit_bridge_lb"; "lb.yaml"]).

Lemma started_running : main env saved ["bit_bridge_lb"; "lb.yaml"] = Running started.
Proof. apply the_process_running. vm_compute. reflexivity. Qed.

Definition final (events : list event) : LoadBalancer :=
  match run 10 events started with Some (_, lb) => lb | None => started end.

Lemma process_run_final events : fst <$> run 10 events started = Some (Returned tt) ->
  run 10 events started = Some (Returned tt, final events).
Proof. unfold final. destruct (run 10 events started) as [[r w']|]; [|done]. by intros [= ->]. Qed.

(** A round of probes, the second service refusing; two clients, who both get the first;
    one of their sessions times out. *)
Definition morning : list event :=
  [OfChecker 0 success; OfChecker 1 success; OfChecker 2 (failure "refused");
   OfProxy (TcpProxy.Accept 0 success (Returned "192.168.0.9"));
   OfProxy (TcpProxy.Accept 0 success (Returned "192.168.0.10"));
   OfProxy (TcpProxy.OfSession 0 (Session.Complete 0 success []));
   OfProxy (TcpProxy.OfSession 0 (Session.Complete 0 operation_aborted []))].

Lemma morning_run : run 10 morning started = Some (Returned tt, final morning).
Proof. apply process_run_final. vm_compute. reflexivity. Qed.

Example morning_counts :
  ServicePool.active_at (TcpProxy.m_pool (proxy (final morning))) 0 = 1%Z /\
  ServicePool.healthy_at (TcpProxy.m_pool (proxy (final morning))) 1 = false.
Proof. vm_compute. split; reflexivity. Qed.

Example process_connections_counted_witness :
  ServicePool.active_at (TcpProxy.m_pool (proxy (final morning))) 0
  = Z.of_nat (TcpProxy.live 0 (TcpProxy.sessions (proxy (final morning)))).
Proof.
  apply (process_connections_counted env saved ["bit_bridge_lb"; "lb.yaml"] started 10 morning
           (Returned tt) (final morning) started_running morning_run).
  vm_compute. reflexivity.
Defined.

Lemma final_ok : ok (final morning).
Proof.
  eapply process_run_ok; [|exact morning_run].
  exact (running_ok env saved ["bit_bridge_lb"; "lb.yaml"] started started_running).
Qed.

Example signal_keeps_sessions_witness :
  exists lb', handle 10 (Signal success) (final morning) = Some (Returned tt, lb') /\
    TcpProxy.closed (proxy lb') = true /\
    TcpProxy.sessions (proxy lb') = TcpProxy.sessions (proxy (final morning)) /\
    TcpProxy.m_pool (proxy lb') = TcpProxy.m_pool (proxy (final morning)) /\
    (forall c', healthChecker lb' = Some c' -> HealthChecker.m_stopped c' = true).
Proof. apply (signal_keeps_sessions 10 (final morning) final_ok). vm_compute. reflexivity. Defined.

Example graceful_shutdown_witness :
  exists lb1, handle 10 (Signal success) (final morning) = Some (Returned tt, lb1) /\
    TcpProxy.sessions (proxy lb1) = TcpProxy.sessions (proxy (final morning)) /\
    forall later, orderly_schedule 10 later lb1 ->
      exists lb', run 10 later lb1 = Some (Returned tt, lb') /\
        TcpProxy.opened (proxy lb') = TcpProxy.opened (proxy (final morning)) /\
        length later <= waiting (final morning) + supplied later /\
        ((forall e, possible e lb' = true -> ~ orderly e lb') ->
         exit_code (Returned tt, lb') = Some 0%Z).
Proof.
  apply (graceful_shutdown env saved ["bit_bridge_lb"; "lb.yaml"] started 10 morning
           (final morning) started_running morning_run).
  vm_compute. reflexivity.
Defined.

(** The evening: the accept is aborted, the checker's timers and the other client's
    session end; the process returns 0, and before the last of these events it does
    not return. *)
Definition evening : list event :=
  [OfProxy (TcpProxy.Accept 0 operation_aborted (Returned "")); OfChecker 2 operation_aborted;
   OfChecker 0 success; OfChecker 0 operation_aborted;
   OfProxy (TcpProxy.OfSession 1 (Session.Complete 0 success []));
   OfProxy (TcpProxy.OfSession 1 (Session.Complete 0 operation_aborted []))].

Example evening_orderly : orderly_schedule 10 evening (final (morning ++ [Signal success])).
Proof. vm_compute. by repeat split. Qed.

Example evening_returns :
  (exit_code <$> run 10 (Signal success :: evening) (final morning)) = Some (Some 0%Z) /\
  (exit_code <$> run 10 (Signal success :: take 5 evening) (final morning)) = Some None /\
  waiting (final morning) = 9.
Proof. vm_compute. done. Qed.

Example saved_configuration_runs_witness :
  exists lb, main env saved ["bit_bridge_lb"; "lb.yaml"] = Running lb /\ runs_on config lb /\
    routes_by env config lb.
Proof.
  apply (saved_configuration_runs config "lb.yaml" YamlWitnesses.empty_disk saved env
           "bit_bridge_lb" ("127.0.0.1" : @address dotted)).
  - by apply (bool_decide_unpack (LoadBalancerConfig.wf config)).
  - reflexivity.
  - reflexivity.
  - exact I.
  - done.
  - by left.
  - reflexivity.
  - reflexivity.
  - reflexivity.
  - reflexivity.
Defined.

End ProcessWitnesses.
