(* ===== verification/EndToEnd.v ===== *)
(** * From the configuration tool to the running load balancer

    The tool and the process meet in a file.  A configuration that was put together in
    the window and saved is one the process runs, service for service. *)

From S2P Require Import Prelude Text Node Config Serialization Settings MainFrame State.
From S2P Require Import Routing P2C Ring Asio Health TcpProxy LoadBalancer.
Import LoadBalancerConfig AppSettings MainFrame.

Module EndToEnd.
Section EndToEnd.
Context `{Asio} `{UniformInt} `{YOk : YamlLibOk} `{WOk : WxLibOk FS}.
#[local] Existing Instance YamlConfigSerializer.yaml_serializer.

(** What the machine must allow for the settings' defaults to be served: the address
    parses, the port and the signals are free, and the ring, if it is the strategy, has
    no collision. *)
Definition startable (settings : AppSettings) (services : list ServiceNode.ServiceNode)
    (env : LoadBalancer.environment) (a : address) : Prop :=
  (GetDefaultRoutingAlgorithm settings = "p2c" \/
   (GetDefaultRoutingAlgorithm settings = "consistent-hash" /\
    exists s, ConsistentHashStrategy.make (ServicePool.make services) = Returned s)) /\
  make_address (GetDefaultListenAddress settings) = Returned a /\
  LoadBalancer.listen env (GetDefaultListenPort settings) = Returned tt /\
  LoadBalancer.signal_set env = Returned tt /\ LoadBalancer.set_option env = Returned tt.

Lemma Save_returned (w w1 : MainFrame) :
  OnSaveConfig w = (Returned tt, w1) -> dialogs w1 = dialogs w ->
  YamlConfigSerializer.Save (m_config w) (GetConfigFilePath (m_settings w)) (disk w)
  = (Returned (Value tt), disk w1).
Proof.
  rewrite OnSaveConfig_cases. cbn [IConfigSerializer.Save YamlConfigSerializer.yaml_serializer].
  destruct (YamlConfigSerializer.Save _ _ _) as [[[[]|why]|e] fs']; intros [= <-] Hd; [done|].
  cbn in Hd. apply (f_equal length) in Hd. rewrite length_app in Hd. cbn in Hd. lia.
Qed.

Lemma edited_wf settings l : AppSettings.wf settings -> services_ok l ->
  LoadBalancerConfig.wf (with_services l (default_config settings)).
Proof.
  intros (? & ? & ? & ? & ? & ? & ?) [Hl _]. split_and!; try done.
  eapply Forall_impl; [exact Hl|]. exact reachable_wf.
Qed.

(** C5: from an empty window to a running process.  The user starts without a
    configuration file, adds and removes services in any way, and saves without a
    message box.  If the strings are printable, the file was written in full, some
    service is left and the machine lets the process start, then the load balancer
    starts on exactly the services of the window, with the timeouts and health checks of
    the settings, and routes by the algorithm the settings name; every service can be
    reached, and no two share a name or an address. *)
Theorem edited_configuration_runs settings (fs : FS) w0 events w w1 env prog a :
  let path := GetConfigFilePath settings in
  AppSettings.wf settings -> FileExists fs path = false ->
  construct settings fs = (Returned tt, w0) -> Forall no_load events ->
  run events w0 = (Returned tt, w) ->
  OnSaveConfig w = (Returned tt, w1) -> dialogs w1 = dialogs w ->
  YamlConfigSerializer.printable_config (m_config w) -> flushed (disk w1) path ->
  m_services (m_config w) <> [] ->
  startable settings (m_services (m_config w)) env a ->
  services_ok (m_services (m_config w)) /\
  m_config w = with_services (m_services (m_config w)) (default_config settings) /\
  exists lb, LoadBalancer.main env (disk w1) [prog; path] = LoadBalancer.Running lb /\
             LoadBalancer.runs_on (m_config w) lb /\
             LoadBalancer.routes_by env (m_config w) lb.
Proof.
  cbn zeta. intros Hset Hnew Hc Hev Hr Hs Hd Hp Hf Hne (Halg & Ha & Hlis & Hsig & Hopt).
  assert (Hw : edits settings (default_config settings) w).
  { eapply run_edits; [exact Hev|exact Hr|].
    rewrite construct_cases in Hc. unfold mbind, M_bind in Hc.
    rewrite LoadExistingConfig_cases in Hc.
    change (disk (with_defaults settings fs)) with fs in Hc.
    change (m_settings (with_defaults settings fs)) with settings in Hc.
    rewrite Hnew in Hc. injection Hc as <-. split; [done|]. exists []. split; [done|].
    by split_and!; constructor. }
  destruct Hw as (Es & l & Ec & Hl). rewrite Ec. cbn [m_services with_services].
  split; [done|]. split; [done|].
  apply Save_returned in Hs; [|done]. rewrite Es, Ec in *.
  by apply (LoadBalancer.saved_configuration_runs _ _ _ _ _ _ a (edited_wf _ _ Hset Hl)
              Hp Hs Hf).
Qed.
End EndToEnd.
End EndToEnd.
