(* ===== verification/AppInstances.v ===== *)
(** * The configuration tool on concrete sessions

    Strings of the window are text, numbers are decimal; the disk is that of
    [YamlInstance], or for the whole application that and a disk of text files.  The
    theorems of [MainFrame], [App] and [EndToEnd] are applied to it. *)

From S2P Require Import Prelude Text Node Config Serialization YamlInstance Settings.
From S2P Require Import TomlInstance MainFrame App State Routing P2C Ring Asio LoadBalancer.
From S2P Require Import ProcessInstances EndToEnd.
Import ServiceNode LoadBalancerConfig AppSettings MainFrame TreeYaml TextDisk.
Import YamlConfigSerializer.

(** ** wxWidgets on text *)
Module TextWx.

Definition to_ulong (s : string) : option Z :=
  match s with
  | "" => None
  | _ => match digits 0 s with
         | (z, "") => if decide (in_u 64 z) then Some z else None
         | _ => None
         end
  end.

Definition arg_text (a : format_arg string) : string :=
  match a with AText s => s | AStd s => s | ANum z => pretty z end.

(** The first two characters of a conversion are dropped; what follows is kept. *)
Fixpoint format (pattern : string) (args : list (format_arg string)) : string :=
  match pattern with
  | "" => ""
  | String "%" (String _ rest) =>
      match args with
      | a :: args' => arg_text a +:+ format rest args'
      | [] => format rest []
      end
  | String c rest => String c (format rest args)
  end.

(** The conversion of the "C" locale: a text that is not ASCII cannot be converted, and
    gives the empty string. *)
Definition convert (s : string) : string :=
  if every (between 0 127) s then s else "".

Definition on_text {FileSystem} (exists_file : FileSystem -> string -> bool) : WxLib FileSystem := {|
  wxString := string;
  wx s := s;
  IsEmpty s := bool_decide (s = "");
  ToStdString := convert;
  ToULong := to_ulong;
  Format := format;
  FileExists := exists_file
|}.

#[export] Instance on_text_ok {FileSystem} (f : FileSystem -> string -> bool) : WxLibOk (on_text f).
Proof.
  split. intros s z. cbn. unfold to_ulong. repeat case_match; by intros [= <-].
Qed.

End TextWx.
Import TextWx.

(** ** The window *)
Module FrameWitnesses.

#[local] Instance text_wx : WxLib (FS (YamlLib := tree_yaml)) :=
  on_text (fun fs p => bool_decide (is_Some (files fs !! p))).
#[local] Existing Instance yaml_serializer.

Abbreviation window := (MainFrame (W := text_wx)).
Abbreviation user := (MainFrame.run (W := text_wx) (Ser := yaml_serializer)).

Definition no_files : FS (YamlLib := tree_yaml) := TreeYaml.mkDisk ∅ ∅.

Definition opened_on (fs : FS (YamlLib := tree_yaml)) : window := (construct AppSettings.make fs).2.

Definition fill (name ip port : string) : list (event (W := text_wx)) :=
  [Edit NameInput name; Edit IpInput ip; Edit PortInput port; Button ID_ADD_SERVICE].

(** Three services, an attempt at a fourth of the same address, and the second removed. *)
Definition session : list (event (W := text_wx)) :=
  fill "a" "10.0.0.1" "9001" ++ fill "b" "10.0.0.2" "9002" ++ fill "c" "10.0.0.3" "9003" ++
  fill "d" "10.0.0.1" "9001" ++ [SelectRows [false; true]; ListKeyDown WXK_DELETE].

Definition after_session : window := (user session (opened_on no_files)).2.

Lemma opened_returned : construct AppSettings.make no_files = (Returned tt, opened_on no_files).
Proof. unfold opened_on. apply (settled (construct AppSettings.make no_files)). vm_compute. reflexivity. Qed.
Lemma session_returned : user session (opened_on no_files) = (Returned tt, after_session).
Proof. unfold after_session. apply (settled (user session (opened_on no_files))). vm_compute. reflexivity. Qed.

Example session_result :
  ServiceNode.GetName <$> m_services (m_config after_session) = ["a"; "c"] /\
  length (dialogs after_session) = 1 /\ m_nameInput after_session = "d".
Proof. vm_compute. done. Qed.

Example list_mirrors_configuration_witness : in_sync after_session.
Proof.
  apply (list_mirrors_configuration AppSettings.make no_files session (opened_on no_files)
    (Returned tt)); [|exact opened_returned|exact session_returned].
  intros H. by apply (bool_decide_unpack _) in H as [x Hx].
Defined.

Example services_stay_ok_witness : services_ok (m_services (m_config after_session)).
Proof.
  apply (services_stay_ok session (opened_on no_files) (Returned tt)); [..|exact session_returned].
  - split_and!; constructor.
  - by repeat constructor.
Defined.

Definition typed_in : window :=
  (user [Edit NameInput "e"; Edit IpInput "10.0.0.5"; Edit PortInput "9005"] after_session).2.

Example OnAddService_outcomes_witness :
  OnAddService typed_in = (Returned tt, added typed_in).
Proof.
  apply (OnAddService_outcomes typed_in). split; [split_and!|].
  - reflexivity.
  - reflexivity.
  - reflexivity.
  - vm_compute. reflexivity.
  - exists 9005%Z. split; [vm_compute; reflexivity|lia].
  - exists 1%Z. split; [vm_compute; reflexivity|lia].
  - vm_compute. repeat constructor; naive_solver.
Defined.

(** A name in UTF-8 passes the test for an empty name and is stored as one. *)
Definition nameless : window :=
  (user (fill (String "195" (String "169" "")) "10.0.0.6" "9006") after_session).2.

Example nameless_service :
  ServiceNode.GetName <$> m_services (m_config nameless) = ["a"; "c"; ""] /\
  forallb IsValid (m_services (m_config nameless)) = false.
Proof. vm_compute. done. Qed.

Example OnRemoveService_outcomes_witness :
  exists d, OnRemoveService after_session = (Returned tt, with_dialogs [d] after_session).
Proof. apply (OnRemoveService_outcomes after_session). vm_compute. reflexivity. Defined.

Definition after_save : window := (OnSaveConfig after_session).2.

Example save_then_load_witness :
  m_hasUnsavedChanges after_save = false /\
  exists w2, OnLoadConfig after_save = (Returned tt, w2) /\
    m_config w2 = m_config after_session /\ in_sync w2 /\ m_hasUnsavedChanges w2 = false /\
    dialogs w2 = dialogs after_session.
Proof.
  apply (save_then_load after_session after_save).
  - unfold after_save. apply (settled (OnSaveConfig after_session)). vm_compute. reflexivity.
  - vm_compute. reflexivity.
  - split; [apply (@bool_decide_unpack _ (LoadBalancerConfig.wf_dec (m_config after_session)))|];
      vm_compute; exact I.
  - exact I.
  - vm_compute. exact I.
Defined.

(** A file whose second service has a port that is no number. *)
Definition broken : FS (YamlLib := tree_yaml) :=
  TreeYaml.mkDisk {["bitbridge-config.yaml" := tokens_of (TMap [("services",
    TSeq [TMap [("name", TStr "a"); ("ip", TStr "10.0.0.1"); ("port", TUInt 9001)];
          TMap [("name", TStr "b"); ("ip", TStr "10.0.0.2"); ("port", TStr "http")]])])]} ∅.

Definition first_only : LoadBalancerConfig :=
  with_services [ServiceNode.make "a" "10.0.0.1" 9001 1] (default_config AppSettings.make).

(** The window that opens on it holds the first service and shows none; saving leaves a
    file with the first service only. *)
Example half_loaded_start_witness :
  exists w : window, construct AppSettings.make broken = (Returned tt, w) /\
    m_config w = first_only /\ m_serviceList w = [] /\ dialogs w = [] /\
    m_hasUnsavedChanges w = false /\
    forall fs', IConfigSerializer.Save first_only (GetConfigFilePath AppSettings.make) broken
                = (Returned (Value tt), fs') ->
      exists w' : window, OnSaveConfig w = (Returned tt, w') /\ MainFrame.disk w' = fs' /\
                          dialogs w' = [].
Proof.
  apply (half_loaded_start AppSettings.make broken "YAML error: bad conversion" first_only);
    [vm_compute; exact I|vm_compute; reflexivity].
Defined.

(** *** From the window to the process *)
#[local] Instance dotted : Asio := string_asio ServiceNode.IsValidIpv4.

Example edited_configuration_runs_witness :
  services_ok (m_services (m_config after_session)) /\
  m_config after_session
    = with_services (m_services (m_config after_session)) (default_config AppSettings.make) /\
  exists lb, LoadBalancer.main ProcessWitnesses.env (MainFrame.disk after_save)
               ["bit_bridge_lb"; "bitbridge-config.yaml"] = LoadBalancer.Running lb /\
             LoadBalancer.runs_on (m_config after_session) lb /\
             LoadBalancer.routes_by ProcessWitnesses.env (m_config after_session) lb.
Proof.
  apply (EndToEnd.edited_configuration_runs AppSettings.make no_files (opened_on no_files) session
    after_session after_save ProcessWitnesses.env "bit_bridge_lb" ("0.0.0.0" : @address dotted)).
  - by apply (bool_decide_unpack (AppSettings.wf AppSettings.make)).
  - reflexivity.
  - exact opened_returned.
  - by repeat constructor.
  - exact session_returned.
  - unfold after_save. apply (settled (OnSaveConfig after_session)). vm_compute. reflexivity.
  - vm_compute. reflexivity.
  - vm_compute. exact I.
  - exact I.
  - vm_compute. done.
  - split_and!; [by left|reflexivity..].
Defined.

End FrameWitnesses.

(** ** The application *)
Module AppWitnesses.

(** Settings on the one disk, configurations on the other. *)
Definition disks : Type := text_disk * FS (YamlLib := tree_yaml).

Definition on_fst {A} (m : M text_disk A) : M disks A :=
  fun '(t, y) => let '(r, t') := m t in (r, (t', y)).

#[local] Instance disks_toml : TomlLib disks := {|
  table := TomlTable.toml_table; view := TomlTable.toml_view;
  exists_ fs := exists_ (TomlLib := text_toml) fs.1;
  parse_file fs := read_table fs.1;
  at_key := TomlTable.get_key; view_at := TomlTable.get_view;
  as_table := as_table (TomlLib := text_toml);
  value_string := value_string (TomlLib := text_toml);
  value_int := value_int (TomlLib := text_toml);
  value_bool := value_bool (TomlLib := text_toml);
  open_text p := on_fst (open_text p);
  write_text p s := on_fst (write_text p s)
|}.

#[local] Instance disks_toml_ok : TomlLibOk disks_toml.
Proof.
  apply (Build_TomlLibOk _ disks_toml (fun fs p s => texts fs.1 !! p = Some s) (fun _ _ => True)).
  - intros p s [t y] fs' [= <-] _. apply lookup_insert_eq.
  - intros fs p e. exact (parse_throws (T := text_toml) fs.1 p e).
  - intros doc fs p. exact (parse_doc (T := text_toml) doc fs.1 p).
Defined.

#[local] Instance disks_serializer : IConfigSerializer.IConfigSerializer disks := {
  IConfigSerializer.Save c p := fun '(t, y) =>
    let '(r, y') := Save (Y := tree_yaml) c p y in (r, (t, y'));
  IConfigSerializer.Load fs := Load (Y := tree_yaml) fs.2
}.

#[local] Instance disks_contract : IConfigSerializer.SerializerContract disks.
Proof.
  refine {| IConfigSerializer.storable := IConfigSerializer.storable
              (SerializerContract := yaml_contract (Y := tree_yaml));
            IConfigSerializer.durable fs := flushed (Y := tree_yaml) fs.2 |}.
  - intros c p [t y] fs' Hs. cbn. destruct (Save c p y) as [r y'] eqn:E. intros [= -> <-] Hf.
    exact (IConfigSerializer.load_of_saved (SerializerContract := yaml_contract) c p y y' Hs E Hf).
Defined.

#[local] Instance disks_wx : WxLib disks :=
  on_text (fun fs p => bool_decide (is_Some (files fs.2 !! p))).

(** The port of the settings file does not fit 16 bits; the user adds a service. *)
Definition start_disks : disks :=
  (TextDisk.mkDisk {["bitbridge-settings.toml" := doc_text [Section_ ["defaults"];
     Assign "listen_port" (SInt 70000)]]} ∅, FrameWitnesses.no_files).

Definition first_window : MainFrame :=
  from_option id (initial_frame AppSettings.make start_disks) (BitBridgeApp.OnInit start_disks).2.

Definition one_service : list event :=
  [Edit NameInput "a"; Edit IpInput "10.0.0.1"; Edit PortInput "65535"; TextEnter PortInput].

Definition last_window : MainFrame := (MainFrame.run one_service first_window).2.

Lemma opened {A} (x : outcome bool * option A) d : x.1 = Returned true -> bool_decide (is_Some x.2) = true ->
  x = (Returned true, Some (from_option id d x.2)).
Proof. destruct x as [r [w|]]; [by intros [= ->] _|]. intros _ H%bool_decide_eq_true. by destruct H. Qed.

Definition saved_window : MainFrame := (OnSaveConfig last_window).2.

Example saved_survives_restart_witness :
  exists w2, BitBridgeApp.OnInit (MainFrame.disk saved_window) = (Returned true, Some w2) /\
    m_config w2 = m_config last_window /\ m_settings w2 = m_settings last_window /\
    in_sync w2 /\ m_hasUnsavedChanges w2 = false /\ dialogs w2 = [].
Proof.
  apply (BitBridgeApp.saved_survives_restart last_window saved_window true).
  - unfold saved_window. apply (settled (OnSaveConfig last_window)). vm_compute. reflexivity.
  - vm_compute. reflexivity.
  - split; [apply (@bool_decide_unpack _ (LoadBalancerConfig.wf_dec (m_config last_window)))|];
      vm_compute; exact I.
  - exact I.
  - vm_compute. exact I.
  - vm_compute. reflexivity.
Defined.

Example last_window_config :
  m_listenPort (m_config last_window) = 4464%Z /\
  m_services (m_config last_window) = [ServiceNode.make "a" "10.0.0.1" 65535 1].
Proof. vm_compute. done. Qed.

End AppWitnesses.
