(* ===== verification/Double.v ===== *)
(** * Doubles and signed integers, as the benchmark computes with them

    [double] is IEEE 754 binary64, by the Standard Library's executable specification;
    rounding is to nearest, ties to even.  [int] and [int64_t] are integers of their
    range; the arithmetic of atomics wraps around. *)

From S2P Require Import Prelude.
From Stdlib Require Export SpecFloat.

Abbreviation double := spec_float.

Definition d_of_Z (z : Z) : double := binary_normalize 53 1024 z 0 false.
Definition d_add : double -> double -> double := SFadd 53 1024.
Definition d_sub : double -> double -> double := SFsub 53 1024.
Definition d_mul : double -> double -> double := SFmul 53 1024.
Definition d_div : double -> double -> double := SFdiv 53 1024.
Definition d_lt : double -> double -> bool := SFltb.
Definition d_zero : double := S754_zero false.

(** [static_cast<int>(x)]: the integral part.  The cast of a number that does not fit an
    [int] is undefined; it is [None]. *)
Definition d_trunc (x : double) : option Z :=
  match x with
  | S754_zero _ => Some 0%Z
  | S754_finite s m e =>
      let z := if (0 <=? e)%Z then Z.shiftl (Zpos m) e else Z.shiftr (Zpos m) (- e) in
      let z := if s then (- z)%Z else z in
      if (- 2 ^ 31 <=? z)%Z && (z <? 2 ^ 31)%Z then Some z else None
  | _ => None
  end.

#[export] Instance double_eq_dec : EqDecision double.
Proof. solve_decision. Defined.

Example third : d_div (d_of_Z 1) (d_of_Z 3) = S754_finite false 6004799503160661 (-54).
Proof. reflexivity. Qed.
Example truncated : d_trunc (d_div (d_of_Z (-7)) (d_of_Z 2)) = Some (-3)%Z.
Proof. reflexivity. Qed.

(** ** Signed integers of [w] bits *)
Definition half (w : Z) : Z := (2 ^ (w - 1))%Z.
Definition in_s (w z : Z) : Prop := (- half w <= z < half w)%Z.
Definition wraps (w z : Z) : Z := ((z + half w) mod 2 ^ w - half w)%Z.
Abbreviation s32 := (wraps 32).
Abbreviation s64 := (wraps 64).

#[export] Instance in_s_dec w z : Decision (in_s w z).
Proof. unfold in_s. apply _. Defined.

Lemma half_twice w : (1 <= w)%Z -> (2 ^ w = 2 * half w)%Z.
Proof. intros Hw. unfold half. rewrite <- Z.pow_succ_r by lia. f_equal. lia. Qed.

Lemma half_pos w : (1 <= w)%Z -> (0 < half w)%Z.
Proof. intros Hw. apply Z.pow_pos_nonneg; lia. Qed.

Lemma wraps_small w z : (1 <= w)%Z -> in_s w z -> wraps w z = z.
Proof.
  intros Hw [H0 H1]. pose proof (half_twice w Hw). unfold wraps.
  rewrite Z.mod_small; lia.
Qed.

Lemma wraps_in w z : (1 <= w)%Z -> in_s w (wraps w z).
Proof.
  intros Hw. pose proof (half_twice w Hw). pose proof (half_pos w Hw).
  unfold wraps, in_s. pose proof (Z.mod_pos_bound (z + half w) (2 ^ w)). lia.
Qed.

(** Wrapping once at the end is wrapping at every step. *)
Lemma wraps_add w a b : (1 <= w)%Z -> wraps w (wraps w a + b) = wraps w (a + b).
Proof.
  intros Hw. pose proof (half_twice w Hw). pose proof (half_pos w Hw). unfold wraps.
  replace ((a + half w) mod 2 ^ w - half w + b + half w)%Z
    with ((a + half w) mod 2 ^ w + b)%Z by lia.
  rewrite Z.add_mod_idemp_l by lia. do 2 f_equal. lia.
Qed.

(** ** Division by itself *)
Lemma exact_location d : new_location d 0 = loc_Exact.
Proof. unfold new_location, new_location_even, new_location_odd. by destruct (Z.even d). Qed.

(** x / x is 1, unless it is not a number. *)
Lemma d_div_self x : d_div x x = d_of_Z 1 \/ d_div x x = S754_nan.
Proof.
  destruct x as [s|s| |s m e]; [by right..|left]. unfold d_div, SFdiv, SFdiv_core_binary.
  rewrite !Z.sub_diag, xorb_nilpotent.
  replace (Z.min (fexp 53 1024 0) 0) with (-53)%Z by done.
  replace (0 - -53)%Z with 53%Z by done.
  rewrite Z.shiftl_mul_pow2 by lia.
  destruct (Z.div_eucl (Z.pos m * 2 ^ 53) (Z.pos m)) as [q r] eqn:E.
  assert (q = 2 ^ 53 /\ r = 0)%Z as [-> ->].
  { assert (Hq : (Z.pos m * 2 ^ 53 / Z.pos m)%Z = q) by (unfold Z.div; by rewrite E).
    assert (Hr : ((Z.pos m * 2 ^ 53) mod Z.pos m)%Z = r) by (unfold Z.modulo; by rewrite E).
    rewrite <- Hq, <- Hr, Z.mul_comm. by rewrite Z.div_mul, Z.mod_mul. }
  by rewrite exact_location.
Qed.

(** The double of a number that is not negative is not below zero. *)
Lemma d_of_Z_nonneg z : (0 <= z)%Z -> d_lt (d_of_Z z) d_zero = false.
Proof.
  intros Hz. destruct z as [|p|p]; [done| |lia].
  unfold d_of_Z, binary_normalize, binary_round.
  destruct (shl_align _ _ _) as [mz ez]. unfold binary_round_aux.
  repeat case_match; done.
Qed.

(** ** Numbers

    Rounding a mantissa that is not negative gives a number, possibly infinite. *)
Definition number (x : double) : Prop := x <> S754_nan.

Lemma shr_1_nonneg r : (0 <= shr_m r)%Z -> (0 <= shr_m (shr_1 r))%Z.
Proof. destruct r as [[|[p|p|]|p] rr ss]; cbn; lia. Qed.

Lemma shr_nonneg r e n : (0 <= shr_m r)%Z -> (0 <= shr_m (shr r e n).1)%Z.
Proof.
  destruct n as [|n|n]; cbn; try done. revert r.
  induction n as [n IH|n IH|]; intros r Hr; cbn; auto using shr_1_nonneg.
Qed.

Lemma binary_round_aux_number s m e l : (0 <= m)%Z -> number (binary_round_aux 53 1024 s m e l).
Proof.
  intros Hm. unfold binary_round_aux, shr_fexp, number.
  assert (H1 : (0 <= shr_m (shr_record_of_loc m l))%Z) by (by destruct l as [|[]]).
  destruct (shr (shr_record_of_loc m l) e _) as [r e1] eqn:E1.
  assert (Hr : (0 <= shr_m r)%Z).
  { change r with (r, e1).1. rewrite <- E1. by apply shr_nonneg. }
  set (m2 := round_nearest_even _ _).
  assert (Hm2 : (0 <= m2)%Z).
  { unfold m2, round_nearest_even. repeat case_match; lia. }
  destruct (shr (shr_record_of_loc m2 loc_Exact) _ _) as [r2 e2] eqn:E2.
  assert (Hr2 : (0 <= shr_m r2)%Z).
  { change r2 with (r2, e2).1. rewrite <- E2. by apply shr_nonneg. }
  destruct (shr_m r2); [done|by case_match|lia].
Qed.

Lemma d_of_Z_number z : number (d_of_Z z).
Proof.
  destruct z as [|p|p]; [done|..]; unfold d_of_Z, binary_normalize, binary_round;
    destruct (shl_align _ _ _); by apply binary_round_aux_number.
Qed.

Lemma d_div_number x s m e : number x -> number (d_div x (S754_finite s m e)).
Proof.
  destruct x as [sx|sx| |sx mx ex]; try done. intros _. unfold d_div, SFdiv, SFdiv_core_binary.
  set (m' := match _ with Z0 => _ | _ => _ end).
  assert (Hm' : (0 <= m')%Z) by (unfold m'; case_match; [lia|by apply Z.shiftl_nonneg|lia]).
  clearbody m'. destruct (Z.div_eucl m' (Z.pos m)) as [q r] eqn:E.
  apply binary_round_aux_number.
  assert (Hq : (m' / Z.pos m)%Z = q) by (unfold Z.div; by rewrite E).
  rewrite <- Hq. by apply Z.div_pos.
Qed.
