(* ===== verification/BenchArgs.v ===== *)
(** * bench/main.cpp: the command line

    [ParseArgs] walks the arguments with one iterator, which the handlers of the flags
    with a value move on.  [Die] prints its text and exits; an exception of [std::stoi]
    reaches no handler, and ends the program too. *)

From S2P Require Import Prelude Text.

Module BenchArgs.
Local Open Scope Z_scope.

Record BenchConfig := mkBench {
  m_lbBinary : string;
  m_algo : string;
  m_concurrency : Z;              (* int *)
  m_requests : Z;
  m_services : Z;
  m_thresholdPct : Z;
  m_backendDelayMs : Z;
  m_baseline : bool;
  m_compare : bool;
  m_baselineFile : string
}.

Definition default : BenchConfig :=
  mkBench "" "both" 50 1000 5 15 0 false false "bench/baselines/baseline.json".

Definition Die {A} (text : string) : outcome A := Threw (Exn KExit text).

(** ** [std::stoi]: spaces, a sign, digits; what follows them is ignored *)
Definition is_space (c : ascii) : bool :=
  let n := N_of_ascii c in ((9 <=? n) && (n <=? 13) || (n =? 32))%N.

Fixpoint skip_spaces (s : string) : string :=
  match s with
  | String c s' => if is_space c then skip_spaces s' else s
  | "" => ""
  end.

Definition sign (s : string) : bool * string :=
  match s with
  | String "-" s' => (true, s')
  | String "+" s' => (false, s')
  | _ => (false, s)
  end.

Definition in_int (z : Z) : Prop := - 2 ^ 31 <= z < 2 ^ 31.
#[export] Instance in_int_dec z : Decision (in_int z).
Proof. unfold in_int. apply _. Defined.

Definition stoi (s : string) : outcome Z :=
  let '(negative, s) := sign (skip_spaces s) in
  if stops s then Threw (Exn KInvalidArgument "stoi")
  else
    let v := (digits 0 s).1 in
    let v := if negative then - v else v in
    if decide (in_int v) then Returned v else Threw (Exn KOutOfRange "stoi").

(** ** The flags *)
Definition set_lbBinary v c := mkBench v (m_algo c) (m_concurrency c) (m_requests c)
  (m_services c) (m_thresholdPct c) (m_backendDelayMs c) (m_baseline c) (m_compare c) (m_baselineFile c).
Definition set_algo v c := mkBench (m_lbBinary c) v (m_concurrency c) (m_requests c)
  (m_services c) (m_thresholdPct c) (m_backendDelayMs c) (m_baseline c) (m_compare c) (m_baselineFile c).
Definition set_concurrency v c := mkBench (m_lbBinary c) (m_algo c) v (m_requests c)
  (m_services c) (m_thresholdPct c) (m_backendDelayMs c) (m_baseline c) (m_compare c) (m_baselineFile c).
Definition set_requests v c := mkBench (m_lbBinary c) (m_algo c) (m_concurrency c) v
  (m_services c) (m_thresholdPct c) (m_backendDelayMs c) (m_baseline c) (m_compare c) (m_baselineFile c).
Definition set_services v c := mkBench (m_lbBinary c) (m_algo c) (m_concurrency c) (m_requests c)
  v (m_thresholdPct c) (m_backendDelayMs c) (m_baseline c) (m_compare c) (m_baselineFile c).
Definition set_thresholdPct v c := mkBench (m_lbBinary c) (m_algo c) (m_concurrency c) (m_requests c)
  (m_services c) v (m_backendDelayMs c) (m_baseline c) (m_compare c) (m_baselineFile c).
Definition set_backendDelayMs v c := mkBench (m_lbBinary c) (m_algo c) (m_concurrency c) (m_requests c)
  (m_services c) (m_thresholdPct c) v (m_baseline c) (m_compare c) (m_baselineFile c).
Definition set_baseline v c := mkBench (m_lbBinary c) (m_algo c) (m_concurrency c) (m_requests c)
  (m_services c) (m_thresholdPct c) (m_backendDelayMs c) v (m_compare c) (m_baselineFile c).
Definition set_compare v c := mkBench (m_lbBinary c) (m_algo c) (m_concurrency c) (m_requests c)
  (m_services c) (m_thresholdPct c) (m_backendDelayMs c) (m_baseline c) v (m_baselineFile c).
Definition set_baselineFile v c := mkBench (m_lbBinary c) (m_algo c) (m_concurrency c) (m_requests c)
  (m_services c) (m_thresholdPct c) (m_backendDelayMs c) (m_baseline c) (m_compare c) v.

Inductive flag :=
  | Plain (f : BenchConfig -> BenchConfig)
  | NextInt (f : Z -> BenchConfig -> BenchConfig)
  | NextStr (f : string -> BenchConfig -> BenchConfig).

Definition handlers : list (string * flag) :=
  [("--baseline", Plain (set_baseline true));
   ("--compare", Plain (set_compare true));
   ("--algo", NextStr set_algo);
   ("--concurrency", NextInt set_concurrency);
   ("--requests", NextInt set_requests);
   ("--services", NextInt set_services);
   ("--threshold-pct", NextInt set_thresholdPct);
   ("--baseline-file", NextStr set_baselineFile);
   ("--backend-delay-ms", NextInt set_backendDelayMs)].

Definition starts_with_dash (s : string) : bool :=
  match s with String "-" _ => true | _ => false end.

(** The loop over the arguments. *)
Fixpoint parse_loop (args : list string) (cfg : BenchConfig) : outcome BenchConfig :=
  match args with
  | [] => Returned cfg
  | arg :: rest =>
      match assoc arg handlers with
      | Some (Plain f) => parse_loop rest (f cfg)
      | Some (NextInt f) =>
          match rest with
          | [] => Die (arg +:+ " requires an argument")
          | v :: rest' => n ← stoi v; parse_loop rest' (f n cfg)
          end
      | Some (NextStr f) =>
          match rest with
          | [] => Die (arg +:+ " requires an argument")
          | v :: rest' => parse_loop rest' (f v cfg)
          end
      | None =>
          if negb (starts_with_dash arg) && bool_decide (m_lbBinary cfg = "")
          then parse_loop rest (set_lbBinary arg cfg) else parse_loop rest cfg
      end
  end.

Definition usage : string :=
  "Usage: bit_bridge_bench [options] <lb-binary>" +:+ nl +:+
  "  --baseline            Save results as new baseline" +:+ nl +:+
  "  --compare             Compare against baseline, exit 1 on regression" +:+ nl +:+
  "  --algo                p2c|consistent-hash|both (default: both)" +:+ nl +:+
  "  --concurrency N       Parallel connections (default: 50)" +:+ nl +:+
  "  --requests N          Total requests per algo (default: 1000)" +:+ nl +:+
  "  --services N          Backend count (default: 5)" +:+ nl +:+
  "  --backend-delay-ms N  Simulated backend processing delay (default: 0)" +:+ nl +:+
  "  --threshold-pct N     Regression threshold % (default: 15)" +:+ nl +:+
  "  --baseline-file P     Baseline JSON path (default: bench/baselines/baseline.json)".

(** [argv] with the program's name; [exists_] is [std::filesystem::exists]. *)
Definition ParseArgs (exists_ : string -> bool) (argv : list string) : outcome BenchConfig :=
  cfg ← parse_loop (tail argv) default;
  if bool_decide (m_lbBinary cfg = "") then Die usage
  else if negb (exists_ (m_lbBinary cfg)) then Die ("LB binary not found: " +:+ m_lbBinary cfg)
  else Returned cfg.

(** The algorithms [main] runs. *)
Definition algorithms (cfg : BenchConfig) : list string :=
  if bool_decide (m_algo cfg = "p2c") then ["p2c"]
  else if bool_decide (m_algo cfg = "consistent-hash") then ["consistent-hash"]
  else ["p2c"; "consistent-hash"].

(** ** Numbers read back *)

Lemma digit_plain c d : digit c = Some d ->
  is_space c = false /\ c <> "-"%char /\ c <> "+"%char.
Proof. by destruct c as [[] [] [] [] [] [] [] []]; cbn. Qed.

Lemma sign_digit c s d : digit c = Some d ->
  sign (skip_spaces (String c s)) = (false, String c s).
Proof.
  intros Hd. destruct (digit_plain _ _ Hd) as (Hs & Hm & Hp). cbn [skip_spaces].
  rewrite Hs. unfold sign. by destruct c as [[] [] [] [] [] [] [] []].
Qed.

Lemma skip_minus s : sign (skip_spaces (String "-" s)) = (true, s).
Proof. done. Qed.

(** A number printed in front of anything but a digit is read back. *)
Lemma stoi_pretty z rest : in_int z -> stops rest -> stoi (pretty z +:+ rest) = Returned z.
Proof.
  intros Hz Hr. unfold stoi.
  assert (Hpos : forall p, 0 <= p -> exists c s, pretty p +:+ rest = String c s /\
    sign (skip_spaces (pretty p +:+ rest)) = (false, pretty p +:+ rest) /\
    stops (pretty p +:+ rest) = false /\ (digits 0 (pretty p +:+ rest)).1 = p).
  { intros p Hp. destruct (pretty_head p Hp) as (c & s & d & E & Hd).
    exists c, (s +:+ rest). rewrite (digits_pretty p rest Hp Hr). rewrite E, app_cons.
    rewrite (sign_digit c _ d Hd). split_and!; try done. cbn [stops]. by rewrite Hd. }
  destruct (decide (0 <= z)) as [H0|H0].
  - destruct (Hpos z H0) as (c & s & E & -> & -> & ->). by rewrite decide_True.
  - destruct (Hpos (- z)) as (c & s & E & _ & Hst & Hd); [lia|].
    assert (Ez : pretty z = String "-" (pretty (- z))).
    { destruct z as [|q|q]; [lia|lia|]. done. }
    rewrite Ez, app_cons, skip_minus, Hst, Hd, Z.opp_involutive. by rewrite decide_True.
Qed.

Lemma stoi_printed z : in_int z -> stoi (pretty z) = Returned z.
Proof. intros Hz. rewrite <- (app_empty_r (pretty z)). by apply stoi_pretty. Qed.

Lemma stoi_outcomes s :
  match stoi s with
  | Returned z => in_int z
  | Threw e => kind e = KInvalidArgument \/ kind e = KOutOfRange
  end.
Proof.
  unfold stoi. destruct (sign _) as [n s']. destruct (stops s'); [by left|].
  case_decide; [done|by right].
Qed.

(** ** What the program is left with *)

Definition sized (c : BenchConfig) : Prop :=
  in_int (m_concurrency c) /\ in_int (m_requests c) /\ in_int (m_services c) /\
  in_int (m_thresholdPct c) /\ in_int (m_backendDelayMs c).

#[export] Instance sized_dec c : Decision (sized c).
Proof. unfold sized. apply _. Defined.

(** What a flag needs to keep the numbers in range. *)
Definition flag_ok (f : flag) : Prop :=
  match f with
  | Plain f => forall c, sized c -> sized (f c)
  | NextInt f => forall n c, in_int n -> sized c -> sized (f n c)
  | NextStr f => forall v c, sized c -> sized (f v c)
  end.

Lemma handlers_ok arg f : assoc arg handlers = Some f -> flag_ok f.
Proof.
  unfold handlers. cbn [assoc].
  repeat (destruct (String.eqb arg _); [intros [= <-]; unfold flag_ok, sized; naive_solver|]).
  done.
Qed.

(** The exceptions that leave [parse_loop]. *)
Definition usage_error (e : exn) : Prop :=
  kind e = KExit \/ kind e = KInvalidArgument \/ kind e = KOutOfRange.

Lemma parse_loop_sized args : forall cfg, sized cfg ->
  match parse_loop args cfg with Returned c => sized c | Threw e => usage_error e end.
Proof.
  induction args as [args IH] using (induction_ltof1 _ (@length string)).
  unfold ltof in IH. intros cfg Hs. destruct args as [|arg rest]; [done|]. cbn [parse_loop].
  destruct (assoc arg handlers) as [f|] eqn:Ef.
  - apply handlers_ok in Ef. destruct f as [f|f|f]; cbn [flag_ok] in Ef.
    + apply IH; [cbn; lia|auto].
    + destruct rest as [|v rest]; [by left|].
      pose proof (stoi_outcomes v) as Hv. destruct (stoi v) as [n|e]; cbn [mbind outcome_bind].
      * apply IH; [cbn; lia|auto].
      * unfold usage_error. tauto.
    + destruct rest as [|v rest]; [by left|]. apply IH; [cbn; lia|auto].
  - destruct (_ && _); apply IH; try (cbn; lia); done.
Qed.

(** The command line is taken apart without surprises: [ParseArgs] returns a
    configuration that names an existing binary and whose numbers are [int]s, or the
    program ends, by [Die] or by an exception of [std::stoi]. *)
Theorem ParseArgs_outcomes exists_ argv :
  match ParseArgs exists_ argv with
  | Returned c => sized c /\ m_lbBinary c <> "" /\ exists_ (m_lbBinary c) = true
  | Threw e => usage_error e
  end.
Proof.
  unfold ParseArgs. pose proof (parse_loop_sized (tail argv) default) as H.
  assert (Hd : sized default) by by apply (@bool_decide_unpack _ (sized_dec default)).
  specialize (H Hd). destruct (parse_loop _ _) as [c|e]; cbn [mbind outcome_bind]; [|done].
  case_bool_decide; [by left|]. destruct (exists_ (m_lbBinary c)) eqn:E; [done|by left].
Qed.

(** ** Round trip *)
Definition args_of (c : BenchConfig) : list string :=
  (if m_baseline c then ["--baseline"] else []) ++
  (if m_compare c then ["--compare"] else []) ++
  ["--algo"; m_algo c; "--concurrency"; pretty (m_concurrency c);
   "--requests"; pretty (m_requests c); "--services"; pretty (m_services c);
   "--threshold-pct"; pretty (m_thresholdPct c); "--baseline-file"; m_baselineFile c;
   "--backend-delay-ms"; pretty (m_backendDelayMs c); m_lbBinary c].

Lemma assoc_no_dash arg : starts_with_dash arg = false -> assoc arg handlers = None.
Proof.
  intros H. unfold handlers. cbn [assoc].
  repeat (destruct (String.eqb arg _) eqn:E; [apply String.eqb_eq in E as ->; done|clear E]).
  done.
Qed.

(** The flags with a value, in front of other arguments. *)
Lemma parse_values b1 b2 algo co rq sv th dl fl rest :
  in_int co -> in_int rq -> in_int sv -> in_int th -> in_int dl ->
  parse_loop ("--algo" :: algo :: "--concurrency" :: pretty co :: "--requests" :: pretty rq ::
      "--services" :: pretty sv :: "--threshold-pct" :: pretty th :: "--baseline-file" :: fl ::
      "--backend-delay-ms" :: pretty dl :: rest)
    (set_compare b2 (set_baseline b1 default)) =
  parse_loop rest (mkBench "" algo co rq sv th dl b1 b2 fl).
Proof.
  intros Hc Hr Hs Ht Hd. cbn -[stoi pretty].
  repeat (rewrite stoi_printed by done; cbn -[stoi pretty]). done.
Qed.

Lemma parse_switches (b1 b2 : bool) rest :
  parse_loop ((if b1 then ["--baseline"] else []) ++ (if b2 then ["--compare"] else []) ++ rest)
    default = parse_loop rest (set_compare b2 (set_baseline b1 default)).
Proof. by destruct b1, b2. Qed.

Lemma parse_last bin cfg : starts_with_dash bin = false -> m_lbBinary cfg = "" ->
  parse_loop [bin] cfg = Returned (set_lbBinary bin cfg).
Proof.
  intros Hd He. cbn [parse_loop]. by rewrite (assoc_no_dash _ Hd), Hd, bool_decide_eq_true_2.
Qed.

(** C34: every configuration whose numbers fit and whose binary exists can be asked for: the
    flags that spell it out are parsed back to it. *)
Theorem args_roundtrip exists_ program c :
  sized c -> m_lbBinary c <> "" -> starts_with_dash (m_lbBinary c) = false ->
  exists_ (m_lbBinary c) = true ->
  ParseArgs exists_ (program :: args_of c) = Returned c.
Proof.
  intros (Hc & Hr & Hs & Ht & Hd) Hne Hdash Hex. destruct c as [bin algo co rq sv th dl ba cm fl].
  cbn [m_lbBinary m_concurrency m_requests m_services m_thresholdPct m_backendDelayMs] in *.
  unfold ParseArgs, args_of.
  cbn [tail m_baseline m_compare m_algo m_concurrency m_requests m_services m_thresholdPct
    m_baselineFile m_backendDelayMs m_lbBinary].
  rewrite parse_switches, parse_values, parse_last by done. cbn [mbind outcome_bind set_lbBinary m_lbBinary].
  rewrite Hex. by rewrite bool_decide_eq_false_2.
Qed.
End BenchArgs.
