(* ===== verification/BenchLoad.v ===== *)
(** * bench/main.cpp: the load generator

    [RunLoad] keeps up to [m_concurrency] connections in flight until [m_total] have
    been made: each connects, writes a request, reads until the peer closes, and is
    replaced by a new one.  Handlers are pending operations that a schedule completes in
    any order, with any error code and any number of bytes, as for the proxy; they run
    on one thread.  The atomics have the width of the source, and wrap.

    [clock n] is the [n]-th reading of the steady clock, in nanoseconds. *)

From S2P Require Import Prelude Asio Double.

Module BenchLoad.
Local Open Scope Z_scope.

Definition k_connectTimeoutMs : Z := 3000.

Record ConnResult := mkResult { m_ok : bool; m_ms : double; m_bytes : Z }.

(** The handlers, with what they capture: the socket, the time the connection was
    started, and the bytes counted so far in the [ReadState]. *)
Inductive handler :=
  | Posted                                          (* asio::post of the first wave *)
  | OnTimer (sock : nat)
  | Connected (sock : nat) (t0 : Z)
  | Written (sock : nat) (t0 : Z)
  | ReadSome (sock : nat) (t0 : Z) (m_bytesRead : Z).

Record LoadContext := mkContext {
  m_results : list ConnResult;
  m_inflight : Z;                                   (* std::atomic<int> *)
  m_peakInflight : Z;
  m_launched : Z;
  m_done : Z;
  m_bytesReceived : Z;                              (* std::atomic<int64_t> *)
  m_total : Z;
  m_concurrency : Z;
  sockets : nat;                                    (* sockets made so far *)
  readings : nat;                                   (* of the clock *)
  pending : list handler;
  stopped : bool                                    (* m_ioc.stop() *)
}.

Definition eof : error_code := failure "End of file".
Definition connection_reset : error_code := failure "Connection reset by peer".

(** [duration<double, std::milli>(ns).count()] *)
Definition to_ms (ns : Z) : double := d_div (d_of_Z ns) (d_of_Z 1000000).

Section BenchLoad.
Context (clock : nat -> Z).

(** The body of the loop of [LaunchWave]: one more connection, its timer and its connect.
    The compare-exchange loop raises the peak to [current] if it is lower. *)
Definition launch_one (ctx : LoadContext) : LoadContext :=
  let current := m_inflight ctx + 1 in
  let peak := if m_peakInflight ctx <? current then current else m_peakInflight ctx in
  mkContext (m_results ctx) (s32 (m_inflight ctx + 1)) peak (s32 (m_launched ctx + 1))
    (m_done ctx) (m_bytesReceived ctx) (m_total ctx) (m_concurrency ctx)
    (S (sockets ctx)) (S (readings ctx))
    (pending ctx ++ [OnTimer (sockets ctx); Connected (sockets ctx) (clock (readings ctx))])
    (stopped ctx).

(** A round launches a connection, so [m_total - m_launched] rounds are enough. *)
Fixpoint launch_loop (fuel : nat) (ctx : LoadContext) : LoadContext :=
  match fuel with
  | O => ctx
  | S fuel' =>
      if (m_inflight ctx <? m_concurrency ctx) && (m_launched ctx <? m_total ctx)
      then launch_loop fuel' (launch_one ctx) else ctx
  end.

Definition LaunchWave (ctx : LoadContext) : LoadContext :=
  if m_total ctx <=? m_launched ctx then ctx
  else launch_loop (Z.to_nat (m_total ctx - m_launched ctx)) ctx.

(** How the three handlers end a connection that failed or is finished: the time is
    taken, the result stored, the socket closed, the next wave launched, and the loop
    stopped after the last one.  Only a finished connection adds its bytes. *)
Definition conclude (ok : bool) (bytes t0 : Z) (ctx : LoadContext) : LoadContext :=
  let ms := to_ms (clock (readings ctx) - t0) in
  let ctx := mkContext (m_results ctx ++ [mkResult ok ms bytes])
    (s32 (m_inflight ctx - 1)) (m_peakInflight ctx) (m_launched ctx) (s32 (m_done ctx + 1))
    (if ok then s64 (m_bytesReceived ctx + bytes) else m_bytesReceived ctx)
    (m_total ctx) (m_concurrency ctx) (sockets ctx) (S (readings ctx)) (pending ctx)
    (stopped ctx) in
  let ctx := LaunchWave ctx in
  if m_total ctx <=? m_done ctx
  then mkContext (m_results ctx) (m_inflight ctx) (m_peakInflight ctx) (m_launched ctx)
         (m_done ctx) (m_bytesReceived ctx) (m_total ctx) (m_concurrency ctx) (sockets ctx)
         (readings ctx) (pending ctx) true
  else ctx.

Definition async (h : handler) (ctx : LoadContext) : LoadContext :=
  mkContext (m_results ctx) (m_inflight ctx) (m_peakInflight ctx) (m_launched ctx)
    (m_done ctx) (m_bytesReceived ctx) (m_total ctx) (m_concurrency ctx) (sockets ctx)
    (readings ctx) (pending ctx ++ [h]) (stopped ctx).

Definition OnConnect (sock : nat) (t0 : Z) (ec : error_code) (ctx : LoadContext) : LoadContext :=
  if is_error ec then conclude false 0 t0 ctx else async (Written sock t0) ctx.

Definition ReadResponse (sock : nat) (t0 bytesRead : Z) : LoadContext -> LoadContext :=
  async (ReadSome sock t0 bytesRead).

Definition OnWriteDone (sock : nat) (t0 : Z) (writeEc : error_code) (ctx : LoadContext)
    : LoadContext :=
  if is_error writeEc then conclude false 0 t0 ctx else ReadResponse sock t0 0 ctx.

Definition OnReadSome (sock : nat) (t0 bytesRead : Z) (ec : error_code) (n : Z)
    (ctx : LoadContext) : LoadContext :=
  if negb (is_error ec) then ReadResponse sock t0 (s64 (bytesRead + s64 n)) ctx
  else
    let ok := bool_decide (ec = eof) || bool_decide (ec = connection_reset) in
    conclude ok bytesRead t0 ctx.

(** ** Running it *)
Record event := Complete { position : nat; code : error_code; transferred : Z }.

Definition without (k : nat) (ctx : LoadContext) : LoadContext :=
  mkContext (m_results ctx) (m_inflight ctx) (m_peakInflight ctx) (m_launched ctx)
    (m_done ctx) (m_bytesReceived ctx) (m_total ctx) (m_concurrency ctx) (sockets ctx)
    (readings ctx) (delete k (pending ctx)) (stopped ctx).

(** Once stopped, or where nothing is pending, an event does not happen. *)
Definition handle (ctx : LoadContext) (e : event) : LoadContext :=
  if stopped ctx then ctx
  else match pending ctx !! position e with
  | None => ctx
  | Some h =>
      let ctx := without (position e) ctx in
      match h with
      | Posted => LaunchWave ctx
      | OnTimer _ => ctx
      | Connected sock t0 => OnConnect sock t0 (code e) ctx
      | Written sock t0 => OnWriteDone sock t0 (code e) ctx
      | ReadSome sock t0 bytesRead => OnReadSome sock t0 bytesRead (code e) (transferred e) ctx
      end
  end.

Definition run (events : list event) (ctx : LoadContext) : LoadContext :=
  foldl handle ctx events.

Definition prepared (total concurrency : Z) : LoadContext :=
  mkContext [] 0 0 0 0 0 total concurrency 0 0 [Posted] false.

Record LoadResult := mkLoad {
  m_conns : list ConnResult;
  m_peakConnections : Z;
  load_bytesReceived : Z
}.

(** [RunLoad] returns when the io_context was stopped: a work guard keeps it running.
    A negative [total] is a huge [size_t] that no vector can reserve. *)
Definition RunLoad (total concurrency : Z) (events : list event) : outcome (option LoadResult) :=
  if total <? 0 then Threw (Exn KLengthError "vector::reserve")
  else
    let ctx := run events (prepared total concurrency) in
    Returned (if stopped ctx
              then Some (mkLoad (m_results ctx) (m_peakInflight ctx) (m_bytesReceived ctx))
              else None).

(** ** What the counters mean *)
Definition is_conn (h : handler) : bool :=
  match h with Connected _ _ | Written _ _ | ReadSome _ _ _ => true | _ => false end.
Definition is_posted (h : handler) : bool := match h with Posted => true | _ => false end.

(** The bytes of the connections that finished. *)
Definition ok_bytes (results : list ConnResult) : Z :=
  foldr (fun r z => if m_ok r then m_bytes r + z else z) 0 results.

Lemma ok_bytes_snoc results r :
  ok_bytes (results ++ [r]) = ok_bytes results + (if m_ok r then m_bytes r else 0).
Proof. induction results as [|x l IH]; simpl; [destruct (m_ok r); lia|]. destruct (m_ok x); lia. Qed.

(** [counted d ctx]: the counters are exact when [d] connections in flight are not
    pending, because their handler is running. *)
Record counted (d : Z) (ctx : LoadContext) : Prop := {
  cnt_inflight : m_inflight ctx = Z.of_nat (count is_conn (pending ctx)) + d;
  cnt_done : m_done ctx = Z.of_nat (length (m_results ctx));
  cnt_launched : m_launched ctx = m_done ctx + m_inflight ctx;
  cnt_total : m_launched ctx <= Z.max 0 (m_total ctx);
  cnt_peak : m_inflight ctx <= m_peakInflight ctx <= Z.max 0 (m_concurrency ctx);
  cnt_peak_pos : 0 < m_launched ctx -> 0 < m_peakInflight ctx;
  cnt_bytes : m_bytesReceived ctx = s64 (ok_bytes (m_results ctx));
  cnt_range : in_s 32 (m_total ctx) /\ in_s 32 (m_concurrency ctx)
}.

(** As many are in flight as may be. *)
Definition primed (ctx : LoadContext) : Prop :=
  m_concurrency ctx <= m_inflight ctx \/ m_total ctx <= m_launched ctx.

(** Everything that a launch leaves as it is. *)
Definition launched_from (ctx ctx' : LoadContext) : Prop :=
  m_results ctx' = m_results ctx /\ m_done ctx' = m_done ctx /\ m_total ctx' = m_total ctx /\
  m_concurrency ctx' = m_concurrency ctx /\ stopped ctx' = stopped ctx /\
  count is_posted (pending ctx') = count is_posted (pending ctx).

Lemma s32_small z : - 2147483648 <= z < 2147483648 -> s32 z = z.
Proof. intros H. apply wraps_small; [lia|]. exact H. Qed.

Lemma launch_one_counted ctx : counted 0 ctx ->
  m_inflight ctx < m_concurrency ctx -> m_launched ctx < m_total ctx ->
  counted 0 (launch_one ctx) /\ launched_from ctx (launch_one ctx) /\
  m_launched (launch_one ctx) = m_launched ctx + 1.
Proof.
  intros [Hi Hd Hl Ht Hp Hpp Hb [Rt Rc]] Hc Hn. unfold in_s, half in Rt, Rc. cbn in Rt, Rc.
  unfold launch_one. rewrite !s32_small by lia. split; [|split; [|done]].
  - split; cbn [m_inflight m_peakInflight m_launched m_done m_bytesReceived m_total
      m_concurrency pending m_results]; try done.
    + rewrite count_app. cbn. lia.
    + lia.
    + lia.
    + destruct (Z.ltb_spec (m_peakInflight ctx) (m_inflight ctx + 1)); lia.
    + intros _. destruct (Z.ltb_spec (m_peakInflight ctx) (m_inflight ctx + 1)); lia.
  - unfold launched_from. split_and!; try done. cbn [pending]. rewrite count_app. cbn. lia.
Qed.

Lemma launched_from_trans ctx ctx1 ctx2 :
  launched_from ctx ctx1 -> launched_from ctx1 ctx2 -> launched_from ctx ctx2.
Proof. unfold launched_from. intros (->&->&->&->&->&->) (->&->&->&->&->&->). done. Qed.

Lemma launch_loop_spec fuel ctx : counted 0 ctx ->
  m_total ctx - m_launched ctx <= Z.of_nat fuel ->
  let ctx' := launch_loop fuel ctx in
  counted 0 ctx' /\ launched_from ctx ctx' /\ primed ctx'.
Proof.
  revert ctx. induction fuel as [|fuel IH]; intros ctx Hok Hf; cbn [launch_loop].
  - split_and!; try done. right. lia.
  - destruct (Z.ltb_spec (m_inflight ctx) (m_concurrency ctx)) as [Hc|Hc]; cbn [andb].
    2: { split_and!; try done. left. lia. }
    destruct (Z.ltb_spec (m_launched ctx) (m_total ctx)) as [Hn|Hn].
    2: { split_and!; try done. right. lia. }
    destruct (launch_one_counted ctx Hok Hc Hn) as (Hok1 & Hf1 & Hl1).
    assert (Ht : m_total (launch_one ctx) = m_total ctx) by apply Hf1.
    destruct (IH _ Hok1) as (Hok2 & Hf2 & Hp2); [lia|].
    split_and!; [done| |done]. by eapply launched_from_trans.
Qed.

(** [LaunchWave] tops up the connections in flight. *)
Lemma LaunchWave_spec ctx : counted 0 ctx ->
  let ctx' := LaunchWave ctx in
  counted 0 ctx' /\ launched_from ctx ctx' /\ primed ctx'.
Proof.
  intros Hok. unfold LaunchWave. destruct (Z.leb_spec (m_total ctx) (m_launched ctx)).
  - split_and!; try done. by right.
  - apply launch_loop_spec; [done|lia].
Qed.

Lemma conclude_spec ok bytes t0 ctx : counted 1 ctx -> stopped ctx = false ->
  let ctx' := conclude ok bytes t0 ctx in
  counted 0 ctx' /\ primed ctx' /\ m_total ctx' = m_total ctx /\
  m_concurrency ctx' = m_concurrency ctx /\ m_done ctx' = m_done ctx + 1 /\
  count is_posted (pending ctx') = count is_posted (pending ctx) /\
  (stopped ctx' = true <-> m_total ctx' <= m_done ctx').
Proof.
  intros [Hi Hd Hl Ht Hp Hpp Hb [Rt Rc]] Hs. unfold in_s, half in Rt, Rc. cbn in Rt, Rc.
  unfold conclude. set (ctx1 := mkContext _ _ _ _ _ _ _ _ _ _ _ _).
  assert (Hok1 : counted 0 ctx1).
  { unfold ctx1. rewrite !s32_small by lia.
    split; cbn [m_inflight m_peakInflight m_launched m_done m_bytesReceived m_total
      m_concurrency pending m_results]; try done; try lia.
    - rewrite length_app. cbn. lia.
    - rewrite ok_bytes_snoc. cbn. rewrite Hb. destruct ok; [|by rewrite Z.add_0_r].
      by apply wraps_add. }
  assert (Hd1 : m_done ctx1 = m_done ctx + 1) by (cbn; apply s32_small; lia).
  destruct (LaunchWave_spec _ Hok1) as (Hok2 & (Er & Ed & Et & Ec & Es & Ep) & Hp2).
  assert (Hpost : count is_posted (pending ctx1) = count is_posted (pending ctx)) by done.
  assert (Hst : stopped ctx1 = false) by done.
  assert (HT : m_total ctx1 = m_total ctx) by done.
  assert (HC : m_concurrency ctx1 = m_concurrency ctx) by done.
  generalize dependent (LaunchWave ctx1). intros ctx2 Hok2 Er Ed Et Ec Es Ep Hp2.
  rewrite Hd1 in Ed. destruct (Z.leb_spec (m_total ctx2) (m_done ctx2)).
  - split_and!; try congruence; try done. destruct Hok2; by split.
  - split_and!; try congruence; try done. rewrite Es, Hst. split; [done|lia].
Qed.


(** ** The invariant of a run *)
Record ok (ctx : LoadContext) : Prop := {
  ok_counted : counted 0 ctx;
  ok_start : count is_posted (pending ctx) <> 0%nat ->
    pending ctx = [Posted] /\ m_launched ctx = 0 /\ stopped ctx = false;
  ok_primed : count is_posted (pending ctx) = 0%nat -> primed ctx;
  ok_stopped : stopped ctx = true <-> 0 < m_done ctx /\ m_total ctx <= m_done ctx
}.

Lemma prepared_ok total concurrency : in_s 32 total -> in_s 32 concurrency ->
  ok (prepared total concurrency).
Proof.
  intros Ht Hc. split; try done.
  - split; cbn; try done; lia.
  - cbn. split; [done|lia].
Qed.

(** Taking a handler out of the queue. *)
Lemma without_counted k h ctx : counted 0 ctx -> pending ctx !! k = Some h ->
  counted (if is_conn h then 1 else 0) (without k ctx) /\
  count is_posted (pending ctx) =
    ((if is_posted h then 1 else 0) + count is_posted (pending (without k ctx)))%nat.
Proof.
  intros [Hi Hd Hl Ht Hp Hpp Hb Hr] Hk.
  assert (Hout : take_out k (pending ctx) = Some (h, delete k (pending ctx)))
    by (by apply take_out_Some).
  split; [|exact (count_take_out is_posted _ _ _ _ Hout)].
  split; cbn [m_inflight m_peakInflight m_launched m_done m_bytesReceived m_total
    m_concurrency pending m_results without]; try done.
  rewrite Hi, (count_take_out is_conn _ _ _ _ Hout). destruct (is_conn h); lia.
Qed.

Lemma async_counted h ctx : is_conn h = true -> counted 1 ctx -> counted 0 (async h ctx).
Proof.
  intros Hh [Hi Hd Hl Ht Hp Hpp Hb Hr].
  split; cbn [m_inflight m_peakInflight m_launched m_done m_bytesReceived m_total
    m_concurrency pending m_results async]; try done.
  rewrite count_app, count_cons, Hh, Hi. cbn. lia.
Qed.

(** A connection handler either goes on to its next operation or concludes. *)
Lemma async_ok h ctx : is_conn h = true -> counted 1 ctx ->
  stopped ctx = false -> count is_posted (pending ctx) = 0%nat -> primed ctx ->
  ~ (0 < m_done ctx /\ m_total ctx <= m_done ctx) -> ok (async h ctx).
Proof.
  intros Hh Hc Hs Hp Hpr Hd. assert (Hp' : count is_posted (pending (async h ctx)) = 0%nat).
  { cbn [async pending]. rewrite count_app, count_cons, Hp. by destruct h. }
  split; [by apply async_counted|by rewrite Hp'|done|].
  cbn [async stopped m_done m_total]. by rewrite Hs.
Qed.

Lemma conclude_ok b bytes t0 ctx : counted 1 ctx -> stopped ctx = false ->
  count is_posted (pending ctx) = 0%nat -> ok (conclude b bytes t0 ctx).
Proof.
  intros Hc Hs Hp. pose proof (cnt_done _ _ Hc) as Hd.
  destruct (conclude_spec b bytes t0 ctx Hc Hs) as (Hc' & Hpr & _ & _ & Ed & Ep & Est).
  split; [done|by rewrite Ep, Hp|done|]. rewrite Est, Ed. split; [|tauto]. intros; split; lia.
Qed.

Lemma handle_ok_conn k h ctx e : ok ctx -> stopped ctx = false -> position e = k ->
  pending ctx !! k = Some h -> is_conn h = true -> ok (handle ctx e).
Proof.
  intros [Hc Hst Hpr Hstop] Hs <- Hk Hh. unfold handle. rewrite Hs, Hk.
  destruct (without_counted _ _ _ Hc Hk) as [Hw Hpo]. rewrite Hh in Hw.
  assert (Hnp : count is_posted (pending ctx) = 0%nat).
  { destruct (decide (count is_posted (pending ctx) = 0%nat)) as [|Hne]; [done|].
    destruct (Hst Hne) as (Ep & _). rewrite Ep in Hk.
    apply list_lookup_singleton_Some in Hk as [_ <-]. done. }
  assert (Hnp' : count is_posted (pending (without (position e) ctx)) = 0%nat) by lia.
  assert (Hns : ~ (0 < m_done ctx /\ m_total ctx <= m_done ctx)) by (rewrite <- Hstop; congruence).
  specialize (Hpr Hnp).
  destruct h as [|s|s t0|s t0|s t0 b]; try done; unfold OnConnect, OnWriteDone, OnReadSome, ReadResponse;
    destruct (is_error (code e)); cbn [negb]; (by apply conclude_ok) || (by apply async_ok).
Qed.

Lemma load_handle_ok ctx e : ok ctx -> ok (handle ctx e).
Proof.
  intros Hok. destruct (stopped ctx) eqn:Hs; [unfold handle; by rewrite Hs|].
  destruct (pending ctx !! position e) as [h|] eqn:Hk; [|unfold handle; by rewrite Hs, Hk].
  destruct (is_conn h) eqn:Hh; [by eapply (handle_ok_conn (position e))|].
  destruct Hok as [Hc Hst Hpr Hstop].
  destruct (without_counted _ _ _ Hc Hk) as [Hw Hpo]. rewrite Hh in Hw.
  unfold handle. rewrite Hs, Hk. destruct h as [|s|? ?|? ?|? ? ?]; try done; cbn [is_posted] in Hpo.
  - destruct Hst as (Ep & El & _); [lia|].
    destruct (LaunchWave_spec _ Hw) as (Hok2 & (Er & Ed & Et & Ec & Es & Ep2) & Hp2).
    assert (Hz : count is_posted (pending (without (position e) ctx)) = 0%nat).
    { assert (count is_posted (pending ctx) = 1%nat) by (by rewrite Ep). lia. }
    assert (Hd0 : m_done ctx = 0).
    { pose proof (cnt_launched _ _ Hc). pose proof (cnt_inflight _ _ Hc).
      pose proof (cnt_done _ _ Hc). lia. }
    split; [done|by rewrite Ep2, Hz|done|].
    rewrite Es, Ed. cbn [without stopped m_done]. rewrite Hs, Hd0. split; [done|lia].
  - split; [done| |intros Hz; apply Hpr; lia|done].
    intros Hne. destruct Hst as (Ep & _); [lia|]. rewrite Ep in Hk.
    by apply list_lookup_singleton_Some in Hk as [_ [=]].
Qed.

Lemma load_run_ok events ctx : ok ctx -> ok (run events ctx).
Proof.
  revert ctx. induction events as [|e events IH]; intros ctx Hok; [done|].
  by apply IH, load_handle_ok.
Qed.

Lemma handle_params ctx e :
  m_total (handle ctx e) = m_total ctx /\ m_concurrency (handle ctx e) = m_concurrency ctx.
Proof.
  assert (L : forall fuel c, m_total (launch_loop fuel c) = m_total c /\
                             m_concurrency (launch_loop fuel c) = m_concurrency c).
  { induction fuel as [|fuel IH]; intros c; [done|]. cbn [launch_loop]. case_match; [|done].
    apply (IH (launch_one c)). }
  assert (W : forall c, m_total (LaunchWave c) = m_total c /\
                        m_concurrency (LaunchWave c) = m_concurrency c).
  { intros c. unfold LaunchWave. case_match; [done|apply L]. }
  assert (C : forall b n t0 c, m_total (conclude b n t0 c) = m_total c /\
                               m_concurrency (conclude b n t0 c) = m_concurrency c).
  { intros b n t0 c. unfold conclude.
    set (c1 := mkContext _ _ _ _ _ _ _ _ _ _ _ _). destruct (W c1) as [E1 E2].
    case_match; cbn [m_total m_concurrency]; by rewrite E1, E2. }
  unfold handle, OnConnect, OnWriteDone, OnReadSome, ReadResponse.
  destruct (stopped ctx); [done|]. destruct (pending ctx !! position e) as [[]|]; try done;
    [exact (W (without (position e) ctx))|..]; destruct (is_error (code e)); cbn [negb];
    (exact (C _ _ _ (without (position e) ctx)) || done).
Qed.

Lemma run_params events ctx :
  m_total (run events ctx) = m_total ctx /\ m_concurrency (run events ctx) = m_concurrency ctx.
Proof.
  revert ctx. induction events as [|e events IH]; intros ctx; [done|].
  destruct (IH (handle ctx e)) as [E1 E2], (handle_params ctx e) as [E3 E4].
  cbn [run foldl]. unfold run in E1, E2. by rewrite E1, E2.
Qed.

(** C9: after any schedule the counters of the load generator are exact: every launched
    connection is in flight or has exactly one result, no more are in flight than asked
    for, no more are launched than asked for, the peak is within the limit, and the bytes
    are those of the connections that finished; no counter ever wraps but the last. *)
Theorem load_accounting total concurrency events :
  in_s 32 total -> in_s 32 concurrency ->
  let ctx := run events (prepared total concurrency) in
  m_launched ctx = m_done ctx + m_inflight ctx /\
  m_done ctx = Z.of_nat (length (m_results ctx)) /\
  m_inflight ctx = Z.of_nat (count is_conn (pending ctx)) /\
  m_inflight ctx <= m_peakInflight ctx <= Z.max 0 concurrency /\
  m_launched ctx <= Z.max 0 total /\
  m_bytesReceived ctx = s64 (ok_bytes (m_results ctx)).
Proof.
  intros Ht Hc. cbn zeta.
  destruct (run_params events (prepared total concurrency)) as [E1 E2].
  pose proof (load_run_ok events _ (prepared_ok _ _ Ht Hc)) as [[Hi Hd Hl Htot Hp _ Hb _] _ _ _].
  rewrite E1 in Htot. rewrite E2 in Hp. cbn in Htot, Hp.
  split_and!; try done; lia.
Qed.

(** C23: asked for at least one request and at least one connection at a time, the load
    generator never stalls and stops exactly on time.  While it runs, the first wave or
    a connection is pending; when it has stopped, every one of the [total] connections
    has one result and none is pending.  (With zero of either it hangs: [load_hangs].) *)
Theorem load_stops_complete total concurrency events :
  in_s 32 total -> in_s 32 concurrency -> 0 < total -> 0 < concurrency ->
  let ctx := run events (prepared total concurrency) in
  (stopped ctx = false -> exists h, h ∈ pending ctx /\ (is_conn h || is_posted h) = true) /\
  (stopped ctx = true -> Z.of_nat (length (m_results ctx)) = total /\
                         count is_conn (pending ctx) = 0%nat).
Proof.
  intros Ht Hc Htp Hcp. cbn zeta.
  destruct (run_params events (prepared total concurrency)) as [E1 E2].
  pose proof (load_run_ok events _ (prepared_ok _ _ Ht Hc)) as [[Hi Hd Hl Htot _ _ _ _] Hst Hpr Hstop].
  cbn in E1, E2. set (ctx := run events (prepared total concurrency)) in *. clearbody ctx.
  split; intros Hs.
  - destruct (decide (count is_posted (pending ctx) = 0%nat)) as [Hz|Hz].
    + assert (Hpos : (0 < count is_conn (pending ctx))%nat).
      { destruct (Hpr Hz); [lia|].
        assert (~ (0 < m_done ctx /\ m_total ctx <= m_done ctx)) by (rewrite <- Hstop; congruence).
        lia. }
      unfold count in Hpos. destruct (List.filter is_conn (pending ctx)) as [|h l] eqn:E; [cbn in Hpos; lia|].
      exists h. assert (Hin : List.In h (List.filter is_conn (pending ctx))) by (rewrite E; by left).
      apply List.filter_In in Hin as [Hin Hh]. rewrite Hh. by split; [apply list_elem_of_In|].
    + destruct (Hst Hz) as (-> & _). exists Posted. split; [by left|done].
  - apply Hstop in Hs as [_ Hs]. lia.
Qed.

(** Asked for no connection at all, or allowed none, [RunLoad] never returns, whatever
    happens: after the first wave nothing is pending, and only a connection's end stops
    the loop.  Asked for a negative number it throws. *)
Theorem load_hangs total concurrency events :
  in_s 32 total -> in_s 32 concurrency -> total <= 0 \/ concurrency <= 0 ->
  RunLoad total concurrency events =
    if total <? 0 then Threw (Exn KLengthError "vector::reserve") else Returned None.
Proof.
  intros Ht Hc Hz. unfold RunLoad. destruct (Z.ltb_spec total 0); [done|]. f_equal.
  destruct (run_params events (prepared total concurrency)) as [E1 E2].
  pose proof (load_run_ok events _ (prepared_ok _ _ Ht Hc)) as [[Hi Hd Hl Htot Hp Hpp _ _] _ _ Hstop].
  cbn in E1, E2. set (ctx := run events (prepared total concurrency)) in *. clearbody ctx.
  destruct (stopped ctx); [|done]. exfalso. destruct Hstop as [[Hpos Hge] _]; [done|].
  lia.
Qed.

(** ** Termination *)

(** An event that happens. *)
Definition happens (ctx : LoadContext) (e : event) : bool :=
  negb (stopped ctx) && (position e <? length (pending ctx))%nat.

(** ... and that is not a read that got data. *)
Definition progresses (ctx : LoadContext) (e : event) : bool :=
  happens ctx e && negb match pending ctx !! position e with
                        | Some (ReadSome _ _ _) => negb (is_error (code e))
                        | _ => false
                        end.

(** The number of events of a schedule that happen and are not reads of data. *)
Fixpoint progress (events : list event) (ctx : LoadContext) : nat :=
  match events with
  | [] => O
  | e :: events' => (if progresses ctx e then 1 else 0) + progress events' (handle ctx e)
  end%nat.

(** What a pending handler still leads to, reads of data apart. *)
Definition weight (h : handler) : Z :=
  match h with Posted => 1 | OnTimer _ => 1 | Connected _ _ => 3 | Written _ _ => 2
             | ReadSome _ _ _ => 1 end.
Fixpoint weights (l : list handler) : Z :=
  match l with [] => 0 | h :: l' => weight h + weights l' end.

(** A connection not launched yet is a timer and three operations. *)
Definition potential (ctx : LoadContext) : Z :=
  4 * Z.max 0 (m_total ctx - m_launched ctx) + weights (pending ctx).

Lemma weights_app l l' : weights (l ++ l') = weights l + weights l'.
Proof. induction l as [|h l IH]; [done|]. cbn [app weights]. rewrite IH. lia. Qed.

Lemma weights_nonneg l : 0 <= weights l.
Proof. induction l as [|h l IH]; cbn [weights]; [done|]. destruct h; cbn [weight]; lia. Qed.

Lemma weights_delete l k h : l !! k = Some h -> weights l = weight h + weights (delete k l).
Proof.
  revert k. induction l as [|h' l IH]; intros [|k]; try done; [by intros [= ->]|].
  intros Hk. change (delete (S k) (h' :: l)) with (h' :: delete k l). cbn [weights].
  rewrite (IH k Hk). lia.
Qed.

(** Launching moves the potential from the connections to come to the pending. *)
Lemma launch_loop_potential fuel ctx : in_s 32 (m_total ctx) ->
  0 <= m_launched ctx -> potential (launch_loop fuel ctx) = potential ctx.
Proof.
  revert ctx. induction fuel as [|fuel IH]; intros ctx Ht Hl; [done|]. cbn [launch_loop].
  destruct (m_inflight ctx <? m_concurrency ctx); cbn [andb]; [|done].
  destruct (Z.ltb_spec (m_launched ctx) (m_total ctx)) as [Hn|]; [|done].
  unfold in_s, half in Ht. cbn in Ht.
  assert (El : m_launched (launch_one ctx) = m_launched ctx + 1)
    by (unfold launch_one; cbn [m_launched]; apply s32_small; lia).
  rewrite IH; [|done|rewrite El; lia].
  unfold potential. rewrite El. unfold launch_one. cbn [m_total pending].
  rewrite weights_app. cbn [weights weight]. lia.
Qed.

Lemma LaunchWave_potential ctx : in_s 32 (m_total ctx) -> 0 <= m_launched ctx ->
  potential (LaunchWave ctx) = potential ctx.
Proof. intros. unfold LaunchWave. case_match; [done|by apply launch_loop_potential]. Qed.

Lemma conclude_potential b n t0 ctx : in_s 32 (m_total ctx) -> 0 <= m_launched ctx ->
  potential (conclude b n t0 ctx) = potential ctx.
Proof.
  intros Ht Hl. unfold conclude. set (ctx1 := mkContext _ _ _ _ _ _ _ _ _ _ _ _).
  transitivity (potential (LaunchWave ctx1)); [by case_match|].
  rewrite LaunchWave_potential; done.
Qed.

Lemma async_potential h ctx : potential (async h ctx) = potential ctx + weight h.
Proof. unfold potential, async. cbn [m_total m_launched pending]. rewrite weights_app. cbn. lia. Qed.

Lemma handle_potential ctx e : ok ctx ->
  potential (handle ctx e) + (if progresses ctx e then 1 else 0) <= potential ctx.
Proof.
  intros [Hc _ _ _]. unfold progresses, happens, handle. destruct (stopped ctx); [cbn; lia|].
  destruct (pending ctx !! position e) as [h|] eqn:Hk.
  2: { apply lookup_ge_None_1 in Hk. rewrite (proj2 (Nat.ltb_ge _ _)) by done. cbn. lia. }
  rewrite (proj2 (Nat.ltb_lt _ _)) by (by eapply lookup_lt_Some). cbn [negb andb].
  pose proof (proj1 (cnt_range _ _ Hc)) as Ht.
  assert (Hl : 0 <= m_launched ctx).
  { pose proof (cnt_inflight _ _ Hc). pose proof (cnt_done _ _ Hc).
    pose proof (cnt_launched _ _ Hc). lia. }
  set (ctx1 := without (position e) ctx).
  assert (E1 : potential ctx = potential ctx1 + weight h).
  { unfold potential, ctx1, without. cbn [m_total m_launched pending].
    rewrite (weights_delete _ _ _ Hk). lia. }
  assert (Ht1 : in_s 32 (m_total ctx1)) by done.
  assert (Hl1 : 0 <= m_launched ctx1) by done. clearbody ctx1.
  destruct h as [|s|s t0|s t0|s t0 b]; cbn [weight] in E1;
    unfold OnConnect, OnWriteDone, OnReadSome, ReadResponse;
    try destruct (is_error (code e)); cbn [negb];
    rewrite ?LaunchWave_potential, ?conclude_potential, ?async_potential by done;
    cbn [weight]; lia.
Qed.

Lemma progress_bound events ctx : ok ctx ->
  Z.of_nat (progress events ctx) + potential (run events ctx) <= potential ctx.
Proof.
  revert ctx. induction events as [|e events IH]; intros ctx Hok; cbn [progress run foldl]; [lia|].
  specialize (IH _ (load_handle_ok ctx e Hok)). pose proof (handle_potential ctx e Hok).
  unfold run in IH. destruct (progresses ctx e); lia.
Qed.

(** C24: whatever the peers do, the generator takes at most four steps per connection and
    one to start, reads of data apart: with [load_stops_complete], it ends as soon as
    every peer stops sending. *)
Theorem load_terminates total concurrency events :
  in_s 32 total -> in_s 32 concurrency ->
  Z.of_nat (progress events (prepared total concurrency)) <= 4 * Z.max 0 total + 1.
Proof.
  intros Ht Hc. pose proof (progress_bound events _ (prepared_ok _ _ Ht Hc)) as H.
  pose proof (weights_nonneg (pending (run events (prepared total concurrency)))).
  unfold potential at 2 in H. cbn [m_total m_launched pending prepared weights weight] in H.
  unfold potential in H. lia.
Qed.

(** ** What [RunLoad] returns *)
Lemma to_ms_number ns : number (to_ms ns).
Proof. apply d_div_number, d_of_Z_number. Qed.

Definition measured (r : ConnResult) : Prop := number (m_ms r).

Lemma launch_loop_results fuel ctx : m_results (launch_loop fuel ctx) = m_results ctx.
Proof.
  revert ctx. induction fuel as [|fuel IH]; intros ctx; [done|]. cbn [launch_loop].
  case_match; [|done]. apply (IH (launch_one ctx)).
Qed.

Lemma LaunchWave_results ctx : m_results (LaunchWave ctx) = m_results ctx.
Proof. unfold LaunchWave. case_match; [done|apply launch_loop_results]. Qed.

Lemma conclude_results b n t0 ctx : Forall measured (m_results ctx) ->
  Forall measured (m_results (conclude b n t0 ctx)).
Proof.
  intros Hr. unfold conclude. set (c1 := mkContext _ _ _ _ _ _ _ _ _ _ _ _).
  assert (H1 : Forall measured (m_results (LaunchWave c1))).
  { rewrite LaunchWave_results. cbn [c1 m_results]. apply Forall_app_2; [done|]. constructor; [|done].
    apply to_ms_number. }
  by case_match.
Qed.

Lemma handle_results ctx e : Forall measured (m_results ctx) ->
  Forall measured (m_results (handle ctx e)).
Proof.
  intros Hr. unfold handle, OnConnect, OnWriteDone, OnReadSome, ReadResponse.
  destruct (stopped ctx); [done|]. destruct (pending ctx !! position e) as [[]|]; try done.
  - by rewrite LaunchWave_results.
  - destruct (is_error (code e)); [by apply conclude_results|done].
  - destruct (is_error (code e)); [by apply conclude_results|done].
  - destruct (is_error (code e)); cbn [negb]; [by apply conclude_results|done].
Qed.

Lemma run_results events ctx : Forall measured (m_results ctx) ->
  Forall measured (m_results (run events ctx)).
Proof.
  revert ctx. induction events as [|e events IH]; intros ctx Hr; [done|].
  by apply IH, handle_results.
Qed.

(** A load that is returned has one result, with a time, for every connection. *)
Lemma RunLoad_returned total concurrency events load :
  in_s 32 total -> in_s 32 concurrency ->
  RunLoad total concurrency events = Returned (Some load) ->
  Z.of_nat (length (m_conns load)) = total /\ Forall measured (m_conns load).
Proof.
  intros Ht Hc. unfold RunLoad. destruct (Z.ltb_spec total 0) as [|H0]; [done|].
  destruct (run_params events (prepared total concurrency)) as [E1 E2].
  pose proof (load_run_ok events _ (prepared_ok _ _ Ht Hc)) as [[Hi Hd Hl Htot _ _ _ _] _ _ Hstop].
  pose proof (run_results events (prepared total concurrency)) as Hm.
  cbn in E1, E2. set (ctx := run events (prepared total concurrency)) in *. clearbody ctx.
  destruct (stopped ctx); [|done]. intros [= <-]. cbn [m_conns].
  destruct Hstop as [[Hpos Hge] _]; [done|]. split; [lia|by apply Hm].
Qed.
End BenchLoad.
End BenchLoad.
