(* ===== verification/BenchStats.v ===== *)
(** * bench/main.cpp: statistics of a run

    [ComputeStats] counts the results of [RunLoad] and takes order statistics of the
    latencies, which are doubles.  [std::ranges::sort] is any function that sorts the
    list it is given; two doubles that compare equal may end in either order. *)

From S2P Require Import Prelude Double BenchLoad.
Import BenchLoad.

Module BenchStats.
Local Open Scope Z_scope.

Record AlgoResult := mkAlgo {
  m_algo : string;
  m_completed : Z;                (* int *)
  m_errors : Z;
  m_throughput : Z;
  algo_peakConnections : Z;
  m_backendCount : Z;
  algo_bytesReceived : Z;         (* int64_t *)
  m_avgMs : double;
  m_minMs : double;
  m_p50Ms : double;
  m_p95Ms : double;
  m_p99Ms : double;
  m_maxMs : double
}.

(** The loop over the results: completed, errors, latencies of the completed. *)
Fixpoint tally (conns : list ConnResult) (completed errors : Z) (latencies : list double)
    : Z * Z * list double :=
  match conns with
  | [] => (completed, errors, latencies)
  | c :: conns' =>
      if m_ok c then tally conns' (completed + 1) errors (latencies ++ [m_ms c])
      else tally conns' completed (errors + 1) latencies
  end.

Section BenchStats.
(** The algorithm of the library, and what a cast that is undefined would give. *)
Context (sort : list double -> list double) (cast_undefined : double -> Z).

Definition to_int (x : double) : Z := from_option id (cast_undefined x) (d_trunc x).

(** [latencies.at(n * pct / 100)], in [size_t]. *)
Definition percentile (latencies : list double) (pct : Z) : outcome double :=
  at_ latencies (Z.to_nat (u64 (Z.of_nat (length latencies) * pct) / 100)).

Definition ComputeStats (algo : string) (load : LoadResult) (totalWallMs : double)
    (backendCount : Z) : outcome AlgoResult :=
  let '(completed, errors, latencies) := tally (m_conns load) 0 0 [] in
  let throughput :=
    if d_lt d_zero totalWallMs
    then to_int (d_div (d_mul (d_of_Z completed) (d_of_Z 1000)) totalWallMs) else 0 in
  let with_times := mkAlgo algo completed errors throughput (m_peakConnections load)
                      backendCount (load_bytesReceived load) in
  match latencies with
  | [] => Returned (with_times d_zero d_zero d_zero d_zero d_zero d_zero)
  | _ =>
      let latencies := sort latencies in
      let n := length latencies in
      let avg := d_div (fold_left d_add latencies d_zero) (d_of_Z (Z.of_nat n)) in
      p50 ← percentile latencies 50;
      p95 ← percentile latencies 95;
      p99 ← percentile latencies 99;
      Returned (with_times avg (List.hd d_zero latencies) p50 p95 p99
                  (List.last latencies d_zero))
  end.

(** ** What the numbers are *)

(** [std::ranges::sort] on one list: a permutation in which no element is less than an
    earlier one. *)
Definition sorts (l : list double) : Prop :=
  Permutation (sort l) l /\
  forall i j x y, (i <= j)%nat -> sort l !! i = Some x -> sort l !! j = Some y -> d_lt y x = false.

Definition ok_latencies (conns : list ConnResult) : list double :=
  m_ms <$> List.filter m_ok conns.

Lemma tally_spec conns completed errors latencies :
  tally conns completed errors latencies =
  (completed + Z.of_nat (length (List.filter m_ok conns)),
   errors + Z.of_nat (length (List.filter (fun c => negb (m_ok c)) conns)),
   latencies ++ ok_latencies conns).
Proof.
  revert completed errors latencies.
  induction conns as [|c conns IH]; intros completed errors latencies; simpl.
  - by rewrite !Z.add_0_r, app_nil_r.
  - unfold ok_latencies. simpl. destruct (m_ok c); rewrite IH; cbn [negb length].
    + f_equal; [f_equal; lia|]. by rewrite <- app_assoc.
    + f_equal. f_equal; lia.
Qed.

Lemma filter_both (conns : list ConnResult) :
  (length (List.filter m_ok conns) + length (List.filter (fun c => negb (m_ok c)) conns)
   = length conns)%nat.
Proof. induction conns as [|c conns IH]; simpl; [done|]. destruct (m_ok c); simpl; lia. Qed.

(** How many latencies are not above, and how many not below, a given one. *)
Definition not_above (x : double) (l : list double) : Z :=
  Z.of_nat (length (List.filter (fun y => negb (d_lt x y)) l)).
Definition not_below (x : double) (l : list double) : Z :=
  Z.of_nat (length (List.filter (fun y => negb (d_lt y x)) l)).

Lemma filter_all {A} (p : A -> bool) l : Forall (fun x => p x = true) l -> List.filter p l = l.
Proof. induction 1 as [|x l Hx _ IH]; simpl; [done|]. by rewrite Hx, IH. Qed.

Lemma filter_Permutation (p : double -> bool) l l' :
  Permutation l l' -> length (List.filter p l) = length (List.filter p l').
Proof.
  induction 1 as [|x l1 l2 _ IH|x y l1|l1 l2 l3 _ IH1 _ IH2]; simpl; [done|..].
  - destruct (p x); simpl; congruence.
  - by destruct (p x), (p y).
  - congruence.
Qed.

(** In a sorted list, the element at [k] has [k + 1] elements not above it and the rest
    not below it. *)
Lemma sorted_rank l k x : sorts l -> sort l !! k = Some x ->
  Z.of_nat k < not_above x l /\ Z.of_nat (length l) - Z.of_nat k <= not_below x l.
Proof.
  intros [Hp Hs] Hk. unfold not_above, not_below.
  rewrite <- !(filter_Permutation _ _ _ Hp), <- (Permutation_length Hp).
  assert (Hlt : (k < length (sort l))%nat) by (by eapply lookup_lt_Some).
  split.
  - rewrite <- (take_drop (S k) (sort l)) at 1. rewrite List.filter_app, length_app.
    rewrite (filter_all _ (take (S k) (sort l))); [rewrite length_take; lia|].
    apply Forall_lookup. intros i y [Hi Hl]%lookup_take_Some.
    by rewrite (Hs i k y x) by (done || lia).
  - rewrite <- (take_drop k (sort l)) at 2. rewrite List.filter_app, length_app.
    rewrite (filter_all _ (drop k (sort l))); [rewrite length_drop; lia|].
    apply Forall_lookup. intros i y Hi. rewrite lookup_drop in Hi.
    by rewrite (Hs k (k + i)%nat x y) by (done || lia).
Qed.

Lemma percentile_at l pct : l <> [] -> 0 <= pct < 100 -> Z.of_nat (length l) < 2 ^ 32 ->
  exists k x, percentile l pct = Returned x /\ l !! k = Some x /\
              Z.of_nat k = Z.of_nat (length l) * pct / 100.
Proof.
  intros Hne Hpct Hlen. unfold percentile.
  assert (Hn : 0 < Z.of_nat (length l)) by (destruct l; [done|cbn; lia]).
  rewrite wrapu_small by (split; [nia|]; change (2 ^ 64) with (2 ^ 32 * 2 ^ 32); nia).
  assert (Hk : 0 <= Z.of_nat (length l) * pct / 100 < Z.of_nat (length l)).
  { split; [apply Z.div_pos; nia|]. apply Z.div_lt_upper_bound; nia. }
  set (k := Z.of_nat (length l) * pct / 100) in *.
  destruct (lookup_lt_is_Some_2 l (Z.to_nat k)) as [x Hx]; [lia|].
  exists (Z.to_nat k), x. split_and!; [by apply at_returned|done|lia].
Qed.

(** The percentile of rank [pct]: a measured latency, with more than [pct] percent of
    them not above it, and at least the rest not below. *)
Definition is_percentile (pct : Z) (l : list double) (x : double) : Prop :=
  x ∈ l /\ Z.of_nat (length l) * pct / 100 < not_above x l /\
  Z.of_nat (length l) - Z.of_nat (length l) * pct / 100 <= not_below x l.

Lemma ranked_percentile l k x pct : sorts l -> sort l !! k = Some x ->
  Z.of_nat k = Z.of_nat (length l) * pct / 100 -> is_percentile pct l x.
Proof.
  intros Hs Hk Ek. destruct (sorted_rank l k x Hs Hk) as [H1 H2].
  unfold is_percentile. rewrite <- Ek. split_and!; [|lia|lia].
  rewrite <- (proj1 Hs). by eapply list_elem_of_lookup_2.
Qed.

Lemma percentile_spec l pct : sorts l -> l <> [] -> 0 <= pct < 100 ->
  Z.of_nat (length l) < 2 ^ 32 ->
  exists x, percentile (sort l) pct = Returned x /\ is_percentile pct l x.
Proof.
  intros Hs Hne Hpct Hlen. pose proof (Permutation_length (proj1 Hs)) as Hl.
  assert (Hne' : sort l <> []) by (intros E; rewrite E in Hl; by destruct l).
  destruct (percentile_at (sort l) pct Hne' Hpct) as (k & x & E & Hk & Ek); [by rewrite Hl|].
  exists x. split; [done|]. rewrite Hl in Ek. by apply (ranked_percentile l k).
Qed.

Lemma last_at {A} (x : A) l d : (x :: l) !! length l = Some (List.last (x :: l) d).
Proof. revert x. induction l as [|y l IH]; intros x; [done|]. exact (IH y). Qed.

(** The two ends of the sorted latencies. *)
Lemma ends_spec l : sorts l -> l <> [] ->
  is_percentile 0 l (List.hd d_zero (sort l)) /\
  List.last (sort l) d_zero ∈ l /\
  not_above (List.last (sort l) d_zero) l = Z.of_nat (length l).
Proof.
  intros Hs Hne. pose proof (Permutation_length (proj1 Hs)) as Hl.
  destruct (sort l) as [|y s] eqn:Es; [by destruct l|]. cbn [length] in Hl.
  assert (Hlast : sort l !! length s = Some (List.last (y :: s) d_zero))
    by (rewrite Es; apply last_at).
  split_and!.
  - apply (ranked_percentile l 0); [done|by rewrite Es|by rewrite Z.mul_0_r].
  - rewrite <- (proj1 Hs). by eapply list_elem_of_lookup_2.
  - destruct (sorted_rank l _ _ Hs Hlast) as [H1 _].
    pose proof (List.filter_length_le (fun z => negb (d_lt (List.last (y :: s) d_zero) z)) l).
    unfold not_above in *. lia.
Qed.

(** The statistics exist if the latencies, where there are any, are sorted. *)
Lemma ComputeStats_returns algo load totalWallMs backendCount :
  let latencies := ok_latencies (m_conns load) in
  sorts latencies -> Z.of_nat (length (m_conns load)) < 2 ^ 31 ->
  exists r, ComputeStats algo load totalWallMs backendCount = Returned r /\
    m_algo r = algo /\ m_backendCount r = backendCount /\
    m_completed r = Z.of_nat (length latencies) /\
    m_completed r + m_errors r = Z.of_nat (length (m_conns load)) /\
    (latencies <> [] ->
     is_percentile 0 latencies (m_minMs r) /\ is_percentile 50 latencies (m_p50Ms r) /\
     is_percentile 95 latencies (m_p95Ms r) /\ is_percentile 99 latencies (m_p99Ms r) /\
     m_maxMs r ∈ latencies /\ not_above (m_maxMs r) latencies = Z.of_nat (length latencies)).
Proof.
  cbn zeta. intros Hs Hlen. unfold ComputeStats. rewrite tally_spec. cbn [app].
  pose proof (filter_both (m_conns load)) as Hb.
  assert (Hlen2 : length (ok_latencies (m_conns load)) = length (List.filter m_ok (m_conns load)))
    by (unfold ok_latencies; by rewrite length_fmap).
  set (l := ok_latencies (m_conns load)) in *.
  destruct (decide (l = [])) as [El|Hne].
  - rewrite El in *. eexists. split; [reflexivity|].
    cbn [m_algo m_backendCount m_completed m_errors]. cbn [length] in *. split_and!; done || lia.
  - destruct (percentile_spec l 50 Hs Hne) as (p50 & E50 & H50); [lia|lia|].
    destruct (percentile_spec l 95 Hs Hne) as (p95 & E95 & H95); [lia|lia|].
    destruct (percentile_spec l 99 Hs Hne) as (p99 & E99 & H99); [lia|lia|].
    destruct (ends_spec l Hs Hne) as (Hmin & Hmax & Hall).
    destruct l as [|x0 l0] eqn:El; [done|]. rewrite <- El in *.
    rewrite E50. cbn [mbind outcome_bind]. rewrite E95. cbn [mbind outcome_bind].
    rewrite E99. cbn [mbind outcome_bind]. eexists. split; [reflexivity|].
    cbn [m_algo m_backendCount m_completed m_errors m_minMs m_p50Ms m_p95Ms m_p99Ms m_maxMs].
    split_and!; first [done | lia | intros _; split_and!; done].
Qed.

(** C21: the statistics are those of the run.  Every result is counted once, as completed
    or as an error; if any completed, the minimum, the percentiles and the maximum are
    measured latencies of the right rank, for any sorting algorithm, and no index is out
    of range. *)
Theorem stats_of_the_run algo load totalWallMs backendCount :
  let latencies := ok_latencies (m_conns load) in
  sorts latencies -> latencies <> [] -> Z.of_nat (length (m_conns load)) < 2 ^ 31 ->
  exists r, ComputeStats algo load totalWallMs backendCount = Returned r /\
    m_completed r = Z.of_nat (length latencies) /\
    m_completed r + m_errors r = Z.of_nat (length (m_conns load)) /\
    is_percentile 0 latencies (m_minMs r) /\ is_percentile 50 latencies (m_p50Ms r) /\
    is_percentile 95 latencies (m_p95Ms r) /\ is_percentile 99 latencies (m_p99Ms r) /\
    m_maxMs r ∈ latencies /\ not_above (m_maxMs r) latencies = Z.of_nat (length latencies).
Proof.
  cbn zeta. intros Hs Hne Hlen.
  destruct (ComputeStats_returns algo load totalWallMs backendCount Hs Hlen)
    as (r & E & _ & _ & Hc & Ht & Hr). exists r. specialize (Hr Hne). tauto.
Qed.
End BenchStats.
End BenchStats.
