(* ===== verification/BenchEcho.v ===== *)
(** * bench/main.cpp: the mock services

    [EchoService] accepts connections, reads one request from each, waits if it is to
    simulate a slow backend, answers with a fixed response and closes.  A connection's
    socket lives in the handler that is pending for it; handlers complete in any order,
    with any error code. *)

From S2P Require Import Prelude Text Asio BenchArgs.

Module BenchEcho.

Definition k_httpResponseBodyBytes : Z := 128.

Inductive handler :=
  | Accepting
  | Reading (sock : nat)
  | Delaying (sock : nat)
  | Writing (sock : nat) (resp : string).

Record EchoService := mkEcho {
  m_port : Z;                     (* uint16_t, of the acceptor's endpoint *)
  m_delayMs : Z;                  (* int *)
  accepted : nat;                 (* sockets accepted so far *)
  pending : list handler;
  answered : list nat;            (* sockets whose response was written, or failed to be *)
  dropped : list nat              (* sockets whose request could not be read *)
}.

Definition crlf : string := String "013" nl.
Definition body : string := String.concat "" (repeat "x" (Z.to_nat k_httpResponseBodyBytes)).

Definition response : string :=
  "HTTP/1.1 200 OK" +:+ crlf +:+ "Content-Length: " +:+ pretty k_httpResponseBodyBytes +:+ crlf +:+
  "Connection: close" +:+ crlf +:+ crlf +:+ body.

Definition async (h : handler) (s : EchoService) : EchoService :=
  mkEcho (m_port s) (m_delayMs s) (accepted s) (pending s ++ [h]) (answered s) (dropped s).

Definition AcceptNext : EchoService -> EchoService := async Accepting.

Definition HandleConn (sock : nat) : EchoService -> EchoService := async (Reading sock).

Definition SendResponse (sock : nat) : EchoService -> EchoService := async (Writing sock response).

(** The constructor, once the port is bound. *)
Definition make (port delayMs : Z) : EchoService :=
  AcceptNext (mkEcho port delayMs 0 [] [] []).

(** The handlers. *)
Definition on_accept (ec : error_code) (s : EchoService) : EchoService :=
  if is_error ec then s
  else
    let sock := accepted s in
    let s := mkEcho (m_port s) (m_delayMs s) (S sock) (pending s) (answered s) (dropped s) in
    AcceptNext (HandleConn sock s).

Definition on_read (sock : nat) (ec : error_code) (s : EchoService) : EchoService :=
  if is_error ec
  then mkEcho (m_port s) (m_delayMs s) (accepted s) (pending s) (answered s) (dropped s ++ [sock])
  else if (0 <? m_delayMs s)%Z then async (Delaying sock) s
  else SendResponse sock s.

(** Shut down and closed, whether the write succeeded or not. *)
Definition on_written (sock : nat) (s : EchoService) : EchoService :=
  mkEcho (m_port s) (m_delayMs s) (accepted s) (pending s) (answered s ++ [sock]) (dropped s).

Definition without (k : nat) (s : EchoService) : EchoService :=
  mkEcho (m_port s) (m_delayMs s) (accepted s) (delete k (pending s)) (answered s) (dropped s).

(** The [k]-th pending operation completes with [ec]. *)
Definition handle (s : EchoService) (e : nat * error_code) : EchoService :=
  match pending s !! e.1 with
  | None => s
  | Some h =>
      let s := without e.1 s in
      match h with
      | Accepting => on_accept e.2 s
      | Reading sock => on_read sock e.2 s
      | Delaying sock => SendResponse sock s
      | Writing sock _ => on_written sock s
      end
  end.

Definition run (events : list (nat * error_code)) (s : EchoService) : EchoService :=
  foldl handle s events.

(** ** Every connection is served once *)
Definition socket_of (h : handler) : list nat :=
  match h with
  | Accepting => []
  | Reading sock | Delaying sock | Writing sock _ => [sock]
  end.

(** Where the sockets are. *)
Definition whereabouts (s : EchoService) : list nat :=
  (pending s ≫= socket_of) ++ answered s ++ dropped s.

Definition accounted (s : EchoService) : Prop :=
  Permutation (whereabouts s) (seq 0 (accepted s)).

Lemma bind_delete {A} (f : A -> list nat) l k x : l !! k = Some x ->
  Permutation (l ≫= f) (f x ++ (delete k l ≫= f)).
Proof. intros H. by rewrite (delete_Permutation l k x H) at 1. Qed.

Lemma async_whereabouts h s :
  Permutation (whereabouts (async h s)) (socket_of h ++ whereabouts s).
Proof.
  unfold whereabouts. cbn [async pending answered dropped].
  rewrite bind_app, bind_singleton. rewrite (Permutation_app_comm (pending s ≫= _)).
  by rewrite <- app_assoc.
Qed.

Lemma handle_accounted s e : accounted s -> accounted (handle s e).
Proof.
  unfold accounted, handle. intros Hs. destruct (pending s !! e.1) as [h|] eqn:Hk; [|done].
  assert (Hw : Permutation (socket_of h ++ whereabouts (without e.1 s)) (seq 0 (accepted s))).
  { rewrite <- Hs. unfold whereabouts. cbn [without pending answered dropped].
    rewrite (bind_delete socket_of _ _ _ Hk). by rewrite <- app_assoc. }
  change (accepted s) with (accepted (without e.1 s)) in Hw. revert Hw.
  generalize (without e.1 s). clear s Hs Hk. intros s Hw. destruct h as [|k|k|k t]; cbn in Hw.
  - unfold on_accept. destruct (is_error e.2); [done|]. unfold AcceptNext, HandleConn.
    rewrite !async_whereabouts. cbn [socket_of app].
    cbn [async accepted]. rewrite seq_S. cbn [plus]. rewrite <- Hw.
    apply (Permutation_cons_append (whereabouts s)).
  - unfold on_read, SendResponse. destruct (is_error e.2).
    + rewrite <- Hw. unfold whereabouts. cbn [pending answered dropped].
      rewrite !app_assoc. symmetry. apply Permutation_cons_append.
    + destruct (_ <? _)%Z; rewrite async_whereabouts; exact Hw.
  - unfold SendResponse. rewrite async_whereabouts. exact Hw.
  - rewrite <- Hw. unfold whereabouts. cbn [on_written pending answered dropped].
    solve_Permutation.
Qed.

Lemma echo_run_accounted events s : accounted s -> accounted (run events s).
Proof.
  revert s. induction events as [|e events IH]; intros s Hs; [done|]. by apply IH, handle_accounted.
Qed.

(** C35: every accepted connection is served once: it is being served by exactly one
    pending operation, or was answered once, or was dropped, and never two of these. *)
Theorem echo_serves_once port delayMs events :
  let s := run events (make port delayMs) in
  accounted s /\ NoDup (answered s ++ dropped s) /\
  length (pending s ≫= socket_of) + length (answered s) + length (dropped s) = accepted s.
Proof.
  cbn zeta. set (s := run events (make port delayMs)).
  assert (Hs : accounted s) by (apply echo_run_accounted; constructor).
  split_and!; [done|..].
  - assert (Hnd : NoDup (whereabouts s)) by (unfold accounted in Hs; rewrite Hs; apply NoDup_ListNoDup, seq_NoDup).
    by apply NoDup_app in Hnd as (_ & _ & Hnd).
  - apply Permutation_length in Hs. unfold whereabouts in Hs.
    rewrite !length_app, length_seq in Hs. lia.
Qed.

(** The response is what it claims: the header, which an empty line ends, gives the
    length of the body that follows, and announces that the service closes. *)
Theorem response_well_formed :
  exists header, response = header +:+ crlf +:+ crlf +:+ body /\
    In ("Content-Length: " +:+ pretty (String.length body) +:+ String "013" "") (pieces "010" header) /\
    In "Connection: close" (pieces "010" header).
Proof.
  exists ("HTTP/1.1 200 OK" +:+ crlf +:+ "Content-Length: " +:+ pretty k_httpResponseBodyBytes +:+
          crlf +:+ "Connection: close").
  split; [by rewrite !app_assoc'|]. vm_compute. tauto.
Qed.
End BenchEcho.
