(* ===== verification/BenchBaseline.v ===== *)
(** * bench/main.cpp: the baseline file

    [SaveBaseline] writes the results of a run as JSON; [CompareBaseline] finds the
    throughput of an algorithm in that text again by searching for its name and for the
    next throughput, and fails the run if it dropped too far.

    The file system is [BenchFiles], with its laws in [BenchFilesOk]. *)

From S2P Require Import Prelude Text Double BenchArgs BenchLoad BenchStats.
Import BenchArgs BenchStats.

(** ** The file system *)
Class BenchFiles := {
  Files : Type;
  parent_path : string -> string;
  create_directories : string -> Files -> outcome unit * Files;
  open_for_writing : string -> Files -> bool * Files;   (* std::ofstream, and its test *)
  write : string -> string -> Files -> Files;            (* what the stream was given *)
  read : Files -> string -> option string                (* std::ifstream *)
}.

(** A written file is read back, unless the disk is full, which the source does not test. *)
Class BenchFilesOk (B : BenchFiles) := {
  room : Files -> string -> Prop;
  read_written path text fs :
    room (write path text fs) path -> read (write path text fs) path = Some text
}.

(** ** Searching text *)

(** [s.find(pat)]: [s] from the first occurrence of [pat] on. *)
Fixpoint seek (pat s : string) : option string :=
  if String.prefix pat s then Some s
  else match s with "" => None | String _ s' => seek pat s' end.

Fixpoint take_s (n : nat) (s : string) : string :=
  match n, s with S n', String c s' => String c (take_s n' s') | _, _ => "" end.
Fixpoint drop_s (n : nat) (s : string) : string :=
  match n, s with S n', String _ s' => drop_s n' s' | _, _ => s end.

(** ** Searching a text made of quoted tokens *)
Lemma prefix_app p s : String.prefix p (p +:+ s) = true.
Proof.
  induction p as [|c p IH]; [by destruct s|]. rewrite app_cons. cbn.
  by destruct (ascii_dec c c).
Qed.

Lemma prefix_token a t p s : avoids "034" a -> avoids "034" t ->
  String.prefix (a +:+ String "034" p) (t +:+ String "034" s) = true -> a = t.
Proof.
  unfold avoids. revert t. induction a as [|x a IH]; intros [|y t]; [done|..];
    rewrite ?app_cons; try change ("" +:+ ?x) with x; cbn [every String.prefix]; intros Ha Ht.
  - apply andb_prop_elim in Ht as [Hy _].
    destruct (ascii_dec "034" y) as [<-|]; [by rewrite Ascii.eqb_refl in Hy|done].
  - apply andb_prop_elim in Ha as [Hx _].
    destruct (ascii_dec x "034") as [->|]; [by rewrite Ascii.eqb_refl in Hx|done].
  - apply andb_prop_elim in Ha as [_ Ha], Ht as [_ Ht].
    destruct (ascii_dec x y) as [->|]; [|done]. intros Hp. f_equal. by apply IH.
Qed.

Lemma quoted_app t s : quoted t +:+ s = String "034" (t +:+ String "034" s).
Proof. unfold quoted, dq. by rewrite !app_assoc'. Qed.

Section seeking.
Context (a tl : string) (Ha : avoids "034" a).
Abbreviation pat := (quoted a +:+ tl).

Lemma pat_cons : pat = String "034" (a +:+ String "034" tl).
Proof. apply quoted_app. Qed.

Lemma seek_step c s : String.prefix pat (String c s) = false ->
  seek pat (String c s) = seek pat s.
Proof. intros E. cbn [seek]. by rewrite E. Qed.

(** Text without a quote is passed over ... *)
Lemma seek_skip u s : avoids "034" u -> seek pat (u +:+ s) = seek pat s.
Proof.
  unfold avoids. induction u as [|c u IH]; [done|]. rewrite app_cons. cbn [every].
  intros [Hc Hu]%andb_prop_elim. rewrite seek_step; [by apply IH|].
  rewrite pat_cons. cbn [String.prefix].
  destruct (ascii_dec "034" c) as [<-|]; [by rewrite Ascii.eqb_refl in Hc|done].
Qed.

(** ... and so is another token, if what follows it cannot start [a]. *)
Lemma seek_other t c s : avoids "034" t -> t <> a -> c <> "034"%char ->
  negb (String.prefix (String c "") a) -> a <> "" ->
  seek pat (quoted t +:+ String c s) = seek pat s.
Proof.
  intros Ht Hne Hc Hpre Ha0. rewrite (quoted_app t), seek_step, seek_skip; [|done|].
  - rewrite !seek_step; [done|..]; rewrite pat_cons.
    + cbn [String.prefix]. destruct (ascii_dec "034" c); congruence.
    + cbn [String.prefix]. destruct a as [|x a']; [done|]. rewrite app_cons.
      cbn [String.prefix] in *. destruct (ascii_dec "034" "034"); [|done].
      destruct (ascii_dec x c) as [->|]; [|done]. destruct (ascii_dec c c); [by destruct a'|congruence].
  - rewrite pat_cons. apply not_true_is_false. cbn [String.prefix].
    destruct (ascii_dec "034" "034"); [|done]. intros E.
    apply prefix_token in E; [by subst|done|done].
Qed.

Lemma seek_here s : seek pat (pat +:+ s) = Some (pat +:+ s).
Proof.
  pose proof (prefix_app pat s) as E. rewrite pat_cons, app_cons in *. cbn [seek]. by rewrite E.
Qed.

Lemma seek_nothing u : avoids "034" u -> seek pat u = None.
Proof.
  intros Hu. rewrite <- (app_empty_r u), seek_skip by done. by rewrite pat_cons.
Qed.
End seeking.

Module BenchBaseline.
Local Open Scope Z_scope.

(** ** Printed numbers *)

(** The number of hundredths next to m * 2 ^ e, ties to even. *)
Definition hundredths (m : positive) (e : Z) : Z :=
  let n := Zpos m * 100 in
  if 0 <=? e then n * 2 ^ e
  else
    let d := 2 ^ (- e) in
    let q := n / d in
    match Z.compare (2 * (n mod d)) d with
    | Lt => q
    | Gt => q + 1
    | Eq => if Z.even q then q else q + 1
    end.

Definition two_digits (z : Z) : string := (if z <? 10 then "0" else "") +:+ pretty z.

(** [std::format] with "{:.2f}". *)
Definition fixed2 (x : double) : string :=
  let sign (s : bool) := if s then "-" else "" in
  match x with
  | S754_zero s => sign s +:+ "0.00"
  | S754_infinity s => sign s +:+ "inf"
  | S754_nan => "nan"
  | S754_finite s m e =>
      let q := hundredths m e in
      sign s +:+ pretty (q / 100) +:+ "." +:+ two_digits (q mod 100)
  end.

(** ** Writing *)
Definition println (s : string) : string := s +:+ nl.

Definition field (indent key val : string) : string := indent +:+ quoted key +:+ ": " +:+ val.

Definition error_pct (r : AlgoResult) : Z :=
  let total := m_completed r + m_errors r in
  if 0 <? total then Z.quot (m_errors r * 100) total else 0.

(** The object of one result; [comma] separates it from the next. *)
Definition result_text (r : AlgoResult) (comma : string) : string :=
  let item key val := field "      " key (val +:+ ",") in
  println (field "    " (m_algo r) "{") +:+
  println (item "completed" (pretty (m_completed r))) +:+
  println (item "errors" (pretty (m_errors r))) +:+
  println (item "error_pct" (pretty (error_pct r))) +:+
  println (item "throughput_per_sec" (pretty (m_throughput r))) +:+
  println (item "peak_connections" (pretty (algo_peakConnections r))) +:+
  println (item "bytes_received" (pretty (algo_bytesReceived r))) +:+
  println (item "avg_ms" (fixed2 (m_avgMs r))) +:+
  println (item "min_ms" (fixed2 (m_minMs r))) +:+
  println (item "p50_ms" (fixed2 (m_p50Ms r))) +:+
  println (item "p95_ms" (fixed2 (m_p95Ms r))) +:+
  println (item "p99_ms" (fixed2 (m_p99Ms r))) +:+
  println (field "      " "max_ms" (fixed2 (m_maxMs r))) +:+
  println ("    }" +:+ comma).

Fixpoint results_text (results : list AlgoResult) : string :=
  match results with
  | [] => ""
  | [r] => result_text r ""
  | r :: results' => result_text r "," +:+ results_text results'
  end.

(** [ts] is the formatted time of the call. *)
Definition baseline_text (cfg : BenchConfig) (ts : string) (results : list AlgoResult) : string :=
  println "{" +:+
  println (field "  " "timestamp" (quoted ts +:+ ",")) +:+
  println (field "  " "binary" (quoted (m_lbBinary cfg) +:+ ",")) +:+
  println (field "  " "concurrency" (pretty (m_concurrency cfg) +:+ ",")) +:+
  println (field "  " "requests" (pretty (m_requests cfg) +:+ ",")) +:+
  println (field "  " "services" (pretty (m_services cfg) +:+ ",")) +:+
  println (field "  " "results" "{") +:+
  results_text results +:+
  println "  }" +:+
  println "}".

Section BenchBaseline.
Context `{BenchFiles}.

Definition SaveBaseline (cfg : BenchConfig) (ts : string) (results : list AlgoResult)
    : M Files unit := fun fs =>
  match create_directories (parent_path (m_baselineFile cfg)) fs with
  | (Threw e, fs) => (Threw e, fs)
  | (Returned _, fs) =>
      let (f, fs) := open_for_writing (m_baselineFile cfg) fs in
      if negb f then (Die ("cannot write baseline to " +:+ m_baselineFile cfg), fs)
      else (Returned tt, write (m_baselineFile cfg) (baseline_text cfg ts results) fs)
  end.

(** ** Comparing *)
Definition needle : string := quoted "throughput_per_sec" +:+ ": ".

(** The drop, in percent, and the verdict on one algorithm. *)
Definition drop_of (baseline throughput : Z) : double :=
  if 0 <? baseline
  then d_mul (d_sub (d_of_Z 1) (d_div (d_of_Z throughput) (d_of_Z baseline))) (d_of_Z 100)
  else d_zero.

Definition regressed (thresholdPct baseline throughput : Z) : bool :=
  d_lt (d_of_Z thresholdPct) (drop_of baseline throughput).

(** What the text says of an algorithm, [None] where it is skipped. *)
Definition baseline_in (content algo : string) : option (outcome Z) :=
  from ← seek (quoted algo) content;
  found ← seek needle from;
  Some (stoi (take_s 10 (drop_s (String.length needle) found))).

Fixpoint compare_loop (cfg : BenchConfig) (content : string) (current : list AlgoResult)
    (allPassed : bool) : outcome bool :=
  match current with
  | [] => Returned allPassed
  | r :: current' =>
      match baseline_in content (m_algo r) with
      | None => compare_loop cfg content current' allPassed
      | Some baseline =>
          baseline ← baseline;
          compare_loop cfg content current'
            (if regressed (m_thresholdPct cfg) baseline (m_throughput r) then false
             else allPassed)
      end
  end.

Definition CompareBaseline (cfg : BenchConfig) (fs : Files) (current : list AlgoResult)
    : outcome bool :=
  match read fs (m_baselineFile cfg) with
  | None => Returned true
  | Some content => compare_loop cfg content current true
  end.

(** ** What is found again *)

(** The names of algorithms: no quote, and not the start of what follows a token. *)
Definition name_ok (a : string) : bool :=
  avoids "034" a && negb (String.prefix ":" a) && negb (String.prefix "," a) &&
  bool_decide (a <> "").

Definition keys : list string :=
  ["timestamp"; "binary"; "concurrency"; "requests"; "services"; "results"; "completed";
   "errors"; "error_pct"; "throughput_per_sec"; "peak_connections"; "bytes_received";
   "avg_ms"; "min_ms"; "p50_ms"; "p95_ms"; "p99_ms"; "max_ms"].

Lemma name_parts a : name_ok a ->
  avoids "034" a /\ negb (String.prefix ":" a) /\ negb (String.prefix "," a) /\ a <> "".
Proof.
  unfold name_ok. intros [[[H1 H2]%andb_prop_elim H3]%andb_prop_elim H4]%andb_prop_elim.
  apply bool_decide_unpack in H4. done.
Qed.

Lemma avoids_app d s t : avoids d s -> avoids d t -> avoids d (s +:+ t).
Proof. unfold avoids. rewrite every_app. intros. by apply andb_prop_intro. Qed.

(** Printed numbers hold no quote. *)
Lemma number_avoids (z : Z) : avoids "034" (pretty z).
Proof.
  destruct z as [|p|p]; [done|by apply pretty_avoids|].
  change (pretty (Zneg p)) with ("-" +:+ pretty (Zpos p)).
  apply avoids_app; [done|by apply pretty_avoids].
Qed.

Lemma fixed2_avoids x : avoids "034" (fixed2 x).
Proof.
  destruct x as [[]|[]| |sg m e]; try done. unfold fixed2, two_digits.
  repeat apply avoids_app; try apply number_avoids; try done; [by destruct sg|by case_match].
Qed.

Create HintDb quotes.
#[local] Hint Resolve avoids_app number_avoids fixed2_avoids : quotes.

Section looking.
Context (a tl : string) (Hname : name_ok a).
Abbreviation pat := (quoted a +:+ tl).

(** A line with another key is passed over. *)
Lemma seek_field ind key val s : avoids "034" ind -> avoids "034" key -> key <> a ->
  avoids "034" val -> seek pat (println (field ind key val) +:+ s) = seek pat s.
Proof.
  destruct (name_parts a Hname) as (Ha & Hc & _ & Hne). intros Hi Hk Hka Hv.
  unfold println, field. rewrite !app_assoc', seek_skip by done.
  change (": " +:+ ?x) with (String ":" (" " +:+ x)). rewrite seek_other by done.
  by rewrite !seek_skip.
Qed.

(** So is a line whose value is a quoted text. *)
Lemma seek_quoted_field ind key v s : avoids "034" ind -> avoids "034" key -> key <> a ->
  avoids "034" v -> v <> a ->
  seek pat (println (field ind key (quoted v +:+ ",")) +:+ s) = seek pat s.
Proof.
  destruct (name_parts a Hname) as (Ha & Hc & Hcomma & Hne). intros Hi Hk Hka Hv Hva.
  unfold println, field. rewrite !app_assoc', seek_skip by done.
  change (": " +:+ ?x) with (String ":" (" " +:+ x)). rewrite seek_other by done.
  rewrite seek_skip by done. change ("," +:+ ?x) with (String "," x).
  rewrite seek_other by done. by rewrite seek_skip.
Qed.

(** The lines of a result below its name. *)
Lemma seek_line u s : avoids "034" u -> seek pat (println u +:+ s) = seek pat s.
Proof. intros Hu. unfold println. by rewrite app_assoc', !seek_skip. Qed.

Lemma seek_found ind s : avoids "034" ind ->
  seek pat (ind +:+ quoted a +:+ tl +:+ s) = Some (quoted a +:+ tl +:+ s).
Proof.
  intros Hi. destruct (name_parts a Hname) as (Ha & _).
  rewrite seek_skip by done. rewrite <- !app_assoc'. by apply seek_here.
Qed.

Lemma not_key k : k ∈ keys -> a ∉ keys -> k <> a.
Proof. by intros Hk Ha ->. Qed.

(** A whole result of another algorithm. *)
Lemma seek_result r comma s : a ∉ keys -> avoids "034" (m_algo r) -> m_algo r <> a ->
  avoids "034" comma -> seek pat (result_text r comma +:+ s) = seek pat s.
Proof.
  intros Hk Hr Hne Hcomma. unfold result_text. rewrite !app_assoc'.
  rewrite !seek_field by (done || auto with quotes || (apply not_key; [|done]; set_solver)).
  apply seek_line. by auto with quotes.
Qed.
End looking.

Lemma seek_name a ind s : name_ok a -> avoids "034" ind ->
  seek (quoted a) (ind +:+ quoted a +:+ s) = Some (quoted a +:+ s).
Proof.
  intros Hn Hi. rewrite <- (app_empty_r (quoted a)) at 1. exact (seek_found a "" Hn ind s Hi).
Qed.

(** The throughput of the result whose name is found. *)
Lemma result_found r comma s : name_ok (m_algo r) -> m_algo r ∉ keys ->
  exists from rest, seek (quoted (m_algo r)) (result_text r comma +:+ s) = Some from /\
    seek needle from = Some (needle +:+ pretty (m_throughput r) +:+ "," +:+ rest).
Proof.
  intros Hn Hk. unfold result_text. rewrite !app_assoc'.
  unfold println at 1, field at 1. rewrite !app_assoc', seek_name by done.
  assert (Ht : name_ok "throughput_per_sec") by done.
  unfold needle. do 2 eexists. split; [reflexivity|].
  destruct (name_parts _ Hn) as (Ha & _).
  change (": " +:+ ?x) with (String ":" (" " +:+ x)) at 1.
  rewrite seek_other; try done; [|intros E; apply Hk; rewrite E; set_solver].
  change (" " +:+ "{" +:+ nl +:+ ?x) with ((" " +:+ "{" +:+ nl) +:+ x).
  rewrite seek_skip by done.
  rewrite !seek_field by (done || auto with quotes).
  unfold println at 1, field at 1. rewrite !app_assoc'.
  rewrite (seek_found _ ": " Ht) by done. reflexivity.
Qed.

Lemma drop_app p s : drop_s (String.length p) (p +:+ s) = s.
Proof. induction p as [|c p IH]; [by destruct s|]. by rewrite app_cons. Qed.

Lemma take_app p n s : (String.length p <= n)%nat ->
  take_s n (p +:+ s) = p +:+ take_s (n - String.length p) s.
Proof.
  revert n. induction p as [|c p IH]; intros n Hn.
  - change ("" +:+ ?x) with x. by rewrite Nat.sub_0_r.
  - cbn [String.length] in *. destruct n as [|n]; [lia|]. rewrite !app_cons. cbn [take_s].
    by rewrite IH by lia.
Qed.

Lemma pretty_go_length k x s : (x < 10 ^ N.of_nat k)%N ->
  (String.length (pretty_N_go x s) <= k + String.length s)%nat.
Proof.
  revert x s. induction k as [|k IH]; intros x s Hx.
  - assert (x = 0%N) as -> by (cbn in Hx; lia). done.
  - destruct (decide (x = 0)%N) as [->|]; [rewrite pretty_N_go_0; lia|].
    rewrite pretty_N_go_step by lia. etransitivity; [apply IH|cbn; lia].
    rewrite Nat2N.inj_succ, N.pow_succ_r' in Hx. by apply N.Div0.div_lt_upper_bound.
Qed.

(** An [int] that is not negative fits the ten characters that are read. *)
Lemma throughput_read z rest : in_int z -> 0 <= z ->
  stoi (take_s 10 (drop_s (String.length needle) (needle +:+ pretty z +:+ "," +:+ rest))) =
  Returned z.
Proof.
  intros Hz H0. rewrite drop_app, take_app.
  - apply stoi_pretty; [done|]. change ("," +:+ rest) with (String "," rest).
    by destruct (10 - String.length (pretty z))%nat.
  - destruct (decide (z = 0)) as [->|]; [cbn; lia|].
    rewrite pretty_pos by lia. etransitivity; [apply (pretty_go_length 10)|cbn; lia].
    unfold in_int in Hz. cbn in Hz |- *. lia.
Qed.

(** Results that can be written and found: their names hold no quote, their throughput
    is not negative. *)
Definition writable (o : AlgoResult) : Prop :=
  avoids "034" (m_algo o) /\ in_int (m_throughput o) /\ 0 <= m_throughput o.

#[export] Instance writable_dec o : Decision (writable o).
Proof. unfold writable. apply _. Defined.

Definition named (a : string) (results : list AlgoResult) : option AlgoResult :=
  List.find (fun o => String.eqb (m_algo o) a) results.

Lemma results_text_cons r results : results_text (r :: results) =
  result_text r (match results with [] => "" | _ => "," end) +:+ results_text results.
Proof. destruct results; cbn [results_text]; [by rewrite app_empty_r|done]. Qed.

Lemma baseline_in_results a results s : name_ok a -> a ∉ keys -> avoids "034" s ->
  Forall writable results ->
  baseline_in (results_text results +:+ s) a =
    (fun o => Returned (m_throughput o)) <$> named a results.
Proof.
  intros Hn Hk Hs. unfold baseline_in.
  induction 1 as [|o results (Ho & Hi & H0) _ IH].
  - change ("" +:+ ?x) with x. rewrite <- (app_empty_r (quoted a)).
    rewrite seek_nothing; [done|by destruct (name_parts a Hn)].
  - rewrite results_text_cons, app_assoc'. cbn [named List.find].
    destruct (String.eqb_spec (m_algo o) a) as [<-|Hne].
    + destruct (result_found o (match results with [] => "" | _ => "," end)
        (results_text results +:+ s) Hn Hk) as (from & rest & Ef & Er).
      rewrite Ef. cbn [mbind option_bind]. rewrite Er. cbn [mbind option_bind fmap option_fmap option_map].
      by rewrite throughput_read.
    + rewrite <- (app_empty_r (quoted a)), seek_result; try done; [|by destruct results].
      rewrite app_empty_r. exact IH.
Qed.

(** The names a baseline tells apart from the rest of its text. *)
Definition tells (cfg : BenchConfig) (ts a : string) : Prop :=
  name_ok a /\ a ∉ keys /\ a <> ts /\ a <> m_lbBinary cfg.

#[export] Instance tells_dec cfg ts a : Decision (tells cfg ts a).
Proof. unfold tells. apply _. Defined.

Lemma baseline_in_saved cfg ts results a : tells cfg ts a ->
  avoids "034" ts -> avoids "034" (m_lbBinary cfg) -> Forall writable results ->
  baseline_in (baseline_text cfg ts results) a =
    (fun o => Returned (m_throughput o)) <$> named a results.
Proof.
  intros (Hn & Hk & Hts & Hbin) Ht Hb Hr.
  rewrite <- (baseline_in_results a results (println "  }" +:+ println "}")) by done.
  unfold baseline_in. f_equal. unfold baseline_text. rewrite <- (app_empty_r (quoted a)).
  rewrite seek_line, !seek_quoted_field, !seek_field;
    first [done | by auto with quotes | by apply not_key; [set_solver|] | congruence].
Qed.

(** ** The verdicts *)
Definition passes (thresholdPct : Z) (old : list AlgoResult) (r : AlgoResult) : bool :=
  match named (m_algo r) old with
  | None => true
  | Some o => negb (regressed thresholdPct (m_throughput o) (m_throughput r))
  end.

Lemma compare_loop_saved cfg cfg' ts old current allPassed :
  avoids "034" ts -> avoids "034" (m_lbBinary cfg) -> Forall writable old ->
  Forall (fun r => tells cfg ts (m_algo r)) current ->
  compare_loop cfg' (baseline_text cfg ts old) current allPassed =
    Returned (allPassed && forallb (passes (m_thresholdPct cfg') old) current).
Proof.
  intros Ht Hb Ho Hc. revert allPassed.
  induction Hc as [|r current Hr _ IH]; intros allPassed; cbn [compare_loop forallb].
  - by rewrite andb_true_r.
  - rewrite baseline_in_saved by done. unfold passes at 1.
    destruct (named (m_algo r) old) as [o|]; cbn [fmap option_fmap option_map mbind outcome_bind].
    + rewrite IH. f_equal. destruct (regressed _ _ _); cbn [negb andb]; [by rewrite andb_false_r|done].
    + by rewrite IH.
Qed.

Lemma compare_saved `{!BenchFilesOk H} cfg cfg' ts old current fs fs' :
  SaveBaseline cfg ts old fs = (Returned tt, fs') -> room fs' (m_baselineFile cfg) ->
  m_baselineFile cfg' = m_baselineFile cfg ->
  avoids "034" ts -> avoids "034" (m_lbBinary cfg) -> Forall writable old ->
  Forall (fun r => tells cfg ts (m_algo r)) current ->
  CompareBaseline cfg' fs' current = Returned (forallb (passes (m_thresholdPct cfg') old) current).
Proof.
  intros Hs Hroom Hf Ht Hb Ho Hc. unfold CompareBaseline. rewrite Hf.
  unfold SaveBaseline in Hs. destruct (create_directories _ _) as [[[]|e] fs1]; [|done].
  destruct (open_for_writing _ _) as [[] fs2]; [|done]. injection Hs as <-.
  rewrite read_written by done. by erewrite compare_loop_saved by done.
Qed.

(** A throughput is not below itself. *)
Lemma not_regressed thresholdPct t : 0 <= thresholdPct -> regressed thresholdPct t t = false.
Proof.
  intros Hp. unfold regressed, drop_of. destruct (0 <? t); [|by apply d_of_Z_nonneg].
  destruct (d_div_self (d_of_Z t)) as [-> | ->].
  - change (d_mul _ _) with d_zero. by apply d_of_Z_nonneg.
  - change (d_mul _ _) with S754_nan. unfold d_lt, SFltb. by destruct (d_of_Z thresholdPct).
Qed.

Lemma named_self results r : NoDup (m_algo <$> results) -> r ∈ results ->
  named (m_algo r) results = Some r.
Proof.
  intros Hnd Hr. induction results as [|o results IH]; [by apply not_elem_of_nil in Hr|].
  rewrite fmap_cons, NoDup_cons in Hnd. destruct Hnd as [Ho Hnd]. cbn [named List.find].
  apply elem_of_cons in Hr as [->|Hr]; [by rewrite String.eqb_refl|].
  destruct (String.eqb_spec (m_algo o) (m_algo r)) as [E|_]; [|by apply IH].
  destruct Ho. rewrite E. by apply list_elem_of_fmap_2.
Qed.

Lemma compare_self `{!BenchFilesOk H} cfg ts results fs fs' :
  SaveBaseline cfg ts results fs = (Returned tt, fs') -> room fs' (m_baselineFile cfg) ->
  avoids "034" ts -> avoids "034" (m_lbBinary cfg) -> Forall writable results ->
  Forall (fun r => tells cfg ts (m_algo r)) results -> NoDup (m_algo <$> results) ->
  0 <= m_thresholdPct cfg ->
  CompareBaseline cfg fs' results = Returned true.
Proof.
  intros Hs Hroom Ht Hb Hw Hc Hnd Hp. rewrite (compare_saved cfg cfg ts results results fs fs') by done.
  f_equal. apply Is_true_eq_true, forallb_True, Forall_forall. intros r Hr. unfold passes.
  rewrite named_self by done. by rewrite not_regressed.
Qed.

(** C12: a saved baseline is read back: whatever the new results, [CompareBaseline] judges
    each by the throughput that was saved under its name, and skips the names that were
    not saved. *)
Theorem saved_baseline_compared `{!BenchFilesOk H} cfg cfg' ts old current fs fs' :
  SaveBaseline cfg ts old fs = (Returned tt, fs') -> room fs' (m_baselineFile cfg) ->
  m_baselineFile cfg' = m_baselineFile cfg ->
  avoids "034" ts -> avoids "034" (m_lbBinary cfg) -> Forall writable old ->
  Forall (fun r => tells cfg ts (m_algo r)) current ->
  CompareBaseline cfg' fs' current = Returned (forallb (passes (m_thresholdPct cfg') old) current).
Proof. apply compare_saved. Qed.

End BenchBaseline.
End BenchBaseline.
