(* ===== verification/BenchDriver.v ===== *)
(** * bench/main.cpp: the driver

    [main] parses the arguments, starts the mock services, and runs one phase per
    algorithm: the configuration file is written, the load balancer started as a child
    process, the load run against it, and the statistics taken.  Then the results are
    saved, compared, or both.

    [None] stands for a call that does not return, or whose behaviour is undefined. *)

From S2P Require Import Prelude Text Double BenchArgs BenchLoad BenchStats BenchBaseline.
Import BenchArgs BenchStats.

Module BenchDriver.
Local Open Scope Z_scope.

Definition k_lbPort : Z := 18090.
Definition k_serviceBasePort : Z := 19100.
Definition maxAttempts : nat := 100.

Section BenchDriver.
Context `{BenchFiles} (exists_ : string -> bool).
Context (sort : list double -> list double) (cast_undefined : double -> Z).

(** The files, and the load balancers that were started and not waited for. *)
Record World := mkWorld { files : Files; children : list Z }.

(** What the operating system decides in a phase: the result of [fork], whether the
    [i]-th attempt to connect succeeds, the clock, what happens to the connections. *)
Record phase_env := mkPhase {
  forked : Z;
  connects : nat -> bool;
  clock : nat -> Z;
  events : list BenchLoad.event;
  wallNs : Z                      (* t1 - t0 *)
}.

Fixpoint services_text (i : nat) (servicePorts : list Z) : string :=
  match servicePorts with
  | [] => ""
  | port :: servicePorts' =>
      BenchBaseline.println ("  - name: service-" +:+ pretty (Z.of_nat i + 1)) +:+
      BenchBaseline.println ("    ip: " +:+ quoted "127.0.0.1") +:+
      BenchBaseline.println ("    port: " +:+ pretty port) +:+
      BenchBaseline.println "    weight: 1" +:+
      services_text (S i) servicePorts'
  end.

Definition temp_text (algo : string) (lbPort : Z) (servicePorts : list Z) : string :=
  BenchBaseline.println ("name: bench-" +:+ algo) +:+
  BenchBaseline.println ("listenAddress: " +:+ quoted "127.0.0.1") +:+
  BenchBaseline.println ("listenPort: " +:+ pretty lbPort) +:+
  BenchBaseline.println ("routingAlgorithm: " +:+ quoted algo) +:+
  BenchBaseline.println "services:" +:+
  services_text 0 servicePorts +:+
  BenchBaseline.println "healthCheck:" +:+
  BenchBaseline.println "  enabled: false" +:+
  BenchBaseline.println "connection:" +:+
  BenchBaseline.println "  maxPerService: 2048" +:+
  BenchBaseline.println "  idleTimeoutMs: 5000" +:+
  BenchBaseline.println "  connectTimeoutMs: 2000".

Definition WriteTempConfig (algo : string) (lbPort : Z) (servicePorts : list Z)
    : M World string := fun w =>
  let path := "/tmp/bb-cppbench-" +:+ algo +:+ ".yaml" in
  let (f, fs) := open_for_writing path (files w) in
  if negb f then (Die ("cannot write temp config to " +:+ path), mkWorld fs (children w))
  else (Returned path, mkWorld (write path (temp_text algo lbPort servicePorts) fs) (children w)).

(** The parent's side; the child becomes [binary]. *)
Definition StartLb (e : phase_env) : M World Z := fun w =>
  if forked e <? 0 then (Die "fork failed", w)
  else (Returned (forked e), mkWorld (files w) (children w ++ [forked e])).

Definition StopLb (pid : Z) : M World unit := fun w =>
  if pid <=? 0 then (Returned tt, w)
  else (Returned tt, mkWorld (files w) (List.filter (fun c => negb (c =? pid)) (children w))).

Definition WaitPort (e : phase_env) (port : Z) : outcome unit :=
  match for_return 0 maxAttempts (fun i => if connects e i then Some tt else None) with
  | Some _ => Returned tt
  | None => Die ("port " +:+ pretty port +:+ " never opened")
  end.

(** The ports, in order; constructing a service may throw.  [listen] gives the port of
    the endpoint a service is bound to. *)
Fixpoint spawn_loop (listen : Z -> outcome Z) (i n : nat) : outcome (list Z) :=
  match n with
  | O => Returned []
  | S n' =>
      port ← listen (u16 (k_serviceBasePort + Z.of_nat i));
      ports ← spawn_loop listen (S i) n';
      Returned (port :: ports)
  end.

Definition SpawnEchoServices (listen : Z -> outcome Z) (count : Z) : outcome (list Z) :=
  if count <? 0 then Threw (Exn KLengthError "vector::reserve")
  else spawn_loop listen 0 (Z.to_nat count).

(** One algorithm. *)
Definition RunPhase (e : phase_env) (cfg : BenchConfig) (algo : string) (servicePorts : list Z)
    (w : World) : option (outcome AlgoResult * World) :=
  match (_ ← WriteTempConfig algo k_lbPort servicePorts; StartLb e) w with
  | (Threw x, w) => Some (Threw x, w)
  | (Returned lbPid, w) =>
      match WaitPort e k_lbPort with
      | Threw x => Some (Threw x, w)
      | Returned _ =>
          match BenchLoad.RunLoad (clock e) (m_requests cfg) (m_concurrency cfg) (events e) with
          | Threw x => Some (Threw x, w)
          | Returned None => None
          | Returned (Some load) =>
              let w := (StopLb lbPid w).2 in
              Some (BenchStats.ComputeStats sort cast_undefined algo load
                      (BenchLoad.to_ms (wallNs e)) (s32 (Z.of_nat (length servicePorts))), w)
          end
      end
  end.

Fixpoint phases (env : string -> phase_env) (cfg : BenchConfig) (servicePorts : list Z)
    (algos : list string) (results : list AlgoResult) (w : World)
    : option (outcome (list AlgoResult) * World) :=
  match algos with
  | [] => Some (Returned results, w)
  | algo :: algos' =>
      match RunPhase (env algo) cfg algo servicePorts w with
      | Some (Returned r, w) => phases env cfg servicePorts algos' (results ++ [r]) w
      | Some (Threw x, w) => Some (Threw x, w)
      | None => None
      end
  end.

(** The end of [main]: saving, comparing, and the exit code. *)
Definition report (cfg : BenchConfig) (ts : string) (results : list AlgoResult)
    : M Files Z := fun fs =>
  match (if m_baseline cfg then BenchBaseline.SaveBaseline cfg ts results fs
         else (Returned tt, fs)) with
  | (Threw x, fs) => (Threw x, fs)
  | (Returned _, fs) =>
      if m_compare cfg
      then
        match BenchBaseline.CompareBaseline cfg fs results with
        | Threw x => (Threw x, fs)
        | Returned passed => (Returned (if passed then 0 else 1), fs)
        end
      else (Returned 0, fs)
  end.

Definition main (env : string -> phase_env) (listen : Z -> outcome Z) (ts : string)
    (argv : list string) (w : World) : option (outcome Z * World) :=
  match ParseArgs exists_ argv with
  | Threw x => Some (Threw x, w)
  | Returned cfg =>
      match SpawnEchoServices listen (m_services cfg) with
      | Threw x => Some (Threw x, w)
      | Returned [] => None           (* front() of an empty vector *)
      | Returned servicePorts =>
          match phases env cfg servicePorts (algorithms cfg) [] w with
          | None => None
          | Some (Threw x, w) => Some (Threw x, w)
          | Some (Returned results, w) =>
              let (r, fs) := report cfg ts results (files w) in
              Some (r, mkWorld fs (children w))
          end
      end
  end.

(** ** What a phase does *)

(** [std::ranges::sort] sorts every list of numbers. *)
Definition sorts_numbers : Prop := forall l, Forall number l -> BenchStats.sorts sort l.

(** [fork] gives the parent a number that no running child has. *)
Definition fresh (e : phase_env) (w : World) : Prop := forked e <> 0 /\ forked e ∉ children w.

Lemma stop_started pid w : 0 < pid -> pid ∉ w ->
  List.filter (fun c => negb (c =? pid)) (w ++ [pid]) = w.
Proof.
  intros Hp Hn. rewrite List.filter_app. cbn. rewrite Z.eqb_refl. cbn.
  rewrite app_nil_r. apply BenchStats.filter_all, Forall_forall. intros c Hc.
  destruct (Z.eqb_spec c pid) as [->|]; done.
Qed.

Lemma ok_latencies_numbers conns : Forall BenchLoad.measured conns ->
  Forall number (BenchStats.ok_latencies conns).
Proof.
  unfold BenchStats.ok_latencies. induction 1 as [|c conns Hc _ IH]; cbn; [done|].
  destruct (BenchLoad.m_ok c); [by constructor|done].
Qed.

(** A result that accounts for every request. *)
Definition complete (cfg : BenchConfig) (algo : string) (r : AlgoResult) : Prop :=
  BenchStats.m_algo r = algo /\ m_completed r + m_errors r = m_requests cfg.

(** Where the balancer's ends, and what a phase that throws leaves behind. *)
Definition phase_post (e : phase_env) (cfg : BenchConfig) (algo : string) (w : World)
    (x : outcome AlgoResult) (w' : World) : Prop :=
  match x with
  | Returned r => complete cfg algo r /\ children w' = children w
  | Threw x =>
      (kind x = KExit /\ children w' = children w) \/
      (children w' = children w ++ [forked e] /\
       (kind x = KExit /\ (forall i, (i < maxAttempts)%nat -> connects e i = false) \/
        kind x = KLengthError /\ m_requests cfg < 0))
  end.

Lemma WaitPort_dies e port x : WaitPort e port = Threw x ->
  kind x = KExit /\ forall i, (i < maxAttempts)%nat -> connects e i = false.
Proof.
  unfold WaitPort. destruct (for_return _ _ _) as [[]|] eqn:E; [done|]. intros [= <-].
  split; [done|]. intros i Hi. rewrite for_return_None in E. specialize (E i).
  destruct (connects e i); [|done]. by discriminate E; lia.
Qed.

Lemma RunPhase_post e cfg algo servicePorts w x w' :
  sorts_numbers -> sized cfg -> fresh e w ->
  RunPhase e cfg algo servicePorts w = Some (x, w') -> phase_post e cfg algo w x w'.
Proof.
  intros Hsort (Hc & Hr & _) [H0 Hfresh]. unfold RunPhase, WriteTempConfig.
  unfold mbind, M_bind. cbv zeta.
  destruct (open_for_writing ("/tmp/bb-cppbench-" +:+ algo +:+ ".yaml") (files w)) as [[] fs];
    cbv beta iota delta [negb].
  2: { intros [= <- <-]. by left. }
  cbv iota beta. unfold StartLb. destruct (Z.ltb_spec (forked e) 0) as [|Hf].
  { intros [= <- <-]. by left. }
  cbv iota beta. destruct (WaitPort e k_lbPort) as [[]|y] eqn:Ew.
  2: { intros [= <- <-]. right. split; [done|]. left. by eapply WaitPort_dies. }
  destruct (BenchLoad.RunLoad _ _ _ _) as [[load|]|y] eqn:El; [|done|].
  - intros [= <- <-]. apply BenchLoad.RunLoad_returned in El as [El Hm]; [|done..].
    destruct (BenchStats.ComputeStats_returns sort cast_undefined algo load
      (BenchLoad.to_ms (wallNs e)) (s32 (Z.of_nat (length servicePorts)))) as (r & -> & Ha & _ & _ & Ht & _).
    { by apply Hsort, ok_latencies_numbers. }
    { unfold in_int in Hr. lia. }
    split; [split; [done|lia]|]. unfold StopLb. destruct (Z.leb_spec (forked e) 0); [lia|].
    cbn [snd children]. apply stop_started; [lia|done].
  - intros [= <- <-]. right. split; [done|]. right. unfold BenchLoad.RunLoad in El.
    destruct (Z.ltb_spec (m_requests cfg) 0); [|done]. by injection El as <-.
Qed.

(** A phase that returns has stopped the load balancer it started and accounts for
    every request; one that ends the program has not started it, or leaves it running:
    when the port never opens, or the number of requests is negative. *)
Theorem phase_outcomes e cfg algo servicePorts w x w' :
  sorts_numbers -> sized cfg -> fresh e w ->
  RunPhase e cfg algo servicePorts w = Some (x, w') -> phase_post e cfg algo w x w'.
Proof. apply RunPhase_post. Qed.

(** ** What the program does *)
Lemma phases_spec env cfg servicePorts algos results w rs w' :
  sorts_numbers -> sized cfg -> (forall algo, fresh (env algo) w) ->
  phases env cfg servicePorts algos results w = Some (Returned rs, w') ->
  children w' = children w /\ exists new, rs = results ++ new /\ Forall2 (complete cfg) algos new.
Proof.
  intros Hsort Hsz. revert results w. induction algos as [|algo algos IH]; intros results w Hf.
  - intros [= <- <-]. split; [done|]. exists []. by rewrite app_nil_r.
  - cbn [phases]. destruct (RunPhase _ _ _ _ _) as [[[r|y] w1]|] eqn:E; [|done..].
    apply RunPhase_post in E as [Hr Hw]; [|done..].
    intros E. apply IH in E as (Hw' & new & -> & Hnew).
    + split; [by rewrite Hw'|]. exists (r :: new). rewrite <- app_assoc. by split; [|constructor].
    + intros a. unfold fresh. rewrite Hw. apply Hf.
Qed.

Lemma report_code cfg ts results fs code fs' : report cfg ts results fs = (Returned code, fs') ->
  (code = 0 \/ code = 1) /\ (m_compare cfg = false -> code = 0).
Proof.
  unfold report. destruct (if m_baseline cfg then _ else _) as [[[]|y] fs1]; [|done].
  destruct (m_compare cfg).
  - destruct (BenchBaseline.CompareBaseline _ _ _) as [[]|]; [..|done]; intros [= <- <-]; by split; [tauto|].
  - intros [= <- <-]. tauto.
Qed.

(** C6: a benchmark that returns an exit code has run every algorithm it was asked for,
    once and in order, accounts for every request of each, and has waited for every load
    balancer it started; the code is 0 or 1, and 1 only with --compare. *)
Theorem main_accounts env listen ts argv w code w' :
  sorts_numbers -> (forall algo, fresh (env algo) w) ->
  main env listen ts argv w = Some (Returned code, w') ->
  exists cfg results w1, ParseArgs exists_ argv = Returned cfg /\
    Forall2 (complete cfg) (algorithms cfg) results /\
    report cfg ts results (files w1) = (Returned code, files w') /\
    children w' = children w /\
    (code = 0 \/ code = 1) /\ (m_compare cfg = false -> code = 0).
Proof.
  intros Hsort Hf. unfold main.
  pose proof (parse_loop_sized (tail argv) default) as Hsz.
  assert (Hd : sized default) by by apply (@bool_decide_unpack _ (sized_dec default)).
  specialize (Hsz Hd). destruct (ParseArgs exists_ argv) as [cfg|y] eqn:Ea; [|done].
  assert (Hcfg : sized cfg).
  { unfold ParseArgs in Ea. destruct (parse_loop _ _) as [c|]; [|done].
    cbn [mbind outcome_bind] in Ea. repeat case_match; naive_solver. }
  destruct (SpawnEchoServices listen (m_services cfg)) as [[|p ports]|y]; [done| |done].
  destruct (phases _ _ _ _ _ _) as [[[rs|y] w1]|] eqn:Ep; [|done..].
  apply phases_spec in Ep as (Hw & new & -> & Hnew); [|done..].
  destruct (report cfg ts _ (files w1)) as [r fs] eqn:Er. intros [= -> <-].
  exists cfg, new, w1. pose proof (report_code _ _ _ _ _ _ Er) as [H1 H2]. by split_and!.
Qed.

(** C33: with --baseline and --compare together the comparison passes and the exit code
    is 0, whatever the results: the baseline has just been overwritten with the results
    that are compared.  This is so if the baseline was saved in full, the threshold is
    not negative, and the file is one that the text search reads back. *)
Theorem baseline_then_compare_passes `{!BenchFilesOk H} cfg ts results fs fs' :
  m_baseline cfg = true -> m_compare cfg = true -> 0 <= m_thresholdPct cfg ->
  avoids "034" ts -> avoids "034" (m_lbBinary cfg) -> Forall BenchBaseline.writable results ->
  Forall (fun r => BenchBaseline.tells cfg ts (BenchStats.m_algo r)) results ->
  NoDup (BenchStats.m_algo <$> results) ->
  BenchBaseline.SaveBaseline cfg ts results fs = (Returned tt, fs') ->
  room fs' (m_baselineFile cfg) ->
  report cfg ts results fs = (Returned 0, fs').
Proof.
  intros Hb Hc Hp Ht Hbin Hw Htell Hnd Es Hroom. unfold report. rewrite Hb, Hc, Es.
  by rewrite (BenchBaseline.compare_self cfg ts results fs).
Qed.
End BenchDriver.
End BenchDriver.
