(* ===== verification/BenchInstances.v ===== *)
(** * The benchmark at concrete inputs

    A sorting algorithm for doubles, a disk of text files, and the theorems of the
    benchmark's files applied to concrete schedules, results and command lines. *)

From S2P Require Import Prelude Text Double Asio BenchArgs BenchLoad BenchStats BenchEcho.
From S2P Require Import BenchBaseline BenchDriver.

(** ** Sorting doubles

    A double's key orders it: by class, then by exponent, then by mantissa. *)
Module KeySort.
Local Open Scope Z_scope.

Definition key (x : double) : Z * Z * Z :=
  match x with
  | S754_infinity true => (-2, 0, 0)
  | S754_finite true m e => (-1, - e, Zneg m)
  | S754_zero _ => (0, 0, 0)
  | S754_finite false m e => (1, e, Zpos m)
  | S754_infinity false => (2, 0, 0)
  | S754_nan => (3, 0, 0)
  end.

Definition below (a b : Z * Z * Z) : Prop :=
  a.1.1 < b.1.1 \/ (a.1.1 = b.1.1 /\ (a.1.2 < b.1.2 \/ (a.1.2 = b.1.2 /\ a.2 < b.2))).

Definition in_order (x y : double) : Prop := ~ below (key y) (key x).

#[export] Instance in_order_dec x y : Decision (in_order x y).
Proof. unfold in_order, below. apply _. Defined.

#[export] Instance in_order_total : Total in_order.
Proof. intros x y. unfold in_order, below. destruct (key x) as [[a b] c], (key y) as [[a' b'] c']; cbn. lia. Qed.

#[export] Instance in_order_trans : Transitive in_order.
Proof.
  intros x y z. unfold in_order, below.
  destruct (key x) as [[a b] c], (key y) as [[a' b'] c'], (key z) as [[a'' b''] c'']; cbn. lia.
Qed.

Lemma less_below x y : d_lt x y = true -> below (key x) (key y).
Proof.
  unfold d_lt, SFltb, SFcompare, below.
  destruct x as [[]|[]| |[] m e], y as [[]|[]| |[] m' e']; cbn; try done; try lia;
    destruct (Z.compare_spec e e'); try done; try lia;
    change (Pos.compare_cont Eq m m') with (Pos.compare m m');
    destruct (Pos.compare_spec m m'); cbn; try done; lia.
Qed.

Definition sort : list double -> list double := merge_sort in_order.

Lemma ordered l i j x y : StronglySorted in_order l -> (i < j)%nat ->
  l !! i = Some x -> l !! j = Some y -> in_order x y.
Proof.
  intros Hs. revert i j. induction Hs as [|z l _ IH Hz]; intros i j; [done|].
  destruct j as [|j]; [lia|]. destruct i as [|i]; cbn; intros Hij Hi Hj.
  - injection Hi as ->. rewrite Forall_forall in Hz. by eapply Hz, list_elem_of_lookup_2.
  - by apply (IH i j); [lia|..].
Qed.

Lemma sort_sorts l : BenchStats.sorts sort l.
Proof.
  split; [apply merge_sort_Permutation|]. intros i j x y Hij Hi Hj.
  destruct (d_lt y x) eqn:E; [|done]. apply less_below in E. exfalso. revert E.
  destruct (decide (i = j)) as [->|Hne].
  - rewrite Hi in Hj. injection Hj as ->. unfold below. lia.
  - apply (ordered (sort l) i j); [|lia|done..]. apply (StronglySorted_merge_sort in_order).
Qed.
End KeySort.

(** ** A disk of text files *)
Module TextFiles.

(** The path before the last slash. *)
Fixpoint dir_of (path : string) : string :=
  match path with
  | "" => ""
  | String c path' => if avoids "/" path' then "" else String c (dir_of path')
  end.

#[export] Instance text_files : BenchFiles := {|
  Files := gmap string string;
  parent_path := dir_of;
  create_directories d fs :=
    if bool_decide (d = "") then (Threw (Exn KFilesystem "cannot create directories"), fs)
    else (Returned tt, fs);
  open_for_writing p fs := (true, <[p := ""]> fs);
  write p t fs := <[p := t]> fs;
  read fs p := fs !! p
|}.

#[export] Instance text_files_ok : BenchFilesOk text_files.
Proof.
  refine {| room _ _ := True |}. intros p t fs _. apply lookup_insert_eq.
Defined.
End TextFiles.

Module BenchWitnesses.
Import BenchArgs TextFiles.
Local Open Scope Z_scope.

(** A clock of one reading per millisecond and a half. *)
Definition clock (n : nat) : Z := 1500000 * Z.of_nat n.

Definition at_ (k : nat) (ec : error_code) (n : Z) : BenchLoad.event := BenchLoad.Complete k ec n.

(** Two connections, one at a time: one is answered, one refused. *)
Definition two : list BenchLoad.event :=
  [at_ 0 success 0; at_ 1 success 0; at_ 1 success 0; at_ 1 success 211; at_ 1 BenchLoad.eof 0;
   at_ 0 operation_aborted 0; at_ 1 (failure "Connection refused") 0].

Definition after_two : BenchLoad.LoadContext := BenchLoad.run clock two (BenchLoad.prepared 2 1).

Example load_accounting_witness :
  BenchLoad.m_launched after_two = BenchLoad.m_done after_two + BenchLoad.m_inflight after_two /\
  BenchLoad.m_bytesReceived after_two = 211.
Proof.
  split; [|by vm_compute].
  apply (BenchLoad.load_accounting clock 2 1 two); by apply (bool_decide_unpack (in_s 32 _)).
Defined.

Example load_stops_complete_witness :
  Z.of_nat (length (BenchLoad.m_results after_two)) = 2.
Proof.
  eapply (BenchLoad.load_stops_complete clock 2 1 two); try (by apply (bool_decide_unpack (in_s 32 _)));
    [lia|lia|by vm_compute].
Defined.

Example load_terminates_witness :
  Z.of_nat (BenchLoad.progress clock two (BenchLoad.prepared 2 1)) <= 9.
Proof.
  apply (BenchLoad.load_terminates clock 2 1 two); by apply (bool_decide_unpack (in_s 32 _)).
Defined.

Example load_hangs_witness : BenchLoad.RunLoad clock 5 0 two = Returned None.
Proof.
  apply (BenchLoad.load_hangs clock 5 0 two); try (by apply (bool_decide_unpack (in_s 32 _))).
  by right.
Defined.

Definition no_cast (x : double) : Z := 0.

Definition load : BenchLoad.LoadResult :=
  BenchLoad.mkLoad [BenchLoad.mkResult true (d_of_Z 7) 10; BenchLoad.mkResult false (d_of_Z 9) 0;
                    BenchLoad.mkResult true (d_of_Z 2) 10] 1 20.

Example stats_of_the_run_witness :
  exists r, BenchStats.ComputeStats KeySort.sort no_cast "p2c" load (d_of_Z 20) 1 = Returned r /\
    BenchStats.m_completed r = 2 /\ BenchStats.m_completed r + BenchStats.m_errors r = 3.
Proof.
  destruct (BenchStats.stats_of_the_run KeySort.sort no_cast "p2c" load (d_of_Z 20) 1)
    as (r & E & Hc & Ht & _); [apply KeySort.sort_sorts|done|done|].
  exists r. by split_and!.
Defined.

(** ** The driver *)
Definition cfg : BenchConfig :=
  mkBench "build/lb" "p2c" 1 1 1 15 0 true true "bench/baseline.json".

Example args_roundtrip_witness : ParseArgs (fun _ => true) ("bench" :: args_of cfg) = Returned cfg.
Proof.
  apply args_roundtrip; [by apply (@bool_decide_unpack _ (sized_dec cfg))|done..].
Defined.

Definition one : list BenchLoad.event :=
  [at_ 0 success 0; at_ 1 success 0; at_ 1 success 0; at_ 1 success 211; at_ 1 BenchLoad.eof 0].

Definition env : BenchDriver.phase_env := BenchDriver.mkPhase 4711 (fun i => (3 <=? i)%nat) clock one 9000000.
Definition idle : BenchDriver.World := BenchDriver.mkWorld ∅ [].

Lemma sorts_numbers : BenchDriver.sorts_numbers KeySort.sort.
Proof. intros l _. apply KeySort.sort_sorts. Qed.

(** The balancer that never opens its port is left behind. *)
Definition deaf : BenchDriver.phase_env := BenchDriver.mkPhase 4711 (fun _ => false) clock one 0.

Definition after_deaf : option (outcome BenchStats.AlgoResult * BenchDriver.World) :=
  BenchDriver.RunPhase KeySort.sort no_cast deaf cfg "p2c" [19100] idle.

Definition gone : outcome BenchStats.AlgoResult := Die "port 18090 never opened".

(** The state after a call; nothing is said of a call that does not return. *)
Definition world_of {A} (r : outcome A) (x : option (outcome A * BenchDriver.World))
    : BenchDriver.World := (from_option id (r, idle) x).2.

Example phase_outcomes_witness :
  BenchDriver.phase_post deaf cfg "p2c" idle gone (world_of gone after_deaf).
Proof.
  apply (BenchDriver.phase_outcomes KeySort.sort no_cast deaf cfg "p2c" [19100] idle).
  - apply sorts_numbers.
  - by apply (@bool_decide_unpack _ (sized_dec cfg)).
  - split; [done|apply not_elem_of_nil].
  - apply (settled_call after_deaf). vm_compute. reflexivity.
Defined.

Abbreviation whole :=
  (BenchDriver.main (fun _ => true) KeySort.sort no_cast (fun _ => env) Returned "20250101_120000"
    ("bench" :: args_of cfg) idle).

Example main_accounts_witness : BenchDriver.children (world_of (Returned 0) whole) = [].
Proof.
  destruct (BenchDriver.main_accounts (fun _ => true) KeySort.sort no_cast (fun _ => env) Returned
    "20250101_120000" ("bench" :: args_of cfg) idle 0 (world_of (Returned 0) whole))
    as (c & rs & w1 & _ & _ & _ & Hw & _).
  - apply sorts_numbers.
  - split; [done|apply not_elem_of_nil].
  - apply (settled_call whole (Returned 0, idle) (Returned 0)).
    vm_compute. reflexivity.
  - exact Hw.
Defined.

Definition results : list BenchStats.AlgoResult :=
  [BenchStats.mkAlgo "p2c" 1 0 111 1 1 211 (d_of_Z 6) (d_of_Z 6) (d_of_Z 6) (d_of_Z 6) (d_of_Z 6)
     (d_of_Z 6)].
Definition saved : outcome unit * Files := BenchBaseline.SaveBaseline cfg "20250101_120000" results ∅.

Example baseline_then_compare_passes_witness :
  BenchDriver.report cfg "20250101_120000" results ∅ = (Returned 0, saved.2).
Proof.
  apply (BenchDriver.baseline_then_compare_passes cfg "20250101_120000" results ∅ saved.2);
    [reflexivity|reflexivity|done|exact I|exact I| | |apply NoDup_singleton| |exact I].
  - constructor; [|done]. by apply (@bool_decide_unpack _ (BenchBaseline.writable_dec _)).
  - constructor; [|done]. by apply (@bool_decide_unpack _ (BenchBaseline.tells_dec _ _ _)).
  - change (saved = (Returned tt, saved.2)). apply settled. by vm_compute.
Defined.

(** A later run with a fifth of the throughput is told apart from the saved one. *)
Definition slower : list BenchStats.AlgoResult :=
  [BenchStats.mkAlgo "p2c" 1 0 22 1 1 211 (d_of_Z 6) (d_of_Z 6) (d_of_Z 6) (d_of_Z 6) (d_of_Z 6)
     (d_of_Z 6)].
Example saved_baseline_compared_witness :
  BenchBaseline.CompareBaseline cfg saved.2 slower = Returned false.
Proof.
  rewrite (BenchBaseline.saved_baseline_compared cfg cfg "20250101_120000" results slower ∅ saved.2);
    [by vm_compute| |exact I|reflexivity|exact I|exact I| |].
  - change (saved = (Returned tt, saved.2)). apply settled. by vm_compute.
  - constructor; [|done]. by apply (@bool_decide_unpack _ (BenchBaseline.writable_dec _)).
  - constructor; [|done]. by apply (@bool_decide_unpack _ (BenchBaseline.tells_dec _ _ _)).
Defined.
End BenchWitnesses.
